(* ===== verification/_CoqProject ===== *)
-Q . S2P
Prelude.v
GoStrings.v
GoTime.v
PodRes.v
Filepath.v
Middleware.v
Counters.v
SysInfo.v
Metrics.v
MetricsServer.v
Events.v
ResourceMonitor.v
MonitorProps.v
MonitorRefresh.v
PodReadiness.v
NRTUpdater.v
UpdaterProps.v
Observer.v
GoFlag.v
ConfigArgs.v
ConfigProps.v
Config.v
ConfigLoad.v
ConfigTyped.v
PfpDump.v
PodResClient.v
Main.v
MainProps.v
System.v
SystemProps.v
SystemMonitor.v
Pipeline.v
SystemMain.v
Shutdown.v
NRTStress.v
