(* ===== verification/Prelude.v ===== *)
(** * Resource Topology Exporter: a verification library

    The exporter is a daemon that runs on every node of a Kubernetes cluster.
    It asks the kubelet which resources are allocatable and which pods hold
    them, computes what is available on each NUMA node, and publishes the
    result as the node's NodeResourceTopology object.

    ** The program and its parts

    [main] loads the configuration, connects to the kubelet and to the API
    server, and calls [Execute], which starts four loops:

    - an event source (a timer and a notification file, rate-limited) sends
      wake-ups;
    - the resource observer answers each wake-up with a scan of the resource
      monitor, and hands an info with the zones to the updater;
    - the updater writes the info to the API server, as a patch or an update;
    - the condition injector shows on the exporter's own pod whether the two
      succeed.

    The monitor reaches the kubelet through a stack of clients that hide
    excluded pods, terminal pods and the CPUs of the shared pool.

    ** The files

    Foundations: [Prelude] (outcomes of Go calls, 64-bit integers, iteration
    over Go maps in any order, shared lemmas and automation), [GoStrings]
    ([strings], [strconv], [fmt]), [GoTime] ([time.Duration]), [Filepath]
    ([path/filepath]), [GoFlag] ([flag], [time.ParseDuration]).  They hold the
    parts of Go's standard library that the program's behaviour rests on.

    Components, each with the source it models under [src/]:
    - [PodRes]: the podresources messages and client interface, and the
      filters of [pkg/podres/filter];
    - [Middleware]: [pkg/podres/middleware] (Modules [PodExclude],
      [TerminalPods], [SharedCPUs]) and their composition (Module [Stack]);
    - [PodResClient]: [pkg/podres/client.go], [pkg/podres/fake.go],
      [pkg/podres/proxy] and [cmd/podresources-proxy];
    - [Counters]: the pure accounting of [pkg/resourcemonitor];
    - [SysInfo]: [pkg/sysinfo], memory and hugepages of the NUMA nodes;
    - [Metrics], [MetricsServer]: [pkg/metrics] and [pkg/metrics/server];
    - [Events]: [pkg/notification], [pkg/ratelimiter] (Module [RateLimiter])
      and [createEventSource];
    - [ResourceMonitor]: the monitor of [pkg/resourcemonitor], its
      construction, refreshes, scans and fingerprints;
    - [PodReadiness]: [pkg/podreadiness];
    - [NRTUpdater]: [pkg/nrtupdater] and [pkg/k8sannotations];
    - [Observer]: the observer of [pkg/resourcetopologyexporter];
    - [ConfigArgs], [Config]: [pkg/config] and [pkg/kloglevel];
    - [PfpDump]: [pkg/pfpdump];
    - [Main]: [Execute] of [pkg/resourcetopologyexporter],
      [cmd/resource-topology-exporter], [pkg/k8shelpers], [pkg/kubeconf],
      [pkg/version];
    - [System]: the goroutines [Execute] starts, and the callback of the node
      informer, as a labelled transition system over their channels;
    - [Pipeline]: [Stop] of the observer and of the updater, a restriction of
      [System];
    - [Shutdown]: [Stop] and [Wait] of the event sources;
    - [NRTStress]: [pkg/nrtupdater/fake] and [tools/nrtstress].

    Theorems on a component that need room have a file of their own:
    [MonitorProps], [MonitorRefresh], [UpdaterProps], [ConfigProps],
    [ConfigLoad], [ConfigTyped], [MainProps], [SystemProps],
    [SystemMonitor], [SystemMain].

    ** How the code is represented

    A structure is a [Record] with the fields of the source, and a method a
    function that takes and returns it.  A call ends in an [outcome]: a value,
    an error or a run-time panic; functions that write before they fail return
    the written state too.  A process may also exit ([run], in [GoFlag]).  A
    loop over channels is a function of the inputs in the order the [select]
    takes them.  Goroutines that share channels are transition systems, and
    their theorems hold for every interleaving: the rate limiter
    ([RateLimiter.step]), the stopping of a source ([Shutdown.stopExec]) and
    the running exporter ([System.exec]).  There an action is a piece of work
    of one goroutine or a rendezvous of two, and the functions of the
    components do the work; what was scanned, handed over, written and
    reported is kept beside the state.  Machine integers are [Z]
    with their wrap-around written out ([wrap64]).  Go ranges over a map in an
    unspecified order: definitions that do so take the order from the class
    [MapOrder], and the theorems hold for each.

    Code outside the repository is a class, with the laws the program relies
    on in a class of their own: the kubelet ([PodResourcesListerClient]), the
    API server ([NRTClient], [NRTServer], [PodClient], [PodServer]), JSON merge
    patches ([JSONLib]), the fingerprint library ([PodFingerprintLib]), CPU
    sets ([CPUSetLib]), file systems ([ConfigFS], [NotifyFS], [FakeFS]), YAML
    ([YAMLLib]), klog ([KlogLib]), TLS names ([TLSFlagLib]), client-go
    ([KubeClients]), random numbers ([RandLib]).  Each class with laws has an
    instance that satisfies them, on which the examples run.

    ** What the theorems show

    - The program: [running_end_to_end] follows a run from the command line to
      the object on the API server, whatever the goroutines do in between;
      [readiness_truthful] says that the pod's conditions tell how it went;
      [system_history] what was scanned, handed over, written and reported;
      [system_progress] that no goroutine waits for ever;
      [scan_during_refresh] what a scan finds at any moment.  [main_wired] reads
      every component of the running program off the loaded arguments.
    - The scan: [Scan_values], [used_correct], [Scan_resources],
      [Scan_deterministic], [counters_are_sums] and [cpu_counter_bounded] say
      what is reported as available and why; [updateNodeResources_correct] and
      [monitor_history] what capacity and allocatable are, over any history;
      [fingerprint_stable] what the fingerprint depends on.
    - What the kubelet's answers go through: [wrapClient_List],
      [FilterListResponse_cpus], [ShouldExclude_correct], [Verify_correct],
      [ParseEndpoint_path], [proxy_transparent].
    - Publishing: [Update_refines] and [Run_refines] refine the abstract
      "replace the object by what the scan says"; [noPublish_silent].
    - Waking up and reporting: [observe_correct], [limiter_history],
      [limiter_drains], [limiter_terminates], [createEventSource_wakes],
      [createEventSource_preserves], [Inject_published], [Inject_frame];
      [stop_completes] and [stop_order_matters] on stopping a source,
      [pipeline_stops] on stopping the observer and the updater.
    - Configuration: [LoadArgs_precedence], [LoadArgs_isolated],
      [LoadArgs_typed], [dispatchConfObj_correct], [Setup_secure].
    - Around it: [dump_atomic], [GetMemoryResourceCounters_correct],
      [stress_publishes], round trips of the texts the program parses, and the
      crashes and surprises the model exhibits (the theorems ending in
      [_panic], [oneshot_keeps_running], [refresh_failure]).

    ** Bounds and fuel

    Two functions recurse on fuel, and both are given enough:
    [Filepath.Match], with the length of the pattern ([Match_total]: its
    answer is never the exhausted one), and the terms of
    [GoFlag.ParseDuration], with the length of the text
    ([ConfigTyped.parse_terms_fuel]: more makes no difference).  Everything
    else is structural recursion.

    ** Not modelled

    - Log messages, except where the program prints its configuration.
    - The pacing of [go.uber.org/ratelimit]: when an event is sent is not
      modelled, only that it is, and in which order.
    - Memory shared without a lock: a scan and each part of a refresh of the
      monitor are one action each, though the code lets them overlap.
    - Client-go's informers beyond what they synchronised and list; gRPC
      below the calls of a client.
    - The JSON and YAML encoders of the arguments, arguments of [main];
      [pkg/dump].
    - [Close] of an event source, which closes the watcher of a library.
    - Case mapping and white space outside ASCII.
    - The generated mock, the release tool and the end-to-end tests. *)

From stdpp Require Export base gmap strings list pretty fin_maps sorting.
From Stdlib Require Export ZArith Lia.

(** ** Scopes and notations *)

Declare Scope go_scope.
Delimit Scope go_scope with go.
#[global] Open Scope Z_scope.
#[global] Open Scope go_scope.

(** ** Errors and outcomes

    A Go [error] is the message given to [errors.New] or [fmt.Errorf], or a
    message wrapping ([%w]) another error.  [outcome] is what a call ends in:
    a value, an error, or a run-time panic (nil dereference, assignment to a
    nil map, slice index out of range). *)

Inductive error : Type :=
| Errorf (msg : string)
| Wrapf (msg : string) (cause : error).

#[global] Instance error_eq_dec : EqDecision error.
Proof. solve_decision. Defined.

(** [errors.Is]: the target is somewhere on the [Unwrap] chain. *)
Fixpoint errors_Is (err target : error) : bool :=
  bool_decide (err = target) ||
  match err with
  | Errorf _ => false
  | Wrapf _ cause => errors_Is cause target
  end.

(** [err != nil] for the calls whose two results are kept. *)
Definition non_nil {E} (err : option E) : bool :=
  match err with Some _ => true | None => false end.

Inductive outcome (A : Type) : Type :=
| Ok (a : A)
| Err (e : error)
| Panic (why : string).
Arguments Ok {A} a.
Arguments Err {A} e.
Arguments Panic {A} why.

#[global] Instance outcome_eq_dec `{EqDecision A} : EqDecision (outcome A).
Proof. solve_decision. Defined.

Definition obind {A B} (x : outcome A) (k : A → outcome B) : outcome B :=
  match x with
  | Ok a => k a
  | Err e => Err e
  | Panic w => Panic w
  end.

Definition omap_err {A} (f : error → error) (x : outcome A) : outcome A :=
  match x with
  | Err e => Err (f e)
  | _ => x
  end.

Notation "'let!' x := c1 'in' c2" := (obind c1 (λ x, c2))
  (at level 10, x pattern, c1 at level 100, c2 at level 200,
   format "'[v' 'let!'  x  :=  c1  'in' '/' c2 ']'") : go_scope.

Definition is_ok {A} (x : outcome A) : bool :=
  match x with Ok _ => true | _ => false end.

Lemma obind_Ok_inv {A B} (x : outcome A) (k : A → outcome B) b :
  obind x k = Ok b → ∃ a, x = Ok a ∧ k a = Ok b.
Proof. destruct x; simpl; naive_solver. Qed.

(** ** 64-bit integers

    [int], [int64] and [time.Duration] are two's complement 64-bit integers
    on the platforms the exporter is built for. *)

Definition int64_min : Z := - 2 ^ 63.
Definition int64_max : Z := 2 ^ 63 - 1.
Definition uint64_max : Z := 2 ^ 64 - 1.

Definition wrap64 (z : Z) : Z := (z + 2 ^ 63) `mod` 2 ^ 64 - 2 ^ 63.

Definition int64_ok (z : Z) : Prop := int64_min ≤ z ≤ int64_max.

Ltac unfold_int64 :=
  unfold int64_ok, int64_min, int64_max, uint64_max, wrap64 in *.

Lemma wrap64_ok z : int64_ok (wrap64 z).
Proof.
  unfold_int64. pose proof (Z.mod_pos_bound (z + 2 ^ 63) (2 ^ 64)). lia.
Qed.

Lemma wrap64_id z : int64_ok z → wrap64 z = z.
Proof. intros H. unfold_int64. rewrite Z.mod_small; lia. Qed.

Lemma wrap64_wrap z : wrap64 (wrap64 z) = wrap64 z.
Proof. apply wrap64_id, wrap64_ok. Qed.

Lemma wrap64_add_l a b : wrap64 (wrap64 a + b) = wrap64 (a + b).
Proof.
  unfold wrap64. f_equal.
  replace ((a + 2 ^ 63) `mod` 2 ^ 64 - 2 ^ 63 + b + 2 ^ 63)
    with ((a + 2 ^ 63) `mod` 2 ^ 64 + b) by lia.
  rewrite Zplus_mod_idemp_l. f_equal; lia.
Qed.

Lemma wrap64_add_r a b : wrap64 (a + wrap64 b) = wrap64 (a + b).
Proof. rewrite Z.add_comm, wrap64_add_l. f_equal; lia. Qed.

(** ** Sums *)

Definition Zsum (l : list Z) : Z := foldr Z.add 0 l.

Lemma Zsum_app l1 l2 : Zsum (l1 ++ l2) = Zsum l1 + Zsum l2.
Proof. induction l1; simpl; [done|]. unfold Zsum in *; simpl. lia. Qed.

Lemma Zsum_cons x l : Zsum (x :: l) = x + Zsum l.
Proof. done. Qed.

#[global] Instance Zsum_perm : Proper ((≡ₚ) ==> (=)) Zsum.
Proof. intros l1 l2 H. induction H; rewrite ?Zsum_cons in *; lia. Qed.

Lemma Zsum_nonneg l : Forall (λ z, 0 ≤ z) l → 0 ≤ Zsum l.
Proof. induction 1; [done|]. rewrite Zsum_cons. lia. Qed.

Lemma Zsum_concat (ls : list (list Z)) : Zsum (concat ls) = Zsum (Zsum <$> ls).
Proof.
  induction ls as [|l ls IH]; [done|].
  by rewrite fmap_cons, Zsum_cons, <-IH; simpl; rewrite Zsum_app.
Qed.

Lemma Zsum_map_const {A} (l : list A) (c : Z) :
  Zsum ((λ _, c) <$> l) = Z.of_nat (length l) * c.
Proof.
  induction l as [|x l IH]; [done|]. rewrite fmap_cons, Zsum_cons, IH. simpl. lia.
Qed.

Lemma Zsum_fmap_add {A} (f g : A → Z) (l : list A) :
  Zsum ((λ x, f x + g x) <$> l) = Zsum (f <$> l) + Zsum (g <$> l).
Proof.
  induction l as [|x l IH]; [done|]. rewrite !fmap_cons, !Zsum_cons, IH. lia.
Qed.

Lemma Zsum_fmap_ext {A} (f g : A → Z) (l : list A) :
  (∀ x, x ∈ l → f x = g x) → Zsum (f <$> l) = Zsum (g <$> l).
Proof.
  intros H. f_equal. apply list_fmap_ext. intros i x Hi.
  apply H. by eapply list_elem_of_lookup_2.
Qed.

Lemma Zsum_fmap_le {A} (f g : A → Z) (l : list A) :
  (∀ x, x ∈ l → f x ≤ g x) → Zsum (f <$> l) ≤ Zsum (g <$> l).
Proof.
  induction l as [|x l IH]; intros H; [done|].
  rewrite !fmap_cons, !Zsum_cons.
  pose proof (H x ltac:(set_solver)).
  assert (Zsum (f <$> l) ≤ Zsum (g <$> l)) by (apply IH; set_solver). lia.
Qed.

(** A loop that accumulates with wrap-around computes the wrapped sum. *)
Lemma foldl_wrap64 {A} (f : A → Z) (l : list A) (a : Z) :
  foldl (λ acc x, wrap64 (acc + f x)) (wrap64 a) l = wrap64 (a + Zsum (f <$> l)).
Proof.
  revert a. induction l as [|x l IH]; intros a; cbn [foldl].
  - by rewrite fmap_nil, Z.add_0_r.
  - rewrite wrap64_add_l, IH, fmap_cons, Zsum_cons. f_equal. lia.
Qed.

(** ** Map iteration

    The order of a [range] over a Go map is unspecified.  Every definition
    that ranges over a map takes the order from [MapOrder]; the theorems hold
    for every order. *)

Class MapOrder := {
  range : ∀ {K} `{Countable K} {V : Type}, gmap K V → list (K * V);
  range_perm : ∀ {K} `{Countable K} {V : Type} (m : gmap K V),
    range m ≡ₚ map_to_list m
}.

Definition canonical_order : MapOrder :=
  {| range := λ K _ _ V, map_to_list;
     range_perm := λ K _ _ V m, reflexivity _ |}.

(** The other way round. *)
Definition reverse_order : MapOrder :=
  {| range := λ K _ _ V m, reverse (map_to_list m);
     range_perm := λ K _ _ V m, reverse_Permutation _ |}.

Section range.
Context `{MapOrder} `{Countable K} {V : Type}.
Implicit Types m : gmap K V.

Lemma elem_of_range m k v : (k, v) ∈ range m ↔ m !! k = Some v.
Proof. by rewrite range_perm, elem_of_map_to_list. Qed.

Lemma NoDup_range_keys m : NoDup ((range m).*1).
Proof. rewrite range_perm. apply NoDup_fst_map_to_list. Qed.

Lemma elem_of_range_keys m k : k ∈ (range m).*1 ↔ is_Some (m !! k).
Proof.
  rewrite list_elem_of_fmap. split.
  - intros ([k' v] & -> & Hin). rewrite elem_of_range in Hin. eauto.
  - intros [v Hv]. exists (k, v). by rewrite elem_of_range.
Qed.
End range.

(** Copying a map entry by entry copies the map. *)
Section copy.
Context `{Countable K} {V W : Type} (f : V → W).

Lemma foldl_insert_lookup (l : list (K * V)) (m : gmap K W) k :
  NoDup (l.*1) →
  foldl (λ m (kv : K * V), <[kv.1 := f kv.2]> m) m l !! k =
  match (list_to_map l : gmap K V) !! k with Some v => Some (f v) | None => m !! k end.
Proof.
  revert m. induction l as [|[k' v] l IH]; intros m Hnd; [done|].
  rewrite fmap_cons, NoDup_cons in Hnd. destruct Hnd as [Hk' Hnd].
  cbn [foldl]. rewrite IH by done. simpl in *.
  destruct (decide (k' = k)) as [->|Hne].
  - rewrite !lookup_insert_eq. by rewrite (not_elem_of_list_to_map_1 l k).
  - by rewrite !lookup_insert_ne.
Qed.

Lemma foldl_insert_range `{MapOrder} (g : gmap K V) :
  foldl (λ m (kv : K * V), <[kv.1 := f kv.2]> m) ∅ (range g) = f <$> g.
Proof.
  apply map_eq. intros k. rewrite foldl_insert_lookup by apply NoDup_range_keys.
  rewrite lookup_fmap, lookup_empty.
  rewrite (list_to_map_proper (range g) (map_to_list g)), list_to_map_to_list.
  - by destruct (g !! k).
  - apply NoDup_range_keys.
  - apply range_perm.
Qed.
End copy.

(** ** Two-level maps *)

Definition lookup2 {V} (m : gmap Z (gmap string V)) (n : Z) (r : string) : option V :=
  m !! n ≫= λ rc, rc !! r.

(** ** Automation *)

Create HintDb rte discriminated.
#[export] Hint Resolve wrap64_ok : rte.
Create Rewrite HintDb rte.
#[export] Hint Rewrite @Zsum_app Zsum_cons : rte.

Ltac destruct_outcomes :=
  repeat match goal with
  | H : obind _ _ = Ok _ |- _ =>
      apply obind_Ok_inv in H; destruct H as (? & ? & ?)
  | H : Ok _ = Ok _ |- _ => injection H as H; subst
  end.

(** ** Sublists *)

Lemma sublist_full {A} (l1 l2 : list A) :
  l1 `sublist_of` l2 → (length l2 ≤ length l1)%nat → l1 = l2.
Proof.
  induction 1 as [|x l1 l2 _ IH|x l1 l2 Hs _]; simpl; intros Hl; [done|f_equal; apply IH; lia|].
  apply sublist_length in Hs. lia.
Qed.

Lemma filter_all {A} (P : A → Prop) `{!∀ x, Decision (P x)} (l : list A) :
  Forall P l → base.filter P l = l.
Proof. induction 1 as [|x l Hx _ IH]; [done|]. by rewrite filter_cons_True, IH. Qed.
