(* ===== verification/GoStrings.v ===== *)
(** * The parts of Go's [strings], [strconv] and [fmt] the exporter uses

    Go strings are byte sequences; here a [string] is a sequence of 8-bit
    characters.  Case mapping and white space are those of the ASCII range. *)

From S2P Require Import Prelude.
From Stdlib Require Import Ascii.

(** ** [strings] *)

Definition HasPrefix (s prefix : string) : bool := String.prefix prefix s.

Fixpoint Contains (s sub : string) : bool :=
  HasPrefix s sub ||
  match s with
  | "" => false
  | String _ s' => Contains s' sub
  end.

(** [strings.Split] by a one-byte separator: never empty. *)
Fixpoint Split (s : string) (sep : ascii) : list string :=
  match s with
  | "" => [""]
  | String c s' =>
      if Ascii.eqb c sep then "" :: Split s' sep
      else match Split s' sep with
           | w :: ws => String c w :: ws
           | [] => [String c ""]
           end
  end.

Fixpoint Join (elems : list string) (sep : string) : string :=
  match elems with
  | [] => ""
  | [e] => e
  | e :: rest => e +:+ sep +:+ Join rest sep
  end.

(** Trimming by a predicate on the bytes to cut. *)
Fixpoint TrimLeftFunc (cut : ascii → bool) (s : string) : string :=
  match s with
  | "" => ""
  | String c s' => if cut c then TrimLeftFunc cut s' else s
  end.

Fixpoint TrimRightFunc (cut : ascii → bool) (s : string) : string :=
  match s with
  | "" => ""
  | String c s' =>
      match TrimRightFunc cut s' with
      | "" => if cut c then "" else String c ""
      | r => String c r
      end
  end.

Definition TrimFunc (cut : ascii → bool) (s : string) : string :=
  TrimRightFunc cut (TrimLeftFunc cut s).

Definition TrimSpace (s : string) : string := TrimFunc Ascii.is_space s.

Fixpoint string_mem (c : ascii) (cutset : string) : bool :=
  match cutset with
  | "" => false
  | String d rest => Ascii.eqb c d || string_mem c rest
  end.

Definition Trim (s cutset : string) : string :=
  TrimFunc (λ c, string_mem c cutset) s.

Definition lower_ascii (c : ascii) : ascii :=
  let n := nat_of_ascii c in
  if (65 <=? n)%nat && (n <=? 90)%nat then ascii_of_nat (n + 32) else c.

Fixpoint ToLower (s : string) : string :=
  match s with
  | "" => ""
  | String c s' => String (lower_ascii c) (ToLower s')
  end.

(** Slicing [s[n:]]. *)
Fixpoint string_drop (n : nat) (s : string) : string :=
  match n, s with
  | S n', String _ s' => string_drop n' s'
  | _, _ => s
  end.

Lemma string_drop_length n s :
  String.length (string_drop n s) = (String.length s - n)%nat.
Proof. revert s. induction n as [|n IH]; intros [|c s]; simpl; try lia. apply IH. Qed.

Definition newline : string := String "010" "".

(** ** [strconv.ParseInt] in base 10, 64 bits

    Both results are kept: a range error comes with the saturated value, a
    syntax error with 0. *)

Inductive NumErr := ErrSyntax | ErrRange.

#[global] Instance NumErr_eq_dec : EqDecision NumErr.
Proof. solve_decision. Defined.

Definition digit_val (c : ascii) : option Z :=
  let k := Z.of_N (N_of_ascii c) - 48 in
  if (0 <=? k) && (k <=? 9) then Some k else None.

Definition uint_cutoff : Z := uint64_max / 10 + 1.

Fixpoint parse_uint_loop (s : string) (n : Z) : Z * option NumErr :=
  match s with
  | "" => (n, None)
  | String c s' =>
      match digit_val c with
      | None => (0, Some ErrSyntax)
      | Some d =>
          if uint_cutoff <=? n then (uint64_max, Some ErrRange)
          else let n1 := n * 10 + d in
               if uint64_max <? n1 then (uint64_max, Some ErrRange)
               else parse_uint_loop s' n1
      end
  end.

Definition ParseUint (s : string) : Z * option NumErr :=
  match s with
  | "" => (0, Some ErrSyntax)
  | _ => parse_uint_loop s 0
  end.

Definition parse_int_signed (neg : bool) (body : string) : Z * option NumErr :=
  match ParseUint body with
  | (_, Some ErrSyntax) => (0, Some ErrSyntax)
  | (un, _) =>
      if negb neg && (2 ^ 63 <=? un) then (int64_max, Some ErrRange)
      else if neg && (2 ^ 63 <? un) then (int64_min, Some ErrRange)
      else (if neg then - un else un, None)
  end.

Definition ParseInt (s : string) : Z * option NumErr :=
  match s with
  | "" => (0, Some ErrSyntax)
  | String c rest =>
      if Ascii.eqb c "+" then parse_int_signed false rest
      else if Ascii.eqb c "-" then parse_int_signed true rest
      else parse_int_signed false s
  end.

(** [strconv.Atoi] is [ParseInt(s, 10, 0)] on a 64-bit platform. *)
Definition Atoi (s : string) : Z * option NumErr := ParseInt s.

(** [fmt.Sprintf("%d", z)]. *)
Definition Sprintf_d (z : Z) : string := pretty z.

(** [fmt.Sprintf("%t", b)]. *)
Definition Sprintf_t (b : bool) : string := if b then "true" else "false".

(** [%q] on a string: [strconv.Quote].  Bytes beyond ASCII are taken to be
    printable text, which is kept. *)
Definition hex_digit (n : nat) : ascii := default "0"%char (String.get n "0123456789abcdef").

Definition quote_char (c : ascii) : string :=
  let n := nat_of_ascii c in
  match n with
  | 7 => "\a" | 8 => "\b" | 9 => "\t" | 10 => "\n" | 11 => "\v" | 12 => "\f" | 13 => "\r"
  | 34 => String "\" (String "034" "") | 92 => "\\"
  | _ => if (n <? 32)%nat || (n =? 127)%nat
         then "\x" +:+ String (hex_digit (n / 16)) (String (hex_digit (n mod 16)) "")
         else String c ""
  end%nat.

Fixpoint quote_body (s : string) : string :=
  match s with "" => "" | String c rest => quote_char c +:+ quote_body rest end.

Definition Sprintf_q (s : string) : string := String "034" (quote_body s) +:+ String "034" "".

(** ** Printing and parsing agree *)

Lemma digit_val_pretty (x : N) :
  (x < 10)%N → digit_val (pretty_N_char x) = Some (Z.of_N x).
Proof.
  intros Hx.
  assert (x = 0 ∨ x = 1 ∨ x = 2 ∨ x = 3 ∨ x = 4 ∨ x = 5 ∨ x = 6 ∨ x = 7 ∨
          x = 8 ∨ x = 9)%N as H by lia.
  by destruct_or! H; subst x.
Qed.

Lemma parse_uint_loop_pretty (x : N) (s : string) :
  Z.of_N x ≤ uint64_max →
  parse_uint_loop (pretty_N_go x s) 0 = parse_uint_loop s (Z.of_N x).
Proof.
  revert s. induction (N.lt_wf_0 x) as [x _ IH]; intros s Hmax.
  destruct (decide (x = 0)%N) as [->|Hx]; [done|].
  rewrite pretty_N_go_step by lia.
  assert (x `div` 10 < x)%N by (apply N.div_lt; lia).
  rewrite IH by lia. simpl.
  rewrite digit_val_pretty by (apply N.mod_lt; lia).
  pose proof (N.div_mod x 10 ltac:(done)) as Hdiv.
  assert (Z.of_N (x `div` 10) < uint_cutoff) as Hc.
  { unfold uint_cutoff. rewrite N2Z.inj_div.
    pose proof (Z.div_le_mono (Z.of_N x) uint64_max 10). lia. }
  destruct (Z.leb_spec uint_cutoff (Z.of_N (x `div` 10))); [lia|].
  replace (Z.of_N (x `div` 10) * 10 + Z.of_N (x `mod` 10)) with (Z.of_N x) by lia.
  by destruct (Z.ltb_spec uint64_max (Z.of_N x)); [lia|].
Qed.

(** The decimal form of a non-negative number starts with a digit. *)
Lemma pretty_N_go_head (x : N) (s : string) :
  (0 < x)%N →
  ∃ c s', pretty_N_go x s = String c s' ∧ is_Some (digit_val c).
Proof.
  revert s. induction (N.lt_wf_0 x) as [x _ IH]; intros s Hx.
  rewrite pretty_N_go_step by done.
  destruct (decide (x `div` 10 = 0)%N) as [->|Hd].
  - eexists _, s. split; [done|].
    rewrite digit_val_pretty by (apply N.mod_lt; lia). eauto.
  - apply IH; [apply N.div_lt; lia|by apply N.neq_0_lt_0].
Qed.

Lemma digit_val_not_sign c :
  is_Some (digit_val c) → Ascii.eqb c "+" = false ∧ Ascii.eqb c "-" = false.
Proof.
  intros Hd. split; apply Ascii.eqb_neq; intros ->; by destruct Hd.
Qed.

Lemma pretty_pos_head (p : positive) :
  ∃ c s', pretty_N_go (Npos p) "" = String c s' ∧
          Ascii.eqb c "+" = false ∧ Ascii.eqb c "-" = false.
Proof.
  destruct (pretty_N_go_head (Npos p) "" ltac:(lia)) as (c & s' & -> & Hd).
  eauto using digit_val_not_sign.
Qed.

Lemma ParseUint_pretty_pos (p : positive) :
  Z.pos p ≤ uint64_max → ParseUint (pretty_N_go (Npos p) "") = (Z.pos p, None).
Proof.
  intros Hp. pose proof (parse_uint_loop_pretty (Npos p) "" Hp) as Hloop.
  destruct (pretty_pos_head p) as (c & s' & Heq & _).
  rewrite Heq in *. exact Hloop.
Qed.

Lemma ParseInt_pretty_pos (p : positive) :
  ParseInt (pretty_N_go (Npos p) "") =
  parse_int_signed false (pretty_N_go (Npos p) "").
Proof.
  destruct (pretty_pos_head p) as (c & s' & -> & Hp & Hm).
  unfold ParseInt. by rewrite Hp, Hm.
Qed.

Lemma ParseInt_Sprintf_uint (z : Z) :
  0 ≤ z ≤ uint64_max →
  (ParseInt (Sprintf_d z)).1 = Z.min z int64_max.
Proof.
  intros Hz. destruct z as [|p|p]; [done| |lia].
  unfold Sprintf_d, pretty, pretty_Z, pretty_positive.
  unfold pretty, pretty_N. case_decide; [done|].
  rewrite ParseInt_pretty_pos. unfold parse_int_signed.
  rewrite ParseUint_pretty_pos by lia. simpl.
  destruct (Z.leb_spec (2 ^ 63) (Z.pos p)); unfold int64_max; simpl; lia.
Qed.

(** [strconv.ParseInt] reads back what [%d] prints, on every [int64]. *)
Lemma ParseInt_Sprintf_int64 (z : Z) :
  int64_ok z → ParseInt (Sprintf_d z) = (z, None).
Proof.
  intros Hz. unfold_int64. destruct z as [|p|p]; [done|..];
    unfold Sprintf_d, pretty, pretty_Z, pretty_positive;
    unfold pretty, pretty_N; (case_decide; [done|]).
  - rewrite ParseInt_pretty_pos. unfold parse_int_signed.
    rewrite ParseUint_pretty_pos by (unfold uint64_max; lia). simpl.
    by destruct (Z.leb_spec (2 ^ 63) (Z.pos p)); [lia|].
  - change (ParseInt ("-" +:+ pretty_N_go (Npos p) ""))
      with (parse_int_signed true (pretty_N_go (Npos p) "")).
    unfold parse_int_signed. rewrite ParseUint_pretty_pos by (unfold uint64_max; lia). simpl.
    by destruct (Z.ltb_spec (2 ^ 63) (Z.pos p)); [lia|].
Qed.

(** ** [Split] and [Join] *)

Fixpoint free_of (sep : ascii) (s : string) : bool :=
  match s with
  | "" => true
  | String c s' => negb (Ascii.eqb c sep) && free_of sep s'
  end.

Lemma Split_nonempty s sep : Split s sep ≠ [].
Proof. induction s as [|c s IH]; simpl; [done|]. by repeat case_match. Qed.

Lemma Split_free s sep : free_of sep s → Split s sep = [s].
Proof.
  induction s as [|c s IH]; simpl; [done|].
  destruct (Ascii.eqb c sep); simpl; [done|]. intros H. by rewrite IH.
Qed.

Lemma Split_app_sep a sep s :
  free_of sep a → Split (a +:+ String sep s) sep = a :: Split s sep.
Proof.
  induction a as [|c a IH]; simpl.
  - intros _. by rewrite Ascii.eqb_refl.
  - destruct (Ascii.eqb c sep); simpl; [done|]. intros H. by rewrite IH.
Qed.

(** Splitting a joined list gives the list back when no element holds the
    separator. *)
Lemma Split_Join sep elems :
  elems ≠ [] → Forall (λ e, free_of sep e) elems →
  Split (Join elems (String sep "")) sep = elems.
Proof.
  induction elems as [|e elems IH]; [done|]. intros _ Hf.
  apply Forall_cons in Hf as [He Hf]. destruct elems as [|e' elems].
  - by apply Split_free.
  - change (Join (e :: e' :: elems) (String sep ""))
      with (e +:+ String sep (Join (e' :: elems) (String sep ""))).
    rewrite Split_app_sep by done. by rewrite IH.
Qed.

(** ** Trimming around a run of characters that are kept *)

Fixpoint string_all (f : ascii → bool) (s : string) : bool :=
  match s with
  | "" => true
  | String c s' => f c && string_all f s'
  end.

Lemma string_all_mono (f g : ascii → bool) s :
  (∀ c, f c = true → g c = true) → string_all f s = true → string_all g s = true.
Proof.
  intros Hfg. induction s as [|c s IH]; simpl; [done|].
  rewrite !andb_true_iff. intros [Hc Hs]. auto.
Qed.

Lemma free_of_all sep s :
  string_all (λ c, negb (Ascii.eqb c sep)) s = true → free_of sep s.
Proof.
  induction s as [|c s IH]; simpl; [done|]. rewrite andb_true_iff. intros [-> Hs]. by apply IH.
Qed.

Lemma TrimRightFunc_kept cut s b :
  string_all (λ c, negb (cut c)) s = true → string_all cut b = true →
  TrimRightFunc cut (s +:+ b) = s.
Proof.
  intros Hs Hb. induction s as [|c s IH]; simpl in *.
  - induction b as [|c b IHb]; simpl in *; [done|].
    apply andb_true_iff in Hb as [Hc Hb]. unfold String.app in IHb. simpl in IHb.
    rewrite IHb by done. by rewrite Hc.
  - apply andb_true_iff in Hs as [Hc Hs]. apply negb_true_iff in Hc.
    unfold String.app in *. simpl. rewrite IH by done. destruct s; [by rewrite Hc|done].
Qed.

Lemma TrimLeftFunc_cut cut a s :
  string_all cut a = true → string_all (λ c, negb (cut c)) s = true → s ≠ "" →
  ∀ b, TrimLeftFunc cut (a +:+ s +:+ b) = s +:+ b.
Proof.
  intros Ha Hs Hne b. induction a as [|c a IH]; simpl in *.
  - destruct s as [|c s]; [done|]. simpl in *. apply andb_true_iff in Hs as [Hc _].
    apply negb_true_iff in Hc. unfold String.app. simpl. by rewrite Hc.
  - apply andb_true_iff in Ha as [Hc Ha]. unfold String.app in *. simpl. rewrite Hc. by apply IH.
Qed.

Lemma TrimFunc_around cut a s b :
  string_all cut a = true → string_all (λ c, negb (cut c)) s = true → s ≠ "" →
  string_all cut b = true → TrimFunc cut (a +:+ s +:+ b) = s.
Proof.
  intros. unfold TrimFunc. rewrite TrimLeftFunc_cut by done. by apply TrimRightFunc_kept.
Qed.

Definition is_digit (c : ascii) : bool := non_nil (digit_val c).

Lemma pretty_N_go_digits (x : N) (s : string) :
  string_all is_digit s = true → string_all is_digit (pretty_N_go x s) = true.
Proof.
  revert s. induction (N.lt_wf_0 x) as [x _ IH]; intros s Hs.
  destruct (decide (x = 0)%N) as [->|Hx]; [done|].
  rewrite pretty_N_go_step by lia. apply IH; [apply N.div_lt; lia|]. simpl. rewrite Hs.
  unfold is_digit. by rewrite digit_val_pretty by (apply N.mod_lt; lia).
Qed.

Lemma Sprintf_d_digits (z : Z) :
  0 ≤ z → string_all is_digit (Sprintf_d z) = true ∧ Sprintf_d z ≠ "".
Proof.
  intros Hz. destruct z as [|p|p]; [done| |lia].
  unfold Sprintf_d, pretty, pretty_Z, pretty_positive, pretty, pretty_N.
  case_decide; [done|]. split; [by apply pretty_N_go_digits|].
  by destruct (pretty_pos_head p) as (c & s' & -> & _).
Qed.

Lemma string_length_app (a b : string) :
  String.length (a +:+ b) = (String.length a + String.length b)%nat.
Proof. induction a as [|c a IH]; simpl; [done|]. by rewrite IH. Qed.

Lemma free_of_app sep (a b : string) : free_of sep (a +:+ b) = free_of sep a && free_of sep b.
Proof. induction a as [|c a IH]; simpl; [done|]. by rewrite IH, andb_assoc. Qed.

Lemma Split_app (a : string) sep (s : string) :
  Split (a +:+ String sep s) sep = Split a sep ++ Split s sep.
Proof.
  induction a as [|c a IH]; simpl; [by rewrite Ascii.eqb_refl|].
  rewrite IH. destruct (Ascii.eqb c sep); [done|].
  pose proof (Split_nonempty a sep) as Hne. by destruct (Split a sep).
Qed.

(** The digits of a number hold no other character. *)
Lemma free_of_pretty (sep : ascii) (n : N) : is_digit sep = false → free_of sep (pretty n).
Proof.
  intros Hsep. apply free_of_all.
  apply (string_all_mono is_digit).
  - intros c Hc. destruct (Ascii.eqb_spec c sep) as [->|]; [congruence|done].
  - unfold pretty, pretty_N. case_decide; [done|]. by apply pretty_N_go_digits.
Qed.
