(* ===== verification/GoTime.v ===== *)
(** * Durations

    The part of Go's [time] package the exporter uses: [time.Duration] is a
    64-bit number of nanoseconds; [Time.Sub] saturates; [Round], [Milliseconds]
    and [String] are as the standard library has them. *)

From Stdlib Require Import Ascii.
From S2P Require Import Prelude GoStrings.

Definition Nanosecond : Z := 1.
Definition Microsecond : Z := 1000.
Definition Millisecond : Z := 1000000.
Definition Second : Z := 1000000000.

(** [t.Sub(u)] on times in nanoseconds. *)
Definition Sub (t u : Z) : Z := Z.max int64_min (Z.min int64_max (t - u)).

Definition Milliseconds (d : Z) : Z := Z.quot d Millisecond.

Definition lessThanHalf (x y : Z) : bool := x + x <? y.

Definition Round (d m : Z) : Z :=
  if m <=? 0 then d
  else
    let r := Z.rem d m in
    if d <? 0 then
      let r := - r in
      if lessThanHalf r m then d + r
      else let d1 := wrap64 (d - m + r) in if d1 <? d then d1 else int64_min
    else
      if lessThanHalf r m then d - r
      else let d1 := wrap64 (d + m - r) in if d <? d1 then d1 else int64_max.

(** [fmtFrac]: the last [prec] digits of [v] as a fraction without trailing
    zeros, and the integer part.  [acc] is what is already printed to the
    right of the digit, [print] whether a nonzero digit was seen. *)
Fixpoint fmtFrac_loop (prec : nat) (v : Z) (print : bool) (acc : string) : string * Z * bool :=
  match prec with
  | O => (acc, v, print)
  | S prec =>
      let digit := v mod 10 in
      let print := print || negb (digit =? 0) in
      fmtFrac_loop prec (v / 10) print (if print then Sprintf_d digit +:+ acc else acc)
  end.

Definition fmtFrac (v : Z) (prec : nat) : string * Z :=
  let '(digits, v, print) := fmtFrac_loop prec v false "" in
  (if print then "." +:+ digits else "", v).

(** The letter mu in UTF-8. *)
Definition micro : string := String (ascii_of_N 194) (String (ascii_of_N 181) "").

(** [Duration.String]. *)
Definition Duration_String (d : Z) : string :=
  let neg := d <? 0 in
  let u := Z.abs d in
  let body :=
    if u <? Second then
      if u =? 0 then "0s"
      else
        let '(prec, unit) :=
          if u <? Microsecond then (0%nat, "n")
          else if u <? Millisecond then (3%nat, micro)
          else (6%nat, "m") in
        let '(frac, u) := fmtFrac u prec in
        Sprintf_d u +:+ frac +:+ unit +:+ "s"
    else
      let '(frac, u) := fmtFrac u 9 in
      let s := Sprintf_d (u mod 60) +:+ frac +:+ "s" in
      let u := u / 60 in
      if 0 <? u then
        let s := Sprintf_d (u mod 60) +:+ "m" +:+ s in
        let u := u / 60 in
        if 0 <? u then Sprintf_d u +:+ "h" +:+ s else s
      else s in
  if neg then "-" +:+ body else body.

Example Duration_String_examples :
  Duration_String 70000000000 = "1m10s" ∧ Duration_String 1500000000 = "1.5s" ∧
  Duration_String 2000000 = "2ms" ∧ Duration_String 3661000000000 = "1h1m1s" ∧
  Duration_String (-1) = "-1ns" ∧ Duration_String 60000000000 = "1m0s" ∧ Duration_String 0 = "0s" ∧
  Duration_String 1000000001 = "1.000000001s".
Proof. vm_compute. split_and!; reflexivity. Qed.

(** [clampTime] of [pkg/resourcetopologyexporter/resourceobserver.go]. *)
Definition clampTime (t : Z) : Z := if t <? 0 then 0 else t.

(** Rounding to a second moves a duration by at most half of one, unless the
    result does not fit. *)
Lemma Round_Second d :
  int64_ok d → Z.abs d ≤ int64_max - Second →
  2 * Z.abs (Round d Second - d) ≤ Second ∧ (Second | Round d Second).
Proof.
  intros Hd Hb. unfold Round, lessThanHalf, Second in *. simpl.
  pose proof (Z.quot_rem' d 1000000000) as Heq.
  pose proof (Z.rem_bound_abs d 1000000000 ltac:(lia)) as Hr.
  pose proof (Z.rem_sign_nz d 1000000000) as Hs.
  set (r := Z.rem d 1000000000) in *. set (q := Z.quot d 1000000000) in *.
  assert (0 ≤ d → 0 ≤ r) by (intros; subst r; apply Z.rem_nonneg; lia).
  assert (d < 0 → r ≤ 0) by (intros; subst r; apply Z.rem_nonpos; lia).
  destruct (Z.ltb_spec d 0).
  - destruct (Z.ltb_spec (- r + - r) 1000000000).
    + split; [lia|]. exists q. lia.
    + rewrite wrap64_id by (unfold_int64; lia).
      destruct (Z.ltb_spec (d - 1000000000 + - r) d); [|lia].
      split; [lia|]. exists (q - 1). lia.
  - destruct (Z.ltb_spec (r + r) 1000000000).
    + split; [lia|]. exists q. lia.
    + rewrite wrap64_id by (unfold_int64; lia).
      destruct (Z.ltb_spec d (d + 1000000000 - r)); [|lia].
      split; [lia|]. exists (q + 1). lia.
Qed.
