(* ===== verification/PodRes.v ===== *)
(** * The podresources API: messages, client interface and filters

    The messages are those of the kubelet's [podresources/v1] API, restricted
    to the fields the exporter reads.  [PodResourcesListerClient] is the
    client interface the monitor and the middlewares are written against; a
    client carries its own state, so that a call may change it.  Models
    [pkg/podres/filter] and [pkg/podres/filter/numalocality]. *)

From S2P Require Import Prelude GoStrings.

(** ** Messages *)

Record NUMANode := { numa_ID : Z }.

Record TopologyInfo := { ti_Nodes : list NUMANode }.

Record ContainerDevices := {
  cd_ResourceName : string;
  cd_DeviceIds : list string;
  cd_Topology : option TopologyInfo
}.

Record ContainerMemory := {
  cm_MemoryType : string;
  cm_Size : Z;  (** uint64 *)
  cm_Topology : option TopologyInfo
}.

Record ContainerResources := {
  cr_Name : string;
  cr_Devices : list ContainerDevices;
  cr_CpuIds : list Z;  (** int64 *)
  cr_Memory : list ContainerMemory
}.

Record PodResources := {
  pr_Name : string;
  pr_Namespace : string;
  pr_Containers : list ContainerResources
}.

Record ListPodResourcesResponse := { lr_PodResources : list PodResources }.

Record AllocatableResourcesResponse := {
  ar_Devices : list ContainerDevices;
  ar_CpuIds : list Z;
  ar_Memory : list ContainerMemory
}.

Record GetPodResourcesRequest := { gr_PodName : string; gr_PodNamespace : string }.

Record GetPodResourcesResponse := { gr_PodResources : option PodResources }.

#[global] Instance NUMANode_eq_dec : EqDecision NUMANode.
Proof. solve_decision. Defined.
#[global] Instance TopologyInfo_eq_dec : EqDecision TopologyInfo.
Proof. solve_decision. Defined.
#[global] Instance ContainerDevices_eq_dec : EqDecision ContainerDevices.
Proof. solve_decision. Defined.
#[global] Instance ContainerMemory_eq_dec : EqDecision ContainerMemory.
Proof. solve_decision. Defined.
#[global] Instance ContainerResources_eq_dec : EqDecision ContainerResources.
Proof. solve_decision. Defined.
#[global] Instance PodResources_eq_dec : EqDecision PodResources.
Proof. solve_decision. Defined.

(** [x.GetTopology().GetNodes()]: the getters accept a nil receiver. *)
Definition GetNodes (topo : option TopologyInfo) : list NUMANode :=
  match topo with
  | None => []
  | Some t => ti_Nodes t
  end.

(** ** The client interface *)

Class PodResourcesListerClient (C : Type) := {
  cli_List : C → C * outcome ListPodResourcesResponse;
  cli_GetAllocatableResources : C → C * outcome AllocatableResourcesResponse;
  cli_Get : GetPodResourcesRequest → C → C * outcome GetPodResourcesResponse
}.

(** A client that answers from prepared lists, then fails: the instance the
    concrete examples run on. *)
Record MockClient := {
  mock_lists : list (outcome ListPodResourcesResponse);
  mock_allocs : list (outcome AllocatableResourcesResponse);
  mock_gets : list (outcome GetPodResourcesResponse)
}.

Definition mock_next {A} (answers : list (outcome A)) : list (outcome A) * outcome A :=
  match answers with
  | [] => ([], Err (Errorf "no more answers"))
  | a :: rest => (rest, a)
  end.

#[global] Instance MockClient_lister : PodResourcesListerClient MockClient := {|
  cli_List c :=
    let '(rest, a) := mock_next (mock_lists c) in
    ({| mock_lists := rest; mock_allocs := mock_allocs c; mock_gets := mock_gets c |}, a);
  cli_GetAllocatableResources c :=
    let '(rest, a) := mock_next (mock_allocs c) in
    ({| mock_lists := mock_lists c; mock_allocs := rest; mock_gets := mock_gets c |}, a);
  cli_Get _ c :=
    let '(rest, a) := mock_next (mock_gets c) in
    ({| mock_lists := mock_lists c; mock_allocs := mock_allocs c; mock_gets := rest |}, a)
|}.

(** ** Filters *)

Module Filter.

Record Result := { Allow : bool; Ident : string; Reason : string }.

Definition VerifyAlwaysPass (_ : option PodResources) : Result :=
  {| Allow := true; Ident := ""; Reason := "" |}.

Definition AlwaysPass (pr : option PodResources) : bool :=
  Allow (VerifyAlwaysPass pr).

End Filter.

Module NumaLocality.
Import Filter.

Definition CPU : string := "cpu".
Definition Memory : string := "memory".
Definition Device : string := "device".

Definition IsPresent (topo : option TopologyInfo) : bool :=
  match topo with
  | None => false
  | Some t => existsb (λ node, 0 <=? numa_ID node) (ti_Nodes t)
  end.

Definition deny : Result := {| Allow := false; Ident := ""; Reason := "" |}.

(** The body of the loop over the containers: [None] goes to the next one. *)
Definition verifyContainer (cr : ContainerResources) : option Result :=
  if (0 <? length (cr_CpuIds cr))%nat
  then Some {| Allow := true; Ident := cr_Name cr; Reason := CPU |}
  else if existsb (λ mem, IsPresent (cm_Topology mem)) (cr_Memory cr)
  then Some {| Allow := true; Ident := cr_Name cr; Reason := Memory |}
  else if existsb (λ dev, (0 <? length (cd_DeviceIds dev))%nat && IsPresent (cd_Topology dev))
                  (cr_Devices cr)
  then Some {| Allow := true; Ident := cr_Name cr; Reason := Device |}
  else None.

Fixpoint verifyContainers (crs : list ContainerResources) : Result :=
  match crs with
  | [] => deny
  | cr :: rest =>
      match verifyContainer cr with
      | Some res => res
      | None => verifyContainers rest
      end
  end.

Definition Verify (pr : option PodResources) : Result :=
  match pr with
  | None => deny
  | Some p => verifyContainers (pr_Containers p)
  end.

Definition AlwaysPass (_ : option PodResources) : bool := true.

Definition Required (pr : option PodResources) : bool := Allow (Verify pr).

(** What it means for a container to hold NUMA-local resources. *)
Definition numa_located (topo : option TopologyInfo) : Prop :=
  ∃ node, node ∈ GetNodes topo ∧ 0 ≤ numa_ID node.

Definition holds_exclusive (cr : ContainerResources) : Prop :=
  cr_CpuIds cr ≠ [] ∨
  (∃ mem, mem ∈ cr_Memory cr ∧ numa_located (cm_Topology mem)) ∨
  (∃ dev, dev ∈ cr_Devices cr ∧ cd_DeviceIds dev ≠ [] ∧ numa_located (cd_Topology dev)).

Lemma existsb_elem_of {A} (f : A → bool) (l : list A) :
  existsb f l = true ↔ ∃ x, x ∈ l ∧ f x = true.
Proof. rewrite existsb_exists. setoid_rewrite <-list_elem_of_In. done. Qed.

Lemma IsPresent_spec topo : IsPresent topo = true ↔ numa_located topo.
Proof.
  unfold numa_located. destruct topo as [t|]; simpl.
  - rewrite existsb_elem_of. setoid_rewrite Z.leb_le. done.
  - split; [done|]. intros (node & Hin & _). set_solver.
Qed.

Lemma length_pos_ne {A} (l : list A) : (0 <? length l)%nat = true ↔ l ≠ [].
Proof. destruct l; simpl; naive_solver. Qed.

Lemma verifyContainer_spec cr :
  match verifyContainer cr with
  | Some res => holds_exclusive cr ∧ Allow res = true ∧ Ident res = cr_Name cr
                ∧ Reason res ∈ [CPU; Memory; Device]
  | None => ¬ holds_exclusive cr
  end.
Proof.
  unfold verifyContainer, holds_exclusive.
  pose proof (length_pos_ne (cr_CpuIds cr)) as Hc.
  pose proof (existsb_elem_of (λ mem, IsPresent (cm_Topology mem)) (cr_Memory cr)) as Hm.
  pose proof (existsb_elem_of
    (λ dev, (0 <? length (cd_DeviceIds dev))%nat && IsPresent (cd_Topology dev))
    (cr_Devices cr)) as Hd.
  setoid_rewrite IsPresent_spec in Hm. setoid_rewrite andb_true_iff in Hd.
  setoid_rewrite IsPresent_spec in Hd. setoid_rewrite length_pos_ne in Hd.
  destruct (0 <? length (cr_CpuIds cr))%nat; [|destruct (existsb _ (cr_Memory cr));
    [|destruct (existsb _ (cr_Devices cr))]]; simpl;
    rewrite ?elem_of_cons; naive_solver.
Qed.

Lemma verifyContainers_spec crs :
  Allow (verifyContainers crs) = true ↔ ∃ cr, cr ∈ crs ∧ holds_exclusive cr.
Proof.
  induction crs as [|cr crs IH]; simpl.
  - split; [done|]. intros (? & H & _). set_solver.
  - pose proof (verifyContainer_spec cr) as Hcr.
    setoid_rewrite elem_of_cons.
    destruct (verifyContainer cr); naive_solver.
Qed.

(** Which pods count as holding exclusive NUMA resources: a pod is allowed
    exactly when one of its containers holds exclusive CPUs, or memory or
    devices located on a NUMA node, and the verdict names the first such
    container. *)
Theorem Verify_correct p :
  let res := Verify (Some p) in
  if Allow res
  then ∃ before cr after, pr_Containers p = before ++ cr :: after ∧
         Forall (λ c, ¬ holds_exclusive c) before ∧ holds_exclusive cr ∧ Ident res = cr_Name cr
  else Forall (λ c, ¬ holds_exclusive c) (pr_Containers p).
Proof.
  cbv zeta. simpl. induction (pr_Containers p) as [|cr crs IH]; simpl; [constructor|].
  pose proof (verifyContainer_spec cr) as Hcr. destruct (verifyContainer cr) as [res|].
  - destruct Hcr as (Hex & -> & Hid & _). by exists [], cr, crs.
  - destruct (Allow (verifyContainers crs)); [|by constructor].
    destruct IH as (before & cr' & after & -> & Hb & Hex & Hid).
    exists (cr :: before), cr', after. split_and!; [done|by constructor|done|done].
Qed.

End NumaLocality.
