(* ===== verification/Filepath.v ===== *)
(** * Go's [path/filepath] on Unix: [Clean], [Join], [Dir] and [Match]

    Paths are cleaned lexically.  Shell file name patterns, as [podexclude] uses them on pod namespaces and
    names.  Patterns and names are byte sequences; [?] and character classes
    consume one UTF-8 rune. *)

From S2P Require Import Prelude GoStrings.
From Stdlib Require Import Ascii.

Definition Separator : ascii := "/".

(** ** [Clean] and [Join] *)

(** One path element, against the reversed list of the elements kept. *)
Definition clean_step (rooted : bool) (kept : list string) (elem : string) : list string :=
  if bool_decide (elem = "") || bool_decide (elem = ".") then kept
  else if bool_decide (elem = "..") then
    match kept with
    | [] => if rooted then [] else [".."]
    | last :: rest => if bool_decide (last = "..") then ".." :: kept else rest
    end
  else elem :: kept.

Definition clean_elems (rooted : bool) (elems : list string) : list string :=
  rev (foldl (clean_step rooted) [] elems).

Definition Clean (path : string) : string :=
  if bool_decide (path = "") then "."
  else
    let rooted := HasPrefix path "/" in
    let out := GoStrings.Join (clean_elems rooted (Split path Separator)) "/" in
    if rooted then "/" +:+ out
    else if bool_decide (out = "") then "." else out.

Fixpoint Join (elem : list string) : string :=
  match elem with
  | [] => ""
  | e :: rest => if bool_decide (e = "") then Join rest
                 else Clean (GoStrings.Join (e :: rest) "/")
  end.

(** The path up to and including its last separator. *)
Fixpoint upto_last_sep (path : string) : string :=
  match path with
  | "" => ""
  | String c rest =>
      let d := upto_last_sep rest in
      if bool_decide (d = "") then (if Ascii.eqb c Separator then String c "" else "") else String c d
  end.

Definition Dir (path : string) : string := Clean (upto_last_sep path).

Inductive MatchErr := ErrBadPattern | ErrFuel.

#[global] Instance MatchErr_eq_dec : EqDecision MatchErr.
Proof. solve_decision. Defined.

(** ** [utf8.DecodeRuneInString] *)

Definition RuneError : Z := 65533.

Definition byte_val (c : ascii) : Z := Z.of_N (N_of_ascii c).

Definition in_range (lo hi z : Z) : bool := (lo <=? z) && (z <=? hi).

Definition is_cont (c : ascii) : bool := in_range 128 191 (byte_val c).

(** Accepted values of the second byte of a multi-byte sequence. *)
Definition second_ok (b0 b1 : Z) : bool :=
  if b0 =? 224 then in_range 160 191 b1
  else if b0 =? 237 then in_range 128 159 b1
  else if b0 =? 240 then in_range 144 191 b1
  else if b0 =? 244 then in_range 128 143 b1
  else in_range 128 191 b1.

Definition DecodeRuneInString (s : string) : Z * nat :=
  match s with
  | "" => (RuneError, 0%nat)
  | String c0 s1 =>
      let b0 := byte_val c0 in
      if b0 <? 128 then (b0, 1%nat)
      else match s1 with
      | "" => (RuneError, 1%nat)
      | String c1 s2 =>
          let b1 := byte_val c1 in
          if negb (in_range 194 244 b0 && second_ok b0 b1) then (RuneError, 1%nat)
          else if b0 <? 224 then (Z.lor (Z.shiftl (Z.land b0 31) 6) (Z.land b1 63), 2%nat)
          else match s2 with
          | "" => (RuneError, 1%nat)
          | String c2 s3 =>
              let b2 := byte_val c2 in
              if negb (is_cont c2) then (RuneError, 1%nat)
              else if b0 <? 240 then
                (Z.lor (Z.lor (Z.shiftl (Z.land b0 15) 12) (Z.shiftl (Z.land b1 63) 6))
                       (Z.land b2 63), 3%nat)
              else match s3 with
              | "" => (RuneError, 1%nat)
              | String c3 _ =>
                  if negb (is_cont c3) then (RuneError, 1%nat)
                  else (Z.lor (Z.lor (Z.shiftl (Z.land b0 7) 18) (Z.shiftl (Z.land b1 63) 12))
                              (Z.lor (Z.shiftl (Z.land b2 63) 6) (Z.land (byte_val c3) 63)),
                        4%nat)
              end
          end
      end
  end.

Definition head_is (c : ascii) (s : string) : bool :=
  match s with
  | String d _ => Ascii.eqb c d
  | "" => false
  end.

Definition tail (s : string) : string := string_drop 1 s.

(** ** [scanChunk] *)

Fixpoint skip_stars (pattern : string) : bool * string :=
  match pattern with
  | String "*" rest => (true, (skip_stars rest).2)
  | _ => (false, pattern)
  end.

(** The [Scan] loop: the chunk before the next star outside a class, and the
    rest of the pattern. *)
Fixpoint scan_loop (pattern : string) (inrange : bool) : string * string :=
  match pattern with
  | "" => ("", "")
  | String "\" (String c rest) =>
      let '(chunk, r) := scan_loop rest inrange in
      (String "\" (String c chunk), r)
  | String "[" rest => let '(chunk, r) := scan_loop rest true in (String "[" chunk, r)
  | String "]" rest => let '(chunk, r) := scan_loop rest false in (String "]" chunk, r)
  | String "*" rest =>
      if inrange then let '(chunk, r) := scan_loop rest inrange in (String "*" chunk, r)
      else ("", pattern)
  | String c rest => let '(chunk, r) := scan_loop rest inrange in (String c chunk, r)
  end.

Definition scanChunk (pattern : string) : bool * string * string :=
  let '(star, p) := skip_stars pattern in
  let '(chunk, rest) := scan_loop p false in
  (star, chunk, rest).

(** ** [getEsc] and [matchChunk] *)

Definition getEsc (chunk : string) : sum (Z * string) MatchErr :=
  if bool_decide (chunk = "") || head_is "-" chunk || head_is "]" chunk
  then inr ErrBadPattern
  else
    let chunk := if head_is "\" chunk then tail chunk else chunk in
    if bool_decide (chunk = "") then inr ErrBadPattern
    else
      let '(r, n) := DecodeRuneInString chunk in
      let nchunk := string_drop n chunk in
      if ((r =? RuneError) && (n =? 1)%nat) || bool_decide (nchunk = "")
      then inr ErrBadPattern
      else inl (r, nchunk).

(** The loop that parses the ranges of a character class: whether [r] is in
    one of them, and the rest of the chunk after the closing bracket. *)
Fixpoint class_loop (fuel : nat) (r : Z) (chunk : string) (mtch : bool) (nrange : nat)
  : sum (bool * string) MatchErr :=
  match fuel with
  | O => inr ErrFuel
  | S fuel' =>
      if head_is "]" chunk && (0 <? nrange)%nat then inl (mtch, tail chunk)
      else
        match getEsc chunk with
        | inr e => inr e
        | inl (lo, chunk1) =>
            if head_is "-" chunk1 then
              match getEsc (tail chunk1) with
              | inr e => inr e
              | inl (hi, chunk2) =>
                  class_loop fuel' r chunk2 (mtch || in_range lo hi r) (S nrange)
              end
            else class_loop fuel' r chunk1 (mtch || in_range lo lo r) (S nrange)
        end
  end.

(** The result of matching one chunk: the unmatched rest of the name, a
    mismatch, or an error. *)
Inductive chunk_result :=
| ChunkOk (rest : string)
| ChunkNo
| ChunkErr (e : MatchErr).

Fixpoint match_loop (fuel : nat) (failed : bool) (chunk s : string) : chunk_result :=
  match fuel with
  | O => ChunkErr ErrFuel
  | S fuel' =>
      match chunk with
      | "" => if failed then ChunkNo else ChunkOk s
      | String c chunk' =>
          let failed := failed || bool_decide (s = "") in
          if Ascii.eqb c "[" then
            let '(r, s') :=
              if failed then (0, s)
              else let '(r, n) := DecodeRuneInString s in (r, string_drop n s) in
            let negated := head_is "^" chunk' in
            let chunk1 := if negated then tail chunk' else chunk' in
            match class_loop (S (String.length chunk1)) r chunk1 false 0 with
            | inr e => ChunkErr e
            | inl (mtch, chunk2) =>
                match_loop fuel' (failed || Bool.eqb mtch negated) chunk2 s'
            end
          else if Ascii.eqb c "?" then
            if failed then match_loop fuel' failed chunk' s
            else match_loop fuel' (head_is Separator s) chunk'
                   (string_drop (DecodeRuneInString s).2 s)
          else
            (* a backslash makes the next byte a literal *)
            match (if Ascii.eqb c "\" then chunk' else chunk) with
            | "" => ChunkErr ErrBadPattern
            | String l chunk2 =>
                if failed then match_loop fuel' failed chunk2 s
                else match_loop fuel' (negb (head_is l s)) chunk2 (tail s)
            end
      end
  end.

Definition matchChunk (chunk s : string) : chunk_result :=
  match_loop (S (String.length chunk)) false chunk s.

(** ** [Match] *)

(** Looking for a match of the chunk after skipping i+1 bytes of the name;
    [last] says that no pattern follows the chunk. *)
Fixpoint star_loop (chunk : string) (last : bool) (name : string) : chunk_result :=
  match name with
  | "" => ChunkNo
  | String c name' =>
      if Ascii.eqb c Separator then ChunkNo
      else
        match matchChunk chunk name' with
        | ChunkOk t =>
            if last && negb (bool_decide (t = "")) then star_loop chunk last name'
            else ChunkOk t
        | ChunkErr e => ChunkErr e
        | ChunkNo => star_loop chunk last name'
        end
  end.

Fixpoint Match_loop (fuel : nat) (pattern name : string) : bool * option MatchErr :=
  match fuel with
  | O => (false, Some ErrFuel)
  | S fuel' =>
      if bool_decide (pattern = "") then (bool_decide (name = ""), None)
      else
        let '(star, chunk, rest) := scanChunk pattern in
        if star && bool_decide (chunk = "")
        then (negb (Contains name (String Separator "")), None)
        else
          let last := bool_decide (rest = "") in
          let try_star :=
            if star then
              match star_loop chunk last name with
              | ChunkOk t => Match_loop fuel' rest t
              | ChunkErr e => (false, Some e)
              | ChunkNo => (false, None)
              end
            else (false, None) in
          match matchChunk chunk name with
          | ChunkOk t =>
              if bool_decide (t = "") || negb last then Match_loop fuel' rest t
              else try_star
          | ChunkErr e => (false, Some e)
          | ChunkNo => try_star
          end
  end.

Definition Match (pattern name : string) : bool * option MatchErr :=
  Match_loop (S (String.length pattern)) pattern name.

(** ** The fuel is enough: [Match] always returns one of Go's answers *)

Lemma DecodeRune_width s : s ≠ "" → (1 ≤ (DecodeRuneInString s).2)%nat.
Proof.
  destruct s as [|c s]; [done|]. intros _. unfold DecodeRuneInString.
  repeat (case_match; simpl; try lia).
Qed.

Lemma getEsc_length chunk r chunk' :
  getEsc chunk = inl (r, chunk') → (String.length chunk' < String.length chunk)%nat.
Proof.
  unfold getEsc.
  destruct (bool_decide (chunk = "") || head_is "-" chunk || head_is "]" chunk); [done|].
  set (chunk1 := if head_is "\" chunk then tail chunk else chunk).
  assert (String.length chunk1 ≤ String.length chunk)%nat as Hle.
  { unfold chunk1, tail. case_match; rewrite ?string_drop_length; lia. }
  case_bool_decide as Hne; [done|].
  pose proof (DecodeRune_width chunk1 Hne) as Hw.
  destruct (DecodeRuneInString chunk1) as [r' n]; simpl in Hw.
  case_match; [done|]. intros [= <- <-]. rewrite string_drop_length.
  assert (String.length chunk1 ≠ 0)%nat by (by destruct chunk1). lia.
Qed.

Lemma getEsc_err chunk e : getEsc chunk = inr e → e = ErrBadPattern.
Proof. unfold getEsc. repeat case_match; by intros [= ->] || congruence. Qed.

Lemma class_loop_fuel fuel r chunk mtch nrange :
  (String.length chunk < fuel)%nat →
  match class_loop fuel r chunk mtch nrange with
  | inl (_, chunk') => (String.length chunk' ≤ String.length chunk)%nat
  | inr e => e = ErrBadPattern
  end.
Proof.
  revert chunk mtch nrange.
  induction fuel as [|fuel IH]; intros chunk mtch nrange Hf; [lia|]. simpl.
  destruct (head_is "]" chunk && (0 <? nrange)%nat).
  { unfold tail. rewrite string_drop_length. lia. }
  destruct (getEsc chunk) as [[lo chunk1]|e] eqn:He1; [|by eapply getEsc_err].
  apply getEsc_length in He1.
  destruct (head_is "-" chunk1).
  - destruct (getEsc (tail chunk1)) as [[hi chunk2]|e] eqn:He2;
      [|by eapply getEsc_err].
    apply getEsc_length in He2. unfold tail in He2. rewrite string_drop_length in He2.
    specialize (IH chunk2 (mtch || in_range lo hi r) (S nrange) ltac:(lia)).
    destruct (class_loop fuel r _ _ _) as [[? ?]|]; [lia|done].
  - specialize (IH chunk1 (mtch || in_range lo lo r) (S nrange) ltac:(lia)).
    destruct (class_loop fuel r _ _ _) as [[? ?]|]; [lia|done].
Qed.

Lemma match_loop_fuel fuel failed chunk s :
  (String.length chunk < fuel)%nat → match_loop fuel failed chunk s ≠ ChunkErr ErrFuel.
Proof.
  revert failed chunk s.
  induction fuel as [|fuel IH]; intros failed chunk s Hf; [lia|]. cbn [match_loop].
  destruct chunk as [|c chunk']; [by destruct failed|]. simpl in Hf.
  destruct (Ascii.eqb c "[").
  { set (rs := if failed || bool_decide (s = "") then (0, s) else _).
    destruct rs as [r s'].
    set (chunk1 := if head_is "^" chunk' then tail chunk' else chunk').
    assert (String.length chunk1 ≤ String.length chunk')%nat as Hle.
    { unfold chunk1, tail. case_match; rewrite ?string_drop_length; lia. }
    pose proof (class_loop_fuel (S (String.length chunk1)) r chunk1 false 0 ltac:(lia)) as Hc.
    destruct (class_loop _ r chunk1 false 0) as [[m chunk2]|e]; [|by subst].
    apply IH. lia. }
  destruct (Ascii.eqb c "?").
  { case_match; apply IH; lia. }
  set (lchunk := if Ascii.eqb c "\" then chunk' else String c chunk').
  assert (String.length lchunk ≤ S (String.length chunk'))%nat as Hle.
  { unfold lchunk. case_match; simpl; lia. }
  destruct lchunk as [|l chunk2]; [done|]. simpl in Hle.
  case_match; apply IH; lia.
Qed.

Lemma star_loop_fuel chunk last name : star_loop chunk last name ≠ ChunkErr ErrFuel.
Proof.
  induction name as [|c name IH]; simpl; [done|].
  case_match; [done|].
  pose proof (match_loop_fuel (S (String.length chunk)) false chunk name ltac:(lia)) as Hm.
  unfold matchChunk. destruct (match_loop _ _ _ _); [case_match|..]; done.
Qed.

Lemma scan_loop_length p b :
  (String.length (scan_loop p b).1 + String.length (scan_loop p b).2 = String.length p)%nat.
Proof.
  assert (∀ n p b, (String.length p ≤ n)%nat →
    (String.length (scan_loop p b).1 + String.length (scan_loop p b).2
     = String.length p)%nat) as H; [|by eapply H].
  clear. induction n as [|n IH]; intros p b Hle.
  { destruct p; [done|simpl in *; lia]. }
  destruct p as [|c p]; [done|].
  assert (∀ b', (String.length (scan_loop p b').1 + String.length (scan_loop p b').2
                 = String.length p)%nat) as Hp by (intros; apply IH; simpl in *; lia).
  assert (∀ c' b', (String.length (let '(chunk, r) := scan_loop p b' in (String c' chunk, r)).1
            + String.length (let '(chunk, r) := scan_loop p b' in (String c' chunk, r)).2
            = S (String.length p))%nat) as Hc.
  { intros c' b'. specialize (Hp b'). destruct (scan_loop p b') as [ch r]. simpl in *. lia. }
  destruct c as [[] [] [] [] [] [] [] []]; try exact (Hc _ _).
  - destruct b; [exact (Hc _ _)|done].
  - destruct p as [|c' p]; [done|].
    assert (String.length (scan_loop p b).1 + String.length (scan_loop p b).2
            = String.length p)%nat as Hq by (apply IH; simpl in *; lia).
    simpl. destruct (scan_loop p b) as [ch r]. simpl in *. lia.
Qed.

Lemma skip_stars_length p :
  (String.length (skip_stars p).2 ≤ String.length p)%nat ∧
  ((skip_stars p).1 = true → (String.length (skip_stars p).2 < String.length p)%nat).
Proof.
  induction p as [|c p [IH1 IH2]]; [done|].
  destruct c as [[] [] [] [] [] [] [] []]; simpl; split; intros; try done; lia.
Qed.

Lemma skip_stars_false p : (skip_stars p).1 = false → (skip_stars p).2 = p.
Proof. destruct p as [|c p]; [done|]. by destruct c as [[] [] [] [] [] [] [] []]. Qed.

Lemma scan_loop_head p : p ≠ "" → (skip_stars p).1 = false → (scan_loop p false).1 ≠ "".
Proof.
  destruct p as [|c p]; [done|]. intros _.
  destruct c as [[] [] [] [] [] [] [] []]; try discriminate;
    try (intros _; simpl; by destruct (scan_loop p _)).
  intros _. destruct p as [|c' p]; [done|]. simpl. by destruct (scan_loop p _).
Qed.

Lemma scanChunk_rest p :
  p ≠ "" →
  let '(star, chunk, rest) := scanChunk p in
  (String.length rest < String.length p)%nat.
Proof.
  intros Hp. unfold scanChunk.
  destruct (skip_stars_length p) as [Hle Hlt].
  pose proof (skip_stars_false p) as Hid. pose proof (scan_loop_head p Hp) as Hhd.
  destruct (skip_stars p) as [star q]; simpl in *.
  pose proof (scan_loop_length q false) as Hlen.
  destruct star.
  - specialize (Hlt eq_refl). destruct (scan_loop q false). simpl in *. lia.
  - specialize (Hhd eq_refl). rewrite Hid in * by done.
    destruct (scan_loop p false) as [ch rest]. simpl in *.
    assert (String.length ch ≠ 0)%nat by (by destruct ch). lia.
Qed.

Lemma Match_loop_fuel fuel pattern name :
  (String.length pattern < fuel)%nat → (Match_loop fuel pattern name).2 ≠ Some ErrFuel.
Proof.
  revert pattern name. induction fuel as [|fuel IH]; intros pattern name Hf; [lia|].
  cbn [Match_loop]. case_bool_decide as Hp; [done|].
  pose proof (scanChunk_rest pattern Hp) as Hrest.
  destruct (scanChunk pattern) as [[star chunk] rest].
  case_match; [done|].
  pose proof (match_loop_fuel (S (String.length chunk)) false chunk name ltac:(lia)) as Hm.
  pose proof (star_loop_fuel chunk (bool_decide (rest = "")) name) as Hs.
  unfold matchChunk.
  assert (∀ t, (Match_loop fuel rest t).2 ≠ Some ErrFuel) as Hrec by (intros; apply IH; lia).
  destruct (match_loop _ _ _ _) as [t| |e]; [case_match; [done|]|..];
    repeat case_match; naive_solver.
Qed.

(** Whatever the pattern and the name, the answer is Go's: a boolean, or the
    [ErrBadPattern] error, never an exhausted fuel. *)
Lemma Match_total pattern name :
  (Match pattern name).2 = None ∨ (Match pattern name).2 = Some ErrBadPattern.
Proof.
  pose proof (Match_loop_fuel (S (String.length pattern)) pattern name ltac:(lia)) as H.
  unfold Match. destruct (Match_loop _ _ _) as [b [[]|]]; simpl in *; naive_solver.
Qed.

Lemma Match_loop_err fuel pattern name :
  (Match_loop fuel pattern name).2 ≠ None → (Match_loop fuel pattern name).1 = false.
Proof.
  revert pattern name. induction fuel as [|fuel IH]; intros pattern name; [done|].
  cbn [Match_loop]. case_bool_decide; [done|].
  destruct (scanChunk pattern) as [[star chunk] rest].
  repeat case_match; naive_solver.
Qed.

(** A bad pattern never matches. *)
Lemma Match_err_false pattern name :
  (Match pattern name).2 ≠ None → (Match pattern name).1 = false.
Proof. apply Match_loop_err. Qed.
