(* ===== verification/Middleware.v ===== *)
(** * The podresources middlewares

    Three clients that wrap another client and filter its answers: the shared
    CPU pool ([sharedcpuspool]), the excluded pods ([podexclude]) and the
    terminal pods ([terminalpods]).  Each is an instance of
    [PodResourcesListerClient] over any client, stacked as [main] does. *)

From S2P Require Import Prelude GoStrings Filepath PodRes.
From Stdlib Require Import Ascii.

(** ** [pkg/podres/middleware/podexclude] *)

Module PodExclude.

Record Item := { NamespacePattern : string; NamePattern : string }.

#[global] Instance Item_eq_dec : EqDecision Item.
Proof. solve_decision. Defined.

(** [List.Clone] copies the items into a new slice. *)
Definition Clone (items : list Item) : list Item := [] ++ items.

(** [List.String]: the items printed with a leading separator, which is cut. *)
Definition String (items : list Item) : string :=
  if (length items =? 0)%nat then ""
  else string_drop 2
    (foldr (λ item acc, ", " +:+ NamespacePattern item +:+ "/" +:+ NamePattern item +:+ acc)
           "" items).

(** The loop body is one [match] per glob: an error skips the item when
    [debug] is set, and a failed match skips it in any case. *)
Fixpoint ShouldExclude (podExcludes : list Item) (namespace name : string) (debug : bool)
  : bool :=
  match podExcludes with
  | [] => false
  | item :: rest =>
      let '(nsMatch, err) := Match (NamespacePattern item) namespace in
      if non_nil err && debug then ShouldExclude rest namespace name debug
      else if negb nsMatch then ShouldExclude rest namespace name debug
      else
        let '(nMatch, err) := Match (NamePattern item) name in
        if non_nil err && debug then ShouldExclude rest namespace name debug
        else if negb nMatch then ShouldExclude rest namespace name debug
        else true
  end.

Record filteringClient (C : Type) := {
  debug : bool;
  cli : C;
  podExcludes : list Item
}.
Arguments debug {C}.
Arguments cli {C}.
Arguments podExcludes {C}.
Arguments Build_filteringClient {C}.

Section client.
Context {C : Type} `{PodResourcesListerClient C}.
Implicit Types fc : filteringClient C.

Definition with_cli fc (c : C) : filteringClient C :=
  {| debug := debug fc; cli := c; podExcludes := podExcludes fc |}.

Definition FilterListResponse fc (resp : ListPodResourcesResponse) : ListPodResourcesResponse :=
  {| lr_PodResources :=
       foldl (λ acc podRes,
                if ShouldExclude (podExcludes fc) (pr_Namespace podRes) (pr_Name podRes) (debug fc)
                then acc else acc ++ [podRes])
             [] (lr_PodResources resp) |}.

Definition FilterAllocatableResponse fc (resp : AllocatableResourcesResponse) :=
  resp.

Definition FilterGetResponse fc (resp : GetPodResourcesResponse) := resp.

Definition List fc : filteringClient C * outcome ListPodResourcesResponse :=
  let '(c, resp) := cli_List (cli fc) in
  (with_cli fc c, let! r := resp in Ok (FilterListResponse fc r)).

Definition GetAllocatableResources fc : filteringClient C * outcome AllocatableResourcesResponse :=
  let '(c, resp) := cli_GetAllocatableResources (cli fc) in
  (with_cli fc c, let! r := resp in Ok (FilterAllocatableResponse fc r)).

Definition Get (req : GetPodResourcesRequest) fc : filteringClient C * outcome GetPodResourcesResponse :=
  let '(c, resp) := cli_Get req (cli fc) in
  (with_cli fc c, let! r := resp in Ok (FilterGetResponse fc r)).

#[global] Instance lister : PodResourcesListerClient (filteringClient C) :=
  {| cli_List := List; cli_GetAllocatableResources := GetAllocatableResources; cli_Get := Get |}.

Definition NewFromLister (c : C) (dbg : bool) (excludes : list Item) : filteringClient C :=
  {| debug := dbg; cli := c; podExcludes := excludes |}.
End client.

(** *** What is excluded *)

Definition item_matches (namespace name : string) (item : Item) : Prop :=
  (Match (NamespacePattern item) namespace).1 = true ∧ (Match (NamePattern item) name).1 = true.

Lemma ShouldExclude_cons item rest namespace name dbg :
  ShouldExclude (item :: rest) namespace name dbg =
  (Match (NamespacePattern item) namespace).1 && (Match (NamePattern item) name).1
  || ShouldExclude rest namespace name dbg.
Proof.
  cbn [ShouldExclude].
  pose proof (Match_err_false (NamespacePattern item) namespace) as H1.
  pose proof (Match_err_false (NamePattern item) name) as H2.
  destruct (Match (NamespacePattern item) namespace) as [[] [e1|]],
           (Match (NamePattern item) name) as [[] [e2|]]; destruct dbg; simpl in *;
    try done; try (by specialize (H1 ltac:(done))); by specialize (H2 ltac:(done)).
Qed.

Lemma ShouldExclude_spec podExcludes namespace name dbg :
  ShouldExclude podExcludes namespace name dbg = true ↔
  Exists (item_matches namespace name) podExcludes.
Proof.
  induction podExcludes as [|item rest IH].
  - rewrite Exists_nil. done.
  - rewrite ShouldExclude_cons, orb_true_iff, andb_true_iff, IH, Exists_cons. done.
Qed.

(** The [debug] flag only changes the log. *)
Lemma ShouldExclude_debug podExcludes namespace name d1 d2 :
  ShouldExclude podExcludes namespace name d1 = ShouldExclude podExcludes namespace name d2.
Proof.
  apply Bool.eq_iff_eq_true. by rewrite !ShouldExclude_spec.
Qed.

Definition keeps (excludes : list Item) (dbg : bool) (podRes : PodResources) : bool :=
  negb (ShouldExclude excludes (pr_Namespace podRes) (pr_Name podRes) dbg).

Lemma foldl_filter {A} (skip : A → bool) (l acc : list A) :
  foldl (λ acc x, if skip x then acc else acc ++ [x]) acc l =
  acc ++ List.filter (λ x, negb (skip x)) l.
Proof.
  revert acc. induction l as [|x l IH]; intros acc; simpl; [by rewrite app_nil_r|].
  rewrite IH. destruct (skip x); simpl; [done|]. by rewrite <-app_assoc.
Qed.

Lemma FilterListResponse_filter {C} (fc : filteringClient C) resp :
  lr_PodResources (FilterListResponse fc resp) =
  List.filter (keeps (podExcludes fc) (debug fc)) (lr_PodResources resp).
Proof. unfold FilterListResponse. simpl. by rewrite foldl_filter. Qed.

End PodExclude.

(** ** [pkg/podres/middleware/terminalpods] *)

Module TerminalPods.

(** The identity of a pod in the informer's cache. *)
Record Pod := { pod_Namespace : string; pod_Name : string }.

Record filteringClient (C : Type) := {
  debug : bool;
  cli : C;
  informer : outcome (list Pod)  (** what the lister answers *)
}.
Arguments debug {C}.
Arguments cli {C}.
Arguments informer {C}.
Arguments Build_filteringClient {C}.

(** The inner loop of [FilterFrom]. *)
Definition found (pods : list Pod) (pr : PodResources) : bool :=
  existsb (λ pod, bool_decide (pod_Namespace pod = pr_Namespace pr) &&
                  bool_decide (pod_Name pod = pr_Name pr)) pods.

Definition FilterFrom (resp : ListPodResourcesResponse) (pods : list Pod)
  : ListPodResourcesResponse :=
  {| lr_PodResources :=
       foldl (λ filterResp pr, if found pods pr then filterResp else filterResp ++ [pr])
             [] (lr_PodResources resp) |}.

Section client.
Context {C : Type} `{PodResourcesListerClient C}.
Implicit Types fc : filteringClient C.

Definition with_cli fc (c : C) : filteringClient C :=
  {| debug := debug fc; cli := c; informer := informer fc |}.

Definition List fc : filteringClient C * outcome ListPodResourcesResponse :=
  let '(c, resp) := cli_List (cli fc) in
  (with_cli fc c,
   let! r := resp in
   let! pods := informer fc in
   Ok (FilterFrom r pods)).

Definition GetAllocatableResources fc : filteringClient C * outcome AllocatableResourcesResponse :=
  let '(c, resp) := cli_GetAllocatableResources (cli fc) in (with_cli fc c, resp).

Definition Get (req : GetPodResourcesRequest) fc : filteringClient C * outcome GetPodResourcesResponse :=
  let '(c, resp) := cli_Get req (cli fc) in (with_cli fc c, resp).

#[global] Instance lister : PodResourcesListerClient (filteringClient C) :=
  {| cli_List := List; cli_GetAllocatableResources := GetAllocatableResources; cli_Get := Get |}.
(** [NewFromLister] waits for the caches it started, [synced]. *)
Fixpoint firstUnsynced (synced : list (string * bool)) : option string :=
  match synced with
  | [] => None
  | (v, ok) :: rest => if negb ok then Some v else firstUnsynced rest
  end.

Definition NewFromLister `{MapOrder} (c : C) (synced : gmap string bool) (lister : outcome (list Pod))
  (dbg : bool) : outcome (filteringClient C) :=
  match firstUnsynced (range synced) with
  | Some v => Err (Errorf ("caches failed to sync: " +:+ v))
  | None => Ok {| debug := dbg; cli := c; informer := lister |}
  end.
End client.

Lemma found_spec pods pr :
  found pods pr = true ↔
  {| pod_Namespace := pr_Namespace pr; pod_Name := pr_Name pr |} ∈ pods.
Proof.
  unfold found. rewrite NumaLocality.existsb_elem_of. split.
  - intros ([ns n] & Hin & Hp). simpl in Hp.
    apply andb_true_iff in Hp as [H1%bool_decide_eq_true H2%bool_decide_eq_true].
    by subst.
  - intros Hin. eexists. split; [exact Hin|]. simpl. by rewrite !bool_decide_true.
Qed.

Lemma FilterFrom_filter resp pods :
  lr_PodResources (FilterFrom resp pods) =
  List.filter (λ pr, negb (found pods pr)) (lr_PodResources resp).
Proof. unfold FilterFrom. simpl. by rewrite PodExclude.foldl_filter. Qed.

End TerminalPods.

(** ** [pkg/podres/middleware/sharedcpuspool] *)

(** The [k8s.io/utils/cpuset] package: a set of CPU ids whose [List] is
    sorted, as its documentation says. *)
Class CPUSetLib := {
  CPUSet : Type;
  cpuset_New : list Z → CPUSet;
  cpuset_Difference : CPUSet → CPUSet → CPUSet;
  cpuset_List : CPUSet → list Z;
  cpuset_Equals : CPUSet → CPUSet → bool
}.

Class CPUSetLaws `{CPUSetLib} := {
  cpuset_List_New : ∀ l z, z ∈ cpuset_List (cpuset_New l) ↔ z ∈ l;
  cpuset_List_Difference : ∀ s t z,
    z ∈ cpuset_List (cpuset_Difference s t) ↔ z ∈ cpuset_List s ∧ z ∉ cpuset_List t;
  cpuset_List_sorted : ∀ s, StronglySorted Z.lt (cpuset_List s)
}.

Module SharedCPUs.

Record ContainerIdent := {
  ci_Namespace : string;
  ci_PodName : string;
  ci_ContainerName : string
}.

#[global] Instance ContainerIdent_eq_dec : EqDecision ContainerIdent.
Proof. solve_decision. Defined.

(** The methods have pointer receivers and accept nil. *)
Definition Clone (ci : option ContainerIdent) : ContainerIdent :=
  match ci with
  | None => {| ci_Namespace := ""; ci_PodName := ""; ci_ContainerName := "" |}
  | Some c => {| ci_Namespace := ci_Namespace c; ci_PodName := ci_PodName c;
                 ci_ContainerName := ci_ContainerName c |}
  end.

Definition String (ci : option ContainerIdent) : string :=
  match ci with
  | None => ""
  | Some c => ci_Namespace c +:+ "/" +:+ ci_PodName c +:+ "/" +:+ ci_ContainerName c
  end.

Definition ToString (ci : option ContainerIdent) : string :=
  match ci with
  | None => "<nil>"
  | Some c =>
      if bool_decide (ci_Namespace c = "") || bool_decide (ci_PodName c = "") then "NONE"
      else
        let ident := ci_Namespace c +:+ "/" +:+ ci_PodName c in
        if bool_decide (ci_ContainerName c = "") then ident
        else ident +:+ "/" +:+ ci_ContainerName c
  end.

Definition IsEmpty (ci : option ContainerIdent) : bool :=
  match ci with
  | None => true
  | Some c => bool_decide (ci_Namespace c = "") || bool_decide (ci_PodName c = "")
              || bool_decide (ci_ContainerName c = "")
  end.

(** [os.Getenv]: the empty string when the variable is not set. *)
Definition Getenv (env : gmap string string) (key : string) : string :=
  default "" (env !! key).

Definition ContainerIdentFromEnv (env : gmap string string) : option ContainerIdent :=
  let cntIdent := {| ci_Namespace := Getenv env "REFERENCE_NAMESPACE";
                     ci_PodName := Getenv env "REFERENCE_POD_NAME";
                     ci_ContainerName := Getenv env "REFERENCE_CONTAINER_NAME" |} in
  if IsEmpty (Some cntIdent) then None else Some cntIdent.

Definition ContainerIdentFromString (ident : string) : outcome (option ContainerIdent) :=
  if bool_decide (ident = "") then Ok None
  else
    match Split ident "/" with
    | [i0; i1; i2] =>
        Ok (Some {| ci_Namespace := TrimSpace i0;
                    ci_PodName := TrimSpace i1;
                    ci_ContainerName := TrimSpace i2 |})
    | _ => Err (Errorf ("malformed ident: " +:+ Sprintf_q ident))
    end.

Section pool.
Context `{CPUSetLib}.

(** [int] and [int64] have the same width: the conversions are the
    identity. *)
Definition newCPUSetInt64 (cpus : list Z) : CPUSet :=
  cpuset_New (foldl (λ cpuList cpu, cpuList ++ [cpu]) [] cpus).

Definition removeCPUs (cpuIDs : list Z) (toRemove : CPUSet) : list Z :=
  let cs := newCPUSetInt64 cpuIDs in
  let res := cpuset_Difference cs toRemove in
  foldl (λ cpuList cpu, cpuList ++ [cpu]) [] (cpuset_List res).

(** The first container that carries the reference name. *)
Fixpoint findContainer (name : string) (cnts : list ContainerResources) : option CPUSet :=
  match cnts with
  | [] => None
  | cntRes :: rest =>
      if bool_decide (cr_Name cntRes = name) then Some (newCPUSetInt64 (cr_CpuIds cntRes))
      else findContainer name rest
  end.

Fixpoint findInPods (ref : ContainerIdent) (podResources : list PodResources) : CPUSet :=
  match podResources with
  | [] => cpuset_New []
  | podRes :: rest =>
      if negb (bool_decide (pr_Namespace podRes = ci_Namespace ref)) then findInPods ref rest
      else if negb (bool_decide (pr_Name podRes = ci_PodName ref)) then findInPods ref rest
      else
        match findContainer (ci_ContainerName ref) (pr_Containers podRes) with
        | Some cpus => cpus
        | None => findInPods ref rest
        end
  end.

Definition findSharedPoolCPUsInListResponse (refCnt : option ContainerIdent)
  (podResources : list PodResources) : CPUSet :=
  match refCnt with
  | None => cpuset_New []
  | Some ref => findInPods ref podResources
  end.

Definition set_CpuIds (cntRes : ContainerResources) (cpus : list Z) : ContainerResources :=
  {| cr_Name := cr_Name cntRes; cr_Devices := cr_Devices cntRes;
     cr_CpuIds := cpus; cr_Memory := cr_Memory cntRes |}.

Definition set_Containers (podRes : PodResources) (cnts : list ContainerResources) : PodResources :=
  {| pr_Name := pr_Name podRes; pr_Namespace := pr_Namespace podRes; pr_Containers := cnts |}.

Record filteringClient (C : Type) := {
  debug : bool;
  cli : C;
  refCnt : option ContainerIdent;
  sharedPoolCPUs : CPUSet
}.
Arguments debug {C}.
Arguments cli {C}.
Arguments refCnt {C}.
Arguments sharedPoolCPUs {C}.
Arguments Build_filteringClient {C}.

Context {C : Type} `{PodResourcesListerClient C}.
Implicit Types fc : filteringClient C.

Definition with_cli fc (c : C) : filteringClient C :=
  {| debug := debug fc; cli := c; refCnt := refCnt fc; sharedPoolCPUs := sharedPoolCPUs fc |}.

Definition with_pool fc (cpus : CPUSet) : filteringClient C :=
  {| debug := debug fc; cli := cli fc; refCnt := refCnt fc; sharedPoolCPUs := cpus |}.

(** The containers of the response are changed in place: the response that
    comes back is the one that was given, with new CPU lists. *)
Definition FilterListResponse fc (resp : ListPodResourcesResponse)
  : filteringClient C * ListPodResourcesResponse :=
  let sharedPool := findSharedPoolCPUsInListResponse (refCnt fc) (lr_PodResources resp) in
  let fc' := if negb (cpuset_Equals (sharedPoolCPUs fc) sharedPool)
             then with_pool fc sharedPool else fc in
  (fc',
   {| lr_PodResources :=
        (λ podRes, set_Containers podRes
           ((λ cntRes, set_CpuIds cntRes (removeCPUs (cr_CpuIds cntRes) sharedPool))
              <$> pr_Containers podRes))
        <$> lr_PodResources resp |}).

Definition FilterAllocatableResponse fc (resp : AllocatableResourcesResponse) := resp.

Definition FilterGetResponse fc (resp : GetPodResourcesResponse) := resp.

Definition List fc : filteringClient C * outcome ListPodResourcesResponse :=
  let '(c, resp) := cli_List (cli fc) in
  let fc := with_cli fc c in
  match resp with
  | Ok r => let '(fc', r') := FilterListResponse fc r in (fc', Ok r')
  | _ => (fc, resp)
  end.

Definition GetAllocatableResources fc : filteringClient C * outcome AllocatableResourcesResponse :=
  let '(c, resp) := cli_GetAllocatableResources (cli fc) in
  (with_cli fc c, let! r := resp in Ok (FilterAllocatableResponse fc r)).

Definition Get (req : GetPodResourcesRequest) fc : filteringClient C * outcome GetPodResourcesResponse :=
  let '(c, resp) := cli_Get req (cli fc) in
  (with_cli fc c, let! r := resp in Ok (FilterGetResponse fc r)).

#[global] Instance lister : PodResourcesListerClient (filteringClient C) :=
  {| cli_List := List; cli_GetAllocatableResources := GetAllocatableResources; cli_Get := Get |}.

Definition NewFromLister (c : C) (dbg : bool) (referenceContainer : option ContainerIdent)
  : filteringClient C :=
  {| debug := dbg; cli := c; refCnt := referenceContainer; sharedPoolCPUs := cpuset_New [] |}.
End pool.

Arguments debug {_ C}.
Arguments cli {_ C}.
Arguments refCnt {_ C}.
Arguments sharedPoolCPUs {_ C}.

(** *** What the shared pool filter leaves *)

Lemma foldl_snoc {A} (l acc : list A) : foldl (λ xs x, xs ++ [x]) acc l = acc ++ l.
Proof.
  revert acc. induction l as [|x l IH]; intros acc; simpl; [by rewrite app_nil_r|].
  by rewrite IH, <-app_assoc.
Qed.

Section facts.
Context `{CPUSetLaws}.

Lemma newCPUSetInt64_eq cpus : newCPUSetInt64 cpus = cpuset_New cpus.
Proof. unfold newCPUSetInt64. by rewrite foldl_snoc. Qed.

Lemma elem_of_removeCPUs cpuIDs toRemove z :
  z ∈ removeCPUs cpuIDs toRemove ↔ z ∈ cpuIDs ∧ z ∉ cpuset_List toRemove.
Proof.
  unfold removeCPUs. rewrite foldl_snoc. simpl.
  by rewrite cpuset_List_Difference, newCPUSetInt64_eq, cpuset_List_New.
Qed.

Lemma removeCPUs_sorted cpuIDs toRemove : StronglySorted Z.lt (removeCPUs cpuIDs toRemove).
Proof. unfold removeCPUs. rewrite foldl_snoc. apply cpuset_List_sorted. Qed.

(** The CPUs of the container the reference names, if it is listed. *)
Definition reference_cpus (ref : ContainerIdent) (pods : list PodResources) (z : Z) : Prop :=
  ∃ podRes cntRes, podRes ∈ pods ∧ cntRes ∈ pr_Containers podRes ∧
    pr_Namespace podRes = ci_Namespace ref ∧ pr_Name podRes = ci_PodName ref ∧
    cr_Name cntRes = ci_ContainerName ref ∧ z ∈ cr_CpuIds cntRes.

Lemma findContainer_None name cnts :
  findContainer name cnts = None ↔ ∀ cnt, cnt ∈ cnts → cr_Name cnt ≠ name.
Proof.
  induction cnts as [|cnt cnts IH]; simpl; [set_solver|].
  setoid_rewrite elem_of_cons. case_bool_decide; naive_solver.
Qed.

Lemma findContainer_Some name cnts cpus :
  findContainer name cnts = Some cpus →
  ∃ cnt, cnt ∈ cnts ∧ cr_Name cnt = name ∧ cpus = cpuset_New (cr_CpuIds cnt).
Proof.
  induction cnts as [|cnt cnts IH]; simpl; [done|].
  setoid_rewrite elem_of_cons. case_bool_decide.
  - intros [= <-]. rewrite newCPUSetInt64_eq. naive_solver.
  - naive_solver.
Qed.

Lemma findInPods_sound ref pods z :
  z ∈ cpuset_List (findInPods ref pods) → reference_cpus ref pods z.
Proof.
  unfold reference_cpus. induction pods as [|podRes pods IH]; simpl.
  { rewrite cpuset_List_New. set_solver. }
  setoid_rewrite elem_of_cons.
  case_bool_decide as Hns; simpl; [|naive_solver].
  case_bool_decide as Hn; simpl; [|naive_solver].
  destruct (findContainer _ _) as [cpus|] eqn:Hf; [|naive_solver].
  apply findContainer_Some in Hf as (cnt & Hin & Hname & ->).
  rewrite cpuset_List_New. naive_solver.
Qed.

Lemma findInPods_complete ref pods :
  (∀ p c, p ∈ pods → c ∈ pr_Containers p → pr_Namespace p = ci_Namespace ref →
    pr_Name p = ci_PodName ref → cr_Name c ≠ ci_ContainerName ref) ∨
  (∃ p c, p ∈ pods ∧ c ∈ pr_Containers p ∧ pr_Namespace p = ci_Namespace ref ∧
    pr_Name p = ci_PodName ref ∧ cr_Name c = ci_ContainerName ref ∧
    ∀ z, z ∈ cr_CpuIds c → z ∈ cpuset_List (findInPods ref pods)).
Proof.
  induction pods as [|podRes pods IH]; simpl; [left; set_solver|].
  setoid_rewrite elem_of_cons.
  case_bool_decide as Hns; simpl; [|naive_solver].
  case_bool_decide as Hn; simpl; [|naive_solver].
  destruct (findContainer _ _) as [cpus|] eqn:Hf.
  - apply findContainer_Some in Hf as (cnt & Hin & Hname & ->). right.
    exists podRes, cnt. split_and!; [by left|done..|]. intros z Hz. by rewrite cpuset_List_New.
  - rewrite findContainer_None in Hf. naive_solver.
Qed.

Definition shared_pool (fc_ref : option ContainerIdent) (pods : list PodResources) : list Z :=
  cpuset_List (findSharedPoolCPUsInListResponse fc_ref pods).

Lemma FilterListResponse_pods {C} (fc : filteringClient C) resp :
  lr_PodResources (FilterListResponse fc resp).2 =
  (λ podRes, set_Containers podRes
     ((λ cnt, set_CpuIds cnt (removeCPUs (cr_CpuIds cnt)
         (findSharedPoolCPUsInListResponse (refCnt fc) (lr_PodResources resp))))
      <$> pr_Containers podRes)) <$> lr_PodResources resp.
Proof. done. Qed.
End facts.

Definition trimmed (s : string) : Prop := TrimSpace s = s.

Lemma ContainerIdent_parse_print ci :
  free_of "/" (ci_Namespace ci) → free_of "/" (ci_PodName ci) →
  free_of "/" (ci_ContainerName ci) →
  trimmed (ci_Namespace ci) → trimmed (ci_PodName ci) → trimmed (ci_ContainerName ci) →
  ContainerIdentFromString (String (Some ci)) = Ok (Some ci).
Proof.
  intros F1 F2 F3 T1 T2 T3. unfold ContainerIdentFromString.
  assert (String (Some ci) ≠ "") as Hne.
  { simpl. by destruct (ci_Namespace ci). }
  rewrite bool_decide_false by done.
  assert (Split (String (Some ci)) "/" = [ci_Namespace ci; ci_PodName ci; ci_ContainerName ci])
    as ->.
  { rewrite <-(Split_Join "/" [ci_Namespace ci; ci_PodName ci; ci_ContainerName ci]);
      [done..|]. by repeat constructor. }
  rewrite T1, T2, T3. by destruct ci.
Qed.

End SharedCPUs.

(** ** The stack of [main]

    The variable [cli] of [main] has an interface type: its value is the
    client it held, or that client wrapped once more. *)
#[global] Instance either_lister {A B} `{PodResourcesListerClient A} `{PodResourcesListerClient B}
  : PodResourcesListerClient (A + B) := {|
  cli_List c := match c with
    | inl a => let '(a', r) := cli_List a in (inl a', r)
    | inr b => let '(b', r) := cli_List b in (inr b', r)
    end;
  cli_GetAllocatableResources c := match c with
    | inl a => let '(a', r) := cli_GetAllocatableResources a in (inl a', r)
    | inr b => let '(b', r) := cli_GetAllocatableResources b in (inr b', r)
    end;
  cli_Get req c := match c with
    | inl a => let '(a', r) := cli_Get req a in (inl a', r)
    | inr b => let '(b', r) := cli_Get req b in (inr b', r)
    end
|}.

Module Stack.
Abbreviation Pooled C := (SharedCPUs.filteringClient C).
Abbreviation Excluded C := (Pooled C + PodExclude.filteringClient (Pooled C))%type.
Abbreviation Client C := (Excluded C + TerminalPods.filteringClient (Excluded C))%type.

Section stack.
Context `{CPUSetLib} {C : Type} `{PodResourcesListerClient C}.

Definition wrapClient (c : C) (debug : bool) (refCnt : option SharedCPUs.ContainerIdent)
  (podExclude : list PodExclude.Item) (excludeTerminalPods : bool)
  (informer : outcome (list TerminalPods.Pod)) : Client C :=
  let pooled : Pooled C := SharedCPUs.NewFromLister c debug refCnt in
  let excluded : Excluded C :=
    if (0 <? length podExclude)%nat
    then inr (PodExclude.NewFromLister pooled debug podExclude) else inl pooled in
  if excludeTerminalPods
  then inr {| TerminalPods.debug := debug; TerminalPods.cli := excluded;
              TerminalPods.informer := informer |}
  else inl excluded.

(** What the monitor sees of the kubelet's answer [pods]. *)
Definition visible_pods (debug : bool) (refCnt : option SharedCPUs.ContainerIdent)
  (podExclude : list PodExclude.Item) (terminal : list TerminalPods.Pod)
  (pods : list PodResources) : list PodResources :=
  let pool := SharedCPUs.findSharedPoolCPUsInListResponse refCnt pods in
  List.filter (λ pr, negb (TerminalPods.found terminal pr))
    (List.filter (PodExclude.keeps podExclude debug)
      ((λ podRes, SharedCPUs.set_Containers podRes
          ((λ cnt, SharedCPUs.set_CpuIds cnt (SharedCPUs.removeCPUs (cr_CpuIds cnt) pool))
             <$> pr_Containers podRes)) <$> pods)).

Lemma keeps_nil dbg pr : PodExclude.keeps [] dbg pr = true.
Proof. done. Qed.

Lemma filter_true {A} (f : A → bool) (l : list A) :
  (∀ x, f x = true) → List.filter f l = l.
Proof. intros Hf. induction l as [|x l IH]; simpl; [done|]. by rewrite Hf, IH. Qed.

Lemma pooled_list (c : C) debug refCnt :
  (cli_List (SharedCPUs.NewFromLister c debug refCnt)).2 =
  (let! r := (cli_List c).2 in
   Ok (SharedCPUs.FilterListResponse (SharedCPUs.NewFromLister c debug refCnt) r).2).
Proof.
  simpl. unfold SharedCPUs.List. simpl.
  by destruct (cli_List c) as [c' [r|e|w]].
Qed.

Lemma excluded_list (p : Pooled C) debug podExclude :
  (cli_List (PodExclude.NewFromLister p debug podExclude)).2 =
  (let! r := (cli_List p).2 in
   Ok (PodExclude.FilterListResponse (PodExclude.NewFromLister p debug podExclude) r)).
Proof.
  simpl. unfold PodExclude.List. simpl.
  by destruct (SharedCPUs.List p) as [c' [r|e|w]].
Qed.
End stack.
End Stack.

(** ** Theorems *)

(** C6: what the stack of middlewares answers: whenever the kubelet answers
    with [pods], the client [main] builds answers with these pods, the shared
    pool removed from every CPU list, then the excluded pods dropped, then the
    terminal pods dropped, in the kubelet's order. *)
Theorem wrapClient_List `{CPUSetLib} {C} `{PodResourcesListerClient C} (c : C) debug refCnt
    podExclude excludeTerminalPods terminal pods
    (Hlist : (cli_List c).2 = Ok {| lr_PodResources := pods |}) :
  (cli_List (Stack.wrapClient c debug refCnt podExclude excludeTerminalPods (Ok terminal))).2 =
  Ok {| lr_PodResources :=
          Stack.visible_pods debug refCnt podExclude
            (if excludeTerminalPods then terminal else []) pods |}.
Proof.
  assert ((cli_List (if (0 <? length podExclude)%nat
            then inr (PodExclude.NewFromLister (SharedCPUs.NewFromLister c debug refCnt)
                        debug podExclude)
            else inl (SharedCPUs.NewFromLister c debug refCnt) : Stack.Excluded C)).2
          = Ok {| lr_PodResources := Stack.visible_pods debug refCnt podExclude [] pods |}) as Hex.
  { unfold Stack.visible_pods. rewrite (Stack.filter_true (λ pr, negb _)) by done.
    destruct podExclude as [|item items].
    - rewrite (Stack.filter_true (PodExclude.keeps [] debug)) by apply Stack.keeps_nil.
      pose proof (Stack.pooled_list c debug refCnt) as Hp.
      rewrite Hlist in Hp. simpl in *. by destruct (SharedCPUs.List _).
    - pose proof (Stack.pooled_list c debug refCnt) as Hp.
      pose proof (Stack.excluded_list (SharedCPUs.NewFromLister c debug refCnt) debug
                    (item :: items)) as He.
      rewrite Hp, Hlist in He. simpl in *.
      destruct (PodExclude.List _) as [? r]. simpl in *. rewrite He. do 2 f_equal.
      unfold PodExclude.FilterListResponse. simpl. by rewrite PodExclude.foldl_filter. }
  unfold Stack.wrapClient. cbv zeta.
  set (ex := if (0 <? length podExclude)%nat then inr _ else inl _) in *. clearbody ex.
  destruct (cli_List ex) as [c' r] eqn:Hc. simpl in Hex. subst r.
  destruct excludeTerminalPods.
  - cbn [cli_List either_lister TerminalPods.lister].
    unfold TerminalPods.List. cbn [TerminalPods.cli TerminalPods.informer].
    rewrite Hc. simpl. do 2 f_equal. unfold Stack.visible_pods, TerminalPods.FilterFrom. simpl.
    by rewrite PodExclude.foldl_filter, (Stack.filter_true (λ pr, negb (TerminalPods.found [] pr))).
  - cbn [cli_List either_lister]. cbn [cli_List either_lister] in Hc. by rewrite Hc.
Qed.

Definition example_cpuset : CPUSetLib := {|
  CPUSet := gset Z;
  cpuset_New := list_to_set;
  cpuset_Difference := difference;
  cpuset_List s := merge_sort Z.le (elements s);
  cpuset_Equals s t := bool_decide (s = t)
|}.

Lemma merge_sort_strict (l : list Z) : NoDup l → StronglySorted Z.lt (merge_sort Z.le l).
Proof.
  intros Hnd.
  pose proof (StronglySorted_merge_sort Z.le l) as Hs.
  rewrite <-(merge_sort_Permutation Z.le l) in Hnd.
  induction Hs as [|x l' Hs IH Hall]; [constructor|].
  apply NoDup_cons in Hnd as [Hx Hnd]. constructor; [by apply IH|].
  rewrite Forall_forall in *. intros y Hy. specialize (Hall y Hy).
  assert (x ≠ y) by (intros ->; done). lia.
Qed.

Lemma example_cpuset_laws : @CPUSetLaws example_cpuset.
Proof.
  split; simpl.
  - intros l z. rewrite merge_sort_Permutation. set_solver.
  - intros s t z. rewrite !merge_sort_Permutation. set_solver.
  - intros s. apply merge_sort_strict, NoDup_elements.
Qed.

Definition example_pod (ns name : string) (cpus : list Z) : PodResources :=
  {| pr_Name := name; pr_Namespace := ns;
     pr_Containers := [{| cr_Name := "c0"; cr_Devices := []; cr_CpuIds := cpus; cr_Memory := [] |}] |}.

Definition example_client (pods : list PodResources) : MockClient :=
  {| mock_lists := [Ok {| lr_PodResources := pods |}]; mock_allocs := []; mock_gets := [] |}.

Definition example_ref : SharedCPUs.ContainerIdent :=
  {| SharedCPUs.ci_Namespace := "rte"; SharedCPUs.ci_PodName := "ref";
     SharedCPUs.ci_ContainerName := "c0" |}.

Definition example_pods : list PodResources :=
  [example_pod "rte" "ref" [0; 1]; example_pod "app" "p0" [0; 1; 4; 5];
   example_pod "app" "done" [6]; example_pod "kube-system" "p1" [7]].

Definition example_excludes : list PodExclude.Item :=
  [{| PodExclude.NamespacePattern := "kube-*"; PodExclude.NamePattern := "*" |}].

Lemma wrapClient_List_witness :
  (@cli_List _ (@either_lister _ _ _ _)
     (@Stack.wrapClient example_cpuset _ (example_client example_pods) false (Some example_ref)
        example_excludes true
        (Ok [{| TerminalPods.pod_Namespace := "app"; TerminalPods.pod_Name := "done" |}]))).2 =
  Ok {| lr_PodResources := [example_pod "rte" "ref" []; example_pod "app" "p0" [4; 5]] |}.
Proof.
  rewrite (@wrapClient_List example_cpuset _ _ (example_client example_pods) false
             (Some example_ref) example_excludes true
             [{| TerminalPods.pod_Namespace := "app"; TerminalPods.pod_Name := "done" |}]
             example_pods); [|reflexivity].
  vm_compute. reflexivity.
Defined.

(** An excluded pod is one that some item of the exclude list names: both
    its namespace glob and its name glob match.  Malformed globs match
    nothing, and the debug flag makes no difference. *)
Theorem ShouldExclude_correct podExcludes namespace name debug :
  PodExclude.ShouldExclude podExcludes namespace name debug = true ↔
  ∃ item, item ∈ podExcludes ∧
    Match (PodExclude.NamespacePattern item) namespace = (true, None) ∧
    Match (PodExclude.NamePattern item) name = (true, None).
Proof.
  rewrite PodExclude.ShouldExclude_spec, Exists_exists. unfold PodExclude.item_matches.
  assert (∀ p n, (Match p n).1 = true ↔ Match p n = (true, None)) as Hm.
  { intros p n. pose proof (Match_err_false p n) as He.
    destruct (Match p n) as [[] [e|]]; simpl in *; naive_solver. }
  by setoid_rewrite Hm.
Qed.



(** The pool is the reference container's: every CPU of the pool belongs to
    a listed container with the reference's namespace, pod and container
    name, and when such a container is listed, all the CPUs of one of them
    are in the pool; without a reference the pool is empty. *)
Theorem shared_pool_correct `{CPUSetLaws} (refCnt : option SharedCPUs.ContainerIdent) pods :
  match refCnt with
  | None => ∀ z, z ∉ SharedCPUs.shared_pool refCnt pods
  | Some ref =>
      (∀ z, z ∈ SharedCPUs.shared_pool refCnt pods → SharedCPUs.reference_cpus ref pods z) ∧
      ((∃ z, SharedCPUs.reference_cpus ref pods z) →
       ∃ p c, p ∈ pods ∧ c ∈ pr_Containers p ∧
         pr_Namespace p = SharedCPUs.ci_Namespace ref ∧ pr_Name p = SharedCPUs.ci_PodName ref ∧
         cr_Name c = SharedCPUs.ci_ContainerName ref ∧
         ∀ z, z ∈ cr_CpuIds c → z ∈ SharedCPUs.shared_pool refCnt pods)
  end.
Proof.
  unfold SharedCPUs.shared_pool. destruct refCnt as [ref|]; simpl.
  - split; [intros z; apply SharedCPUs.findInPods_sound|].
    intros (z & p & c & Hp & Hc & Hns & Hn & Hcn & _).
    destruct (SharedCPUs.findInPods_complete ref pods) as [Hno|Hyes]; [|done].
    by destruct (Hno p c).
  - intros z. rewrite cpuset_List_New. set_solver.
Qed.

Lemma shared_pool_correct_witness :
  SharedCPUs.reference_cpus example_ref example_pods 1.
Proof.
  apply (proj1 (@shared_pool_correct example_cpuset example_cpuset_laws (Some example_ref) example_pods) 1).
  apply (bool_decide_unpack _). vm_compute. exact I.
Defined.

(** The printed form of a container identity is parsed back to the same
    identity, when its parts hold no slash and no surrounding white space. *)
Theorem ContainerIdent_roundtrip ci
    (Hslash : Forall (λ s, free_of "/" s)
      [SharedCPUs.ci_Namespace ci; SharedCPUs.ci_PodName ci; SharedCPUs.ci_ContainerName ci])
    (Htrim : Forall SharedCPUs.trimmed
      [SharedCPUs.ci_Namespace ci; SharedCPUs.ci_PodName ci; SharedCPUs.ci_ContainerName ci]) :
  SharedCPUs.ContainerIdentFromString (SharedCPUs.String (Some ci)) = Ok (Some ci).
Proof.
  rewrite !Forall_cons in Hslash. rewrite !Forall_cons in Htrim.
  destruct Hslash as (? & ? & ? & _), Htrim as (? & ? & ? & _).
  by apply SharedCPUs.ContainerIdent_parse_print.
Qed.

Lemma ContainerIdent_roundtrip_witness :
  SharedCPUs.ContainerIdentFromString "rte/ref/c0" = Ok (Some example_ref).
Proof.
  apply (ContainerIdent_roundtrip example_ref); repeat constructor.
Defined.
