(* ===== verification/Counters.v ===== *)
(** * Per-NUMA resource counters

    The pure part of [pkg/resourcemonitor/resourcemonitor.go]: the exclude
    list, the flattening of the podresources messages into lists of container
    devices, their accounting per NUMA node and resource, and the queries on
    the machine topology. *)

From S2P Require Import Prelude GoStrings PodRes.

(** ** The machine topology (the fields of [ghw]'s topology the code reads) *)

Record Core := { LogicalProcessors : list Z }.

Record Node := {
  node_ID : Z;
  node_Cores : list Core;
  node_Distances : list Z
}.

Record Info := { topo_Nodes : list Node }.

(** ** Resource names *)

Definition ResourceCPU : string := "cpu".
Definition ResourceMemory : string := "memory".
Definition ResourceHugePagesPrefix : string := "hugepages-".

Definition isNativeResource (resName : string) : bool :=
  bool_decide (resName = ResourceCPU) || bool_decide (resName = ResourceMemory)
  || HasPrefix resName ResourceHugePagesPrefix.

(** Resources counted by size and not by number of devices. *)
Definition isMemoryResource (resourceName : string) : bool :=
  bool_decide (resourceName = ResourceMemory) || HasPrefix resourceName ResourceHugePagesPrefix.

(** ** The exclude list *)

Module ResourceExclude.
Section exclude.
Context `{MapOrder}.
Implicit Types re : gmap string (list string).

Definition Clone re : gmap string (list string) :=
  foldl (λ ret kv, <[kv.1 := [] ++ kv.2]> ret) ∅ (range re).

Definition ToMapSet re : gmap string (gset string) :=
  foldl (λ asSet kv, <[kv.1 := list_to_set kv.2]> asSet) ∅ (range re).

Definition String re : string :=
  foldl (λ b kv, b +:+ "- " +:+ kv.1 +:+ ": [" +:+ Join kv.2 ", " +:+ "]" +:+ newline) "" (range re).
End exclude.
End ResourceExclude.

Definition inExcludeSet (excludeSet : gmap string (gset string)) (resName nodeName : string) : bool :=
  match excludeSet !! "*" with
  | Some set => bool_decide (resName ∈ set)
  | None => false
  end ||
  match excludeSet !! nodeName with
  | Some set => bool_decide (resName ∈ set)
  | None => false
  end.

(** ** Counters *)

Section strings.
Context `{MapOrder}.

Definition resourceCounter_String (rc : gmap string Z) : string :=
  let sb := foldl (λ sb kv, sb +:+ ", " +:+ kv.1 +:+ "=" +:+ Sprintf_d kv.2) "" (range rc) in
  if (size rc =? 0)%nat then "" else string_drop 2 sb.

Definition perNUMAResourceCounter_String (nrc : gmap Z (gmap string Z)) : string :=
  let sb := foldl (λ sb kv, sb +:+ "; " +:+ Sprintf_d kv.1 +:+ "=<"
                      +:+ resourceCounter_String kv.2 +:+ ">") "" (range nrc) in
  if (size nrc =? 0)%nat then "" else string_drop 2 sb.
End strings.

(** The amount a device adds to its NUMA nodes: the sum of its block sizes
    for memory and hugepages, the number of its ids otherwise. *)
Definition deviceAmount (device : ContainerDevices) : Z :=
  if isMemoryResource (cd_ResourceName device)
  then foldl (λ memSize devBlock, wrap64 (memSize + (ParseInt devBlock).1)) 0 (cd_DeviceIds device)
  else Z.of_nat (length (cd_DeviceIds device)).

(** The body of the loop over the NUMA nodes of a device. *)
Definition addToNode (perNUMARc : gmap Z (gmap string Z)) (nodeID : Z) (resourceName : string)
  (amount : Z) : gmap Z (gmap string Z) :=
  let nodeRes := default ∅ (perNUMARc !! nodeID) in
  <[nodeID := <[resourceName := wrap64 (default 0 (nodeRes !! resourceName) + amount)]> nodeRes]>
    perNUMARc.

Definition ContainerDevicesToPerNUMAResourceCounters (devices : list ContainerDevices)
  : gmap Z (gmap string Z) :=
  foldl (λ perNUMARc device,
           foldl (λ perNUMARc node,
                    addToNode perNUMARc (numa_ID node) (cd_ResourceName device) (deviceAmount device))
                 perNUMARc (GetNodes (cd_Topology device)))
        ∅ devices.

(** ** Flattening the messages *)

Definition onNode (nodeID : Z) : option TopologyInfo :=
  Some {| ti_Nodes := [{| numa_ID := nodeID |}] |}.

(** The CPUs of each NUMA node; a CPU the topology does not know is skipped. *)
Definition groupCPUs (cpuIds : list Z) (coreIDToNodeIDMap : gmap Z Z) : gmap Z (list string) :=
  foldl (λ cpusPerNuma cpuID,
           match coreIDToNodeIDMap !! cpuID with
           | None => cpusPerNuma
           | Some nodeID =>
               <[nodeID := default [] (cpusPerNuma !! nodeID) ++ [Sprintf_d cpuID]]> cpusPerNuma
           end) ∅ cpuIds.

Definition cpuDevices (nodeID : Z) (cpuList : list string) : ContainerDevices :=
  {| cd_ResourceName := ResourceCPU; cd_DeviceIds := cpuList; cd_Topology := onNode nodeID |}.

Definition blockDevices (block : ContainerMemory) : list ContainerDevices :=
  if cm_Size block =? 0 then []
  else (λ node, {| cd_ResourceName := cm_MemoryType block;
                   cd_DeviceIds := [Sprintf_d (cm_Size block)];
                   cd_Topology := onNode (numa_ID node) |}) <$> GetNodes (cm_Topology block).

Section normalize.
Context `{MapOrder}.

Definition NormalizeContainerDevices (devices : list ContainerDevices)
  (memoryBlocks : list ContainerMemory) (cpuIds : list Z) (coreIDToNodeIDMap : gmap Z Z)
  : list ContainerDevices :=
  let contDevs := [] ++ devices in
  let cpusPerNuma := groupCPUs cpuIds coreIDToNodeIDMap in
  let contDevs := foldl (λ contDevs kv, contDevs ++ [cpuDevices kv.1 kv.2])
                        contDevs (range cpusPerNuma) in
  foldl (λ contDevs block, contDevs ++ blockDevices block) contDevs memoryBlocks.

(** The devices of the containers of a pod. *)
Definition podDevices (coreIDToNodeIDMap : gmap Z Z) (pr : PodResources) : list ContainerDevices :=
  foldl (λ acc cnt, acc ++ NormalizeContainerDevices (cr_Devices cnt) (cr_Memory cnt)
                              (cr_CpuIds cnt) coreIDToNodeIDMap)
        [] (pr_Containers pr).

Definition GetAllContainerDevices (podRes : list PodResources) (namespace : string)
  (coreIDToNodeIDMap : gmap Z Z) : list ContainerDevices :=
  foldl (λ allCntRes pr,
           if negb (bool_decide (namespace = "")) && negb (bool_decide (namespace = pr_Namespace pr))
           then allCntRes
           else allCntRes ++ podDevices coreIDToNodeIDMap pr)
        [] podRes.
End normalize.

(** ** Topology queries *)

Definition MakeCoreIDToNodeIDMap (topo : Info) : gmap Z Z :=
  foldl (λ coreToNode node,
           foldl (λ coreToNode core,
                    foldl (λ coreToNode procID, <[procID := node_ID node]> coreToNode)
                          coreToNode (LogicalProcessors core))
                 coreToNode (node_Cores node))
        ∅ (topo_Nodes topo).

Fixpoint findNodeByID (nodes : list Node) (nodeID : Z) : option Node :=
  match nodes with
  | [] => None
  | node :: rest => if bool_decide (node_ID node = nodeID) then Some node
                    else findNodeByID rest nodeID
  end.

(** [nodeSrc.Cores] on the nil node a failed search returns is a panic. *)
Definition cpuCapacity (topo : Info) (nodeID : Z) : outcome Z :=
  match findNodeByID (topo_Nodes topo) nodeID with
  | None => Panic "nil pointer dereference: nodeSrc.Cores"
  | Some nodeSrc =>
      Ok (wrap64 (foldl (λ n core, wrap64 (n + Z.of_nat (length (LogicalProcessors core))))
                        0 (node_Cores nodeSrc)))
  end.

Definition makeZoneName (nodeID : Z) : string := "node-" +:+ Sprintf_d nodeID.

Record CostInfo := { cost_Name : string; cost_Value : Z }.

Definition makeCostsPerNumaNode (nodes : list Node) (nodeIDSrc : Z) : outcome (list CostInfo) :=
  match findNodeByID nodes nodeIDSrc with
  | None => Err (Errorf ("unknown node: " +:+ Sprintf_d nodeIDSrc))
  | Some nodeSrc =>
      Ok (imap (λ nodeIDDst dist, {| cost_Name := makeZoneName (Z.of_nat nodeIDDst);
                                     cost_Value := dist |})
               (node_Distances nodeSrc))
  end.

(** ** The accounting as a sum of charges

    Each NUMA node of each device is one charge: a node, a resource and an
    amount. *)

Definition charge : Type := Z * string * Z.

Definition device_charges (device : ContainerDevices) : list charge :=
  (λ node, (numa_ID node, cd_ResourceName device, deviceAmount device))
    <$> GetNodes (cd_Topology device).

Definition charges (devices : list ContainerDevices) : list charge :=
  devices ≫= device_charges.

Definition apply_charge (m : gmap Z (gmap string Z)) (c : charge) : gmap Z (gmap string Z) :=
  addToNode m c.1.1 c.1.2 c.2.

Definition charged (n : Z) (r : string) (cs : list charge) : list Z :=
  (λ c, c.2) <$> base.filter (λ c : charge, c.1.1 = n ∧ c.1.2 = r) cs.

(** The reference definition of a counter: the sum of the charges to it. *)
Definition total (n : Z) (r : string) (cs : list charge) : Z := Zsum (charged n r cs).

Lemma counters_charges devices :
  ContainerDevicesToPerNUMAResourceCounters devices = foldl apply_charge ∅ (charges devices).
Proof.
  unfold ContainerDevicesToPerNUMAResourceCounters, charges.
  generalize (∅ : gmap Z (gmap string Z)) as m.
  induction devices as [|d devices IH]; intros m; [done|].
  rewrite bind_cons, foldl_app. cbn [foldl]. rewrite IH. f_equal.
  unfold device_charges. generalize (GetNodes (cd_Topology d)) as nodes.
  revert m. clear. intros m nodes. revert m.
  induction nodes as [|n nodes IH]; intros m; [done|]. simpl. by rewrite IH.
Qed.

Lemma lookup2_addToNode m n r a n' r' :
  lookup2 (addToNode m n r a) n' r' =
  if decide (n = n' ∧ r = r') then Some (wrap64 (default 0 (lookup2 m n r) + a))
  else lookup2 m n' r'.
Proof.
  unfold lookup2, addToNode. destruct (decide (n = n')) as [<-|Hn].
  - rewrite lookup_insert_eq. simpl. destruct (decide (r = r')) as [<-|Hr].
    + rewrite lookup_insert_eq, decide_True by done. by destruct (m !! n).
    + rewrite lookup_insert_ne by done. rewrite decide_False by naive_solver.
      by destruct (m !! n).
  - rewrite lookup_insert_ne by done. by rewrite decide_False by naive_solver.
Qed.

Lemma charged_cons_eq n r a cs : charged n r ((n, r, a) :: cs) = a :: charged n r cs.
Proof. unfold charged. by rewrite filter_cons_True. Qed.

Lemma charged_cons_ne n r c cs :
  ¬ (c.1.1 = n ∧ c.1.2 = r) → charged n r (c :: cs) = charged n r cs.
Proof. intros Hne. unfold charged. by rewrite filter_cons_False. Qed.

Lemma charged_nil n r cs :
  (∀ c, c ∈ cs → ¬ (c.1.1 = n ∧ c.1.2 = r)) → charged n r cs = [].
Proof.
  induction cs as [|c cs IH]; intros Hc; [done|].
  rewrite charged_cons_ne by (apply Hc; set_solver). apply IH. set_solver.
Qed.

Lemma charged_app n r cs1 cs2 : charged n r (cs1 ++ cs2) = charged n r cs1 ++ charged n r cs2.
Proof. unfold charged. by rewrite filter_app, fmap_app. Qed.

Lemma total_app n r cs1 cs2 : total n r (cs1 ++ cs2) = total n r cs1 + total n r cs2.
Proof. unfold total. by rewrite charged_app, Zsum_app. Qed.

#[global] Instance charged_perm n r : Proper ((≡ₚ) ==> (≡ₚ)) (charged n r).
Proof. intros c1 c2 Hc. unfold charged. by rewrite Hc. Qed.

#[global] Instance total_perm n r : Proper ((≡ₚ) ==> (=)) (total n r).
Proof. intros c1 c2 Hc. unfold total. by rewrite Hc. Qed.

Lemma lookup2_apply_charges m cs n r :
  lookup2 (foldl apply_charge m cs) n r =
  match charged n r cs with
  | [] => lookup2 m n r
  | _ => Some (wrap64 (default 0 (lookup2 m n r) + total n r cs))
  end.
Proof.
  revert m. induction cs as [|[[n' r'] a] cs IH]; intros m; [done|].
  cbn [foldl]. rewrite IH. unfold apply_charge. simpl.
  rewrite lookup2_addToNode. unfold total.
  destruct (decide (n' = n ∧ r' = r)) as [[-> ->]|Hne].
  - rewrite charged_cons_eq, Zsum_cons. simpl. destruct (charged n r cs) as [|z l].
    + by rewrite Z.add_0_r.
    + rewrite wrap64_add_l. do 2 f_equal. lia.
  - by rewrite charged_cons_ne.
Qed.

(** Each counter is the wrapped sum of the charges to it, and exists exactly
    when there is one. *)
Lemma lookup2_counters devices n r :
  lookup2 (ContainerDevicesToPerNUMAResourceCounters devices) n r =
  match charged n r (charges devices) with
  | [] => None
  | _ => Some (wrap64 (total n r (charges devices)))
  end.
Proof.
  rewrite counters_charges, lookup2_apply_charges. unfold lookup2.
  by rewrite lookup_empty.
Qed.

(** ** The order of the devices does not matter *)

Lemma apply_charge_comm m c1 c2 :
  apply_charge (apply_charge m c1) c2 = apply_charge (apply_charge m c2) c1.
Proof.
  destruct c1 as [[n1 r1] a1], c2 as [[n2 r2] a2].
  unfold apply_charge, addToNode; simpl.
  destruct (decide (n1 = n2)) as [<-|Hn].
  - rewrite !lookup_insert_eq. simpl. rewrite !insert_insert_eq. f_equal.
    destruct (decide (r1 = r2)) as [<-|Hr].
    + rewrite !lookup_insert_eq, !insert_insert_eq. simpl. rewrite !wrap64_add_l.
      do 2 f_equal. lia.
    + rewrite !lookup_insert_ne by done. by rewrite insert_insert_ne.
  - rewrite !lookup_insert_ne by done. by rewrite insert_insert_ne.
Qed.

Lemma apply_charges_perm m cs1 cs2 :
  cs1 ≡ₚ cs2 → foldl apply_charge m cs1 = foldl apply_charge m cs2.
Proof.
  intros Hp. revert m. induction Hp; intros m; simpl; [done|..].
  - apply IHHp.
  - by rewrite apply_charge_comm.
  - by rewrite IHHp1.
Qed.

#[global] Instance charges_perm : Proper ((≡ₚ) ==> (≡ₚ)) charges.
Proof. intros d1 d2 Hd. unfold charges. by rewrite Hd. Qed.

#[global] Instance counters_perm :
  Proper ((≡ₚ) ==> (=)) ContainerDevicesToPerNUMAResourceCounters.
Proof.
  intros d1 d2 Hd. rewrite !counters_charges. apply apply_charges_perm. by rewrite Hd.
Qed.

(** ** What normalization adds *)

Lemma foldl_append {A B} (f : A → list B) (l : list A) (acc : list B) :
  foldl (λ acc x, acc ++ f x) acc l = acc ++ (l ≫= f).
Proof.
  revert acc. induction l as [|x l IH]; intros acc; [by rewrite app_nil_r|].
  cbn [foldl]. by rewrite IH, bind_cons, app_assoc.
Qed.

Lemma bind_singleton {A B} (f : A → B) (l : list A) : (l ≫= λ x, [f x]) = f <$> l.
Proof. induction l as [|x l IH]; [done|]. by rewrite bind_cons, IH. Qed.

Lemma Normalize_eq `{MapOrder} devices memoryBlocks cpuIds coreMap :
  NormalizeContainerDevices devices memoryBlocks cpuIds coreMap =
  devices ++ ((λ kv, cpuDevices kv.1 kv.2) <$> range (groupCPUs cpuIds coreMap))
          ++ (memoryBlocks ≫= blockDevices).
Proof.
  unfold NormalizeContainerDevices.
  by rewrite !foldl_append, bind_singleton, app_nil_l, app_assoc.
Qed.

(** The CPUs of a NUMA node, as the topology map places them. *)
Definition cpus_of_node (coreMap : gmap Z Z) (n : Z) (cpuIds : list Z) : list Z :=
  base.filter (λ c, coreMap !! c = Some n) cpuIds.

Lemma groupCPUs_acc coreMap n cpuIds (m : gmap Z (list string)) :
  (foldl (λ cpusPerNuma cpuID,
           match coreMap !! cpuID with
           | None => cpusPerNuma
           | Some nodeID =>
               <[nodeID := default [] (cpusPerNuma !! nodeID) ++ [Sprintf_d cpuID]]> cpusPerNuma
           end) m cpuIds) !! n =
  match cpus_of_node coreMap n cpuIds with
  | [] => m !! n
  | l => Some (default [] (m !! n) ++ (Sprintf_d <$> l))
  end.
Proof.
  unfold cpus_of_node.
  revert m. induction cpuIds as [|c cpuIds IH]; intros m; [done|]. cbn [foldl].
  rewrite IH. clear IH. destruct (coreMap !! c) as [nodeID|] eqn:Hc.
  - destruct (decide (nodeID = n)) as [->|Hne].
    + rewrite filter_cons_True, lookup_insert_eq by done. simpl.
      destruct (base.filter _ cpuIds); simpl; [done|]. by rewrite <-app_assoc.
    + rewrite filter_cons_False by congruence. by rewrite lookup_insert_ne.
  - by rewrite filter_cons_False by congruence.
Qed.

Lemma lookup_groupCPUs coreMap n cpuIds :
  groupCPUs cpuIds coreMap !! n =
  match cpus_of_node coreMap n cpuIds with
  | [] => None
  | l => Some (Sprintf_d <$> l)
  end.
Proof. unfold groupCPUs. rewrite groupCPUs_acc, lookup_empty. done. Qed.

Lemma charged_keyed {V} `{MapOrder} (g : gmap Z V) (amount : V → Z) (r : string) n :
  charged n r ((λ kv, (kv.1, r, amount kv.2)) <$> range g) ≡ₚ
  match g !! n with Some v => [amount v] | None => [] end.
Proof.
  rewrite range_perm. destruct (g !! n) as [v|] eqn:Hv.
  - rewrite <-(map_to_list_delete g n v Hv). rewrite fmap_cons, charged_cons_eq.
    rewrite charged_nil; [done|].
    intros c Hc [H1 _]. apply list_elem_of_fmap in Hc as ([k v'] & -> & Hin).
    simpl in *. subst k. apply elem_of_map_to_list in Hin.
    by rewrite lookup_delete_eq in Hin.
  - rewrite charged_nil; [done|].
    intros c Hc [H1 _]. apply list_elem_of_fmap in Hc as ([k v'] & -> & Hin).
    simpl in *. subst k. apply elem_of_map_to_list in Hin. congruence.
Qed.

Definition cpu_charges `{MapOrder} (cpuIds : list Z) (coreMap : gmap Z Z) : list charge :=
  (λ kv : Z * list string, (kv.1, ResourceCPU, Z.of_nat (length kv.2)))
    <$> range (groupCPUs cpuIds coreMap).

Lemma charges_Normalize `{MapOrder} devices memoryBlocks cpuIds coreMap :
  charges (NormalizeContainerDevices devices memoryBlocks cpuIds coreMap) =
  charges devices ++ cpu_charges cpuIds coreMap ++ charges (memoryBlocks ≫= blockDevices).
Proof.
  rewrite Normalize_eq. unfold charges. rewrite !bind_app. f_equal. f_equal.
  unfold cpu_charges. induction (range _) as [|kv l IH]; [done|].
  rewrite !fmap_cons, bind_cons, IH. done.
Qed.

Lemma charged_cpu `{MapOrder} cpuIds coreMap n r :
  charged n r (cpu_charges cpuIds coreMap) ≡ₚ
  if decide (r = ResourceCPU) then
    match cpus_of_node coreMap n cpuIds with
    | [] => []
    | l => [Z.of_nat (length l)]
    end
  else [].
Proof.
  case_decide as Hr.
  - subst r. unfold cpu_charges.
    rewrite (charged_keyed _ (λ v : list string, Z.of_nat (length v))), lookup_groupCPUs.
    destruct (cpus_of_node _ _ _); [done|]. by rewrite length_fmap.
  - rewrite charged_nil; [done|]. intros c Hc [_ H2].
    apply list_elem_of_fmap in Hc as (kv & -> & _). simpl in *. congruence.
Qed.

Lemma total_cpu `{MapOrder} cpuIds coreMap n r :
  total n r (cpu_charges cpuIds coreMap) =
  if decide (r = ResourceCPU) then Z.of_nat (length (cpus_of_node coreMap n cpuIds)) else 0.
Proof.
  unfold total. rewrite charged_cpu. case_decide; [|done].
  destruct (cpus_of_node _ _ _); [done|]. unfold Zsum. simpl. lia.
Qed.

(** A block of memory charges its size, or the largest [int64] if its size is
    larger, to each of its NUMA nodes. *)
Definition block_charges (block : ContainerMemory) : list charge :=
  if cm_Size block =? 0 then []
  else (λ node, (numa_ID node, cm_MemoryType block, Z.min (cm_Size block) int64_max))
         <$> GetNodes (cm_Topology block).

Definition block_ok (block : ContainerMemory) : Prop :=
  0 ≤ cm_Size block ≤ uint64_max ∧ isMemoryResource (cm_MemoryType block) = true.

Lemma deviceAmount_block size mtype topo :
  0 ≤ size ≤ uint64_max → isMemoryResource mtype = true →
  deviceAmount {| cd_ResourceName := mtype; cd_DeviceIds := [Sprintf_d size];
                  cd_Topology := topo |} = Z.min size int64_max.
Proof.
  intros Hs Hm. unfold deviceAmount. simpl. rewrite Hm. simpl.
  rewrite ParseInt_Sprintf_uint by done. apply wrap64_id. unfold_int64. lia.
Qed.

Lemma charges_blocks blocks :
  Forall block_ok blocks → charges (blocks ≫= blockDevices) = blocks ≫= block_charges.
Proof.
  unfold charges. induction 1 as [|b blocks [Hs Hm] _ IH]; [done|].
  rewrite !bind_cons, bind_app, IH. f_equal.
  unfold blockDevices, block_charges. destruct (cm_Size b =? 0); [done|].
  induction (GetNodes (cm_Topology b)) as [|node nodes IHn]; [done|].
  rewrite !fmap_cons, bind_cons, IHn. unfold device_charges. simpl.
  by rewrite deviceAmount_block.
Qed.

Lemma Normalize_counters_order (o1 o2 : MapOrder) devices memoryBlocks cpuIds coreMap :
  @NormalizeContainerDevices o1 devices memoryBlocks cpuIds coreMap ≡ₚ
  @NormalizeContainerDevices o2 devices memoryBlocks cpuIds coreMap.
Proof.
  rewrite !Normalize_eq. by rewrite (@range_perm o1), (@range_perm o2).
Qed.

(** ** The pods of a namespace *)

Definition watched (namespace : string) (pr : PodResources) : bool :=
  bool_decide (namespace = "") || bool_decide (namespace = pr_Namespace pr).

Definition container_devices `{MapOrder} (coreMap : gmap Z Z) (cnt : ContainerResources) :=
  NormalizeContainerDevices (cr_Devices cnt) (cr_Memory cnt) (cr_CpuIds cnt) coreMap.

Definition watched_containers (podRes : list PodResources) (namespace : string)
  : list ContainerResources :=
  List.filter (watched namespace) podRes ≫= pr_Containers.

Lemma podDevices_eq `{MapOrder} coreMap pr :
  podDevices coreMap pr = pr_Containers pr ≫= container_devices coreMap.
Proof. unfold podDevices. by rewrite foldl_append. Qed.

Lemma GetAllContainerDevices_eq `{MapOrder} podRes namespace coreMap :
  GetAllContainerDevices podRes namespace coreMap =
  watched_containers podRes namespace ≫= container_devices coreMap.
Proof.
  unfold GetAllContainerDevices, watched_containers.
  assert (∀ acc, foldl (λ allCntRes pr,
      if negb (bool_decide (namespace = "")) && negb (bool_decide (namespace = pr_Namespace pr))
      then allCntRes else allCntRes ++ podDevices coreMap pr) acc podRes
    = acc ++ ((List.filter (watched namespace) podRes ≫= pr_Containers)
              ≫= container_devices coreMap)) as H1; [|apply H1].
  induction podRes as [|pr podRes IH]; intros acc; cbn [foldl].
  - by rewrite app_nil_r.
  - rewrite IH. simpl. unfold watched at 2. rewrite <-negb_orb.
    destruct (_ || _); simpl; [|done].
    by rewrite bind_app, podDevices_eq, app_assoc.
Qed.

(** ** Topology facts *)

Definition node_procs (node : Node) : list Z := node_Cores node ≫= LogicalProcessors.

Definition placements (nodes : list Node) : list (Z * Z) :=
  nodes ≫= λ node, (λ p, (p, node_ID node)) <$> node_procs node.

Lemma MakeCoreIDToNodeIDMap_eq topo :
  MakeCoreIDToNodeIDMap topo =
  foldl (λ m (kv : Z * Z), <[kv.1 := kv.2]> m) ∅ (placements (topo_Nodes topo)).
Proof.
  unfold MakeCoreIDToNodeIDMap, placements. generalize (∅ : gmap Z Z).
  induction (topo_Nodes topo) as [|node nodes IH]; intros m; [done|].
  cbn [foldl]. rewrite bind_cons, foldl_app, IH. f_equal. clear IH.
  unfold node_procs. revert m. induction (node_Cores node) as [|core cores IH]; intros m; [done|].
  cbn [foldl]. rewrite IH, bind_cons, fmap_app, foldl_app. f_equal. clear IH.
  revert m. induction (LogicalProcessors core) as [|p ps IH]; intros m; [done|].
  simpl. by rewrite IH.
Qed.

Lemma foldl_insert_Some (l : list (Z * Z)) (m : gmap Z Z) k v :
  foldl (λ m (kv : Z * Z), <[kv.1 := kv.2]> m) m l !! k = Some v →
  (k, v) ∈ l ∨ m !! k = Some v.
Proof.
  revert m. induction l as [|[k' v'] l IH]; intros m; cbn [foldl]; [by right|].
  intros Hk. rewrite elem_of_cons. destruct (IH _ Hk) as [Hin|Hm]; [by left; right|].
  simpl in Hm. destruct (decide (k' = k)) as [->|Hne].
  - rewrite lookup_insert_eq in Hm. injection Hm as ->. by left; left.
  - rewrite lookup_insert_ne in Hm by done. by right.
Qed.

Lemma foldl_insert_NoDup (l : list (Z * Z)) (m : gmap Z Z) k v :
  NoDup (l.*1) → (k, v) ∈ l →
  foldl (λ m (kv : Z * Z), <[kv.1 := kv.2]> m) m l !! k = Some v.
Proof.
  revert m. induction l as [|[k' v'] l IH]; intros m Hnd Hin; cbn [foldl]; [set_solver|].
  rewrite fmap_cons, NoDup_cons in Hnd. destruct Hnd as [Hk' Hnd]. simpl in Hk'.
  apply elem_of_cons in Hin as [[= -> ->]|Hin]; [|by apply IH].
  destruct (foldl _ _ l !! k') as [w|] eqn:Hw.
  - destruct (foldl_insert_Some _ _ _ _ Hw) as [Hin|Hm].
    + destruct Hk'. apply list_elem_of_fmap. by exists (k', w).
    + simpl in Hm. by rewrite lookup_insert_eq in Hm.
  - exfalso. revert Hw. clear IH Hnd Hk'.
    assert (∀ m0 : gmap Z Z, is_Some (m0 !! k') →
      is_Some (foldl (λ m (kv : Z * Z), <[kv.1 := kv.2]> m) m0 l !! k')) as Hgen.
    { induction l as [|[k2 v2] l IH]; intros m0 Hm0; [done|]. cbn [foldl]. apply IH.
      simpl. rewrite lookup_insert_is_Some. destruct (decide (k2 = k')); naive_solver. }
    intros Hnone. destruct (Hgen (<[k':=v']> m)) as [w Hw].
    + rewrite lookup_insert_eq. eauto.
    + simpl in *. congruence.
Qed.

Lemma elem_of_placements nodes p n :
  (p, n) ∈ placements nodes ↔ ∃ node, node ∈ nodes ∧ node_ID node = n ∧ p ∈ node_procs node.
Proof.
  unfold placements. rewrite list_elem_of_bind. split.
  - intros (node & Hin & Hn). apply list_elem_of_fmap in Hin as (q & [= -> ->] & Hq). eauto.
  - intros (node & Hn & <- & Hp). exists node. split; [|done].
    apply list_elem_of_fmap. eauto.
Qed.

Lemma placements_procs nodes : (placements nodes).*1 = nodes ≫= node_procs.
Proof.
  unfold placements. induction nodes as [|node nodes IH]; [done|].
  rewrite !bind_cons, fmap_app, IH. f_equal. rewrite <-list_fmap_compose.
  apply list_fmap_id.
Qed.

Lemma coreMap_sound topo c n :
  MakeCoreIDToNodeIDMap topo !! c = Some n →
  ∃ node, node ∈ topo_Nodes topo ∧ node_ID node = n ∧ c ∈ node_procs node.
Proof.
  rewrite MakeCoreIDToNodeIDMap_eq. intros Hc.
  apply foldl_insert_Some in Hc as [Hin|Hc]; [|by rewrite lookup_empty in Hc].
  by apply elem_of_placements.
Qed.

(** Node ids are pairwise distinct, and so are the logical processors. *)
Definition topo_ok (topo : Info) : Prop :=
  NoDup (node_ID <$> topo_Nodes topo) ∧ NoDup (topo_Nodes topo ≫= node_procs).

Lemma coreMap_complete topo node c :
  topo_ok topo → node ∈ topo_Nodes topo → c ∈ node_procs node →
  MakeCoreIDToNodeIDMap topo !! c = Some (node_ID node).
Proof.
  intros [_ Hnd] Hn Hc. rewrite MakeCoreIDToNodeIDMap_eq.
  apply foldl_insert_NoDup.
  - by rewrite placements_procs.
  - apply elem_of_placements. eauto.
Qed.

Lemma findNodeByID_Some nodes n node :
  findNodeByID nodes n = Some node → node ∈ nodes ∧ node_ID node = n.
Proof.
  induction nodes as [|node' nodes IH]; simpl; [done|].
  case_bool_decide; rewrite elem_of_cons; naive_solver.
Qed.

Lemma findNodeByID_None nodes n :
  findNodeByID nodes n = None ↔ n ∉ node_ID <$> nodes.
Proof.
  induction nodes as [|node nodes IH]; cbn [findNodeByID]; [set_solver|].
  rewrite fmap_cons, not_elem_of_cons. case_bool_decide; naive_solver.
Qed.

Lemma findNodeByID_unique nodes node :
  NoDup (node_ID <$> nodes) → node ∈ nodes → findNodeByID nodes (node_ID node) = Some node.
Proof.
  induction nodes as [|node' nodes IH]; [set_solver|].
  rewrite fmap_cons, NoDup_cons, elem_of_cons. intros [Hn Hnd] [->|Hin]; simpl.
  - by rewrite bool_decide_true.
  - rewrite bool_decide_false; [by apply IH|].
    intros Heq. apply Hn. rewrite Heq. by apply list_elem_of_fmap_2.
Qed.

Lemma cpuCapacity_Ok topo n node :
  findNodeByID (topo_Nodes topo) n = Some node →
  cpuCapacity topo n = Ok (wrap64 (Z.of_nat (length (node_procs node)))).
Proof.
  intros Hf. unfold cpuCapacity. rewrite Hf. f_equal.
  change 0 with (wrap64 0). rewrite foldl_wrap64, wrap64_wrap. f_equal.
  unfold node_procs. induction (node_Cores node) as [|core cores IH]; [done|].
  rewrite fmap_cons, Zsum_cons, bind_cons, length_app. lia.
Qed.

(** The CPUs a list assigns to a node are among the node's processors. *)
Lemma cpus_of_node_bound topo n cpuIds node :
  topo_ok topo → NoDup cpuIds → findNodeByID (topo_Nodes topo) n = Some node →
  (length (cpus_of_node (MakeCoreIDToNodeIDMap topo) n cpuIds) ≤ length (node_procs node))%nat.
Proof.
  intros [Hid Hnd] Hcpu Hf. apply submseteq_length.
  apply NoDup_submseteq; [by apply NoDup_filter|].
  intros c Hc. apply list_elem_of_filter in Hc as [Hc _].
  apply coreMap_sound in Hc as (node' & Hin & <- & Hp).
  rewrite (findNodeByID_unique _ _ Hid Hin) in Hf. by injection Hf as <-.
Qed.

Lemma makeZoneName_inj n1 n2 : makeZoneName n1 = makeZoneName n2 → n1 = n2.
Proof.
  unfold makeZoneName, Sprintf_d. intros Heq. apply (inj (String.app "node-")) in Heq.
  by apply (inj pretty) in Heq.
Qed.

(** ** Theorems *)

(** A device of resource [r] names the NUMA node [n]. *)
Definition names_node (n : Z) (r : string) (d : ContainerDevices) : Prop :=
  cd_ResourceName d = r ∧ n ∈ numa_ID <$> GetNodes (cd_Topology d).

Lemma charged_device n r d :
  charged n r (device_charges d) = [] ↔ ¬ names_node n r d.
Proof.
  unfold names_node, device_charges.
  induction (GetNodes (cd_Topology d)) as [|node nodes IH]; [set_solver|].
  rewrite !fmap_cons, elem_of_cons.
  destruct (decide (numa_ID node = n ∧ cd_ResourceName d = r)) as [[-> ->]|Hne].
  - rewrite charged_cons_eq. naive_solver.
  - rewrite charged_cons_ne by done. rewrite IH. naive_solver.
Qed.

Lemma charged_charges n r devices :
  charged n r (charges devices) = [] ↔ ∀ d, d ∈ devices → ¬ names_node n r d.
Proof.
  unfold charges. induction devices as [|d devices IH]; [set_solver|].
  rewrite bind_cons, charged_app, app_nil, charged_device, IH. set_solver.
Qed.

(** C25: the counters are the reference sums: the counter of a resource on a
    NUMA node exists exactly when some device of that resource names the
    node, and its value is the sum, in 64-bit arithmetic, of what the devices
    charge to it. *)
Theorem counters_are_sums devices n r :
  lookup2 (ContainerDevicesToPerNUMAResourceCounters devices) n r =
  if decide (Exists (names_node n r) devices)
  then Some (wrap64 (total n r (charges devices)))
  else None.
Proof.
  rewrite lookup2_counters. pose proof (charged_charges n r devices) as Hc.
  case_decide as Hex.
  - apply Exists_exists in Hex as (d & Hin & Hd).
    destruct (charged n r (charges devices)); [|done]. by destruct (proj1 Hc eq_refl d Hin).
  - rewrite (proj2 Hc); [done|]. intros d Hin Hd. apply Hex, Exists_exists. eauto.
Qed.

Lemma cpu_charges_sizes `{MapOrder} cpuIds coreMap :
  cpu_charges cpuIds coreMap ≡ₚ
  (λ kv : Z * nat, (kv.1, ResourceCPU, Z.of_nat kv.2))
    <$> map_to_list (length <$> groupCPUs cpuIds coreMap).
Proof.
  unfold cpu_charges. rewrite range_perm, map_to_list_fmap, <-list_fmap_compose.
  by apply reflexive_eq, list_fmap_ext.
Qed.

Lemma groupCPUs_sizes_perm cpus1 cpus2 coreMap :
  cpus1 ≡ₚ cpus2 → length <$> groupCPUs cpus1 coreMap = length <$> groupCPUs cpus2 coreMap.
Proof.
  intros Hp. apply map_eq. intros n. rewrite !lookup_fmap, !lookup_groupCPUs.
  assert (cpus_of_node coreMap n cpus1 ≡ₚ cpus_of_node coreMap n cpus2) as Hq
    by (unfold cpus_of_node; by rewrite Hp).
  apply Permutation_length in Hq.
  destruct (cpus_of_node coreMap n cpus1), (cpus_of_node coreMap n cpus2); simpl in *;
    rewrite ?length_fmap; congruence.
Qed.

(** The accounting does not depend on the order in which Go ranges over its
    maps, nor on the order in which the kubelet lists devices, memory blocks
    and CPUs. *)
Theorem counters_order_independent (o1 o2 : MapOrder) devices1 devices2 blocks1 blocks2
    cpus1 cpus2 coreMap
    (Hd : devices1 ≡ₚ devices2) (Hb : blocks1 ≡ₚ blocks2) (Hc : cpus1 ≡ₚ cpus2) :
  ContainerDevicesToPerNUMAResourceCounters
    (@NormalizeContainerDevices o1 devices1 blocks1 cpus1 coreMap) =
  ContainerDevicesToPerNUMAResourceCounters
    (@NormalizeContainerDevices o2 devices2 blocks2 cpus2 coreMap).
Proof.
  rewrite !counters_charges, !charges_Normalize. apply apply_charges_perm.
  rewrite !cpu_charges_sizes, (groupCPUs_sizes_perm _ _ _ Hc).
  by rewrite Hd, Hb.
Qed.

(** What the containers of a node add up to: the counter of a resource after
    normalization is the sum of what the plugin devices charge, of one per
    CPU placed on the node (for the cpu resource) and of the block sizes (for
    memory and hugepages), each block capped at the largest [int64]. *)
Theorem Normalize_total `{MapOrder} devices blocks cpuIds coreMap n r
    (Hblocks : Forall block_ok blocks) :
  total n r (charges (NormalizeContainerDevices devices blocks cpuIds coreMap)) =
  total n r (charges devices)
  + (if decide (r = ResourceCPU) then Z.of_nat (length (cpus_of_node coreMap n cpuIds)) else 0)
  + total n r (blocks ≫= block_charges).
Proof.
  rewrite charges_Normalize, !total_app, total_cpu, charges_blocks by done. lia.
Qed.

(** C30: CPUs are never over-reported: on a machine with distinct NUMA ids and
    distinct processors, the cpu counter a list of distinct CPU ids gives on
    a NUMA node is at most the node's CPU capacity. *)
Theorem cpu_counter_bounded `{MapOrder} topo devices blocks cpuIds n v cap
    (Htopo : topo_ok topo) (Hcpus : NoDup cpuIds) (Hblocks : Forall block_ok blocks)
    (Hdev : ∀ d, d ∈ devices → cd_ResourceName d ≠ ResourceCPU)
    (Hfit : Z.of_nat (length (topo_Nodes topo ≫= node_procs)) ≤ int64_max)
    (Hcount : lookup2 (ContainerDevicesToPerNUMAResourceCounters
       (NormalizeContainerDevices devices blocks cpuIds (MakeCoreIDToNodeIDMap topo)))
       n ResourceCPU = Some v)
    (Hcap : cpuCapacity topo n = Ok cap) :
  0 ≤ v ≤ cap.
Proof.
  destruct (findNodeByID (topo_Nodes topo) n) as [node|] eqn:Hf;
    [|unfold cpuCapacity in Hcap; by rewrite Hf in Hcap].
  rewrite (cpuCapacity_Ok _ _ _ Hf) in Hcap. injection Hcap as <-.
  pose proof (cpus_of_node_bound _ _ _ _ Htopo Hcpus Hf) as Hle.
  destruct (findNodeByID_Some _ _ _ Hf) as [Hin _].
  assert (length (node_procs node) ≤ length (topo_Nodes topo ≫= node_procs))%nat as Hpr.
  { apply submseteq_length, NoDup_submseteq.
    - apply list_elem_of_split in Hin as (l1 & l2 & Heq).
      destruct Htopo as [_ Hnd]. rewrite Heq, bind_app, bind_cons in Hnd.
      apply NoDup_app in Hnd as (_ & _ & Hnd). by apply NoDup_app in Hnd as (Hnd & _ & _).
    - intros p Hp. apply list_elem_of_bind. eauto. }
  rewrite lookup2_counters in Hcount.
  destruct (charged _ _ _) eqn:Hch; [done|]. injection Hcount as <-.
  rewrite charges_Normalize, !total_app, total_cpu, charges_blocks by done.
  rewrite decide_True by done.
  assert (total n ResourceCPU (charges devices) = 0) as ->.
  { unfold total. rewrite (proj2 (charged_charges n ResourceCPU devices)); [done|].
    intros d Hd [Hname _]. by apply (Hdev d). }
  assert (total n ResourceCPU (blocks ≫= block_charges) = 0) as ->.
  { unfold total. rewrite charged_nil; [done|]. intros c Hc [_ Hr].
    apply list_elem_of_bind in Hc as (b & Hc & Hb).
    rewrite Forall_forall in Hblocks. destruct (Hblocks b Hb) as [_ Hm].
    unfold block_charges in Hc. destruct (cm_Size b =? 0); [set_solver|].
    apply list_elem_of_fmap in Hc as (node' & -> & _). simpl in Hr. by rewrite Hr in Hm. }
  rewrite !wrap64_id; [lia|..]; unfold_int64; lia.
Qed.

(** The CPU map places each processor on its NUMA node: on a machine with
    distinct processors, a CPU id is mapped to a NUMA id exactly when it is
    one of the logical processors of a node with that id. *)
Theorem MakeCoreIDToNodeIDMap_correct topo c n (Htopo : topo_ok topo) :
  MakeCoreIDToNodeIDMap topo !! c = Some n ↔
  ∃ node, node ∈ topo_Nodes topo ∧ node_ID node = n ∧ c ∈ node_procs node.
Proof.
  split; [apply coreMap_sound|].
  intros (node & Hin & <- & Hc). by apply coreMap_complete.
Qed.

(** *** Concrete machine *)

Definition example_topo : Info := {| topo_Nodes :=
  [{| node_ID := 0; node_Cores := [{| LogicalProcessors := [0; 4] |}; {| LogicalProcessors := [1; 5] |}];
      node_Distances := [10; 21] |};
   {| node_ID := 1; node_Cores := [{| LogicalProcessors := [2; 6] |}; {| LogicalProcessors := [3; 7] |}];
      node_Distances := [21; 10] |}] |}.

Definition example_block (mtype : string) (size : Z) (nodes : list Z) : ContainerMemory :=
  {| cm_MemoryType := mtype; cm_Size := size;
     cm_Topology := Some {| ti_Nodes := (λ n, {| numa_ID := n |}) <$> nodes |} |}.

Definition example_device (name : string) (ids : list string) (nodes : list Z) : ContainerDevices :=
  {| cd_ResourceName := name; cd_DeviceIds := ids;
     cd_Topology := Some {| ti_Nodes := (λ n, {| numa_ID := n |}) <$> nodes |} |}.

Lemma example_topo_ok : topo_ok example_topo.
Proof. split; vm_compute; repeat constructor; set_solver by lia. Qed.

Lemma example_blocks_ok :
  Forall block_ok [example_block "memory" 1024 [0]; example_block "hugepages-2Mi" 2097152 [1]].
Proof. repeat constructor; done. Qed.

Lemma counters_order_independent_witness :
  ContainerDevicesToPerNUMAResourceCounters
    (@NormalizeContainerDevices canonical_order
       [example_device "v/a" ["x"] [0]; example_device "v/b" ["y"; "z"] [1]] []
       [4; 0; 2] (MakeCoreIDToNodeIDMap example_topo)) =
  ContainerDevicesToPerNUMAResourceCounters
    (@NormalizeContainerDevices canonical_order
       [example_device "v/b" ["y"; "z"] [1]; example_device "v/a" ["x"] [0]] []
       [0; 4; 2] (MakeCoreIDToNodeIDMap example_topo)).
Proof.
  apply (counters_order_independent canonical_order canonical_order);
    [apply Permutation_swap|done|apply Permutation_swap].
Defined.

Lemma Normalize_total_witness :
  total 0 "memory" (charges (@NormalizeContainerDevices canonical_order []
    [example_block "memory" 1024 [0]; example_block "hugepages-2Mi" 2097152 [1]]
    [0; 4; 2] (MakeCoreIDToNodeIDMap example_topo))) = 1024.
Proof.
  rewrite (@Normalize_total canonical_order []
    [example_block "memory" 1024 [0]; example_block "hugepages-2Mi" 2097152 [1]]
    [0; 4; 2] (MakeCoreIDToNodeIDMap example_topo) 0 "memory" example_blocks_ok).
  vm_compute. reflexivity.
Defined.

Lemma cpu_counter_bounded_witness : 0 ≤ 2 ≤ 4.
Proof.
  apply (@cpu_counter_bounded canonical_order example_topo
    [example_device "v/a" ["x"] [0]]
    [example_block "memory" 1024 [0]; example_block "hugepages-2Mi" 2097152 [1]]
    [0; 4; 2] 0 2 4 example_topo_ok).
  - repeat constructor; set_solver by lia.
  - apply example_blocks_ok.
  - set_solver.
  - vm_compute. discriminate.
  - vm_compute. reflexivity.
  - vm_compute. reflexivity.
Defined.

Lemma MakeCoreIDToNodeIDMap_correct_witness :
  ∃ node, node ∈ topo_Nodes example_topo ∧ node_ID node = 1 ∧ 6 ∈ node_procs node.
Proof.
  apply (MakeCoreIDToNodeIDMap_correct example_topo 6 1 example_topo_ok).
  vm_compute. reflexivity.
Defined.
