(* ===== verification/SysInfo.v ===== *)
(** * Memory and hugepages of the NUMA nodes, read from sysfs

    Models [pkg/sysinfo].  The file system is a record of the calls the code
    makes; the rendering of a quantity ([k8s.io/apimachinery]'s
    [resource.Quantity]) is a parameter. *)

From S2P Require Import Prelude GoStrings Filepath.
From Stdlib Require Import Ascii.

Record DirEntry := { de_Name : string; de_IsDir : bool }.

Record FileSystem := {
  ReadDir : string → outcome (list DirEntry);
  ReadFile : string → outcome string;
  EvalSymlinks : string → outcome string
}.

(** [resource.NewQuantity(bytes, resource.BinarySI).String()]. *)
Class QuantityLib := { binarySI_String : Z → string }.

Definition SysDevicesNode : string := "/sys/devices/system/node".
Definition HugepageSize2Mi : Z := 2048.
Definition HugepageSize1Gi : Z := 1048576.

Record Handle := { Root : string }.

Definition SysDevicesNodes (hnd : Handle) : string := Join [Root hnd; SysDevicesNode].

Definition SysDevicesNodesNodeNth (hnd : Handle) (nodeID : Z) : string :=
  Join [Root hnd; SysDevicesNode; "node" +:+ Sprintf_d nodeID].

(** ** Parsing *)

Definition memTotal_cutset : string :=
  String "009" (String "010" " kB").

(** The loop over the lines of [meminfo]; [line] is the first one that holds
    [MemTotal]. *)
Definition parseMemTotal (line : string) : outcome Z :=
  match Split line ":" with
  | [_; value] =>
      match ParseInt (Trim value memTotal_cutset) with
      | (_, Some _) => Err (Errorf ("failed to convert value: " +:+ Trim value memTotal_cutset))
      | (convertedValue, None) => Ok (wrap64 (1024 * convertedValue))
      end
  | _ => Err (Errorf ("MemTotal has unexpected format: " +:+ line))
  end.

Fixpoint findMemTotal (path : string) (lines : list string) : outcome Z :=
  match lines with
  | [] => Err (Errorf ("failed to find MemTotal field under the file " +:+ Sprintf_q path))
  | line :: rest =>
      if negb (Contains line "MemTotal") then findMemTotal path rest
      else parseMemTotal line
  end.

Definition readTotalMemoryFromMeminfo (fs : FileSystem) (path : string) : outcome Z :=
  let! data := ReadFile fs path in
  findMemTotal path (Split data "010").

Definition MemoryForNode (fs : FileSystem) (hnd : Handle) (nodeID : Z) : outcome Z :=
  readTotalMemoryFromMeminfo fs (Join [SysDevicesNodesNodeNth hnd nodeID; "meminfo"]).

(** The directory entries that name a NUMA node. *)
Definition isNodeEntry (entry : DirEntry) : bool :=
  de_IsDir entry && HasPrefix (de_Name entry) "node".

Definition entryNodeID (entryName : string) : outcome Z :=
  match Atoi (string_drop 4 entryName) with
  | (_, Some _) => Err (Errorf ("cannot detect the node ID for " +:+ Sprintf_q entryName))
  | (nodeID, None) => Ok nodeID
  end.

Fixpoint memoryOfEntries (fs : FileSystem) (hnd : Handle) (entries : list DirEntry)
  (memory : gmap Z Z) : outcome (gmap Z Z) :=
  match entries with
  | [] => Ok memory
  | entry :: rest =>
      if isNodeEntry entry then
        let! nodeID := entryNodeID (de_Name entry) in
        let! nodeMemory :=
          omap_err (Wrapf ("cannot find the memory on NUMA node " +:+ Sprintf_d nodeID))
                   (MemoryForNode fs hnd nodeID) in
        memoryOfEntries fs hnd rest (<[nodeID := nodeMemory]> memory)
      else memoryOfEntries fs hnd rest memory
  end.

Definition GetMemory (fs : FileSystem) (hnd : Handle) : outcome (gmap Z Z) :=
  let! entries := ReadDir fs (SysDevicesNodes hnd) in
  memoryOfEntries fs hnd entries ∅.

(** ** Hugepages *)

Record Hugepages := { hp_NodeID : Z; hp_SizeKB : Z; hp_Total : Z }.

Definition readIntFromFile (fs : FileSystem) (path : string) : outcome Z :=
  let! data := ReadFile fs path in
  match Atoi (TrimSpace data) with
  | (_, Some _) => Err (Errorf "strconv.Atoi")
  | (n, None) => Ok n
  end.

(** [fmt.Sscanf(entryName, "hugepages-%dkB", &size)] reading one value: the
    literal prefix, blanks, an optional sign, the longest run of digits, the
    literal suffix; what follows is ignored. *)
Fixpoint take_digits (s : string) : string * string :=
  match s with
  | String c s' =>
      match digit_val c with
      | Some _ => let '(ds, rest) := take_digits s' in (String c ds, rest)
      | None => ("", s)
      end
  | "" => ("", "")
  end.

Definition is_blank (c : ascii) : bool := Ascii.eqb c " " || Ascii.eqb c "009" || Ascii.eqb c "013".

Definition sscanf_hugepages (entryName : string) : option Z :=
  if HasPrefix entryName "hugepages-" then
    let input := TrimLeftFunc is_blank (string_drop 10 entryName) in
    let '(sign, body) :=
      match input with
      | String "+" rest => ("+", rest)
      | String "-" rest => ("-", rest)
      | _ => ("", input)
      end in
    let '(ds, rest) := take_digits body in
    match ParseInt (sign +:+ ds) with
    | (n, None) => if HasPrefix rest "kB" then Some n else None
    | (_, Some _) => None
    end
  else None.

Fixpoint hugepagesOfEntries (fs : FileSystem) (nodeID : Z) (hpPath : string)
  (entries : list DirEntry) (hugepages : list Hugepages) : outcome (list Hugepages) :=
  match entries with
  | [] => Ok hugepages
  | entry :: rest =>
      if negb (de_IsDir entry) then hugepagesOfEntries fs nodeID hpPath rest hugepages
      else
        match sscanf_hugepages (de_Name entry) with
        | None => Err (Errorf ("malformed hugepages entry " +:+ Sprintf_q (de_Name entry)))
        | Some hugepageSizeKB =>
            let entryPath := Join [hpPath; de_Name entry] in
            let! hpCountPath :=
              omap_err (Wrapf ("cannot clean " +:+ Sprintf_q entryPath))
                       (EvalSymlinks fs (Join [entryPath; "nr_hugepages"])) in
            if negb (HasPrefix hpCountPath hpPath)
            then Err (Errorf ("unexpected path resolution: " +:+ Sprintf_q hpCountPath
                              +:+ " not subpath of " +:+ Sprintf_q hpPath))
            else
              let! totalCount :=
                omap_err (Wrapf ("cannot read from " +:+ Sprintf_q hpCountPath))
                         (readIntFromFile fs hpCountPath) in
              hugepagesOfEntries fs nodeID hpPath rest
                (hugepages ++ [{| hp_NodeID := nodeID; hp_SizeKB := hugepageSizeKB;
                                  hp_Total := totalCount |}])
        end
  end.

Definition HugepagesForNode (fs : FileSystem) (hnd : Handle) (nodeID : Z)
  : outcome (list Hugepages) :=
  let hpPath := Join [SysDevicesNodesNodeNth hnd nodeID; "hugepages"] in
  let! entries := ReadDir fs hpPath in
  hugepagesOfEntries fs nodeID hpPath entries [].

Fixpoint hugepagesOfNodes (fs : FileSystem) (hnd : Handle) (entries : list DirEntry)
  (hugepages : list Hugepages) : outcome (list Hugepages) :=
  match entries with
  | [] => Ok hugepages
  | entry :: rest =>
      if isNodeEntry entry then
        let! nodeID := entryNodeID (de_Name entry) in
        let! nodeHugepages :=
          omap_err (Wrapf ("cannot find the hugepages on NUMA node " +:+ Sprintf_d nodeID))
                   (HugepagesForNode fs hnd nodeID) in
        hugepagesOfNodes fs hnd rest (hugepages ++ nodeHugepages)
      else hugepagesOfNodes fs hnd rest hugepages
  end.

Definition GetHugepages (fs : FileSystem) (hnd : Handle) : outcome (list Hugepages) :=
  let! entries := ReadDir fs (SysDevicesNodes hnd) in
  hugepagesOfNodes fs hnd entries [].

(** ** Counters *)

Definition memResource : string := "memory".

Section counters.
Context `{QuantityLib} `{MapOrder}.

Definition HugepageResourceNameFromSize (sizeKB : Z) : string :=
  "hugepages-" +:+ binarySI_String (wrap64 (sizeKB * 1024)).

Definition hugepageBytes (hpage : Hugepages) : Z :=
  wrap64 (wrap64 (hp_Total hpage * hp_SizeKB hpage) * 1024).

Definition addHugepage (numaCounters : gmap string (gmap Z Z)) (hpage : Hugepages)
  : gmap string (gmap Z Z) :=
  let resourceName := HugepageResourceNameFromSize (hp_SizeKB hpage) in
  let numaDevs := default ∅ (numaCounters !! resourceName) in
  <[resourceName := <[hp_NodeID hpage := hugepageBytes hpage]> numaDevs]> numaCounters.

Definition addMemory (numaCounters : gmap string (gmap Z Z)) (kv : Z * Z)
  : gmap string (gmap Z Z) :=
  <[memResource := <[kv.1 := kv.2]> (default ∅ (numaCounters !! memResource))]> numaCounters.

Definition GetMemoryResourceCounters (fs : FileSystem) (hnd : Handle)
  : outcome (gmap string (gmap Z Z)) :=
  let numaCounters : gmap string (gmap Z Z) := {[ memResource := ∅ ]} in
  let! hugepages := GetHugepages fs hnd in
  let numaCounters := foldl addHugepage numaCounters hugepages in
  let! memory := GetMemory fs hnd in
  Ok (foldl addMemory numaCounters (range memory)).
End counters.

(** ** Facts about the counters *)

Lemma HugepageResourceName_ne_memory `{QuantityLib} sizeKB :
  HugepageResourceNameFromSize sizeKB ≠ memResource.
Proof. discriminate. Qed.

Section counters_facts.
Context `{QuantityLib} `{MapOrder}.

Lemma addHugepages_memory (c : gmap string (gmap Z Z)) hugepages :
  foldl addHugepage c hugepages !! memResource = c !! memResource.
Proof.
  revert c. induction hugepages as [|hp hps IH]; intros c; [done|]. cbn [foldl].
  rewrite IH. unfold addHugepage. rewrite lookup_insert_ne; [done|].
  apply HugepageResourceName_ne_memory.
Qed.

Lemma addMemory_other c l r :
  r ≠ memResource → foldl addMemory c l !! r = c !! r.
Proof.
  intros Hr. revert c. induction l as [|kv l IH]; intros c; [done|]. cbn [foldl].
  rewrite IH. unfold addMemory. by rewrite lookup_insert_ne.
Qed.

Lemma addMemory_memory (l : list (Z * Z)) c m :
  c !! memResource = Some m →
  foldl addMemory c l !! memResource =
  Some (foldl (λ m (kv : Z * Z), <[kv.1 := kv.2]> m) m l).
Proof.
  revert c m. induction l as [|kv l IH]; intros c m Hc; [done|]. cbn [foldl].
  apply IH. unfold addMemory. by rewrite lookup_insert_eq, Hc.
Qed.

(** The last entry for a resource and a node is the one that counts. *)
Lemma addHugepage_lookup (c : gmap string (gmap Z Z)) hp r n :
  addHugepage c hp !! r ≫= (.!! n) =
  if decide (HugepageResourceNameFromSize (hp_SizeKB hp) = r ∧ hp_NodeID hp = n)
  then Some (hugepageBytes hp) else c !! r ≫= (.!! n).
Proof.
  unfold addHugepage. destruct (decide (HugepageResourceNameFromSize (hp_SizeKB hp) = r)) as [<-|Hr].
  - rewrite lookup_insert_eq. simpl. destruct (decide (hp_NodeID hp = n)) as [<-|Hn].
    + by rewrite lookup_insert_eq, decide_True.
    + rewrite lookup_insert_ne by done. rewrite decide_False by naive_solver.
      by destruct (c !! _).
  - rewrite lookup_insert_ne by done. by rewrite decide_False by naive_solver.
Qed.

Lemma addHugepages_lookup (hugepages : list Hugepages) (c : gmap string (gmap Z Z)) r n :
  foldl addHugepage c hugepages !! r ≫= (.!! n) =
  match last (base.filter (λ hp, HugepageResourceNameFromSize (hp_SizeKB hp) = r
                                 ∧ hp_NodeID hp = n) hugepages) with
  | Some hp => Some (hugepageBytes hp)
  | None => c !! r ≫= (.!! n)
  end.
Proof.
  induction hugepages as [|hp hps IH] using rev_ind; [done|].
  rewrite foldl_app, filter_app. cbn [foldl]. rewrite addHugepage_lookup, IH.
  case_decide as Hd.
  - rewrite filter_cons_True, filter_nil by done. by rewrite last_snoc.
  - rewrite filter_cons_False, filter_nil by done. by rewrite app_nil_r.
Qed.
End counters_facts.

(** ** Theorems *)


(** *** A concrete file system *)

Definition example_fs : FileSystem := {|
  ReadDir path :=
    if bool_decide (path = "/sys/devices/system/node")
    then Ok [{| de_Name := "node0"; de_IsDir := true |}; {| de_Name := "possible"; de_IsDir := false |}]
    else if bool_decide (path = "/sys/devices/system/node/node0/hugepages")
    then Ok [{| de_Name := "hugepages-2048kB"; de_IsDir := true |}]
    else Err (Errorf "no such directory");
  ReadFile path :=
    if bool_decide (path = "/sys/devices/system/node/node0/meminfo")
    then Ok ("Node 0 MemTotal:       32718644 kB" +:+ newline +:+ "Node 0 MemFree:  100 kB")
    else if bool_decide (path = "/sys/devices/system/node/node0/hugepages/hugepages-2048kB/nr_hugepages")
    then Ok ("16" +:+ newline)
    else Err (Errorf "no such file");
  EvalSymlinks path := Ok path
|}.

(** The two sizes the monitor asks for. *)
Definition example_quantity : QuantityLib := {|
  binarySI_String bytes :=
    if bytes =? 2097152 then "2Mi" else if bytes =? 1073741824 then "1Gi" else Sprintf_d bytes |}.


Fixpoint blanks (n : nat) : string :=
  match n with
  | O => ""
  | S n' => String " " (blanks n')
  end.

Lemma digit_not_cut c :
  is_digit c = true →
  negb (string_mem c memTotal_cutset) = true ∧ negb (Ascii.eqb c ":") = true.
Proof. by destruct c as [[] [] [] [] [] [] [] []]. Qed.

Lemma blanks_all (f : ascii → bool) n : f " "%char = true → string_all f (blanks n) = true.
Proof. intros Hf. induction n as [|n IH]; simpl; [done|]. by rewrite Hf. Qed.

Lemma string_all_app (f : ascii → bool) s t :
  string_all f (s +:+ t) = string_all f s && string_all f t.
Proof.
  induction s as [|c s IH]; [done|]. unfold String.app in *. simpl.
  by rewrite IH, andb_assoc.
Qed.

(** A [meminfo] line is read as the kernel prints it: from
    "Node N MemTotal: <blanks> K kB" the reader gets K kibibytes in bytes. *)
Theorem parseMemTotal_correct (prefix : string) (pad : nat) (kb : Z)
    (Hprefix : free_of ":" prefix) (Hkb : 0 ≤ kb ≤ int64_max / 1024) :
  parseMemTotal (prefix +:+ String ":" (blanks pad +:+ Sprintf_d kb +:+ " kB")) = Ok (1024 * kb).
Proof.
  destruct (Sprintf_d_digits kb ltac:(lia)) as [Hd Hne].
  assert (string_all (λ c, negb (Ascii.eqb c ":")) (blanks pad +:+ Sprintf_d kb +:+ " kB") = true)
    as Hfree.
  { rewrite !string_all_app, blanks_all by done.
    rewrite (string_all_mono _ _ _ (λ c Hc, proj2 (digit_not_cut c Hc)) Hd). done. }
  unfold parseMemTotal. rewrite Split_app_sep by done.
  rewrite (Split_free _ _ (free_of_all _ _ Hfree)).
  unfold Trim. rewrite TrimFunc_around;
    [|by apply blanks_all|by apply (string_all_mono _ _ _ (λ c Hc, proj1 (digit_not_cut c Hc)))
     |done|done].
  pose proof (Z.mul_div_le int64_max 1024 ltac:(lia)) as Hmax.
  rewrite ParseInt_Sprintf_int64 by (split; [unfold_int64|]; lia).
  rewrite wrap64_id; [done|]. split; [unfold_int64|]; lia.
Qed.

Lemma parseMemTotal_correct_witness :
  parseMemTotal "Node 0 MemTotal:       32718644 kB" = Ok 33503891456.
Proof.
  apply (parseMemTotal_correct "Node 0 MemTotal" 7 32718644); [reflexivity|vm_compute; split; discriminate].
Defined.
