(* ===== verification/Metrics.v ===== *)
(** * The metrics the exporter records

    Models [pkg/metrics/metrics.go]: the counters and gauges of the
    Prometheus registry, by label values, and the node name they carry. *)

From Stdlib Require Export SpecFloat.
From S2P Require Import Prelude.

(** [float64] values, in IEEE 754 binary64. *)
Definition float64 (z : Z) : spec_float := binary_normalize 53 1024 z 0 false.
Definition float64_div (x y : spec_float) : spec_float := SFdiv 53 1024 x y.

Record Registry := {
  nodeName : string;
  PodResourceApiCallsFailure : gmap (string * string) N;
  NodeResourceTopologyWrites : gmap (string * string * string) N;
  OperationDelay : gmap (string * string * string) Z;
  WakeupDelay : gmap (string * string) Z;
  NodeResourceTopologyPatchFailure : gmap (string * string) N;
  (** the ratios observed, by node *)
  NodeResourceTopologyPatchSizeRatio : gmap string (list spec_float)
}.

Definition empty_registry : Registry := {|
  nodeName := "";
  PodResourceApiCallsFailure := ∅; NodeResourceTopologyWrites := ∅;
  OperationDelay := ∅; WakeupDelay := ∅;
  NodeResourceTopologyPatchFailure := ∅; NodeResourceTopologyPatchSizeRatio := ∅ |}.

(** [Inc] on the counter with the given labels. *)
Definition Inc `{Countable K} (labels : K) (counters : gmap K N) : gmap K N :=
  <[labels := (default 0 (counters !! labels) + 1)%N]> counters.

Definition UpdateNodeResourceTopologyWritesMetric (operation trigger : string) (m : Registry) : Registry :=
  {| nodeName := nodeName m;
     PodResourceApiCallsFailure := PodResourceApiCallsFailure m;
     NodeResourceTopologyWrites := Inc (nodeName m, operation, trigger) (NodeResourceTopologyWrites m);
     OperationDelay := OperationDelay m; WakeupDelay := WakeupDelay m;
     NodeResourceTopologyPatchFailure := NodeResourceTopologyPatchFailure m;
     NodeResourceTopologyPatchSizeRatio := NodeResourceTopologyPatchSizeRatio m |}.

Definition UpdatePodResourceApiCallsFailuresMetric (funcName : string) (m : Registry) : Registry :=
  {| nodeName := nodeName m;
     PodResourceApiCallsFailure := Inc (nodeName m, funcName) (PodResourceApiCallsFailure m);
     NodeResourceTopologyWrites := NodeResourceTopologyWrites m;
     OperationDelay := OperationDelay m; WakeupDelay := WakeupDelay m;
     NodeResourceTopologyPatchFailure := NodeResourceTopologyPatchFailure m;
     NodeResourceTopologyPatchSizeRatio := NodeResourceTopologyPatchSizeRatio m |}.

Definition UpdateOperationDelayMetric (opName trigger : string) (operationDelay : Z) (m : Registry) : Registry :=
  {| nodeName := nodeName m;
     PodResourceApiCallsFailure := PodResourceApiCallsFailure m;
     NodeResourceTopologyWrites := NodeResourceTopologyWrites m;
     OperationDelay := <[(nodeName m, opName, trigger) := operationDelay]> (OperationDelay m);
     WakeupDelay := WakeupDelay m;
     NodeResourceTopologyPatchFailure := NodeResourceTopologyPatchFailure m;
     NodeResourceTopologyPatchSizeRatio := NodeResourceTopologyPatchSizeRatio m |}.

Definition UpdateWakeupDelayMetric (trigger : string) (wakeupDelay : Z) (m : Registry) : Registry :=
  {| nodeName := nodeName m;
     PodResourceApiCallsFailure := PodResourceApiCallsFailure m;
     NodeResourceTopologyWrites := NodeResourceTopologyWrites m;
     OperationDelay := OperationDelay m;
     WakeupDelay := <[(nodeName m, trigger) := wakeupDelay]> (WakeupDelay m);
     NodeResourceTopologyPatchFailure := NodeResourceTopologyPatchFailure m;
     NodeResourceTopologyPatchSizeRatio := NodeResourceTopologyPatchSizeRatio m |}.

Definition UpdateNodeResourceTopologyPatchFailuresMetric (trigger : string) (m : Registry) : Registry :=
  {| nodeName := nodeName m;
     PodResourceApiCallsFailure := PodResourceApiCallsFailure m;
     NodeResourceTopologyWrites := NodeResourceTopologyWrites m;
     OperationDelay := OperationDelay m; WakeupDelay := WakeupDelay m;
     NodeResourceTopologyPatchFailure := Inc (nodeName m, trigger) (NodeResourceTopologyPatchFailure m);
     NodeResourceTopologyPatchSizeRatio := NodeResourceTopologyPatchSizeRatio m |}.

(** [Observe]: the histogram's buckets are a function of what it observed. *)
Definition UpdateNodeResourceTopologyPatchSizeRatioMetric (ratio : spec_float) (m : Registry) : Registry :=
  {| nodeName := nodeName m;
     PodResourceApiCallsFailure := PodResourceApiCallsFailure m;
     NodeResourceTopologyWrites := NodeResourceTopologyWrites m;
     OperationDelay := OperationDelay m; WakeupDelay := WakeupDelay m;
     NodeResourceTopologyPatchFailure := NodeResourceTopologyPatchFailure m;
     NodeResourceTopologyPatchSizeRatio :=
       <[nodeName m := default [] (NodeResourceTopologyPatchSizeRatio m !! nodeName m) ++ [ratio]]>
         (NodeResourceTopologyPatchSizeRatio m) |}.

(** [Setup]: the node name is the argument, else [NODE_NAME], else the host
    name; a failure leaves the registry as it was. *)
Definition Setup (nname : string) (env : gmap string string) (hostname : string * option error)
  (m : Registry) : Registry * option error :=
  let '(val, err) :=
    if bool_decide (nname = "") then
      match env !! "NODE_NAME" with
      | Some v => (v, None)
      | None => hostname
      end
    else (nname, None) in
  match err with
  | Some e => (m, Some e)
  | None =>
      ({| nodeName := val;
          PodResourceApiCallsFailure := PodResourceApiCallsFailure m;
          NodeResourceTopologyWrites := NodeResourceTopologyWrites m;
          OperationDelay := OperationDelay m; WakeupDelay := WakeupDelay m;
          NodeResourceTopologyPatchFailure := NodeResourceTopologyPatchFailure m;
          NodeResourceTopologyPatchSizeRatio := NodeResourceTopologyPatchSizeRatio m |}, None)
  end.
