(* ===== verification/MetricsServer.v ===== *)
(** * The metrics endpoint

    Models [pkg/metrics/server/setup.go] and
    [pkg/metrics/server/tls_policy.go]: the serving modes, the environment,
    and the TLS options of the HTTPS listener.  The names of TLS versions and
    cipher suites are parsed by a Kubernetes library, an interface here. *)

From Stdlib Require Import Ascii.
From S2P Require Import Prelude GoStrings.

Definition PortDefault : Z := 2112.
Definition AddressDefault : string := "0.0.0.0".
Definition TLSRootDir : string := "/etc/secrets/rte".
Definition TLSCert : string := "tls.crt".
Definition TLSKey : string := "tls.key".

Definition ServingDisabled : string := "disabled".
Definition ServingDefault : string := ServingDisabled.
Definition ServingHTTP : string := "http".
Definition ServingHTTPTLS : string := "httptls".

Record TLSConfig := {
  CertsDir : string;
  CertFile : string;
  KeyFile : string;
  WantCliAuth : bool;
  MinTLSVersion : string;
  CipherSuites : string
}.

Definition NewDefaultTLSConfig : TLSConfig :=
  {| CertsDir := TLSRootDir; CertFile := TLSCert; KeyFile := TLSKey;
     WantCliAuth := false; MinTLSVersion := ""; CipherSuites := "" |}.

Definition TLSConfig_Clone (conf : TLSConfig) : TLSConfig :=
  {| CertsDir := CertsDir conf; CertFile := CertFile conf; KeyFile := KeyFile conf;
     WantCliAuth := WantCliAuth conf; MinTLSVersion := MinTLSVersion conf;
     CipherSuites := CipherSuites conf |}.

Record Config := { conf_IP : string; conf_Port : Z; conf_TLS : TLSConfig }.

Definition NewConfig (ip : string) (port : Z) (tlsConf : TLSConfig) : Config :=
  {| conf_IP := ip; conf_Port := port; conf_TLS := tlsConf |}.

Definition NewDefaultConfig : Config := NewConfig AddressDefault PortDefault NewDefaultTLSConfig.

Definition Config_Validate (conf : Config) : option error :=
  if conf_Port conf <=? 0 then Some (Errorf ("invalid port: " +:+ Sprintf_d (conf_Port conf))) else None.

Definition BindAddress (conf : Config) : string :=
  conf_IP conf +:+ ":" +:+ Sprintf_d (conf_Port conf).

Definition ServingModeIsSupported (value : string) : string * option error :=
  let val := ToLower value in
  if bool_decide (val = ServingDisabled) then (val, None)
  else if bool_decide (val = ServingHTTP) then (val, None)
  else if bool_decide (val = ServingHTTPTLS) then (val, None)
  else (val, Some (Errorf ("unsupported method  " +:+ Sprintf_q value))).

Definition ServingModeSupported : string := Join [ServingDisabled; ServingHTTP; ServingHTTPTLS] ",".

(** A value that is not a number, like a missing one, is 0. *)
Definition PortFromEnv (env : gmap string string) : Z :=
  match env !! "METRICS_PORT" with
  | None => 0
  | Some envValue => match Atoi envValue with (port, None) => port | (_, Some _) => 0 end
  end.

Definition AddressFromEnv (env : gmap string string) : string :=
  match env !! "METRICS_ADDRESS" with None => "" | Some ip => ip end.

(** ** The TLS policy *)

(** [cliflag.TLSVersion] and [cliflag.TLSCipherSuites], and [crypto/tls]'s
    constants. *)
Class TLSFlagLib := {
  TLSVersion : string → outcome Z;
  TLSCipherSuites : list string → outcome (list Z);
  VersionTLS13 : Z
}.

Inductive ClientAuthType := NoClientCert | RequireAndVerifyClientCert.

(** The part of a [tls.Config] the options write; a nil slice is [None]. *)
Record tls_Config := {
  tls_MinVersion : Z;
  tls_MaxVersion : Z;
  tls_CipherSuites : option (list Z);
  tls_NextProtos : list string;
  tls_ClientAuth : ClientAuthType
}.

Fixpoint nonEmptyParts (parts : list string) : list string :=
  match parts with
  | [] => []
  | p :: rest =>
      let p := TrimSpace p in
      if negb (bool_decide (p = "")) then p :: nonEmptyParts rest else nonEmptyParts rest
  end.

Definition splitNonEmptyCSV (s : string) : list string := nonEmptyParts (Split s ",").

Definition tls12AndEarlierPolicyOpt (minVer : Z) (cipherIDs : list Z) (cfg : tls_Config) : tls_Config :=
  {| tls_MinVersion := minVer; tls_MaxVersion := tls_MaxVersion cfg;
     tls_CipherSuites := Some cipherIDs; tls_NextProtos := tls_NextProtos cfg;
     tls_ClientAuth := tls_ClientAuth cfg |}.

Definition withHTTP11 (cfg : tls_Config) : tls_Config :=
  {| tls_MinVersion := tls_MinVersion cfg; tls_MaxVersion := tls_MaxVersion cfg;
     tls_CipherSuites := tls_CipherSuites cfg; tls_NextProtos := ["http/1.1"];
     tls_ClientAuth := tls_ClientAuth cfg |}.

Definition WithClientAuth (cliAuth : bool) (cfg : tls_Config) : tls_Config :=
  {| tls_MinVersion := tls_MinVersion cfg; tls_MaxVersion := tls_MaxVersion cfg;
     tls_CipherSuites := tls_CipherSuites cfg; tls_NextProtos := tls_NextProtos cfg;
     tls_ClientAuth := if negb cliAuth then NoClientCert else RequireAndVerifyClientCert |}.

Section policy.
Context `{TLSFlagLib}.

Definition tls13PolicyOpt (cfg : tls_Config) : tls_Config :=
  {| tls_MinVersion := VersionTLS13; tls_MaxVersion := VersionTLS13; tls_CipherSuites := None;
     tls_NextProtos := tls_NextProtos cfg; tls_ClientAuth := tls_ClientAuth cfg |}.

Definition metricsTLSPolicyOpts (minTLSVersion cipherSuitesCSV : string)
  : outcome (list (tls_Config → tls_Config)) :=
  let minName := TrimSpace minTLSVersion in
  let cipherNames := splitNonEmptyCSV cipherSuitesCSV in
  if bool_decide (minName = "") && (length cipherNames =? 0)%nat then Ok []
  else
    let! minVer := TLSVersion minName in
    let! cipherIDs := TLSCipherSuites cipherNames in
    if minVer =? VersionTLS13 then Ok [tls13PolicyOpt]
    else Ok [tls12AndEarlierPolicyOpt minVer cipherIDs].

Definition buildSecureMetricsTLSOpts (tlsConf : TLSConfig) : outcome (list (tls_Config → tls_Config)) :=
  match metricsTLSPolicyOpts (MinTLSVersion tlsConf) (CipherSuites tlsConf) with
  | Err e => Err (Wrapf "metrics TLS policy" e)
  | Panic p => Panic p
  | Ok policyOpts =>
      let out := [withHTTP11] in
      let out := out ++ policyOpts in
      let out := out ++ [WithClientAuth (WantCliAuth tlsConf)] in
      Ok out
  end.

(** The options of the server [Setup] starts. *)
Record ServerOptions := {
  so_SecureServing : bool;
  so_BindAddress : string;
  so_CertDir : string;
  so_CertName : string;
  so_KeyName : string;
  so_TLSOpts : list (tls_Config → tls_Config)
}.

(** [Ok None]: no server; [newServer] is the outcome of building one. *)
Definition Setup (mode : string) (conf : Config) (newServer : ServerOptions → option error)
  : outcome (option ServerOptions) :=
  if bool_decide (mode = ServingDisabled) then Ok None
  else
    match Config_Validate conf with
    | Some e => Err e
    | None =>
        let! secureServing :=
          if bool_decide (mode = ServingHTTP) then Ok false
          else if bool_decide (mode = ServingHTTPTLS) then Ok true
          else Err (Errorf ("unknown mode: " +:+ mode)) in
        let! tlsOpts := if secureServing then buildSecureMetricsTLSOpts (conf_TLS conf) else Ok [] in
        let opts := {| so_SecureServing := secureServing; so_BindAddress := BindAddress conf;
                       so_CertDir := CertsDir (conf_TLS conf); so_CertName := CertFile (conf_TLS conf);
                       so_KeyName := KeyFile (conf_TLS conf); so_TLSOpts := tlsOpts |} in
        match newServer opts with
        | Some e => Err (Wrapf ("failed to build server with port " +:+ Sprintf_d (conf_Port conf)) e)
        | None => Ok (Some opts)
        end
    end.

(** The configuration the listener ends up with: the options in their order. *)
Definition applyOpts (opts : list (tls_Config → tls_Config)) (cfg : tls_Config) : tls_Config :=
  foldl (λ cfg opt, opt cfg) cfg opts.

Lemma splitNonEmptyCSV_spec s :
  splitNonEmptyCSV s = List.filter (λ p, negb (bool_decide (p = ""))) (TrimSpace <$> Split s ",").
Proof.
  unfold splitNonEmptyCSV. induction (Split s ",") as [|p ps IH]; [done|]. simpl. by rewrite IH.
Qed.

End policy.

(** The names of the Kubernetes flags, for two versions. *)
Definition example_tls : TLSFlagLib := {|
  TLSVersion s := if bool_decide (s = "VersionTLS13") then Ok 772
                  else if bool_decide (s = "VersionTLS12") || bool_decide (s = "") then Ok 771
                  else Err (Errorf ("unknown tls version " +:+ s));
  TLSCipherSuites names := Ok ((λ _, 49199) <$> names);
  VersionTLS13 := 772 |}.

Definition example_tls_conf : Config :=
  NewConfig AddressDefault PortDefault
    {| CertsDir := TLSRootDir; CertFile := TLSCert; KeyFile := TLSKey; WantCliAuth := true;
       MinTLSVersion := " VersionTLS13 "; CipherSuites := "A, ,B" |}.

Definition go_tls_defaults : tls_Config :=
  {| tls_MinVersion := 0; tls_MaxVersion := 0; tls_CipherSuites := None; tls_NextProtos := ["h2"];
     tls_ClientAuth := NoClientCert |}.

