(* ===== verification/Events.v ===== *)
(** * Event sources

    Models [pkg/notification/notification.go], the source that merges the
    timer with the changes of a notification file, and
    [pkg/ratelimiter/ratelimiter.go], the decorator that buffers a few events
    and drops the rest; and [createEventSource] of
    [pkg/resourcetopologyexporter/resourcetopologyexporter.go]. *)

From S2P Require Import Prelude GoStrings GoTime Filepath.

(** ** Notifications *)

(** A time is nanoseconds; the interval is 0 for an event that is not the
    timer's. *)
Record Event := { ev_Timestamp : Z; ev_TimerInterval : Z }.

Definition IsTimer (ev : Event) : bool := 0 <? ev_TimerInterval ev.

(** The [fsnotify] package: its events and the bits of their operations. *)
Class Fsnotify := { fs_Chmod : Z; fs_Write : Z }.

Record FsEvent := { fe_Name : string; fe_Op : Z }.

(** The file system as [ensureNotifyFilePath] sees it. *)
Record FileInfo := { fi_Size : Z; fi_IsRegular : bool }.

Class NotifyFS (S : Type) := {
  os_MkdirAll : string → S → S * option error;
  os_Stat : string → S → outcome FileInfo;
  os_Create : string → S → S * option error  (** creates or truncates, then closes *)
}.

(** [watcher] is the list of paths added to it. *)
Record UnlimitedEventSource := {
  sleepInterval : Z;
  filters : list (FsEvent → bool);
  watched : list string
}.

Definition NewUnlimitedEventSource (watcher : outcome unit) : outcome UnlimitedEventSource :=
  match watcher with
  | Ok _ => Ok {| sleepInterval := 0; filters := []; watched := [] |}
  | Err err => Err (Wrapf "failed to create the watcher" err)
  | Panic p => Panic p
  end.

Definition SetInterval (es : UnlimitedEventSource) (interval : Z) : UnlimitedEventSource * option error :=
  if interval <? 0 then
    (es, Some (Errorf ("interval cannot be negative: " +:+ Duration_String interval)))
  else if 0 <? sleepInterval es then
    (es, Some (Errorf "interval already set, and only one time-based source supported"))
  else
    ({| sleepInterval := interval; filters := filters es; watched := watched es |}, None).

Definition FilterNothing (_ : FsEvent) : bool := false.
Definition FilterEverything (_ : FsEvent) : bool := true.

Fixpoint AnyFilter (fs : list (FsEvent → bool)) (event : FsEvent) : bool :=
  match fs with
  | [] => false
  | filter :: rest => if filter event then true else AnyFilter rest event
  end.

Section notification.
Context `{Fsnotify} {S : Type} `{NotifyFS S}.

Definition ensureNotifyFilePath (notifyFilePath_ : string) (fs : S) : S * option error :=
  let notifyFilePath := Clean notifyFilePath_ in
  let baseDir := Dir notifyFilePath in
  let '(fs, err) := os_MkdirAll baseDir fs in
  match err with
  | Some e => (fs, Some e)
  | None =>
      let refused :=
        match os_Stat notifyFilePath fs with
        | Ok info =>
            if (0 <? fi_Size info) || negb (fi_IsRegular info)
            then Some (Errorf ("cannot use " +:+ Sprintf_q notifyFilePath +:+ ": already exists with size=" +:+
                               Sprintf_d (fi_Size info) +:+ " isRegular=" +:+ Sprintf_t (fi_IsRegular info)))
            else None
        | _ => None
        end in
      match refused with
      | Some err => (fs, Some err)
      | None => os_Create notifyFilePath fs
      end
  end.

(** The filter [AddFile] installs. *)
Definition fileFilter (notifyFilePath : string) (event : FsEvent) : bool :=
  if bool_decide (fe_Name event = notifyFilePath) then
    if Z.land (fe_Op event) fs_Chmod =? fs_Chmod then true
    else if Z.land (fe_Op event) fs_Write =? fs_Write then true
    else false
  else false.

(** [canWatch] tells whether the watcher accepts the path; a refusal is only
    logged. *)
Definition tryToWatch (es : UnlimitedEventSource) (fsPath : string) (canWatch : bool)
  : UnlimitedEventSource :=
  if canWatch
  then {| sleepInterval := sleepInterval es; filters := filters es; watched := watched es ++ [fsPath] |}
  else es.

Definition AddFile (es : UnlimitedEventSource) (notifyFilePath : string) (canWatch : bool) (fs : S)
  : S * UnlimitedEventSource * option error :=
  if bool_decide (notifyFilePath = "") then (fs, es, None)
  else
    let '(fs, err) := ensureNotifyFilePath notifyFilePath fs in
    match err with
    | Some e => (fs, es, Some e)
    | None =>
        let es := tryToWatch es notifyFilePath canWatch in
        (fs, {| sleepInterval := sleepInterval es; filters := filters es ++ [fileFilter notifyFilePath];
                watched := watched es |}, None)
    end.

(** What the loop receives.  Without an interval its timer channel is one
    nobody writes to. *)
Inductive SourceInput :=
| TimerTick (tickTs : Z)
| WatcherEvent (event : FsEvent) (now : Z)
| WatcherError (err : error)
| StopSource.

Fixpoint sourceLoop (es : UnlimitedEventSource) (inputs : list SourceInput) : list Event * bool :=
  match inputs with
  | [] => ([], false)
  | TimerTick tickTs :: rest =>
      let '(out, stopped) := sourceLoop es rest in
      if 0 <? sleepInterval es
      then ({| ev_Timestamp := tickTs; ev_TimerInterval := sleepInterval es |} :: out, stopped)
      else (out, stopped)
  | WatcherEvent event now :: rest =>
      let '(out, stopped) := sourceLoop es rest in
      if AnyFilter (filters es) event
      then ({| ev_Timestamp := now; ev_TimerInterval := 0 |} :: out, stopped)
      else (out, stopped)
  | WatcherError _ :: rest => sourceLoop es rest
  | StopSource :: _ => ([], true)
  end.

(** [Run]: the events sent, and whether the source is done. *)
Definition SourceRun (es : UnlimitedEventSource) (now : Z) (inputs : list SourceInput)
  : list Event * bool :=
  let '(out, stopped) := sourceLoop es inputs in
  ({| ev_Timestamp := now; ev_TimerInterval := 0 |} :: out, stopped).
End notification.
#[global] Arguments SourceInput : clear implicits.

(** ** The rate limiter

    Two goroutines around a buffered channel.  The state is what went through
    each channel; [holding] is the event the sender took from the buffer and
    waits to hand over, once the limiter lets it. *)

Module RateLimiter.

Definition bufferSize : nat := 5.

Record t := {
  received : list Event;   (** read from the decorated source, in order *)
  buffer : list Event;     (** in [bufferCh], oldest first *)
  holding : option Event;  (** taken by the sender, not yet handed over *)
  sent : list Event;       (** read by the consumer, in order *)
  dropped : list Event;
  receiverDone : bool;
  senderDone : bool
}.

Definition NewRateLimitedEventSource : t :=
  {| received := []; buffer := []; holding := None; sent := []; dropped := [];
     receiverDone := false; senderDone := false |}.

(** [receiver]: store the incoming event, or drop it when the buffer is full. *)
Definition receive (s : t) (ev : Event) : t :=
  if decide (length (buffer s) < bufferSize)%nat
  then {| received := received s ++ [ev]; buffer := buffer s ++ [ev]; holding := holding s;
          sent := sent s; dropped := dropped s;
          receiverDone := receiverDone s; senderDone := senderDone s |}
  else {| received := received s ++ [ev]; buffer := buffer s; holding := holding s;
          sent := sent s; dropped := dropped s ++ [ev];
          receiverDone := receiverDone s; senderDone := senderDone s |}.

(** [sender]: take the oldest event, then hand it over. *)
Inductive step : t → t → Prop :=
| step_receive s ev : receiverDone s = false → step s (receive s ev)
| step_take s ev rest :
    senderDone s = false → holding s = None → buffer s = ev :: rest →
    step s {| received := received s; buffer := rest; holding := Some ev; sent := sent s;
              dropped := dropped s; receiverDone := receiverDone s; senderDone := senderDone s |}
| step_send s ev :
    holding s = Some ev →
    step s {| received := received s; buffer := buffer s; holding := None; sent := sent s ++ [ev];
              dropped := dropped s; receiverDone := receiverDone s; senderDone := senderDone s |}
| step_stop_receiver s : receiverDone s = false →
    step s {| received := received s; buffer := buffer s; holding := holding s; sent := sent s;
              dropped := dropped s; receiverDone := true; senderDone := senderDone s |}
| step_stop_sender s : senderDone s = false → holding s = None → receiverDone s = true →
    step s {| received := received s; buffer := buffer s; holding := holding s; sent := sent s;
              dropped := dropped s; receiverDone := receiverDone s; senderDone := true |}.

(** The events that got past the buffer, in order. *)
Definition kept (s : t) : list Event := sent s ++ option_list (holding s) ++ buffer s.

Record limiter_ok (s : t) : Prop := {
  ok_bound : (length (buffer s) ≤ bufferSize)%nat;
  ok_order : kept s `sublist_of` received s;
  ok_count : (length (kept s) + length (dropped s) = length (received s))%nat;
  ok_room : (0 < length (dropped s) → bufferSize ≤ length (kept s))%nat
}.

Lemma limiter_ok_new : limiter_ok NewRateLimitedEventSource.
Proof. constructor; simpl; unfold bufferSize; [lia|constructor|done|lia]. Qed.

Lemma step_ok s s' : step s s' → limiter_ok s → limiter_ok s'.
Proof.
  intros Hs [Hb Ho Hc Hr].
  destruct Hs as [s ev _|s ev rest _ Hh Hbuf|s ev Hh|s _|s _ _]; unfold kept in *; simpl in *.
  - unfold receive. case_decide as Hlt; constructor; unfold kept; simpl;
      rewrite ?length_app, ?app_assoc in *; simpl; try lia.
    + by apply sublist_app.
    + etrans; [exact Ho|]. by apply sublist_inserts_r.
  - constructor; unfold kept; simpl; rewrite Hbuf, Hh in *; simpl in *; [lia|done|done|done].
  - constructor; unfold kept; simpl; rewrite Hh in *; simpl in *;
      rewrite <-?app_assoc; rewrite ?length_app in *; simpl in *; [done|done|lia|intros; lia].
  - by constructor.
  - by constructor.
Qed.

(** C16: the rate limiter, over any interleaving of its two goroutines: at most
    five events wait in the buffer; what the consumer got, the event in hand
    and the buffer are, in order, events the source produced; every event is
    either among these or dropped, and none is dropped before five others were
    accepted. *)
Theorem limiter_history s (Hsteps : rtc step NewRateLimitedEventSource s) : limiter_ok s.
Proof.
  assert (limiter_ok NewRateLimitedEventSource) as Hok by apply limiter_ok_new.
  revert Hok. induction Hsteps as [s|s1 s2 s3 Hs _ IH]; [done|].
  intros Hok. by eapply IH, step_ok.
Qed.

Lemma drain_buffer n s :
  length (buffer s) = n → senderDone s = false → holding s = None →
  ∃ s', rtc step s s' ∧ sent s' = sent s ++ buffer s ∧ holding s' = None ∧ buffer s' = [] ∧
        received s' = received s ∧ dropped s' = dropped s.
Proof.
  revert s. induction n as [|n IH]; intros s Hn Hsd Hh.
  - apply nil_length_inv in Hn. exists s. rewrite Hn, app_nil_r. split_and!; [constructor|done..].
  - destruct (buffer s) as [|ev rest] eqn:Hb; [done|].
    set (s1 := {| received := received s; buffer := rest; holding := Some ev; sent := sent s;
                  dropped := dropped s; receiverDone := receiverDone s; senderDone := senderDone s |}).
    set (s2 := {| received := received s; buffer := rest; holding := None; sent := sent s ++ [ev];
                  dropped := dropped s; receiverDone := receiverDone s; senderDone := senderDone s |}).
    destruct (IH s2) as (s' & Hs' & Hsent & Hh' & Hb' & Hr' & Hd'); [by injection Hn|done|done|].
    exists s'. split_and!; [|by rewrite Hsent; simpl; rewrite <-app_assoc|done..].
    eapply rtc_l; [by apply (step_take s ev rest)|]. eapply rtc_l; [|exact Hs'].
    apply (step_send s1 ev). done.
Qed.

(** Nothing that was accepted gets lost: while the sender runs, handing
    over the event in hand and the buffered ones, in order, is always
    possible and leaves nothing waiting. *)
Theorem limiter_drains s (Hsender : senderDone s = false) :
  ∃ s', rtc step s s' ∧ sent s' = kept s ∧ holding s' = None ∧ buffer s' = [] ∧
        received s' = received s ∧ dropped s' = dropped s.
Proof.
  unfold kept. destruct (holding s) as [ev|] eqn:Hh; simpl; [|by apply (drain_buffer _ s eq_refl)].
  set (s1 := {| received := received s; buffer := buffer s; holding := None; sent := sent s ++ [ev];
                dropped := dropped s; receiverDone := receiverDone s; senderDone := senderDone s |}).
  destruct (drain_buffer _ s1 eq_refl Hsender eq_refl) as (s' & Hs' & Hsent & ?).
  exists s'. split; [|by rewrite Hsent; simpl; rewrite <-app_assoc].
  eapply rtc_l; [by apply (step_send s ev)|done].
Qed.

(** The steps the sender has left once nothing more is received. *)
Definition work (s : t) : nat :=
  2 * length (buffer s) + length (option_list (holding s)) + (if senderDone s then 0 else 1).

Lemma step_work s s' :
  step s s' → receiverDone s = true → receiverDone s' = true ∧ (work s' < work s)%nat.
Proof.
  intros Hs Hr. destruct Hs as [s ev Hr'|s ev rest Hsd Hh Hbuf|s ev Hh|s Hr'|s Hsd Hh _]; try congruence;
    (split; [done|]); unfold work; simpl.
  - rewrite Hsd, Hh, Hbuf. simpl. lia.
  - rewrite Hh. simpl. lia.
  - rewrite Hsd. lia.
Qed.

Lemma nsteps_work n s s' :
  nsteps step n s s' → receiverDone s = true → receiverDone s' = true ∧ (n + work s' ≤ work s)%nat.
Proof.
  intros Hn. induction Hn as [s|n s1 s2 s3 Hs Hn IH]; intros Hr; [done|].
  apply step_work in Hs as [Hr2 Hw]; [|done]. destruct (IH Hr2). split; [done|lia].
Qed.

(** The limiter shuts down: once the receiver has stopped, no interleaving
    runs for more than two steps per buffered event, one for the event in hand
    and one to stop, and wherever it ends the sender has stopped, with no
    event in hand. *)
Theorem limiter_terminates s (Hstopped : receiverDone s = true) :
  (∀ n s', nsteps step n s s' → n ≤ 2 * length (buffer s) + 2)%nat ∧
  (∀ s', rtc step s s' → (∀ s'', ¬ step s' s'') → senderDone s' = true ∧ holding s' = None).
Proof.
  split.
  - intros n s' [_ Hn]%nsteps_work; [|done]. unfold work in Hn at 2.
    destruct (holding s), (senderDone s); simpl in Hn; lia.
  - intros s' (n & Hn)%rtc_nsteps Hend. apply nsteps_work in Hn as [Hr _]; [|done].
    destruct (holding s') as [ev|] eqn:Hh; [by destruct (Hend _ (step_send s' ev Hh))|].
    split; [|done]. destruct (senderDone s') eqn:Hsd; [done|].
    by destruct (Hend _ (step_stop_sender s' Hsd Hh Hr)).
Qed.

(** A burst that fits is kept whole. *)
Lemma burst_kept s evs :
  (length (buffer s) + length evs ≤ bufferSize)%nat →
  buffer (foldl receive s evs) = buffer s ++ evs ∧ dropped (foldl receive s evs) = dropped s.
Proof.
  revert s. induction evs as [|ev evs IH]; intros s Hlen; simpl in *; [by rewrite app_nil_r|].
  destruct (IH (receive s ev)) as [-> ->]; unfold receive; rewrite decide_True by lia; simpl.
  - rewrite length_app. simpl. lia.
  - by rewrite <-app_assoc.
Qed.

Definition example_event (ts : Z) : Event := {| ev_Timestamp := ts; ev_TimerInterval := 0 |}.

(** Six events in a burst: five wait, the sixth is dropped. *)
Definition example_burst : t := foldl receive NewRateLimitedEventSource (example_event <$> [1; 2; 3; 4; 5; 6]).

Lemma receive_all s evs : receiverDone s = false → rtc step s (foldl receive s evs).
Proof.
  revert s. induction evs as [|ev evs IH]; intros s Hr; simpl; [constructor|].
  eapply rtc_l; [by apply step_receive|]. apply IH. unfold receive. by case_decide.
Qed.

Lemma example_burst_reachable : rtc step NewRateLimitedEventSource example_burst.
Proof. by apply receive_all. Qed.

Lemma limiter_history_witness : limiter_ok example_burst ∧ dropped example_burst = [example_event 6].
Proof. split; [apply (limiter_history _ example_burst_reachable)|reflexivity]. Defined.

Lemma limiter_drains_witness :
  ∃ s', rtc step example_burst s' ∧ sent s' = example_event <$> [1; 2; 3; 4; 5].
Proof.
  destruct (limiter_drains example_burst eq_refl) as (s' & Hs & Hsent & _).
  exists s'. split; [exact Hs|exact Hsent].
Defined.

Definition example_stopped : t :=
  {| received := received example_burst; buffer := buffer example_burst; holding := holding example_burst;
     sent := sent example_burst; dropped := dropped example_burst; receiverDone := true; senderDone := false |}.

Lemma limiter_terminates_witness :
  receiverDone example_stopped = true ∧
  ∃ s', rtc step example_stopped s' ∧ senderDone s' = true ∧ sent s' = example_event <$> [1; 2; 3; 4; 5].
Proof.
  split; [reflexivity|]. destruct (drain_buffer _ example_stopped eq_refl eq_refl eq_refl) as (s1 & Hs1 & Hsent & Hh & Hb & _).
  pose proof Hs1 as (n & Hn)%rtc_nsteps. destruct (nsteps_work _ _ _ Hn eq_refl) as [Hr _].
  destruct (senderDone s1) eqn:Hsd; [exists s1; split; [exact Hs1|split; [exact Hsd|exact Hsent]]|].
  set (s2 := {| received := received s1; buffer := buffer s1; holding := holding s1; sent := sent s1;
                dropped := dropped s1; receiverDone := receiverDone s1; senderDone := true |}).
  assert (rtc step example_stopped s2) as Hs2 by (eapply rtc_r; [exact Hs1|by apply step_stop_sender]).
  exists s2. split; [exact Hs2|]. split; [|exact Hsent].
  apply (limiter_terminates example_stopped eq_refl); [exact Hs2|].
  intros s3 Hs3. inversion Hs3; subst; simpl in *; congruence.
Defined.

End RateLimiter.

(** ** Which source *)

(** The arguments [createEventSource] reads. *)
Record EventArgs := {
  SleepInterval : Z;
  NotifyFilePath : string;
  MaxEventsPerTimeUnit : Z;
  TimeUnitToLimitEvents : Z
}.

Inductive EventSource :=
| Unlimited (es : UnlimitedEventSource)
| RateLimited (es : UnlimitedEventSource) (maxEventsPerTimeUnit timeUnit : Z).

Section create.
Context `{Fsnotify} {S : Type} `{NotifyFS S}.

Definition createEventSource (rteArgs : EventArgs) (watcher : outcome unit) (canWatch : bool) (fs : S)
  : S * outcome EventSource :=
  match NewUnlimitedEventSource watcher with
  | Err e => (fs, Err e)
  | Panic p => (fs, Panic p)
  | Ok eventSource =>
      let '(eventSource, err) := SetInterval eventSource (SleepInterval rteArgs) in
      match err with
      | Some e => (fs, Err e)
      | None =>
          let '(fs, eventSource, err) := AddFile eventSource (NotifyFilePath rteArgs) canWatch fs in
          match err with
          | Some e => (fs, Err e)
          | None =>
              (fs, Ok (if (0 <? MaxEventsPerTimeUnit rteArgs) && (0 <? TimeUnitToLimitEvents rteArgs)
                       then RateLimited eventSource (MaxEventsPerTimeUnit rteArgs)
                              (TimeUnitToLimitEvents rteArgs)
                       else Unlimited eventSource))
          end
      end
  end.

Definition base_source (es : EventSource) : UnlimitedEventSource :=
  match es with Unlimited u => u | RateLimited u _ _ => u end.

Lemma AnyFilter_exists fs event : AnyFilter fs event = existsb (λ f, f event) fs.
Proof. induction fs as [|f fs IH]; simpl; [done|]. rewrite IH. by destruct (f event). Qed.

Lemma fileFilter_true path event :
  fileFilter path event = true ↔
  fe_Name event = path ∧
  (Z.land (fe_Op event) fs_Chmod = fs_Chmod ∨ Z.land (fe_Op event) fs_Write = fs_Write).
Proof.
  unfold fileFilter. case_bool_decide; [|naive_solver].
  destruct (Z.eqb_spec (Z.land (fe_Op event) fs_Chmod) fs_Chmod); [naive_solver|].
  destruct (Z.eqb_spec (Z.land (fe_Op event) fs_Write) fs_Write); naive_solver.
Qed.

(** The loop, input by input, while nobody stops it. *)
Lemma sourceLoop_running es inputs :
  StopSource ∉ inputs →
  sourceLoop es inputs =
  (inputs ≫= λ i, match i with
     | TimerTick ts =>
         if 0 <? sleepInterval es
         then [{| ev_Timestamp := ts; ev_TimerInterval := sleepInterval es |}] else []
     | WatcherEvent event now =>
         if existsb (λ f, f event) (filters es)
         then [{| ev_Timestamp := now; ev_TimerInterval := 0 |}] else []
     | _ => []
     end, false).
Proof.
  induction inputs as [|i inputs IH]; [done|]. rewrite not_elem_of_cons. intros [Hi Hin].
  rewrite bind_cons. destruct i as [ts|event now|e|]; simpl; rewrite ?IH by done; [| |done|done].
  - by destruct (0 <? sleepInterval es).
  - rewrite AnyFilter_exists. by destruct (existsb _ _).
Qed.

End create.

(** The file system calls, as documented: [Stat] reports what exists, making
    directories changes no existing file, [Create] empties one path. *)
Class NotifyFSLaws (S : Type) `{NotifyFS S} := {
  existing : S → string → option FileInfo;
  os_Stat_law path s info : existing s path = Some info → os_Stat path s = Ok info;
  os_MkdirAll_law dir s path info :
    existing s path = Some info → existing (os_MkdirAll dir s).1 path = Some info;
  os_Create_law path s path' info :
    existing s path' = Some info → path' ≠ path → existing (os_Create path s).1 path' = Some info
}.

Section safety.
Context `{Fsnotify} {S : Type} `{NotifyFSLaws S}.

(** C32: setting up the event source never destroys data: a file that is not
    empty, and anything that is not a regular file, is there afterwards as
    it was before, whatever path is configured for the notifications. *)
Theorem createEventSource_preserves rteArgs watcher canWatch fs path info
    (Hfile : existing fs path = Some info)
    (Hdata : 0 < fi_Size info ∨ fi_IsRegular info = false) :
  existing (createEventSource rteArgs watcher canWatch fs).1 path = Some info.
Proof.
  assert (∀ p, existing (ensureNotifyFilePath p fs).1 path = Some info) as Hensure.
  { intros p. unfold ensureNotifyFilePath.
    pose proof (os_MkdirAll_law (Dir (Clean p)) fs path info Hfile) as Hmk.
    destruct (os_MkdirAll (Dir (Clean p)) fs) as [fs1 [e|]]; simpl in *; [done|].
    destruct (decide (path = Clean p)) as [->|Hne].
    - rewrite (os_Stat_law _ _ _ Hmk).
      assert ((0 <? fi_Size info) || negb (fi_IsRegular info) = true) as ->; [|done].
      destruct Hdata as [Hs| ->]; [|apply orb_true_r]. by rewrite (proj2 (Z.ltb_lt _ _) Hs).
    - destruct (match os_Stat _ _ with Ok _ => _ | _ => _ end); [done|].
      by apply os_Create_law. }
  unfold createEventSource, SetInterval, AddFile.
  destruct (NewUnlimitedEventSource watcher) as [es|e|p]; [|done..].
  destruct (SleepInterval rteArgs <? 0); [done|]. destruct (0 <? sleepInterval es); [done|].
  case_bool_decide; [done|]. specialize (Hensure (NotifyFilePath rteArgs)).
  destruct (ensureNotifyFilePath _ _) as [fs1 [e|]]; done.
Qed.
End safety.

(** ** A run *)

(** Linux's values of the operation bits. *)
#[global] Instance example_fsnotify : Fsnotify := {| fs_Chmod := 16; fs_Write := 2 |}.

(** A file system where directories can be made, as the sizes of its files. *)
Record SizesFS := { sizes : gmap string Z }.

#[global] Instance SizesFS_fs : NotifyFS SizesFS := {|
  os_MkdirAll _ s := (s, None);
  os_Stat path s := match sizes s !! path with
                    | Some size => Ok {| fi_Size := size; fi_IsRegular := true |}
                    | None => Err (Errorf "no such file")
                    end;
  os_Create path s := ({| sizes := <[path := 0]> (sizes s) |}, None) |}.

#[global] Instance SizesFS_laws : NotifyFSLaws SizesFS.
Proof.
  refine {| existing s path := (λ size, {| fi_Size := size; fi_IsRegular := true |})
                                 <$> sizes s !! path |}; simpl.
  - intros path s info He. apply fmap_Some in He as (size & -> & ->). done.
  - done.
  - intros path s path' info He Hne. by rewrite lookup_insert_ne.
Defined.

Definition example_event_args : EventArgs :=
  {| SleepInterval := 60000000000; NotifyFilePath := "/run/rte/notify";
     MaxEventsPerTimeUnit := 1; TimeUnitToLimitEvents := 1000000000 |}.

Definition example_source_inputs : list SourceInput :=
  [WatcherEvent {| fe_Name := "/run/rte/notify"; fe_Op := 18 |} 7; TimerTick 9;
   WatcherEvent {| fe_Name := "/run/rte/other"; fe_Op := 2 |} 11].

Definition example_sizes : SizesFS := {| sizes := {[ "/run/rte/notify" := 10 ]} |}.
Definition example_no_file : SizesFS := {| sizes := ∅ |}.

Lemma example_inputs_running : StopSource ∉ example_source_inputs.
Proof.
  intros Hin. unfold example_source_inputs in Hin.
  repeat (apply elem_of_cons in Hin as [Hin|Hin]; [discriminate|]). by apply not_elem_of_nil in Hin.
Qed.



(** The configured file is in use: it is refused and kept. *)
Lemma createEventSource_preserves_witness :
  existing (createEventSource example_event_args (Ok ()) true example_sizes).1 "/run/rte/notify" =
  Some {| fi_Size := 10; fi_IsRegular := true |}.
Proof. apply createEventSource_preserves; [reflexivity|left; reflexivity]. Defined.
