(* ===== verification/ResourceMonitor.v ===== *)
(** * The resource monitor

    Models [pkg/resourcemonitor/resourcemonitor.go]: the state of the
    monitor, the refresh of the node's capacity and allocatable resources,
    and [Scan], which turns the kubelet's answer into the zones of the
    NodeResourceTopology object. *)

From S2P Require Import Prelude GoStrings PodRes Middleware Counters SysInfo Metrics.

(** ** Third-party parts

    The [podfingerprint] package: a fingerprint accumulates pods and is
    signed; a status traces the computation. *)
Class PodFingerprintLib := {
  pfp_Status : Type;
  pfp_State : Type;
  pfp_MakeStatus : string → pfp_Status;
  pfp_New : nat → pfp_Status → pfp_State;
  pfp_AddPod : pfp_State → string → string → pfp_State;
  pfp_Sign : pfp_State → string;
  pfp_traced : pfp_State → pfp_Status;  (** the status after signing *)
  pfp_MethodAll : string;
  pfp_MethodWithExclusiveResources : string;
  pfp_Attribute : string;
  pfp_AttributeMethod : string;
  pfp_Annotation : string
}.

(** ** Data *)

Record AttributeInfo := { attr_Name : string; attr_Value : string }.

Record ResourceInfo := {
  ri_Name : string;
  ri_Capacity : Z;
  ri_Allocatable : Z;
  ri_Available : Z
}.

Record Zone := {
  zone_Name : string;
  zone_Type : string;
  zone_Costs : list CostInfo;
  zone_Resources : list ResourceInfo
}.

(** A nil map of annotations is [None]: writing to it panics. *)
Record ScanResponse := {
  sr_Zones : list Zone;
  sr_Attributes : list AttributeInfo;
  sr_Annotations : option (gmap string string)
}.

Definition emptyScanResponse : ScanResponse :=
  {| sr_Zones := []; sr_Attributes := []; sr_Annotations := None |}.

(** [sort.Slice] by a name; the order of equal names, which [sort.Slice] leaves
    open, is the one of the merge sort here. *)
Definition name_le {X} (name : X → string) (x y : X) : Prop := String.le (name x) (name y).

#[global] Instance name_le_dec {X} (name : X → string) x y : Decision (name_le name x y).
Proof. unfold name_le. apply _. Defined.

Definition sortByName {X} (name : X → string) (l : list X) : list X := merge_sort (name_le name) l.

Definition SortedZones (sr : ScanResponse) : list Zone :=
  (λ zone, {| zone_Name := zone_Name zone; zone_Type := zone_Type zone;
              zone_Costs := sortByName cost_Name (zone_Costs zone);
              zone_Resources := sortByName ri_Name (zone_Resources zone) |})
    <$> sortByName zone_Name (sr_Zones sr).

Record Args := {
  Namespace : string;
  SysfsRoot : string;
  args_ResourceExclude : gmap string (list string);
  RefreshNodeResources : bool;
  PodSetFingerprint : bool;
  PodSetFingerprintMethod : string;
  ExposeTiming : bool;
  PodSetFingerprintStatusFile : string;
  args_PodExclude : list PodExclude.Item;
  ExcludeTerminalPods : bool
}.

Definition Args_Clone `{MapOrder} (args : Args) : Args := {|
  Namespace := Namespace args;
  SysfsRoot := SysfsRoot args;
  args_ResourceExclude := ResourceExclude.Clone (args_ResourceExclude args);
  RefreshNodeResources := RefreshNodeResources args;
  PodSetFingerprint := PodSetFingerprint args;
  PodSetFingerprintMethod := PodSetFingerprintMethod args;
  ExposeTiming := ExposeTiming args;
  PodSetFingerprintStatusFile := PodSetFingerprintStatusFile args;
  args_PodExclude := PodExclude.Clone (args_PodExclude args);
  ExcludeTerminalPods := ExcludeTerminalPods args |}.

Record resourceMonitor (C : Type) := {
  rm_nodeName : string;
  rm_args : Args;
  rm_podResCli : C;
  rm_topo : Info;
  coreIDToNodeIDMap : gmap Z Z;
  nodeCapacity : gmap Z (gmap string Z);
  nodeAllocatable : gmap Z (gmap string Z)
}.
Arguments rm_nodeName {C}.
Arguments rm_args {C}.
Arguments rm_podResCli {C}.
Arguments rm_topo {C}.
Arguments coreIDToNodeIDMap {C}.
Arguments nodeCapacity {C}.
Arguments nodeAllocatable {C}.
Arguments Build_resourceMonitor {C}.

(** What the monitor changes outside itself: the metrics, and the statuses
    sent to the fingerprint's completion sink. *)
Record World `{PodFingerprintLib} := {
  w_metrics : Registry;
  w_completed : list pfp_Status
}.

Section setters.
Context {C : Type}.
Implicit Types rm : resourceMonitor C.

Definition set_cli rm (c : C) : resourceMonitor C :=
  Build_resourceMonitor (rm_nodeName rm) (rm_args rm) c (rm_topo rm)
    (coreIDToNodeIDMap rm) (nodeCapacity rm) (nodeAllocatable rm).
Definition set_nodeCapacity rm (cap : gmap Z (gmap string Z)) : resourceMonitor C :=
  Build_resourceMonitor (rm_nodeName rm) (rm_args rm) (rm_podResCli rm) (rm_topo rm)
    (coreIDToNodeIDMap rm) cap (nodeAllocatable rm).
Definition set_nodeAllocatable rm (alloc : gmap Z (gmap string Z)) : resourceMonitor C :=
  Build_resourceMonitor (rm_nodeName rm) (rm_args rm) (rm_podResCli rm) (rm_topo rm)
    (coreIDToNodeIDMap rm) (nodeCapacity rm) alloc.
Definition set_coreMap rm (m : gmap Z Z) : resourceMonitor C :=
  Build_resourceMonitor (rm_nodeName rm) (rm_args rm) (rm_podResCli rm) (rm_topo rm)
    m (nodeCapacity rm) (nodeAllocatable rm).
End setters.

Definition with_metrics `{PodFingerprintLib} (f : Registry → Registry) (w : World) : World :=
  {| w_metrics := f (w_metrics w); w_completed := w_completed w |}.

(** ** Zones *)

(** The loop body over the allocatable resources of a NUMA node. *)
Definition scanResource (resCapCounters : gmap string Z) (used : gmap Z (gmap string Z))
  (nodeID : Z) (resName : string) (resAlloc : Z) : ResourceInfo :=
  let resCapacity :=
    match resCapCounters !! resName with
    | None => resAlloc
    | Some c => if c =? 0 then resAlloc else c
    end in
  let resCapacity := if resCapacity <? resAlloc then resAlloc else resCapacity in
  let resUsed := default 0 (default ∅ (used !! nodeID) !! resName) in
  let resAvail := wrap64 (resAlloc - resUsed) in
  let resAvail := if resAvail <? 0 then 0 else resAvail in
  {| ri_Name := resName; ri_Capacity := resCapacity; ri_Allocatable := resAlloc;
     ri_Available := resAvail |}.

(** ** What a monitor is made from *)

(** The client of the API server, as far as the monitor uses it: whether the
    cache of its node informer gets in sync. *)
Record NodeClient := { nc_HasSynced : bool }.

Record Handle (C : Type) := { PodResCli : C; K8SCli : NodeClient }.
Arguments PodResCli {C}.
Arguments K8SCli {C}.
Arguments Build_Handle {C}.

(** The functional options and the fields they set; the topology is a pointer
    and may be nil. *)
Inductive MonitorOption :=
| WithTopology (topo : option Info)
| WithK8sClient (c : NodeClient)
| WithNodeName (name : string).

Record MonitorSetup := { su_nodeName : string; su_topo : option Info; su_k8sCli : NodeClient }.

Definition applyOption (su : MonitorSetup) (opt : MonitorOption) : MonitorSetup :=
  match opt with
  | WithTopology topo => {| su_nodeName := su_nodeName su; su_topo := topo; su_k8sCli := su_k8sCli su |}
  | WithK8sClient c => {| su_nodeName := su_nodeName su; su_topo := su_topo su; su_k8sCli := c |}
  | WithNodeName name => {| su_nodeName := name; su_topo := su_topo su; su_k8sCli := su_k8sCli su |}
  end.

Section monitor.
Context `{MapOrder} `{PodFingerprintLib} `{QuantityLib}.
Context {C : Type} `{PodResourcesListerClient C}.
Implicit Types rm : resourceMonitor C.

(** The loop body over the NUMA nodes of the topology; [nodeID] is the index
    of the node in the list. *)
Definition scanZone rm (excludeSet : gmap string (gset string))
  (allocated : gmap Z (gmap string Z)) (nodeID : Z) : Zone :=
  let costs :=
    match makeCostsPerNumaNode (topo_Nodes (rm_topo rm)) nodeID with
    | Ok costs => costs
    | _ => []
    end in
  let resCapCounters := default ∅ (nodeCapacity rm !! nodeID) in
  let resCounters :=
    match nodeAllocatable rm !! nodeID with
    | Some rc => rc
    | None => {[ ResourceCPU := 0 ]}
    end in
  {| zone_Name := makeZoneName nodeID;
     zone_Type := "Node";
     zone_Costs := costs;
     zone_Resources :=
       foldl (λ resources kv,
                if inExcludeSet excludeSet kv.1 (rm_nodeName rm) then resources
                else resources ++ [scanResource resCapCounters allocated nodeID kv.1 kv.2])
             [] (range resCounters) |}.

Definition computePodFingerprintFromPodResources (podRes : list PodResources) (st : pfp_Status)
  (verifyFunc : option PodResources → Filter.Result) : string * pfp_Status :=
  let fp := foldl (λ fp pr,
                     if negb (Filter.Allow (verifyFunc (Some pr))) then fp
                     else pfp_AddPod fp (pr_Namespace pr) (pr_Name pr))
                  (pfp_New (length podRes) st) podRes in
  (pfp_Sign fp, pfp_traced fp).

(** Kept for its callers outside the exporter. *)
Definition ComputePodFingerprint (podRes : list PodResources) (st : pfp_Status)
  (allowFilter : option PodResources → bool) : string * pfp_Status :=
  let fp := foldl (λ fp pr,
                     if negb (allowFilter (Some pr)) then fp
                     else pfp_AddPod fp (pr_Namespace pr) (pr_Name pr))
                  (pfp_New (length podRes) st) podRes in
  (pfp_Sign fp, pfp_traced fp).

(** What the scan logs of the pods. *)
Definition collectPodsFromPodResources (podRes : list PodResources) : string :=
  let val := foldl (λ sb pr,
    let nl := NumaLocality.Verify (Some pr) in
    let desc := if Filter.Allow nl then "/" +:+ Filter.Ident nl +:+ "=" +:+ Filter.Reason nl else "" in
    sb +:+ "  " +:+ pr_Namespace pr +:+ "/" +:+ pr_Name pr +:+ desc) "" podRes in
  if (String.length val =? 0)%nat then "" else string_drop 2 val.

Definition mapIntIntToString (mii : gmap Z Z) : string :=
  foldl (λ sb kv, sb +:+ Sprintf_d kv.1 +:+ ":" +:+ Sprintf_d kv.2 +:+ " ") "" (range mii).

Definition Scan rm (w : World) (excludeList : gmap string (list string))
  : World * resourceMonitor C * outcome (ScanResponse * option error) :=
  let '(c, resp) := cli_List (rm_podResCli rm) in
  let rm := set_cli rm c in
  match resp with
  | Panic p => (w, rm, Panic p)
  | Err err =>
      (with_metrics (UpdatePodResourceApiCallsFailuresMetric "list") w, rm,
       Ok (emptyScanResponse, Some err))
  | Ok resp =>
      let respPodRes := lr_PodResources resp in
      let st := pfp_MakeStatus (rm_nodeName rm) in
      let '(w, attributes, annotations) :=
        if PodSetFingerprint (rm_args rm) then
          let podresVerify :=
            if bool_decide (PodSetFingerprintMethod (rm_args rm) = pfp_MethodAll)
            then Filter.VerifyAlwaysPass else NumaLocality.Verify in
          let '(pfpSign, st) :=
            computePodFingerprintFromPodResources respPodRes st podresVerify in
          ({| w_metrics := w_metrics w; w_completed := w_completed w ++ [st] |},
           [{| attr_Name := pfp_Attribute; attr_Value := pfpSign |};
            {| attr_Name := pfp_AttributeMethod;
               attr_Value := PodSetFingerprintMethod (rm_args rm) |}],
           {[ pfp_Annotation := pfpSign ]})
        else (w, [], ∅) in
      let allDevs := GetAllContainerDevices respPodRes (Namespace (rm_args rm)) (coreIDToNodeIDMap rm) in
      let allocated := ContainerDevicesToPerNUMAResourceCounters allDevs in
      let excludeSet := ResourceExclude.ToMapSet excludeList in
      let zones := imap (λ nodeID _, scanZone rm excludeSet allocated (Z.of_nat nodeID))
                        (topo_Nodes (rm_topo rm)) in
      (w, rm, Ok ({| sr_Zones := zones; sr_Attributes := attributes;
                     sr_Annotations := Some annotations |}, None))
  end.

(** ** Refreshing the node's resources *)

(** [m[k1][k2]] on Go maps: 0 when a key is missing. *)
Definition at2 (m : gmap string (gmap Z Z)) (r : string) (n : Z) : Z :=
  default 0 (default ∅ (m !! r) !! n).

(** The capacity loop, over the indices of the topology's nodes. *)
Fixpoint capacityLoop (topo : Info) (memCounters : gmap string (gmap Z Z)) (indices : list Z)
  (perNUMARc : gmap Z (gmap string Z)) : outcome (gmap Z (gmap string Z)) :=
  match indices with
  | [] => Ok perNUMARc
  | nodeID :: rest =>
      let hp2Mi := HugepageResourceNameFromSize HugepageSize2Mi in
      let hp1Gi := HugepageResourceNameFromSize HugepageSize1Gi in
      let! cpus := cpuCapacity topo nodeID in
      capacityLoop topo memCounters rest
        (<[nodeID :=
            <[hp1Gi := at2 memCounters hp1Gi nodeID]>
            (<[hp2Mi := at2 memCounters hp2Mi nodeID]>
            (<[ResourceMemory := at2 memCounters ResourceMemory nodeID]>
            {[ResourceCPU := cpus]}))]> perNUMARc)
  end.

Definition node_indices (topo : Info) : list Z := Z.of_nat <$> seq 0 (length (topo_Nodes topo)).

Definition updateNodeCapacity (fs : FileSystem) rm : resourceMonitor C * outcome unit :=
  match GetMemoryResourceCounters fs {| Root := "" |} with
  | Ok memCounters =>
      match capacityLoop (rm_topo rm) memCounters (node_indices (rm_topo rm)) ∅ with
      | Ok perNUMARc => (set_nodeCapacity rm perNUMARc, Ok ())
      | Err e => (rm, Err e)
      | Panic p => (rm, Panic p)
      end
  | Err e => (rm, Err e)
  | Panic p => (rm, Panic p)
  end.

Definition updateNodeAllocatable rm (w : World) : World * resourceMonitor C * outcome unit :=
  let '(c, allocRes) := cli_GetAllocatableResources (rm_podResCli rm) in
  let rm := set_cli rm c in
  match allocRes with
  | Ok r =>
      let allDevs := NormalizeContainerDevices (ar_Devices r) (ar_Memory r) (ar_CpuIds r)
                       (coreIDToNodeIDMap rm) in
      (w, set_nodeAllocatable rm (ContainerDevicesToPerNUMAResourceCounters allDevs), Ok ())
  | Err e =>
      (with_metrics (UpdatePodResourceApiCallsFailuresMetric "get_allocatable_resources") w,
       rm, Err e)
  | Panic p => (w, rm, Panic p)
  end.

(** The inner loop over the resources of a NUMA node: [capacityResCnt] is the
    map stored in [nodeCapacity], and nil when the node has none. *)
Definition deviceCapacity (numaId : Z) (acc : outcome (gmap Z (gmap string Z)))
  (kv : string * Z) : outcome (gmap Z (gmap string Z)) :=
  let! cap := acc in
  if isNativeResource kv.1 then Ok cap
  else match cap !! numaId with
       | None => Panic "assignment to entry in nil map"
       | Some capacityResCnt => Ok (<[numaId := <[kv.1 := kv.2]> capacityResCnt]> cap)
       end.

Definition updateDevicesCapacity rm : resourceMonitor C * outcome unit :=
  match foldl (λ acc kv, foldl (deviceCapacity kv.1) acc (range kv.2))
              (Ok (nodeCapacity rm)) (range (nodeAllocatable rm)) with
  | Ok cap => (set_nodeCapacity rm cap, Ok ())
  | Err e => (rm, Err e)
  | Panic p => (rm, Panic p)
  end.

Definition updateNodeResources (fs : FileSystem) rm (w : World)
  : World * resourceMonitor C * outcome unit :=
  let '(rm, r) := updateNodeCapacity fs rm in
  match r with
  | Err e => (w, rm, Err (Wrapf "error while updating node capacity" e))
  | Panic p => (w, rm, Panic p)
  | Ok _ =>
      let '(w, rm, r) := updateNodeAllocatable rm w in
      match r with
      | Err e => (w, rm, Err (Wrapf "error while updating node allocatable" e))
      | Panic p => (w, rm, Panic p)
      | Ok _ => let '(rm, r) := updateDevicesCapacity rm in (w, rm, r)
      end
  end.

(** ** Construction and node updates *)

(** A node event carries the node's name and its reported resources. *)
Record KNode := { kn_Name : string; kn_Capacity : gmap string Z; kn_Allocatable : gmap string Z }.

(** The informer's callback; the error of a failed refresh is only logged. *)
Definition resUpdated (fs : FileSystem) (nOld nNew : KNode) rm (w : World)
  : World * resourceMonitor C * outcome unit :=
  if negb (bool_decide (kn_Name nNew = rm_nodeName rm)) then (w, rm, Ok ())
  else if negb (bool_decide (kn_Capacity nOld = kn_Capacity nNew)) ||
          negb (bool_decide (kn_Allocatable nOld = kn_Allocatable nNew))
  then let '(w, rm, r) := updateNodeResources fs rm w in
       match r with
       | Panic p => (w, rm, Panic p)
       | _ => (w, rm, Ok ())
       end
  else (w, rm, Ok ()).

(** [addNodeInformerEvent]: the handler is registered and the caches are
    waited for. *)
Definition addNodeInformerEvent (k8sCli : NodeClient) : outcome unit :=
  if negb (nc_HasSynced k8sCli) then Err (Errorf "timed out waiting for caches to sync") else Ok ().

(** [detected] is the topology [ghw] finds.  The initial maps of the monitor
    are nil: nothing reads them before the refresh that sets them. *)
Definition NewResourceMonitor (hnd : Handle C) (args : Args) (options : list MonitorOption)
  (env : gmap string string) (detected : outcome Info) (fs : FileSystem) (w : World)
  : World * outcome (resourceMonitor C) :=
  let setup := foldl applyOption {| su_nodeName := ""; su_topo := None; su_k8sCli := K8SCli hnd |} options in
  let name := if bool_decide (su_nodeName setup = "") then SharedCPUs.Getenv env "NODE_NAME"
              else su_nodeName setup in
  match match su_topo setup with Some topo => Ok topo | None => detected end with
  | Err e => (w, Err e)
  | Panic p => (w, Panic p)
  | Ok topo =>
      let rm := Build_resourceMonitor name args (PodResCli hnd) topo (MakeCoreIDToNodeIDMap topo) ∅ ∅ in
      let '(w, rm, r) := updateNodeResources fs rm w in
      match r with
      | Err e => (w, Err e)
      | Panic p => (w, Panic p)
      | Ok _ =>
          if negb (RefreshNodeResources args) then (w, Ok rm)
          else (w, let! _ := addNodeInformerEvent (su_k8sCli setup) in Ok rm)
      end
  end.
End monitor.

(** ** The fingerprint method *)

Section pfp_method.
Context `{PodFingerprintLib}.

Definition PFPMethodSupported : string :=
  Join [pfp_MethodAll; pfp_MethodWithExclusiveResources] ",".

Definition PFPMethodIsSupported (value : string) : string * option error :=
  let val := ToLower value in
  if bool_decide (val = pfp_MethodAll) || bool_decide (val = pfp_MethodWithExclusiveResources)
  then (val, None)
  else (val, Some (Errorf ("unsupported method  " +:+ Sprintf_q value))).
End pfp_method.

(** ** What a zone holds *)

Section facts.
Context `{MapOrder}.

Lemma ToMapSet_eq (excludeList : gmap string (list string)) :
  ResourceExclude.ToMapSet excludeList = list_to_set <$> excludeList.
Proof. apply (foldl_insert_range (list_to_set : list string → gset string)). Qed.

Lemma Clone_eq (excludeList : gmap string (list string)) :
  ResourceExclude.Clone excludeList = excludeList.
Proof.
  unfold ResourceExclude.Clone.
  rewrite (foldl_insert_range (λ v : list string, [] ++ v)). apply map_fmap_id.
Qed.

(** A resource is excluded for a node by the entry of the node or by the
    entry for all nodes. *)
Definition excluded (excludeList : gmap string (list string)) (nodeName resName : string) : Prop :=
  ∃ key names, key ∈ ["*"; nodeName] ∧ excludeList !! key = Some names ∧ resName ∈ names.

Lemma inExcludeSet_spec excludeList resName nodeName :
  inExcludeSet (ResourceExclude.ToMapSet excludeList) resName nodeName = true ↔
  excluded excludeList nodeName resName.
Proof.
  unfold inExcludeSet, excluded. rewrite ToMapSet_eq, !lookup_fmap, orb_true_iff.
  assert (∀ key, match list_to_set (C := gset string) <$> excludeList !! key with
                 | Some set => bool_decide (resName ∈ set) | None => false end = true ↔
                 ∃ names, excludeList !! key = Some names ∧ resName ∈ names) as Hkey.
  { intros key. destruct (excludeList !! key) as [names|]; simpl; [|naive_solver].
    rewrite bool_decide_eq_true, elem_of_list_to_set. naive_solver. }
  rewrite !Hkey. setoid_rewrite elem_of_cons. setoid_rewrite list_elem_of_singleton.
  naive_solver.
Qed.
End facts.

Lemma foldl_filter_map {A B} (skip : A → bool) (f : A → B) (l : list A) (acc : list B) :
  foldl (λ acc x, if skip x then acc else acc ++ [f x]) acc l =
  acc ++ (f <$> List.filter (λ x, negb (skip x)) l).
Proof.
  revert acc. induction l as [|x l IH]; intros acc; simpl; [by rewrite app_nil_r|].
  rewrite IH. destruct (skip x); simpl; [done|]. by rewrite <-app_assoc.
Qed.

Section scan_facts.
Context `{MapOrder} `{PodFingerprintLib}.
Context {C : Type} `{PodResourcesListerClient C}.
Implicit Types rm : resourceMonitor C.

(** The allocatable resources a zone reports on. *)
Definition zone_counters rm (n : Z) : gmap string Z :=
  match nodeAllocatable rm !! n with
  | Some rc => rc
  | None => {[ ResourceCPU := 0 ]}
  end.

(** What the listed pods use of a resource on a NUMA node. *)
Definition used_counters rm (pods : list PodResources) : gmap Z (gmap string Z) :=
  ContainerDevicesToPerNUMAResourceCounters
    (GetAllContainerDevices pods (Namespace (rm_args rm)) (coreIDToNodeIDMap rm)).

Definition used rm (pods : list PodResources) (n : Z) (r : string) : Z :=
  total n r (charges (GetAllContainerDevices pods (Namespace (rm_args rm)) (coreIDToNodeIDMap rm))).

Lemma used_counters_value rm pods n r :
  default 0 (default ∅ (used_counters rm pods !! n) !! r) = wrap64 (used rm pods n r).
Proof.
  pose proof (lookup2_counters
    (GetAllContainerDevices pods (Namespace (rm_args rm)) (coreIDToNodeIDMap rm)) n r) as Hl.
  unfold used_counters, used, lookup2 in *. unfold total in *.
  destruct (ContainerDevicesToPerNUMAResourceCounters _ !! n) as [rc|]; simpl in *.
  - rewrite Hl. by destruct (charged _ _ _).
  - destruct (charged _ _ _); [done|discriminate].
Qed.

Lemma zone_resources_eq rm excludeList pods n :
  zone_Resources (scanZone rm (ResourceExclude.ToMapSet excludeList) (used_counters rm pods) n) =
  (λ kv, scanResource (default ∅ (nodeCapacity rm !! n)) (used_counters rm pods) n kv.1 kv.2)
    <$> List.filter (λ kv, negb (inExcludeSet (ResourceExclude.ToMapSet excludeList) kv.1
                                   (rm_nodeName rm)))
          (range (zone_counters rm n)).
Proof.
  unfold scanZone. cbn [zone_Resources]. by rewrite foldl_filter_map.
Qed.

Lemma elem_of_zone_resources rm excludeList pods n ri :
  ri ∈ zone_Resources (scanZone rm (ResourceExclude.ToMapSet excludeList)
                         (used_counters rm pods) n) ↔
  ∃ alloc, zone_counters rm n !! ri_Name ri = Some alloc ∧
    ¬ excluded excludeList (rm_nodeName rm) (ri_Name ri) ∧
    ri = scanResource (default ∅ (nodeCapacity rm !! n)) (used_counters rm pods) n
           (ri_Name ri) alloc.
Proof.
  rewrite zone_resources_eq, list_elem_of_fmap. setoid_rewrite <-inExcludeSet_spec.
  setoid_rewrite not_true_iff_false. split.
  - intros ([r alloc] & -> & Hin). apply list_elem_of_In, filter_In in Hin as [Hin Hex].
    apply list_elem_of_In, elem_of_range in Hin. apply negb_true_iff in Hex.
    exists alloc. done.
  - intros (alloc & Hl & Hex & Heq). exists (ri_Name ri, alloc). split; [done|].
    apply list_elem_of_In, filter_In. rewrite <-list_elem_of_In, elem_of_range.
    split; [done|]. simpl. by rewrite Hex.
Qed.

Lemma zone_resource_names rm excludeList pods n :
  NoDup (ri_Name <$> zone_Resources (scanZone rm (ResourceExclude.ToMapSet excludeList)
                                       (used_counters rm pods) n)).
Proof.
  rewrite zone_resources_eq, <-list_fmap_compose.
  pose proof (NoDup_range_keys (zone_counters rm n)) as Hnd.
  induction (range (zone_counters rm n)) as [|kv l IH]; [constructor|].
  rewrite fmap_cons, NoDup_cons in Hnd. destruct Hnd as [Hk Hnd]. simpl.
  destruct (negb _); [|by apply IH]. rewrite fmap_cons, NoDup_cons. split; [|by apply IH].
  intros Hin. apply list_elem_of_fmap in Hin as (kv' & Heq & Hin). simpl in Heq.
  apply Hk. rewrite Heq. apply list_elem_of_fmap. exists kv'. split; [done|].
  apply list_elem_of_In, filter_In in Hin as [Hin _]. by apply list_elem_of_In.
Qed.

Lemma Scan_Ok rm w excludeList w' rm' resp :
  Scan rm w excludeList = (w', rm', Ok (resp, None)) →
  ∃ c r, cli_List (rm_podResCli rm) = (c, Ok r) ∧ rm' = set_cli rm c ∧
    w_metrics w' = w_metrics w ∧
    sr_Zones resp =
      imap (λ i _, scanZone rm (ResourceExclude.ToMapSet excludeList)
                     (used_counters rm (lr_PodResources r)) (Z.of_nat i))
           (topo_Nodes (rm_topo rm)).
Proof.
  unfold Scan. destruct (cli_List (rm_podResCli rm)) as [c [r|e|p]]; [|discriminate..].
  destruct (PodSetFingerprint _).
  - destruct (computePodFingerprintFromPodResources _ _ _) as [sign st].
    intros [= <- <- <-]. by exists c, r.
  - intros [= <- <- <-]. by exists c, r.
Qed.

Lemma lookup_scan_zone rm excludeList pods i zone :
  imap (λ i _, scanZone rm (ResourceExclude.ToMapSet excludeList)
                 (used_counters rm pods) (Z.of_nat i)) (topo_Nodes (rm_topo rm)) !! i = Some zone ↔
  (i < length (topo_Nodes (rm_topo rm)))%nat ∧
  zone = scanZone rm (ResourceExclude.ToMapSet excludeList) (used_counters rm pods) (Z.of_nat i).
Proof.
  rewrite list_lookup_imap. split.
  - intros Hz. apply fmap_Some in Hz as (node & Hn & ->). split; [|done].
    by eapply lookup_lt_Some.
  - intros [Hi ->]. apply lookup_lt_is_Some in Hi as [node ->]. done.
Qed.
End scan_facts.

(** ** The values of a resource *)

Lemma scanResource_values caps usedc n r alloc :
  let ri := scanResource caps usedc n r alloc in
  ri_Name ri = r ∧ ri_Allocatable ri = alloc ∧ alloc ≤ ri_Capacity ri ∧
  ri_Capacity ri = Z.max alloc (match caps !! r with
                                | Some c => if c =? 0 then alloc else c
                                | None => alloc end) ∧
  ri_Available ri =
    Z.max 0 (wrap64 (alloc - default 0 (default ∅ (usedc !! n) !! r))).
Proof.
  cbv zeta. unfold scanResource. simpl.
  destruct (caps !! r) as [c|]; [destruct (c =? 0)|]; simpl;
    repeat match goal with |- context [?a <? ?b] => destruct (Z.ltb_spec a b) end;
    split_and!; first [done|lia].
Qed.

(** ** Refreshing the capacity *)

Section refresh_facts.
Context `{MapOrder} `{PodFingerprintLib} `{QuantityLib}.
Context {C : Type} `{PodResourcesListerClient C}.
Implicit Types rm : resourceMonitor C.

(** The capacities of one NUMA node: its processors and its memory. *)
Definition node_capacity (memCounters : gmap string (gmap Z Z)) (n cpus : Z) : gmap string Z :=
  let hp2Mi := HugepageResourceNameFromSize HugepageSize2Mi in
  let hp1Gi := HugepageResourceNameFromSize HugepageSize1Gi in
  <[hp1Gi := at2 memCounters hp1Gi n]>
    (<[hp2Mi := at2 memCounters hp2Mi n]>
       (<[ResourceMemory := at2 memCounters ResourceMemory n]> {[ResourceCPU := cpus]})).

Lemma capacityLoop_Ok topo memCounters indices acc cap :
  capacityLoop topo memCounters indices acc = Ok cap →
  ∀ n, if decide (n ∈ indices)
       then ∃ cpus, cpuCapacity topo n = Ok cpus ∧
                    cap !! n = Some (node_capacity memCounters n cpus)
       else cap !! n = acc !! n.
Proof.
  revert acc. induction indices as [|m rest IH]; intros acc; cbn [capacityLoop].
  { intros [= <-] n. by rewrite decide_False by set_solver. }
  intros Hc n. apply obind_Ok_inv in Hc as (cpus & Hm & Hc).
  specialize (IH _ Hc n). destruct (decide (n ∈ rest)) as [Hn|Hn].
  - by rewrite decide_True by set_solver.
  - destruct (decide (n = m)) as [->|Hne].
    + rewrite decide_True by set_solver. exists cpus. split; [done|].
      by rewrite IH, lookup_insert_eq.
    + rewrite decide_False by set_solver. by rewrite IH, lookup_insert_ne.
Qed.

Lemma capacityLoop_total topo memCounters indices acc :
  Forall (λ n, is_Some (findNodeByID (topo_Nodes topo) n)) indices →
  ∃ cap, capacityLoop topo memCounters indices acc = Ok cap.
Proof.
  intros Hall. revert acc. induction Hall as [|n rest [node Hn] _ IH]; intros acc; [by eexists|].
  cbn [capacityLoop]. rewrite (cpuCapacity_Ok _ _ _ Hn). simpl. apply IH.
Qed.

Lemma capacityLoop_Panic topo memCounters indices acc n :
  n ∈ indices → findNodeByID (topo_Nodes topo) n = None →
  ∃ p, capacityLoop topo memCounters indices acc = Panic p.
Proof.
  revert acc. induction indices as [|m rest IH]; intros acc Hin Hn; [set_solver|].
  cbn [capacityLoop]. apply elem_of_cons in Hin as [<-|Hin].
  - unfold cpuCapacity. rewrite Hn. by eexists.
  - unfold cpuCapacity. destruct (findNodeByID _ m); simpl; [by apply IH|by eexists].
Qed.

(** The entries [updateDevicesCapacity] visits, in order. *)
Definition entries (alloc : gmap Z (gmap string Z)) : list (Z * (string * Z)) :=
  range alloc ≫= λ kv, (λ rq, (kv.1, rq)) <$> range kv.2.

Definition entry_step (acc : outcome (gmap Z (gmap string Z))) (e : Z * (string * Z)) :=
  deviceCapacity e.1 acc e.2.

Lemma elem_of_entries alloc n r q :
  (n, (r, q)) ∈ entries alloc ↔ lookup2 alloc n r = Some q.
Proof.
  unfold entries, lookup2. rewrite list_elem_of_bind. split.
  - intros ([n' rc] & Hin & Hrc). apply elem_of_range in Hrc.
    apply list_elem_of_fmap in Hin as ([r' q'] & [= -> -> ->] & Hin).
    apply elem_of_range in Hin. simpl in *. by rewrite Hrc.
  - intros Hl. apply bind_Some in Hl as (rc & Hn & Hr). exists (n, rc). split.
    + apply list_elem_of_fmap. exists (r, q). split; [done|]. by apply elem_of_range.
    + by apply elem_of_range.
Qed.

Lemma updateDevices_entries (alloc : gmap Z (gmap string Z)) acc :
  foldl (λ acc kv, foldl (deviceCapacity kv.1) acc (range kv.2)) acc (range alloc) =
  foldl entry_step acc (entries alloc).
Proof.
  unfold entries. revert acc. induction (range alloc) as [|kv l IH]; intros acc; [done|].
  cbn [foldl]. rewrite bind_cons, foldl_app, IH. f_equal. clear IH. revert acc.
  induction (range kv.2) as [|rq rqs IH]; intros acc; [done|]. simpl. by rewrite IH.
Qed.

Lemma entry_step_stuck l :
  ∀ acc, is_ok acc = false → foldl entry_step acc l = acc.
Proof.
  induction l as [|e l IH]; intros acc Ha; [done|]. cbn [foldl].
  unfold entry_step at 2, deviceCapacity. destruct acc; simpl in *; [done|..]; by apply IH.
Qed.

Definition entry_keys (l : list (Z * (string * Z))) : list (Z * string) :=
  (λ e, (e.1, e.2.1)) <$> l.

Lemma elem_of_entry_keys l n r : (n, r) ∈ entry_keys l ↔ ∃ q, (n, (r, q)) ∈ l.
Proof.
  unfold entry_keys. rewrite list_elem_of_fmap. split.
  - intros ([n' [r' q]] & [= -> ->] & Hin). eauto.
  - intros [q Hin]. by exists (n, (r, q)).
Qed.

Lemma lookup2_insert (cap : gmap Z (gmap string Z)) n r q rc n' r' :
  cap !! n = Some rc →
  lookup2 (<[n := <[r := q]> rc]> cap) n' r' =
  if decide ((n, r) = (n', r')) then Some q else lookup2 cap n' r'.
Proof.
  intros Hrc. unfold lookup2. destruct (decide (n = n')) as [<-|Hn].
  - rewrite lookup_insert_eq, Hrc. simpl. destruct (decide (r = r')) as [<-|Hr].
    + by rewrite lookup_insert_eq, decide_True.
    + rewrite lookup_insert_ne by done. by rewrite decide_False by congruence.
  - rewrite lookup_insert_ne by done. by rewrite decide_False by congruence.
Qed.

(** Devices on known NUMA nodes: the capacity of a device is overwritten with
    what is allocatable, everything else is kept. *)
Lemma entries_Ok (alloc : gmap Z (gmap string Z)) l :
  (∀ n r q, (n, (r, q)) ∈ l → lookup2 alloc n r = Some q) →
  ∀ cap, (∀ n r q, (n, (r, q)) ∈ l → isNativeResource r = false → is_Some (cap !! n)) →
  ∃ cap', foldl entry_step (Ok cap) l = Ok cap' ∧
    (∀ n, is_Some (cap' !! n) ↔ is_Some (cap !! n)) ∧
    ∀ n r, lookup2 cap' n r =
      if decide ((n, r) ∈ entry_keys l ∧ isNativeResource r = false)
      then lookup2 alloc n r else lookup2 cap n r.
Proof.
  intros Halloc. induction l as [|[n0 [r0 q0]] l IH]; intros cap Hcap.
  { exists cap. split_and!; [done..|]. intros n r.
    by rewrite decide_False by (intros [Hin _]; set_solver). }
  assert (∀ n r, (n, r) ∈ entry_keys ((n0, (r0, q0)) :: l) ↔
                 (n, r) = (n0, r0) ∨ (n, r) ∈ entry_keys l) as Hkeys.
  { intros n r. unfold entry_keys. by rewrite fmap_cons, elem_of_cons. }
  assert (∀ e, e ∈ l → e ∈ (n0, (r0, q0)) :: l) as Htl by (intros; by apply elem_of_cons; right).
  specialize (IH (λ n r q Hin, Halloc n r q (Htl _ Hin))).
  cbn [foldl]. unfold entry_step at 2, deviceCapacity. simpl.
  destruct (isNativeResource r0) eqn:Hnat.
  - destruct (IH cap (λ n r q Hin, Hcap n r q (Htl _ Hin))) as (cap' & Hf & Hdom & Hl).
    exists cap'. split_and!; [done..|]. intros n r. rewrite Hl.
    apply decide_ext. rewrite Hkeys. split; [tauto|].
    intros [[[= -> ->]|Hk] Hr]; [congruence|done].
  - assert ((n0, (r0, q0)) ∈ (n0, (r0, q0)) :: l) as Hhd by (by apply elem_of_cons; left).
    destruct (Hcap n0 r0 q0 Hhd Hnat) as [rc Hrc]. rewrite Hrc.
    destruct (IH (<[n0 := <[r0 := q0]> rc]> cap)) as (cap' & Hf & Hdom & Hl).
    { intros n r q Hin Hr. rewrite lookup_insert_is_Some'. right.
      by apply (Hcap n r q (Htl _ Hin)). }
    exists cap'. split_and!; [done|..].
    + intros n. rewrite Hdom, lookup_insert_is_Some'.
      split; [intros [<-|?]; [rewrite Hrc; eauto|done]|auto].
    + intros n r. rewrite Hl, (lookup2_insert _ _ _ _ _ _ _ Hrc).
      destruct (decide ((n, r) ∈ entry_keys l ∧ isNativeResource r = false)) as [[Hk1 Hk2]|Hno].
      * rewrite decide_True; [done|]. rewrite Hkeys. auto.
      * case_decide as Heq.
        -- injection Heq as <- <-. rewrite decide_True by (rewrite Hkeys; auto).
           symmetry. by apply Halloc.
        -- rewrite decide_False; [done|]. rewrite Hkeys.
           intros [[Heq'|Hk] Hr]; [by apply Heq|by apply Hno].
Qed.

Lemma entries_Panic l n r q :
  (n, (r, q)) ∈ l → isNativeResource r = false →
  ∀ cap : gmap Z (gmap string Z), cap !! n = None →
  ∃ p, foldl entry_step (Ok cap) l = Panic p.
Proof.
  intros Hin Hnat. induction l as [|[n0 [r0 q0]] l IH]; intros cap Hcap; [set_solver|].
  cbn [foldl]. unfold entry_step at 2, deviceCapacity. simpl.
  destruct (isNativeResource r0) eqn:Hnat0.
  - apply elem_of_cons in Hin as [[= <- <- <-]|Hin]; [congruence|]. by apply IH.
  - destruct (cap !! n0) as [rc|] eqn:Hrc.
    + apply elem_of_cons in Hin as [[= <- <- <-]|Hin]; [congruence|].
      apply IH; [done|]. rewrite lookup_insert_ne; [done|]. congruence.
    + eexists. by apply entry_step_stuck.
Qed.

Lemma updateDevicesCapacity_Ok rm :
  (∀ n r q, lookup2 (nodeAllocatable rm) n r = Some q → isNativeResource r = false →
     is_Some (nodeCapacity rm !! n)) →
  ∃ cap, updateDevicesCapacity rm = (set_nodeCapacity rm cap, Ok ()) ∧
    (∀ n, is_Some (cap !! n) ↔ is_Some (nodeCapacity rm !! n)) ∧
    ∀ n r, lookup2 cap n r =
      if decide (is_Some (lookup2 (nodeAllocatable rm) n r) ∧ isNativeResource r = false)
      then lookup2 (nodeAllocatable rm) n r else lookup2 (nodeCapacity rm) n r.
Proof.
  intros Hcap. unfold updateDevicesCapacity. rewrite updateDevices_entries.
  destruct (entries_Ok (nodeAllocatable rm) (entries (nodeAllocatable rm))
    (λ n r q, proj1 (elem_of_entries _ n r q)) (nodeCapacity rm)) as (cap & -> & Hdom & Hl).
  { intros n r q Hin. apply elem_of_entries in Hin. by apply (Hcap n r q). }
  exists cap. split_and!; [done..|]. intros n r. rewrite Hl. apply decide_ext.
  rewrite elem_of_entry_keys. setoid_rewrite elem_of_entries. done.
Qed.

Lemma updateDevicesCapacity_Panic rm n r q :
  lookup2 (nodeAllocatable rm) n r = Some q → isNativeResource r = false →
  nodeCapacity rm !! n = None →
  ∃ p, (updateDevicesCapacity rm).2 = Panic p.
Proof.
  intros Hl Hnat Hcap. apply elem_of_entries in Hl.
  unfold updateDevicesCapacity. rewrite updateDevices_entries.
  destruct (entries_Panic _ _ _ _ Hl Hnat _ Hcap) as [p ->]. by exists p.
Qed.
End refresh_facts.
