(* ===== verification/MonitorProps.v ===== *)
(** * What the resource monitor guarantees

    The theorems on [Scan] and on the refresh of the node's resources, for
    every iteration order of Go's maps and every podresources client, with
    the concrete runs that show their hypotheses can hold. *)

From S2P Require Import Prelude GoStrings PodRes Middleware Counters SysInfo Metrics ResourceMonitor.

(** ** Concrete instances *)

(** Signs with the number of pods and their sorted names: enough to be a
    fingerprint of the set of pods. *)
Definition example_pfp : PodFingerprintLib := {|
  pfp_Status := string;
  pfp_State := list string;
  pfp_MakeStatus node := node;
  pfp_New _ _ := [];
  pfp_AddPod st ns name := st ++ [ns +:+ "/" +:+ name];
  pfp_Sign st := Join (merge_sort String.le st) ",";
  pfp_traced st := Join st ",";
  pfp_MethodAll := "all";
  pfp_MethodWithExclusiveResources := "with-exclusive-resources";
  pfp_Attribute := "nodeTopologyPodsFingerprint";
  pfp_AttributeMethod := "nodeTopologyPodsFingerprintMethod";
  pfp_Annotation := "topology.node.k8s.io/fingerprint" |}.

Definition example_args : Args := {|
  Namespace := ""; SysfsRoot := "/sys"; args_ResourceExclude := ∅;
  RefreshNodeResources := false; PodSetFingerprint := true;
  PodSetFingerprintMethod := "with-exclusive-resources"; ExposeTiming := false;
  PodSetFingerprintStatusFile := ""; args_PodExclude := []; ExcludeTerminalPods := false |}.

Definition example_world : @World example_pfp :=
  {| w_metrics := empty_registry; w_completed := [] |}.

(** Four CPUs of each node are allocatable, and two devices of node 1. *)
Definition example_alloc : AllocatableResourcesResponse := {|
  ar_Devices := [example_device "vendor.com/gpu" ["g0"; "g1"] [1]];
  ar_CpuIds := [0; 1; 4; 5; 2; 3; 6; 7];
  ar_Memory := [example_block "memory" 4096 [0]] |}.

Definition example_running : list PodResources :=
  [{| pr_Name := "p0"; pr_Namespace := "app";
      pr_Containers := [{| cr_Name := "c0"; cr_Devices := [example_device "vendor.com/gpu" ["g0"] [1]];
                           cr_CpuIds := [2; 6]; cr_Memory := [example_block "memory" 1024 [0]] |}] |}].

Definition example_monitor (cli : MockClient) : resourceMonitor MockClient := {|
  rm_nodeName := "node1"; rm_args := example_args; rm_podResCli := cli; rm_topo := example_topo;
  coreIDToNodeIDMap := MakeCoreIDToNodeIDMap example_topo; nodeCapacity := ∅; nodeAllocatable := ∅ |}.

(** The monitor after a refresh against [example_alloc]. *)
Definition example_ready (cli : MockClient) : resourceMonitor MockClient := {|
  rm_nodeName := "node1"; rm_args := example_args; rm_podResCli := cli; rm_topo := example_topo;
  coreIDToNodeIDMap := MakeCoreIDToNodeIDMap example_topo;
  nodeCapacity := {[ 0 := {[ "cpu" := 4; "memory" := 8192 ]};
                     1 := {[ "cpu" := 4; "memory" := 8192; "vendor.com/gpu" := 2 ]} ]};
  nodeAllocatable := ContainerDevicesToPerNUMAResourceCounters
    (@NormalizeContainerDevices canonical_order (ar_Devices example_alloc) (ar_Memory example_alloc)
       (ar_CpuIds example_alloc) (MakeCoreIDToNodeIDMap example_topo)) |}.

(** ** [Scan] *)

Section scan.
Context `{MapOrder} `{PodFingerprintLib}.
Context {C : Type} `{PodResourcesListerClient C}.
Implicit Types rm : resourceMonitor C.

(** C2: the values of every reported resource: in each zone of a successful
    scan, what is available is what is allocatable less what the listed
    pods use on that NUMA node, never negative, and
    0 <= available <= allocatable <= capacity. *)
Theorem Scan_values rm w excludeList w' rm' resp pods i zone ri
    (Hscan : Scan rm w excludeList = (w', rm', Ok (resp, None)))
    (Hlist : (cli_List (rm_podResCli rm)).2 = Ok {| lr_PodResources := pods |})
    (Hzone : sr_Zones resp !! i = Some zone)
    (Hri : ri ∈ zone_Resources zone)
    (Halloc : 0 ≤ ri_Allocatable ri ≤ int64_max)
    (Hused : 0 ≤ used rm pods (Z.of_nat i) (ri_Name ri) ≤ int64_max) :
  zone_counters rm (Z.of_nat i) !! ri_Name ri = Some (ri_Allocatable ri) ∧
  ri_Available ri = Z.max 0 (ri_Allocatable ri - used rm pods (Z.of_nat i) (ri_Name ri)) ∧
  0 ≤ ri_Available ri ≤ ri_Allocatable ri ∧ ri_Allocatable ri ≤ ri_Capacity ri.
Proof.
  apply Scan_Ok in Hscan as (c & r & Hc & -> & _ & Hz).
  rewrite Hc in Hlist. injection Hlist as ->. simpl in Hz.
  rewrite Hz, lookup_scan_zone in Hzone. destruct Hzone as [Hi ->].
  apply elem_of_zone_resources in Hri as (alloc & Hl & _ & Heq).
  pose proof (scanResource_values (default ∅ (nodeCapacity rm !! Z.of_nat i))
    (used_counters rm pods) (Z.of_nat i) (ri_Name ri) alloc) as (_ & Ha & Hc1 & _ & Hav).
  rewrite <-Heq in Ha, Hc1, Hav. rewrite used_counters_value in Hav.
  rewrite Ha in *. split; [done|].
  rewrite (wrap64_id (used _ _ _ _)) in Hav by (split; [unfold_int64|]; lia).
  rewrite wrap64_id in Hav by (unfold_int64; lia). lia.
Qed.

Lemma scan_zone_names rm excludeList pods :
  NoDup (zone_Name <$> imap (λ i _, scanZone rm (ResourceExclude.ToMapSet excludeList)
                                      (used_counters rm pods) (Z.of_nat i)) (topo_Nodes (rm_topo rm))).
Proof.
  apply NoDup_alt. intros i j name Hi Hj. rewrite list_lookup_fmap in Hi, Hj.
  apply fmap_Some in Hi as (z1 & Hi & ->). apply fmap_Some in Hj as (z2 & Hj & Heq).
  apply lookup_scan_zone in Hi as [_ ->], Hj as [_ ->]. simpl in Heq.
  apply makeZoneName_inj in Heq. lia.
Qed.

(** The zones of a successful scan are those of the topology: one per
    NUMA node, in the topology's order, with pairwise distinct names
    "node-0", "node-1", ... even when a node has nothing allocatable. *)
Theorem Scan_zones rm w excludeList w' rm' resp
    (Hscan : Scan rm w excludeList = (w', rm', Ok (resp, None))) :
  length (sr_Zones resp) = length (topo_Nodes (rm_topo rm)) ∧
  (∀ i zone, sr_Zones resp !! i = Some zone →
     zone_Name zone = makeZoneName (Z.of_nat i) ∧ zone_Type zone = "Node" ∧
     NoDup (ri_Name <$> zone_Resources zone)) ∧
  NoDup (zone_Name <$> sr_Zones resp).
Proof.
  apply Scan_Ok in Hscan as (c & r & Hc & -> & _ & Hz).
  assert (∀ i zone, sr_Zones resp !! i = Some zone →
    zone_Name zone = makeZoneName (Z.of_nat i) ∧ zone_Type zone = "Node" ∧
     NoDup (ri_Name <$> zone_Resources zone)) as Hall.
  { intros i zone Hi. rewrite Hz, lookup_scan_zone in Hi. destruct Hi as [_ ->].
    split_and!; [done|done|]. apply zone_resource_names. }
  split_and!; [by rewrite Hz, length_imap|done|].
  rewrite Hz. apply scan_zone_names.
Qed.

(** C26: which resources a zone reports: exactly those allocatable on the NUMA
    node (the cpu resource alone when the node has none) that neither the
    node's nor the "*" entry of the exclude list names. *)
Theorem Scan_resources rm w excludeList w' rm' resp i zone name
    (Hscan : Scan rm w excludeList = (w', rm', Ok (resp, None)))
    (Hzone : sr_Zones resp !! i = Some zone) :
  name ∈ ri_Name <$> zone_Resources zone ↔
  is_Some (zone_counters rm (Z.of_nat i) !! name) ∧
  ¬ excluded excludeList (rm_nodeName rm) name.
Proof.
  apply Scan_Ok in Hscan as (c & r & Hc & -> & _ & Hz).
  rewrite Hz, lookup_scan_zone in Hzone. destruct Hzone as [Hi ->].
  rewrite list_elem_of_fmap. split.
  - intros (ri & -> & Hin). apply elem_of_zone_resources in Hin as (alloc & Hl & Hex & _).
    eauto.
  - intros [[alloc Hl] Hex].
    set (ri := scanResource (default ∅ (nodeCapacity rm !! Z.of_nat i))
                 (used_counters rm (lr_PodResources r)) (Z.of_nat i) name alloc).
    exists ri. split; [done|]. apply elem_of_zone_resources. by exists alloc.
Qed.

(** C8: what the pods use: on each NUMA node and for each resource, the usage
    is the sum over the containers of the watched namespace of their plugin
    devices, of their exclusive CPUs (for cpu) and of their memory blocks. *)
Theorem used_correct rm pods n r
    (Hblocks : ∀ cnt, cnt ∈ watched_containers pods (Namespace (rm_args rm)) →
                 Forall block_ok (cr_Memory cnt)) :
  used rm pods n r =
  Zsum ((λ cnt, total n r (charges (cr_Devices cnt))
                + (if decide (r = ResourceCPU)
                   then Z.of_nat (length (cpus_of_node (coreIDToNodeIDMap rm) n (cr_CpuIds cnt)))
                   else 0)
                + total n r (cr_Memory cnt ≫= block_charges))
        <$> watched_containers pods (Namespace (rm_args rm))).
Proof.
  unfold used. rewrite GetAllContainerDevices_eq. unfold charges.
  induction (watched_containers _ _) as [|cnt cnts IH]; [done|].
  rewrite bind_cons, bind_app, total_app, fmap_cons, Zsum_cons.
  rewrite IH by (intros cnt' Hin; apply Hblocks; by apply elem_of_cons; right). f_equal.
  fold (charges (container_devices (coreIDToNodeIDMap rm) cnt)).
  unfold container_devices. rewrite charges_Normalize, !total_app, total_cpu, charges_blocks
    by (apply Hblocks; by apply elem_of_cons; left). unfold charges. lia.
Qed.

(** A failed podresources call is reported as such: the response is
    empty, the error is the client's, the failure counter of "list" goes up
    by one, and the monitor's own state is as before. *)
Theorem Scan_error rm w excludeList c err
    (Hlist : cli_List (rm_podResCli rm) = (c, Err err)) :
  Scan rm w excludeList =
  (with_metrics (UpdatePodResourceApiCallsFailuresMetric "list") w, set_cli rm c,
   Ok (emptyScanResponse, Some err)).
Proof. unfold Scan. by rewrite Hlist. Qed.
End scan.

(** ** Independence of the iteration order of maps *)

Lemma name_sorted_unique {X} (name : X → string) (l1 l2 : list X) :
  NoDup (name <$> l1) → l1 ≡ₚ l2 →
  StronglySorted (name_le name) l1 → StronglySorted (name_le name) l2 → l1 = l2.
Proof.
  intros Hnd Hp Hs1 Hs2. apply (StronglySorted_unique_strong (name_le name)); [|done..].
  intros x1 x2 Hi1 Hi2 H12 H21. rewrite <-Hp in Hi2.
  assert (name x1 = name x2) as Hn by (by apply (anti_symm String.le)).
  apply list_elem_of_lookup in Hi1 as [i Hi], Hi2 as [j Hj].
  rewrite NoDup_alt in Hnd. assert (i = j) as ->; [|congruence].
  apply (Hnd i j (name x1)); rewrite list_lookup_fmap; [by rewrite Hi|]. rewrite Hj. simpl. congruence.
Qed.

Lemma sortByName_sorted {X} (name : X → string) (l : list X) :
  StronglySorted (name_le name) (sortByName name l).
Proof.
  assert (Total (name_le name)) by (intros x y; exact (String.le_total (name x) (name y))).
  apply Sorted_StronglySorted; [|by apply Sorted_merge_sort].
  intros x y z. unfold name_le. by etrans.
Qed.

Lemma sortByName_perm {X} (name : X → string) (l1 l2 : list X) :
  NoDup (name <$> l1) → l1 ≡ₚ l2 → sortByName name l1 = sortByName name l2.
Proof.
  intros Hnd Hp. apply (name_sorted_unique name); try apply sortByName_sorted.
  - unfold sortByName. by rewrite merge_sort_Permutation.
  - unfold sortByName. by rewrite !merge_sort_Permutation.
Qed.

Lemma StronglySorted_name_fmap {X} (name : X → string) (f : X → X) (l : list X) :
  (∀ x, name (f x) = name x) → StronglySorted (name_le name) l → StronglySorted (name_le name) (f <$> l).
Proof.
  intros Hf. induction 1 as [|x l _ IH Hx]; simpl; constructor; [done|].
  apply Forall_fmap. eapply Forall_impl; [exact Hx|]. intros y. unfold name_le. simpl. by rewrite !Hf.
Qed.

Section deterministic.
Context `{PodFingerprintLib} {C : Type} `{PodResourcesListerClient C}.
Implicit Types rm : resourceMonitor C.

Lemma used_counters_order (o1 o2 : MapOrder) rm pods :
  @used_counters o1 C rm pods = @used_counters o2 C rm pods.
Proof.
  unfold used_counters. apply counters_perm. rewrite !GetAllContainerDevices_eq.
  induction (watched_containers _ _) as [|cnt cnts IH]; [done|].
  rewrite !bind_cons. apply Permutation_app; [apply Normalize_counters_order|done].
Qed.

Lemma inExcludeSet_order (o1 o2 : MapOrder) excludeList r node :
  inExcludeSet (@ResourceExclude.ToMapSet o1 excludeList) r node =
  inExcludeSet (@ResourceExclude.ToMapSet o2 excludeList) r node.
Proof. apply eq_bool_prop_intro. rewrite !Is_true_true, !inExcludeSet_spec. done. Qed.

Lemma scanZone_order (o1 o2 : MapOrder) rm excludeList pods n :
  let z1 := @scanZone o1 C rm (@ResourceExclude.ToMapSet o1 excludeList) (@used_counters o1 C rm pods) n in
  let z2 := @scanZone o2 C rm (@ResourceExclude.ToMapSet o2 excludeList) (@used_counters o2 C rm pods) n in
  zone_Name z1 = zone_Name z2 ∧ zone_Type z1 = zone_Type z2 ∧ zone_Costs z1 = zone_Costs z2 ∧
  zone_Resources z1 ≡ₚ zone_Resources z2.
Proof.
  cbv zeta. split_and!; [done..|].
  rewrite (@zone_resources_eq o1), (@zone_resources_eq o2), (used_counters_order o1 o2).
  apply Permutation_map.
  assert (∀ l : list (string * Z), List.filter (λ kv, negb (inExcludeSet
      (@ResourceExclude.ToMapSet o1 excludeList) kv.1 (rm_nodeName rm))) l =
    List.filter (λ kv, negb (inExcludeSet
      (@ResourceExclude.ToMapSet o2 excludeList) kv.1 (rm_nodeName rm))) l) as ->.
  { intros l. apply filter_ext. intros kv. by rewrite (inExcludeSet_order o1 o2). }
  assert (@range o1 _ _ _ Z (zone_counters rm n) ≡ₚ @range o2 _ _ _ Z (zone_counters rm n)) as Hp
    by (by rewrite (@range_perm o1), (@range_perm o2)).
  clear -Hp. induction Hp; simpl; repeat case_match; eauto using Permutation.
Qed.

(** The sorting [SortedZones] does inside a zone. *)
Definition sortedZone (zone : Zone) : Zone :=
  {| zone_Name := zone_Name zone; zone_Type := zone_Type zone;
     zone_Costs := sortByName cost_Name (zone_Costs zone);
     zone_Resources := sortByName ri_Name (zone_Resources zone) |}.

Lemma sortedZone_eq a b :
  zone_Name a = zone_Name b → zone_Type a = zone_Type b → zone_Costs a = zone_Costs b →
  zone_Resources a ≡ₚ zone_Resources b → NoDup (ri_Name <$> zone_Resources a) →
  sortedZone a = sortedZone b.
Proof.
  intros Hn Ht Hc Hr Hnd. unfold sortedZone. by rewrite Hn, Ht, Hc, (sortByName_perm ri_Name _ _ Hnd Hr).
Qed.

Lemma SortedZones_order (o1 o2 : MapOrder) rm excludeList pods attrs1 attrs2 anns1 anns2 :
  let zones (o : MapOrder) :=
    imap (λ i _, @scanZone o C rm (@ResourceExclude.ToMapSet o excludeList)
                   (@used_counters o C rm pods) (Z.of_nat i)) (topo_Nodes (rm_topo rm)) in
  SortedZones {| sr_Zones := zones o1; sr_Attributes := attrs1; sr_Annotations := anns1 |} =
  SortedZones {| sr_Zones := zones o2; sr_Attributes := attrs2; sr_Annotations := anns2 |}.
Proof.
  cbv zeta. unfold SortedZones. cbn [sr_Zones].
  set (z1 := imap _ _). set (z2 := imap _ _). change (λ zone, _) with sortedZone.
  assert (sortedZone <$> z1 = sortedZone <$> z2) as Hz.
  { subst z1 z2. rewrite !fmap_imap. apply imap_ext. intros i node Hi.
    destruct (scanZone_order o1 o2 rm excludeList pods (Z.of_nat i)) as (Hn & Ht & Hc & Hr).
    apply sortedZone_eq; try done. apply (@zone_resource_names o1). }
  apply (name_sorted_unique zone_Name).
  - unfold sortByName. rewrite <-list_fmap_compose, merge_sort_Permutation.
    apply (@scan_zone_names o1).
  - unfold sortByName. by rewrite !merge_sort_Permutation, Hz.
  - apply StronglySorted_name_fmap; [done|]. apply sortByName_sorted.
  - apply StronglySorted_name_fmap; [done|]. apply sortByName_sorted.
Qed.

(** C15: what a scan reports does not depend on the order in which Go iterates
    over its maps: with two different orders the same inputs give the same
    outcome, the same zones once sorted by [SortedZones], the same
    attributes and the same annotations. *)
Theorem Scan_deterministic (o1 o2 : MapOrder) rm w excludeList w1 rm1 resp1
    (Hscan : @Scan o1 _ C _ rm w excludeList = (w1, rm1, Ok (resp1, None))) :
  ∃ resp2, @Scan o2 _ C _ rm w excludeList = (w1, rm1, Ok (resp2, None)) ∧
    SortedZones resp2 = SortedZones resp1 ∧
    sr_Attributes resp2 = sr_Attributes resp1 ∧ sr_Annotations resp2 = sr_Annotations resp1.
Proof.
  unfold Scan in *. destruct (cli_List (rm_podResCli rm)) as [c [r|e|p]]; [|discriminate..].
  destruct (if PodSetFingerprint _ then _ else _) as [[w' attrs] anns].
  injection Hscan as <- <- <-. eexists. split; [reflexivity|].
  split; [|done]. exact (SortedZones_order o2 o1 (set_cli rm c) excludeList (lr_PodResources r) _ _ _ _).
Qed.
End deterministic.

(** ** A scan, run *)

#[local] Existing Instances canonical_order example_pfp.

Definition example_scan_client : MockClient :=
  {| mock_lists := [Ok {| lr_PodResources := example_running |}]; mock_allocs := []; mock_gets := [] |}.

Definition example_scan := @Scan canonical_order example_pfp MockClient _
  (example_ready example_scan_client) example_world {[ "*" := ["memory"] ]}.

Definition example_response : ScanResponse :=
  match example_scan.2 with Ok (resp, _) => resp | _ => emptyScanResponse end.

(** What the scan reports for node 1: half of its CPUs and one of its two
    devices are in use. *)
Definition example_cpu : ResourceInfo :=
  {| ri_Name := "cpu"; ri_Capacity := 4; ri_Allocatable := 4; ri_Available := 2 |}.
Definition example_gpu : ResourceInfo :=
  {| ri_Name := "vendor.com/gpu"; ri_Capacity := 2; ri_Allocatable := 2; ri_Available := 1 |}.
Definition example_zone1 : Zone := {|
  zone_Name := "node-1"; zone_Type := "Node";
  zone_Costs := [{| cost_Name := "node-0"; cost_Value := 21 |}; {| cost_Name := "node-1"; cost_Value := 10 |}];
  zone_Resources := [example_cpu; example_gpu] |}.

Lemma example_scan_Ok :
  example_scan = (example_scan.1.1, example_scan.1.2, Ok (example_response, None)).
Proof. vm_compute. reflexivity. Qed.

Lemma example_scan_zone1 : sr_Zones example_response !! 1%nat = Some example_zone1.
Proof. vm_compute. reflexivity. Qed.

Lemma Scan_values_witness :
  ri_Available example_gpu = Z.max 0 (ri_Allocatable example_gpu -
    used (example_ready example_scan_client) example_running 1 "vendor.com/gpu") ∧
  0 ≤ ri_Available example_gpu ≤ ri_Allocatable example_gpu.
Proof.
  destruct (Scan_values _ _ _ _ _ _ example_running 1%nat _ example_gpu
    example_scan_Ok eq_refl example_scan_zone1) as (_ & H1 & H2 & _);
    [by do 2 constructor|unfold int64_max; simpl; lia|vm_compute; split; discriminate|].
  split; [exact H1|exact H2].
Defined.

Lemma Scan_zones_witness : length (sr_Zones example_response) = 2%nat.
Proof. exact (proj1 (Scan_zones _ _ _ _ _ _ example_scan_Ok)). Defined.

Lemma Scan_resources_witness : "memory" ∉ ri_Name <$> zone_Resources example_zone1.
Proof.
  intros Hin. apply (Scan_resources _ _ _ _ _ _ 1%nat _ _ example_scan_Ok example_scan_zone1) in Hin.
  destruct Hin as [[x Hx] _]. vm_compute in Hx. discriminate.
Defined.

Lemma used_correct_witness :
  used (example_ready example_scan_client) example_running 1 "cpu" = 2.
Proof.
  rewrite (used_correct); [vm_compute; reflexivity|].
  intros cnt Hin. repeat (apply elem_of_cons in Hin as [->|Hin]); [|by apply not_elem_of_nil in Hin].
  repeat constructor; vm_compute; discriminate.
Defined.

Definition example_broken_client : MockClient :=
  {| mock_lists := [Err (Errorf "kubelet down")]; mock_allocs := []; mock_gets := [] |}.

Lemma Scan_error_witness :
  (@Scan canonical_order example_pfp MockClient _ (example_ready example_broken_client)
     example_world ∅).2 = Ok (emptyScanResponse, Some (Errorf "kubelet down")).
Proof.
  erewrite Scan_error; [reflexivity|]. reflexivity.
Defined.

(** With the maps iterated the other way round the resources of the zone come
    out in another order, and are the same once sorted. *)
Definition reversed_scan :=
  @Scan reverse_order example_pfp MockClient _ (example_ready example_scan_client) example_world
    {[ "*" := ["memory"] ]}.

Lemma Scan_deterministic_witness :
  ∃ resp2, reversed_scan = (example_scan.1.1, example_scan.1.2, Ok (resp2, None)) ∧
    SortedZones resp2 = SortedZones example_response ∧
    sr_Zones resp2 ≠ sr_Zones example_response.
Proof.
  destruct (Scan_deterministic canonical_order reverse_order _ _ _ _ _ _ example_scan_Ok)
    as (resp2 & Hs & Hz & _).
  exists resp2. split; [exact Hs|]. split; [exact Hz|].
  assert (match reversed_scan.2 with Ok (resp, _) => sr_Zones resp | _ => [] end
          ≠ sr_Zones example_response) as Hne by (vm_compute; discriminate).
  unfold reversed_scan in Hne. rewrite Hs in Hne. exact Hne.
Defined.
