(* ===== verification/MonitorRefresh.v ===== *)
(** * Refreshing the node's resources

    What a refresh of the monitor's capacity and allocatable counters
    achieves, when it fails and when it crashes; the invariant of the monitor
    over any history of scans, node events and kubelet answers; the stability
    of the pod fingerprint. *)

From S2P Require Import Prelude GoStrings PodRes Middleware Counters SysInfo Metrics ResourceMonitor MonitorProps.

(** The NUMA nodes are numbered like their positions, as the monitor expects. *)
Definition indices_ok (topo : Info) : Prop :=
  ∀ i node, topo_Nodes topo !! i = Some node → node_ID node = Z.of_nat i.

(** A device of the kubelet's answer sits on NUMA nodes the topology has. *)
Definition device_placed (topo : Info) (d : ContainerDevices) : Prop :=
  isNativeResource (cd_ResourceName d) = false →
  ∀ n, n ∈ numa_ID <$> GetNodes (cd_Topology d) → n ∈ node_indices topo.

Lemma elem_of_node_indices topo n :
  n ∈ node_indices topo ↔ 0 ≤ n < Z.of_nat (length (topo_Nodes topo)).
Proof.
  unfold node_indices. rewrite list_elem_of_fmap. setoid_rewrite elem_of_seq. split.
  - intros (i & -> & Hi). lia.
  - intros Hn. exists (Z.to_nat n). lia.
Qed.

Lemma indices_find topo i node :
  indices_ok topo → topo_Nodes topo !! i = Some node →
  findNodeByID (topo_Nodes topo) (Z.of_nat i) = Some node.
Proof.
  intros Hids Hi. rewrite <-(Hids _ _ Hi). apply findNodeByID_unique.
  - apply NoDup_alt. intros j k n Hj Hk. rewrite list_lookup_fmap in Hj, Hk.
    apply fmap_Some in Hj as (n1 & Hj & ->). apply fmap_Some in Hk as (n2 & Hk & Heq).
    rewrite (Hids _ _ Hj), (Hids _ _ Hk) in Heq. lia.
  - by eapply list_elem_of_lookup_2.
Qed.

Lemma isMemory_native r : isMemoryResource r = true → isNativeResource r = true.
Proof.
  unfold isMemoryResource, isNativeResource. rewrite <-orb_assoc. intros ->. apply orb_true_r.
Qed.

(** A plugin resource is allocatable on a NUMA node only through a device
    that names the node. *)
Lemma allocatable_device `{MapOrder} devices blocks cpuIds coreMap n r :
  Forall block_ok blocks → isNativeResource r = false →
  is_Some (lookup2 (ContainerDevicesToPerNUMAResourceCounters
                      (NormalizeContainerDevices devices blocks cpuIds coreMap)) n r) ↔
  ∃ d, d ∈ devices ∧ names_node n r d.
Proof.
  intros Hb Hnat. rewrite lookup2_counters, charges_Normalize, !charged_app.
  assert (charged n r (cpu_charges cpuIds coreMap) = []) as ->.
  { apply Permutation_nil_r. rewrite charged_cpu. rewrite decide_False; [done|]. by intros ->. }
  assert (charged n r (charges (blocks ≫= blockDevices)) = []) as ->.
  { rewrite charges_blocks by done. apply charged_nil. intros c Hc [_ <-].
    apply list_elem_of_bind in Hc as (b & Hc & Hin).
    rewrite Forall_forall in Hb. destruct (Hb _ Hin) as [_ Hm]. unfold block_charges in Hc.
    destruct (cm_Size b =? 0); [by apply not_elem_of_nil in Hc|].
    apply list_elem_of_fmap in Hc as (node & -> & _). simpl in Hnat.
    apply isMemory_native in Hm. congruence. }
  rewrite !app_nil_r. pose proof (charged_charges n r devices) as Hc.
  destruct (charged n r (charges devices)) as [|x l].
  - split; [by intros [? [=]]|]. intros (d & Hin & Hd). by destruct (proj1 Hc eq_refl d Hin).
  - split; [intros _|by intros _; eexists].
    destruct (decide (Exists (names_node n r) devices)) as [Hex|Hno].
    + apply Exists_exists in Hex. done.
    + assert (x :: l = []); [|done]. apply Hc. intros d Hin Hd. apply Hno.
      apply Exists_exists. eauto.
Qed.

Section refresh.
Context `{MapOrder} `{PodFingerprintLib} `{QuantityLib}.
Context {C : Type} `{PodResourcesListerClient C}.
Implicit Types rm : resourceMonitor C.

(** The counters of an answer of the kubelet. *)
Definition alloc_counters rm (r : AllocatableResourcesResponse) : gmap Z (gmap string Z) :=
  ContainerDevicesToPerNUMAResourceCounters
    (NormalizeContainerDevices (ar_Devices r) (ar_Memory r) (ar_CpuIds r) (coreIDToNodeIDMap rm)).

Lemma hugepage_name_native sizeKB : isNativeResource (HugepageResourceNameFromSize sizeKB) = true.
Proof.
  unfold isNativeResource, HugepageResourceNameFromSize. apply orb_true_iff. right.
  by destruct (binarySI_String _).
Qed.

Lemma node_capacity_device mem n cpus r :
  isNativeResource r = false → node_capacity mem n cpus !! r = None.
Proof.
  intros Hnat. unfold node_capacity.
  rewrite !lookup_insert_ne, lookup_singleton_ne; [done|..];
    intros <-; rewrite ?hugepage_name_native in Hnat; discriminate.
Qed.

Lemma updateNodeCapacity_Ok fs rm mem :
  GetMemoryResourceCounters fs {| Root := "" |} = Ok mem → indices_ok (rm_topo rm) →
  ∃ cap, updateNodeCapacity fs rm = (set_nodeCapacity rm cap, Ok ()) ∧
    (∀ n, is_Some (cap !! n) ↔ n ∈ node_indices (rm_topo rm)) ∧
    ∀ i node, topo_Nodes (rm_topo rm) !! i = Some node →
      cap !! Z.of_nat i =
      Some (node_capacity mem (Z.of_nat i) (wrap64 (Z.of_nat (length (node_procs node))))).
Proof.
  intros Hmem Hids. unfold updateNodeCapacity. rewrite Hmem.
  destruct (capacityLoop_total (rm_topo rm) mem (node_indices (rm_topo rm)) ∅) as [cap Hcap].
  { apply Forall_forall. intros n Hn. apply elem_of_node_indices in Hn.
    destruct (lookup_lt_is_Some_2 (topo_Nodes (rm_topo rm)) (Z.to_nat n)) as [node Hnode]; [lia|].
    exists node. rewrite <-(Z2Nat.id n) by lia. by apply indices_find. }
  rewrite Hcap. exists cap. split; [done|]. pose proof (capacityLoop_Ok _ _ _ _ _ Hcap) as Hl.
  split.
  - intros n. specialize (Hl n). destruct (decide (n ∈ node_indices (rm_topo rm))) as [Hn|Hn].
    + destruct Hl as (cpus & _ & ->). split; [done|by eexists].
    + rewrite Hl, lookup_empty. split; [by intros [? [=]]|done].
  - intros i node Hi. specialize (Hl (Z.of_nat i)).
    rewrite decide_True in Hl by (apply elem_of_node_indices; apply lookup_lt_Some in Hi; lia).
    destruct Hl as (cpus & Hcpu & ->).
    rewrite (cpuCapacity_Ok _ _ _ (indices_find _ _ _ Hids Hi)) in Hcpu. by injection Hcpu as <-.
Qed.

Lemma updateNodeAllocatable_Ok rm w c r :
  cli_GetAllocatableResources (rm_podResCli rm) = (c, Ok r) →
  updateNodeAllocatable rm w =
  (w, set_nodeAllocatable (set_cli rm c) (alloc_counters rm r), Ok ()).
Proof. unfold updateNodeAllocatable. by intros ->. Qed.


(** C36: a machine whose NUMA nodes are not numbered 0, 1, ... crashes the
    refresh: the loop passes positions where node ids are expected, and the
    node it looks up is nil. *)
Theorem updateNodeResources_ids_panic fs rm w mem n
    (Hmem : GetMemoryResourceCounters fs {| Root := "" |} = Ok mem)
    (Hn : n ∈ node_indices (rm_topo rm))
    (Hid : n ∉ node_ID <$> topo_Nodes (rm_topo rm)) :
  ∃ p, updateNodeResources fs rm w = (w, rm, Panic p).
Proof.
  unfold updateNodeResources, updateNodeCapacity. rewrite Hmem.
  destruct (capacityLoop_Panic (rm_topo rm) mem (node_indices (rm_topo rm)) ∅ n Hn) as [p ->].
  { by apply findNodeByID_None. }
  by exists p.
Qed.

(** A plugin device on a NUMA node the topology does not have (such as the
    -1 of a device without affinity) crashes the refresh: it writes to a nil
    map. *)
Theorem updateNodeResources_device_panic fs rm w mem c r d n
    (Hmem : GetMemoryResourceCounters fs {| Root := "" |} = Ok mem)
    (Hids : indices_ok (rm_topo rm))
    (Hcli : cli_GetAllocatableResources (rm_podResCli rm) = (c, Ok r))
    (Hblocks : Forall block_ok (ar_Memory r))
    (Hd : d ∈ ar_Devices r) (Hnat : isNativeResource (cd_ResourceName d) = false)
    (Hnode : n ∈ numa_ID <$> GetNodes (cd_Topology d))
    (Hn : n ∉ node_indices (rm_topo rm)) :
  ∃ p, (updateNodeResources fs rm w).2 = Panic p.
Proof.
  unfold updateNodeResources.
  destruct (updateNodeCapacity_Ok fs rm mem Hmem Hids) as (cap & -> & Hdom & _).
  rewrite (updateNodeAllocatable_Ok (set_nodeCapacity rm cap) w c r Hcli).
  set (rm1 := set_nodeAllocatable _ _).
  destruct (proj2 (allocatable_device (ar_Devices r) (ar_Memory r) (ar_CpuIds r)
      (coreIDToNodeIDMap rm) n (cd_ResourceName d) Hblocks Hnat)) as [q Hq]; [by exists d|].
  destruct (updateDevicesCapacity_Panic rm1 n (cd_ResourceName d) q Hq Hnat) as [p Hp].
  { simpl. apply eq_None_not_Some. rewrite Hdom. done. }
  exists p. destruct (updateDevicesCapacity rm1) as [rm2 o]. exact Hp.
Qed.
End refresh.

(** ** Histories of the monitor *)

Section histories.
Context `{MapOrder} `{PodFingerprintLib} `{QuantityLib}.
Context {C : Type} `{PodResourcesListerClient C}.
Implicit Types rm : resourceMonitor C.

(** What the monitor goes through: scans, node events, and the kubelet's
    state changing under it. *)
Inductive monitor_step : resourceMonitor C → resourceMonitor C → Prop :=
| step_kubelet rm c : monitor_step rm (set_cli rm c)
| step_scan rm w excludeList w' rm' res :
    Scan rm w excludeList = (w', rm', Ok res) → monitor_step rm rm'
| step_event fs nOld nNew rm w w' rm' :
    resUpdated fs nOld nNew rm w = (w', rm', Ok ()) → monitor_step rm rm'.

(** The capacity covers exactly the nodes of the topology and knows no plugin
    resource beyond what is allocatable; what is allocatable is some answer
    of the kubelet, its plugin resources on nodes of the topology. *)
Record monitor_ok rm : Prop := {
  ok_coreMap : coreIDToNodeIDMap rm = MakeCoreIDToNodeIDMap (rm_topo rm);
  ok_dom : ∀ n, is_Some (nodeCapacity rm !! n) ↔ n ∈ node_indices (rm_topo rm);
  ok_alloc : ∃ r, nodeAllocatable rm = alloc_counters rm r;
  ok_devices : ∀ n r q, lookup2 (nodeAllocatable rm) n r = Some q →
    isNativeResource r = false → n ∈ node_indices (rm_topo rm);
  ok_caps : ∀ n r, isNativeResource r = false →
    lookup2 (nodeCapacity rm) n r = None ∨
    lookup2 (nodeCapacity rm) n r = lookup2 (nodeAllocatable rm) n r
}.

(** Everything the monitor never changes. *)
Definition same_setup rm rm' : Prop :=
  rm_nodeName rm' = rm_nodeName rm ∧ rm_args rm' = rm_args rm ∧ rm_topo rm' = rm_topo rm ∧
  coreIDToNodeIDMap rm' = coreIDToNodeIDMap rm.

Lemma updateNodeCapacity_inv fs rm rm' o :
  updateNodeCapacity fs rm = (rm', o) →
  match o with
  | Ok _ => ∃ cap, rm' = set_nodeCapacity rm cap ∧
      (∀ n, is_Some (cap !! n) ↔ n ∈ node_indices (rm_topo rm)) ∧
      (∀ n r, isNativeResource r = false → lookup2 cap n r = None)
  | _ => rm' = rm
  end.
Proof.
  unfold updateNodeCapacity.
  destruct (GetMemoryResourceCounters fs _) as [mem|e|p]; [|by intros [= <- <-]..].
  destruct (capacityLoop _ _ _ _) as [cap|e|p] eqn:Hc; [|by intros [= <- <-]..].
  intros [= <- <-]. exists cap. split; [done|].
  pose proof (capacityLoop_Ok _ _ _ _ _ Hc) as Hl. unfold lookup2.
  split; intros n; specialize (Hl n); destruct (decide (n ∈ _)) as [Hn|Hn].
  - destruct Hl as (cpus & _ & ->). split; [done|by eexists].
  - rewrite Hl, lookup_empty. split; [by intros [? [=]]|done].
  - destruct Hl as (cpus & _ & ->). simpl. intros r. apply node_capacity_device.
  - intros r _. by rewrite Hl, lookup_empty.
Qed.

Lemma updateDevicesCapacity_inv rm rm' o :
  updateDevicesCapacity rm = (rm', o) → is_ok o = true →
  (∀ n r q, lookup2 (nodeAllocatable rm) n r = Some q → isNativeResource r = false →
     is_Some (nodeCapacity rm !! n)) ∧
  ∃ cap, rm' = set_nodeCapacity rm cap ∧
    (∀ n, is_Some (cap !! n) ↔ is_Some (nodeCapacity rm !! n)) ∧
    ∀ n r, isNativeResource r = false →
      lookup2 cap n r = lookup2 (nodeAllocatable rm) n r ∨
      lookup2 cap n r = lookup2 (nodeCapacity rm) n r.
Proof.
  intros Hu Ho.
  assert (∀ n r q, lookup2 (nodeAllocatable rm) n r = Some q → isNativeResource r = false →
     is_Some (nodeCapacity rm !! n)) as Hok.
  { intros n r q Hq Hnat. apply not_eq_None_Some. intros Hn.
    destruct (updateDevicesCapacity_Panic rm n r q Hq Hnat Hn) as [p Hp].
    rewrite Hu in Hp. simpl in Hp. by rewrite Hp in Ho. }
  split; [done|]. destruct (updateDevicesCapacity_Ok rm Hok) as (cap & Hc & Hdom & Hl).
  rewrite Hc in Hu. injection Hu as <- <-. exists cap. split_and!; [done..|].
  intros n r _. rewrite Hl. case_decide; auto.
Qed.

Lemma updateDevicesCapacity_no_err rm rm' e : updateDevicesCapacity rm ≠ (rm', Err e).
Proof.
  unfold updateDevicesCapacity. rewrite updateDevices_entries.
  assert (∀ l acc, (∀ e, acc ≠ Err e) → ∀ e, foldl entry_step acc l ≠ Err e) as Hno.
  { induction l as [|[n [r q]] l IH]; intros acc Hacc; [done|]. simpl. apply IH. intros e'.
    unfold entry_step, deviceCapacity. destruct acc as [cap|e0|p]; simpl; [|done..].
    destruct (isNativeResource r); [done|]. by destruct (cap !! n). }
  destruct (foldl _ _ _) as [cap|e'|p] eqn:Hf; [done| |done].
  by apply Hno in Hf.
Qed.

(** A refresh that does not crash keeps the invariant; one that succeeds
    establishes it. *)
Lemma updateNodeResources_ok fs rm w w' rm' o :
  updateNodeResources fs rm w = (w', rm', o) →
  coreIDToNodeIDMap rm = MakeCoreIDToNodeIDMap (rm_topo rm) →
  match o with
  | Ok _ => same_setup rm rm' ∧ monitor_ok rm'
  | Err _ => same_setup rm rm' ∧ (monitor_ok rm → monitor_ok rm')
  | Panic _ => True
  end.
Proof.
  intros Hu Hcm. unfold updateNodeResources in Hu.
  destruct (updateNodeCapacity fs rm) as [rm1 o1] eqn:Hu1.
  apply updateNodeCapacity_inv in Hu1.
  destruct o1 as [u|e|p]; [|subst rm1; by injection Hu as <- <- <-|by injection Hu as <- <- <-].
  destruct Hu1 as (cap & -> & Hdom & Hdev). unfold updateNodeAllocatable in Hu. simpl in Hu.
  destruct (cli_GetAllocatableResources (rm_podResCli rm)) as [c [r|e|p]];
    [| |by injection Hu as <- <- <-].
  - destruct (updateDevicesCapacity _) as [rm2 o2] eqn:Hu2. injection Hu as <- <- <-.
    destruct o2 as [u2|e|p]; [| |done].
    + destruct (updateDevicesCapacity_inv _ _ _ Hu2 eq_refl) as (Hok & cap' & -> & Hdom' & Hl).
      split; [done|]. constructor; simpl in *; [done|by setoid_rewrite Hdom'|by exists r|..].
      * intros n name q Hq Hnat. apply Hdom. by apply (Hok n name q).
      * intros n name Hnat. destruct (Hl n name Hnat) as [->| ->]; [by right|].
        left. by apply Hdev.
    + by apply updateDevicesCapacity_no_err in Hu2.
  - injection Hu as <- <- <-. split; [done|]. intros [].
    constructor; simpl in *; auto.
Qed.

Lemma monitor_step_ok rm rm' :
  monitor_step rm rm' → monitor_ok rm → same_setup rm rm' ∧ monitor_ok rm'.
Proof.
  intros Hstep Hok. pose proof Hok as [? ? ? ? ?].
  destruct Hstep as [rm c|rm w ex w' rm' res Hs|fs nOld nNew rm w w' rm' Hr].
  - split; [done|by constructor].
  - unfold Scan in Hs. destruct (cli_List _) as [c [resp|e|p]]; [| |discriminate].
    + destruct (if PodSetFingerprint _ then _ else _) as [[??]?] in Hs.
      injection Hs as <- <- <-. split; [done|by constructor].
    + injection Hs as <- <- <-. split; [done|by constructor].
  - unfold resUpdated in Hr. destruct (negb _); [by injection Hr as <- <-|].
    destruct (_ || _); [|by injection Hr as <- <-].
    destruct (updateNodeResources fs rm w) as [[w1 rm1] o] eqn:Hu.
    apply updateNodeResources_ok in Hu; [|done].
    destruct o; [..|discriminate]; injection Hr as <- <-; [done|].
    destruct Hu as [? Hkeep]. by split; [|apply Hkeep].
Qed.

Lemma NewResourceMonitor_ok hnd args options env detected fs w w' rm :
  NewResourceMonitor hnd args options env detected fs w = (w', Ok rm) → monitor_ok rm.
Proof.
  unfold NewResourceMonitor. intros Hnew.
  destruct (match su_topo _ with Some _ => _ | None => _ end) as [t|e|p]; [|discriminate..].
  destruct (updateNodeResources _ _ _) as [[w1 rm1] o] eqn:Hu.
  apply updateNodeResources_ok in Hu; [|done]. destruct o; [|discriminate..].
  destruct (negb _); [by injection Hnew as <- <-; destruct Hu|].
  injection Hnew as <- Hrm. destruct (addNodeInformerEvent _); simpl in Hrm; [|discriminate..].
  injection Hrm as <-. by destruct Hu.
Qed.


(** C35: a refresh during which the kubelet fails is reported and counted, and
    loses nothing a scan reports: what is allocatable stays as it was, and a
    plugin resource, now without a capacity of its own, is reported with
    its allocatable amount as capacity. *)
Theorem refresh_failure fs rm w mem c e
    (Hmem : GetMemoryResourceCounters fs {| Root := "" |} = Ok mem)
    (Hids : indices_ok (rm_topo rm))
    (Hcli : cli_GetAllocatableResources (rm_podResCli rm) = (c, Err e)) :
  ∃ rm', updateNodeResources fs rm w =
      (with_metrics (UpdatePodResourceApiCallsFailuresMetric "get_allocatable_resources") w, rm',
       Err (Wrapf "error while updating node allocatable" e)) ∧
    nodeAllocatable rm' = nodeAllocatable rm ∧
    ∀ usedc n r alloc, isNativeResource r = false →
      ri_Capacity (scanResource (default ∅ (nodeCapacity rm' !! n)) usedc n r alloc) = alloc.
Proof.
  unfold updateNodeResources.
  destruct (updateNodeCapacity_Ok fs rm mem Hmem Hids) as (cap & Hu & _).
  pose proof (updateNodeCapacity_inv _ _ _ _ Hu) as (cap' & Heq & _ & Hdev).
  rewrite Hu. unfold updateNodeAllocatable. simpl. rewrite Hcli.
  eexists. split_and!; [done..|]. intros usedc n r alloc Hnat.
  cbn [nodeCapacity set_cli set_nodeCapacity]. injection Heq as ->. specialize (Hdev n r Hnat). unfold lookup2 in Hdev.
  destruct (scanResource_values (default ∅ (cap' !! n)) usedc n r alloc) as (_ & _ & _ & Hc & _).
  assert (default ∅ (cap' !! n) !! r = None) as Hnone by (destruct (cap' !! n); done).
  etrans; [exact Hc|]. rewrite Hnone. lia.
Qed.
End histories.

(** ** The fingerprint *)

(** The fingerprint of a set of pods does not depend on the order they are
    added in, on the size hint or on the status that traces it. *)
Class PodFingerprintLaws `{PodFingerprintLib} := pfp_Sign_perm :
  ∀ (n1 n2 : nat) (st1 st2 : pfp_Status) (ids1 ids2 : list (string * string)),
    ids1 ≡ₚ ids2 →
    pfp_Sign (foldl (λ fp id, pfp_AddPod fp id.1 id.2) (pfp_New n1 st1) ids1) =
    pfp_Sign (foldl (λ fp id, pfp_AddPod fp id.1 id.2) (pfp_New n2 st2) ids2).

Section fingerprint.
Context `{MapOrder} `{PodFingerprintLaws}.
Context {C : Type} `{PodResourcesListerClient C}.
Implicit Types rm : resourceMonitor C.

(** The pods the fingerprint covers, by namespace and name. *)
Definition fingerprinted (verify : option PodResources → Filter.Result) (pods : list PodResources)
  : list (string * string) :=
  (λ pr, (pr_Namespace pr, pr_Name pr))
    <$> List.filter (λ pr, Filter.Allow (verify (Some pr))) pods.

Lemma computePodFingerprint_eq pods st verify :
  (computePodFingerprintFromPodResources pods st verify).1 =
  pfp_Sign (foldl (λ fp id, pfp_AddPod fp id.1 id.2) (pfp_New (length pods) st)
              (fingerprinted verify pods)).
Proof.
  unfold computePodFingerprintFromPodResources, fingerprinted. simpl. f_equal.
  generalize (pfp_New (length pods) st). induction pods as [|pr pods IH]; intros fp; [done|].
  simpl. rewrite IH. by destruct (Filter.Allow _).
Qed.

Lemma Scan_fingerprint rm w ex c pods :
  PodSetFingerprint (rm_args rm) = true → PodSetFingerprintMethod (rm_args rm) ≠ pfp_MethodAll →
  cli_List (rm_podResCli rm) = (c, Ok {| lr_PodResources := pods |}) →
  let sign := pfp_Sign (foldl (λ fp id, pfp_AddPod fp id.1 id.2)
                (pfp_New (length pods) (pfp_MakeStatus (rm_nodeName rm)))
                (fingerprinted NumaLocality.Verify pods)) in
  ∃ resp, (Scan rm w ex).2 = Ok (resp, None) ∧
    sr_Annotations resp = Some {[ pfp_Annotation := sign ]} ∧
    sr_Attributes resp = [{| attr_Name := pfp_Attribute; attr_Value := sign |};
                          {| attr_Name := pfp_AttributeMethod;
                             attr_Value := PodSetFingerprintMethod (rm_args rm) |}].
Proof.
  intros Hpfp Hm Hl. cbv zeta. rewrite <-computePodFingerprint_eq.
  unfold Scan. rewrite Hl. cbv zeta. cbn [set_cli rm_args rm_nodeName lr_PodResources].
  rewrite Hpfp, bool_decide_false by done.
  destruct (computePodFingerprintFromPodResources _ _ _) as [sign st].
  eexists. split; [reflexivity|]. done.
Qed.

End fingerprint.

(** ** Runs *)

#[local] Existing Instances canonical_order example_pfp example_quantity.

#[global] Instance example_pfp_laws : @PodFingerprintLaws example_pfp.
Proof.
  intros n1 n2 st1 st2 ids1 ids2 Hp. simpl. f_equal.
  apply (Sorted_unique String.le); [apply Sorted_merge_sort; apply _..|].
  rewrite !merge_sort_Permutation, !(foldl_append (λ id : string * string, [id.1 +:+ "/" +:+ id.2])).
  by rewrite Hp.
Qed.

(** Pods without exclusive resources, which the fingerprint ignores. *)
Definition example_idle (name : string) : PodResources :=
  {| pr_Name := name; pr_Namespace := "app";
     pr_Containers := [{| cr_Name := "c"; cr_Devices := []; cr_CpuIds := []; cr_Memory := [] |}] |}.

Definition example_lists (pods : list PodResources) : MockClient :=
  {| mock_lists := [Ok {| lr_PodResources := pods |}]; mock_allocs := []; mock_gets := [] |}.


Definition example_refreshing (allocs : list (outcome AllocatableResourcesResponse)) : MockClient :=
  {| mock_lists := []; mock_allocs := allocs; mock_gets := [] |}.

Lemma example_indices_ok : indices_ok example_topo.
Proof. intros [|[|i]] node [=<-]; reflexivity. Qed.

Lemma example_alloc_blocks : Forall block_ok (ar_Memory example_alloc).
Proof. repeat constructor; vm_compute; discriminate. Qed.

Definition example_mem : gmap string (gmap Z Z) :=
  match GetMemoryResourceCounters example_fs {| Root := "" |} with Ok mem => mem | _ => ∅ end.

Lemma example_mem_Ok : GetMemoryResourceCounters example_fs {| Root := "" |} = Ok example_mem.
Proof. vm_compute. reflexivity. Qed.


(** A machine whose second NUMA node has id 8. *)
Definition sparse_topo : Info := {| topo_Nodes :=
  [{| node_ID := 0; node_Cores := [{| LogicalProcessors := [0] |}]; node_Distances := [10] |};
   {| node_ID := 8; node_Cores := [{| LogicalProcessors := [1] |}]; node_Distances := [40] |}] |}.

Definition sparse_monitor : resourceMonitor MockClient :=
  Build_resourceMonitor "node1" example_args (example_refreshing [Ok example_alloc]) sparse_topo
    (MakeCoreIDToNodeIDMap sparse_topo) ∅ ∅.

Lemma updateNodeResources_ids_panic_witness :
  ∃ p, updateNodeResources example_fs sparse_monitor example_world
       = (example_world, sparse_monitor, Panic p).
Proof.
  apply (updateNodeResources_ids_panic _ _ _ example_mem 1 example_mem_Ok).
  - by apply elem_of_node_indices.
  - vm_compute. intros Hin. repeat (apply elem_of_cons in Hin as [Hin|Hin]; [discriminate|]).
    by apply not_elem_of_nil in Hin.
Defined.

(** An answer with a device that has no NUMA affinity. *)
Definition floating_alloc : AllocatableResourcesResponse :=
  {| ar_Devices := [example_device "vendor.com/nic" ["n0"] [-1]]; ar_CpuIds := []; ar_Memory := [] |}.

Lemma updateNodeResources_device_panic_witness :
  ∃ p, (updateNodeResources example_fs (example_monitor (example_refreshing [Ok floating_alloc]))
          example_world).2 = Panic p.
Proof.
  eapply (updateNodeResources_device_panic _
            (example_monitor (example_refreshing [Ok floating_alloc])) _ example_mem _ floating_alloc
            (example_device "vendor.com/nic" ["n0"] [-1]) (-1) example_mem_Ok example_indices_ok);
    [reflexivity|constructor|by constructor|reflexivity|by constructor|].
  intros Hin. apply elem_of_node_indices in Hin. simpl in Hin. lia.
Defined.

Definition example_new : World * outcome (resourceMonitor MockClient) :=
  NewResourceMonitor (Build_Handle (example_refreshing [Ok example_alloc]) {| nc_HasSynced := true |}) example_args
    [WithNodeName "node1"; WithTopology (Some example_topo)] ∅ (Err (Errorf "none")) example_fs example_world.

Lemma example_new_Ok : is_ok example_new.2 = true.
Proof. vm_compute. reflexivity. Qed.


Lemma refresh_failure_witness :
  ∃ rm', updateNodeResources example_fs
           (example_ready (example_refreshing [Err (Errorf "kubelet down")])) example_world =
    (with_metrics (UpdatePodResourceApiCallsFailuresMetric "get_allocatable_resources") example_world,
     rm', Err (Wrapf "error while updating node allocatable" (Errorf "kubelet down"))).
Proof.
  edestruct (refresh_failure example_fs (example_ready (example_refreshing [Err (Errorf "kubelet down")]))
    example_world) as (rm' & Hu & _);
    [apply example_mem_Ok|apply example_indices_ok|reflexivity|].
  exists rm'. exact Hu.
Defined.
