(* ===== verification/PodReadiness.v ===== *)
(** * Pod readiness conditions

    Models [pkg/podreadiness/condition.go] and
    [pkg/podreadiness/conditioninjector.go]: the conditions the exporter
    reports about itself, and the injector that writes them into the status
    of its own pod, skipping the round trip when nothing changed. *)

From S2P Require Import Prelude.

Definition PodresourcesFetched : string := "PodresourcesFetched".
Definition NodeTopologyUpdated : string := "NodeTopologyUpdated".

Definition ConditionTrue : string := "True".
Definition ConditionFalse : string := "False".

(** Times are nanoseconds. *)
Record PodCondition := {
  pc_Type : string;
  pc_Status : string;
  pc_Reason : string;
  pc_Message : string;
  pc_LastTransitionTime : Z
}.

#[global] Instance PodCondition_eq_dec : EqDecision PodCondition.
Proof. solve_decision. Defined.

Definition newConditionTemplate (condType status : string) (now : Z) : PodCondition :=
  {| pc_Type := condType; pc_Status := status; pc_Reason := ""; pc_Message := "";
     pc_LastTransitionTime := now |}.

Definition set_reason (cond : PodCondition) (reason message : string) : PodCondition :=
  {| pc_Type := pc_Type cond; pc_Status := pc_Status cond; pc_Reason := reason;
     pc_Message := message; pc_LastTransitionTime := pc_LastTransitionTime cond |}.

(** The condition [SetCondition] sends. *)
Definition conditionFor (condType condStatus : string) (now : Z) : PodCondition :=
  let cond := newConditionTemplate condType condStatus now in
  if bool_decide (condStatus = ConditionFalse) then
    if bool_decide (condType = PodresourcesFetched)
    then set_reason cond "ScanFailed" "failed to scan pod resources"
    else if bool_decide (condType = NodeTopologyUpdated)
    then set_reason cond "UpdateFailed" "failed to update noderesourcetopology object"
    else cond
  else cond.

(** The channel is what was sent on it so far, and [None] when it is nil. *)
Definition SetCondition (condChan : option (list PodCondition)) (condType condStatus : string) (now : Z)
  : option (list PodCondition) :=
  match condChan with
  | None => None
  | Some sent => Some (sent ++ [conditionFor condType condStatus now])
  end.

Definition equalPodCondition (a b : PodCondition) : bool :=
  bool_decide (pc_Type a = pc_Type b) && bool_decide (pc_Status a = pc_Status b)
  && bool_decide (pc_Reason a = pc_Reason b) && bool_decide (pc_Message a = pc_Message b).

(** ** The injector *)

(** A pod: its name and the conditions of its status. *)
Record Pod := { pod_Name : string; pod_Conditions : list PodCondition }.

Class PodClient (K : Type) := {
  pods_Get : string → string → K → K * outcome Pod;
  pods_UpdateStatus : string → Pod → K → K * outcome Pod
}.

Record ConditionInjector (K : Type) := {
  ci_cs : K;
  ci_ns : string;
  ci_podName : string;
  ci_lastUpdate : gmap string PodCondition
}.
Arguments ci_cs {K}.
Arguments ci_ns {K}.
Arguments ci_podName {K}.
Arguments ci_lastUpdate {K}.
Arguments Build_ConditionInjector {K}.

Section injector.
Context {K : Type} `{PodClient K}.
Implicit Types ci : ConditionInjector K.

Definition NewConditionInjectorWithIdentity (cs : K) (ns podName : string) : ConditionInjector K :=
  Build_ConditionInjector cs ns podName ∅.

Definition NewConditionInjector (cs : K) (env : gmap string string) : outcome (ConditionInjector K) :=
  match env !! "REFERENCE_NAMESPACE" with
  | None => Err (Errorf "the env REFERENCE_NAMESPACE doesn't exist")
  | Some nsVal =>
      match env !! "REFERENCE_POD_NAME" with
      | None => Err (Errorf "the env REFERENCE_POD_NAME doesn't exist")
      | Some podVal => Ok (NewConditionInjectorWithIdentity cs nsVal podVal)
      end
  end.

Definition set_cs ci (cs : K) : ConditionInjector K :=
  Build_ConditionInjector cs (ci_ns ci) (ci_podName ci) (ci_lastUpdate ci).
Definition set_lastUpdate ci (last : gmap string PodCondition) : ConditionInjector K :=
  Build_ConditionInjector (ci_cs ci) (ci_ns ci) (ci_podName ci) last.

(** [slices.IndexFunc] on the type of the conditions. *)
Fixpoint IndexFunc (p : PodCondition → bool) (conds : list PodCondition) : option nat :=
  match conds with
  | [] => None
  | c :: rest => if p c then Some 0%nat else S <$> IndexFunc p rest
  end.

(** The new list of conditions: replaced in place or appended. *)
Definition placeCondition (conds : list PodCondition) (cond : PodCondition) : list PodCondition :=
  match IndexFunc (λ c, bool_decide (pc_Type c = pc_Type cond)) conds with
  | Some pos => <[pos := cond]> conds
  | None => conds ++ [cond]
  end.

Definition Inject ci (cond : PodCondition) : ConditionInjector K * outcome unit :=
  if match ci_lastUpdate ci !! pc_Type cond with
     | Some oldCond => equalPodCondition oldCond cond
     | None => false
     end
  then (ci, Ok ())
  else
    let '(cs, pod) := pods_Get (ci_ns ci) (ci_podName ci) (ci_cs ci) in
    let ci := set_cs ci cs in
    match pod with
    | Err e => (ci, Err e)
    | Panic p => (ci, Panic p)
    | Ok pod =>
        let pod := {| pod_Name := pod_Name pod;
                      pod_Conditions := placeCondition (pod_Conditions pod) cond |} in
        let '(cs, res) := pods_UpdateStatus (ci_ns ci) pod (ci_cs ci) in
        let ci := set_cs ci cs in
        match res with
        | Err e => (ci, Err e)
        | Panic p => (ci, Panic p)
        | Ok _ => (set_lastUpdate ci (<[pc_Type cond := cond]> (ci_lastUpdate ci)), Ok ())
        end
    end.

(** What [Run] receives: a condition, or the end of its context. *)
Inductive InjectorInput := CondReceived (cond : PodCondition) | CtxDone.

(** [Run] over a sequence of inputs: the injector, and whether it returned. *)
Fixpoint Run ci (inputs : list InjectorInput) : ConditionInjector K * outcome bool :=
  match inputs with
  | [] => (ci, Ok false)
  | CtxDone :: _ => (ci, Ok true)
  | CondReceived cond :: rest =>
      let '(ci, err) := Inject ci cond in
      match err with
      | Panic p => (ci, Panic p)
      | _ => Run ci rest
      end
  end.
End injector.

(** ** Reporting a condition *)

Lemma conditionFor_spec condType condStatus now :
  pc_Type (conditionFor condType condStatus now) = condType ∧
  pc_Status (conditionFor condType condStatus now) = condStatus.
Proof. unfold conditionFor. by repeat case_bool_decide. Qed.

Lemma SetCondition_sends condType condStatus now :
  ∃ cond, pc_Type cond = condType ∧ pc_Status cond = condStatus ∧
    ∀ condChan, SetCondition condChan condType condStatus now = (λ sent, sent ++ [cond]) <$> condChan.
Proof.
  destruct (conditionFor_spec condType condStatus now). eexists. split_and!; [done..|]. by intros [sent|].
Qed.

(** ** Placing a condition *)

Lemma IndexFunc_Some p conds pos :
  IndexFunc p conds = Some pos →
  ∃ before c after, conds = before ++ c :: after ∧ length before = pos ∧ p c = true ∧
                    Forall (λ c', p c' = false) before.
Proof.
  revert pos. induction conds as [|c conds IH]; intros pos; simpl; [done|].
  destruct (p c) eqn:Hp.
  - intros [= <-]. by exists [], c, conds.
  - intros Hi. apply fmap_Some in Hi as (pos' & Hi & ->).
    destruct (IH _ Hi) as (before & c' & after & -> & <- & Hc & Hb).
    exists (c :: before), c', after. split_and!; [done..|]. by constructor.
Qed.

Lemma IndexFunc_None p conds : IndexFunc p conds = None → Forall (λ c, p c = false) conds.
Proof.
  induction conds as [|c conds IH]; simpl; [constructor|].
  destruct (p c) eqn:Hp; [done|]. intros Hi. constructor; [done|]. apply IH.
  by apply fmap_None in Hi.
Qed.

(** The first condition of a type. *)
Definition condition_of (conds : list PodCondition) (t : string) : option PodCondition :=
  head (base.filter (λ c, pc_Type c = t) conds).

Lemma condition_of_place conds cond t :
  condition_of (placeCondition conds cond) t =
  if decide (t = pc_Type cond) then Some cond else condition_of conds t.
Proof.
  unfold placeCondition, condition_of.
  destruct (IndexFunc _ conds) as [pos|] eqn:Hi.
  - apply IndexFunc_Some in Hi as (before & c & after & -> & <- & Hc & Hb).
    apply bool_decide_eq_true in Hc. rewrite insert_app_r_alt, Nat.sub_diag by lia. simpl.
    rewrite !filter_app, !filter_cons.
    assert (base.filter (λ c, pc_Type c = pc_Type cond) before = []) as Hnil.
    { clear -Hb. induction Hb as [|c' l Hc' _ IH]; [done|]. apply bool_decide_eq_false in Hc'.
      by rewrite filter_cons_False. }
    destruct (decide (t = pc_Type cond)) as [->|Ht].
    + rewrite Hnil, decide_True by done. done.
    + rewrite !decide_False by congruence. done.
  - apply IndexFunc_None in Hi. rewrite filter_app.
    destruct (decide (t = pc_Type cond)) as [->|Ht].
    + assert (base.filter (λ c, pc_Type c = pc_Type cond) conds = []) as ->.
      { clear -Hi. induction Hi as [|c' l Hc' _ IH]; [done|]. apply bool_decide_eq_false in Hc'.
        by rewrite filter_cons_False. }
      by rewrite filter_cons_True.
    + rewrite filter_cons_False, filter_nil by congruence. by rewrite app_nil_r.
Qed.

Lemma placeCondition_types conds cond :
  pc_Type <$> placeCondition conds cond =
  if decide (pc_Type cond ∈ pc_Type <$> conds) then pc_Type <$> conds
  else (pc_Type <$> conds) ++ [pc_Type cond].
Proof.
  unfold placeCondition. destruct (IndexFunc _ conds) as [pos|] eqn:Hi.
  - apply IndexFunc_Some in Hi as (before & c & after & -> & <- & Hc & _).
    apply bool_decide_eq_true in Hc. rewrite insert_app_r_alt, Nat.sub_diag by lia.
    rewrite !fmap_app, !fmap_cons. simpl. rewrite Hc, decide_True by set_solver. done.
  - apply IndexFunc_None in Hi. rewrite decide_False; [by rewrite fmap_app|].
    intros Hin. apply list_elem_of_fmap in Hin as (c & Heq & Hin).
    rewrite Forall_forall in Hi. specialize (Hi c Hin). apply bool_decide_eq_false in Hi. congruence.
Qed.

(** ** The injector against an API server *)

(** What the injector relies on: the server stores pods by namespace and name;
    a read changes nothing and returns the stored pod; a status update that
    succeeds stores the conditions, and one that fails stores nothing. *)
Class PodServer (K : Type) `{PodClient K} := {
  stored : K → string → string → option Pod;
  pods_Get_law ns name k k' r :
    pods_Get ns name k = (k', r) →
    stored k' = stored k ∧
    ∀ pod, r = Ok pod → stored k ns name = Some pod ∧ pod_Name pod = name;
  pods_UpdateStatus_law ns pod k k' r :
    pods_UpdateStatus ns pod k = (k', r) →
    match r with
    | Ok _ => ∀ ns' name, stored k' ns' name =
                if decide ((ns', name) = (ns, pod_Name pod)) then Some pod else stored k ns' name
    | _ => stored k' = stored k
    end
}.

Section published.
Context {K : Type} `{PodServer K}.
Implicit Types ci : ConditionInjector K.

(** The conditions of the injector's own pod. *)
Definition published ci : option (list PodCondition) :=
  pod_Conditions <$> stored (ci_cs ci) (ci_ns ci) (ci_podName ci).

(** The pod shows a condition with the same content. *)
Definition shows ci (cond : PodCondition) : Prop :=
  ∃ conds c, published ci = Some conds ∧ condition_of conds (pc_Type cond) = Some c ∧
             equalPodCondition c cond = true.

(** What the injector remembers is what the pod shows. *)
Definition coherent ci : Prop :=
  ∀ t c, ci_lastUpdate ci !! t = Some c → pc_Type c = t ∧ shows ci c.

Lemma equalPodCondition_refl c : equalPodCondition c c = true.
Proof. unfold equalPodCondition. by rewrite !bool_decide_true. Qed.

Lemma equalPodCondition_trans a b c :
  equalPodCondition a b = true → equalPodCondition b c = true → equalPodCondition a c = true.
Proof.
  unfold equalPodCondition. rewrite !andb_true_iff, !bool_decide_eq_true.
  intros [[[-> ->] ->] ->] [[[-> ->] ->] ->]. done.
Qed.

(** The branches of [Inject]. *)
Lemma Inject_inv ci cond ci' o :
  Inject ci cond = (ci', o) →
  ci_ns ci' = ci_ns ci ∧ ci_podName ci' = ci_podName ci ∧
  match o with
  | Ok _ => (ci' = ci ∧ ∃ c, ci_lastUpdate ci !! pc_Type cond = Some c ∧
                             equalPodCondition c cond = true) ∨
            (ci_lastUpdate ci' = <[pc_Type cond := cond]> (ci_lastUpdate ci) ∧
             ∃ conds, published ci = Some conds ∧
                      published ci' = Some (placeCondition conds cond))
  | _ => ci_lastUpdate ci' = ci_lastUpdate ci ∧ published ci' = published ci
  end.
Proof.
  unfold Inject, published. destruct (match _ !! _ with Some _ => _ | None => _ end) eqn:Hskip.
  { intros [= <- <-]. split_and!; [done..|]. left. split; [done|].
    destruct (ci_lastUpdate ci !! _); [eauto|done]. }
  destruct (pods_Get _ _ _) as [cs pod] eqn:Hget. apply pods_Get_law in Hget as [Hst Hpod].
  destruct pod as [pod|e|p]; [|by intros [= <- <-]; simpl; rewrite Hst..].
  destruct (Hpod pod eq_refl) as [Hp Hn]. simpl.
  destruct (pods_UpdateStatus _ _ _) as [cs' res] eqn:Hupd.
  apply pods_UpdateStatus_law in Hupd.
  destruct res as [pod'|e|p]; intros [= <- <-]; simpl; split_and!; try done.
  - right. split; [done|]. rewrite Hupd, Hp, Hn. simpl. rewrite decide_True by done.
    by exists (pod_Conditions pod).
  - by rewrite Hupd, Hst.
  - by rewrite Hupd, Hst.
Qed.

Lemma coherent_ext ci ci' :
  ci_lastUpdate ci' = ci_lastUpdate ci → published ci' = published ci →
  coherent ci → coherent ci'.
Proof. intros Hl Hp Hco t c. unfold shows. rewrite Hl, Hp. apply Hco. Qed.

Lemma shows_placed ci conds cond :
  published ci = Some (placeCondition conds cond) → shows ci cond.
Proof.
  intros Hp. exists (placeCondition conds cond), cond.
  rewrite condition_of_place, decide_True by done.
  split_and!; [done..|]. apply equalPodCondition_refl.
Qed.

Lemma coherent_placed ci ci' conds cond :
  coherent ci → published ci = Some conds → published ci' = Some (placeCondition conds cond) →
  ci_lastUpdate ci' = <[pc_Type cond := cond]> (ci_lastUpdate ci) → coherent ci'.
Proof.
  intros Hco Hp Hp' Hlast t c Hl. rewrite Hlast in Hl.
  destruct (decide (t = pc_Type cond)) as [->|Ht].
  - rewrite lookup_insert_eq in Hl. injection Hl as <-. split; [done|].
    by eapply shows_placed.
  - rewrite lookup_insert_ne in Hl by done.
    destruct (Hco _ _ Hl) as [<- (conds' & c' & Hpub & Hc & He)]. split; [done|].
    exists (placeCondition conds cond), c'. rewrite condition_of_place, decide_False by done.
    split_and!; [done| |done]. congruence.
Qed.

Lemma Inject_coherent ci cond ci' o :
  coherent ci → Inject ci cond = (ci', o) →
  coherent ci' ∧ (is_ok o = true → shows ci' cond).
Proof.
  intros Hco Hi. apply Inject_inv in Hi as (_ & _ & Ho).
  destruct o as [u|e|p]; [|destruct Ho; split; [by eapply coherent_ext|done]..].
  destruct Ho as [[-> (c & Hl & He)]|(Hlast & conds & Hp & Hp')].
  - split; [done|]. intros _. destruct (Hco _ _ Hl) as [Ht (conds & c' & Hpub & Hc & He')].
    exists conds, c'. split_and!; [done|by rewrite <-Ht|by eapply equalPodCondition_trans].
  - split; [by eapply coherent_placed|]. intros _. by eapply shows_placed.
Qed.

Lemma Run_coherent ci inputs ci' o : coherent ci → Run ci inputs = (ci', o) → coherent ci'.
Proof.
  revert ci. induction inputs as [|[cond|] rest IH]; intros ci Hco; simpl;
    [by intros [= <- <-]| |by intros [= <- <-]].
  destruct (Inject ci cond) as [ci1 err] eqn:Hi.
  apply Inject_coherent in Hi as [Hco1 _]; [|done].
  destruct err; [by apply IH..|by intros [= <- <-]].
Qed.

(** C24: a condition reported as injected is what the pod shows, even when the
    injector skipped the round trip because it remembered the same
    condition, after any sequence of earlier injections, failed ones
    included, by a new injector. *)
Theorem Inject_published cs ns podName inputs ci cond ci'
    (Hrun : Run (NewConditionInjectorWithIdentity cs ns podName) inputs = (ci, Ok false))
    (Hinj : Inject ci cond = (ci', Ok ())) :
  shows ci' cond.
Proof.
  assert (coherent ci) as Hco.
  { eapply Run_coherent; [|exact Hrun]. intros t c Hl. simpl in Hl. by rewrite lookup_empty in Hl. }
  by apply (Inject_coherent _ _ _ _ Hco Hinj).
Qed.

(** An injection touches no other condition: whatever its result, the
    conditions of other types stay as they were, no type appears twice that
    did not before, and a failed one changes neither the pod nor what the
    injector remembers, so that the next attempt writes again. *)
Theorem Inject_frame ci cond ci' o conds
    (Hpub : published ci = Some conds) (Hinj : Inject ci cond = (ci', o)) :
  ∃ conds', published ci' = Some conds' ∧
    (NoDup (pc_Type <$> conds) → NoDup (pc_Type <$> conds')) ∧
    (∀ t, t ≠ pc_Type cond → condition_of conds' t = condition_of conds t) ∧
    (is_ok o = false → conds' = conds ∧ ci_lastUpdate ci' = ci_lastUpdate ci).
Proof.
  apply Inject_inv in Hinj as (_ & _ & Ho).
  destruct o as [u|e|p]; [|destruct Ho as [Hl Hp]; exists conds; by rewrite Hp..].
  destruct Ho as [[-> _]|(Hlast & conds' & Hp & Hp')]; [by exists conds|].
  assert (conds' = conds) as -> by congruence.
  exists (placeCondition conds cond). split_and!; [done|..].
  - rewrite placeCondition_types. case_decide; [done|]. intros Hnd.
    apply NoDup_app. split_and!; [done| |apply NoDup_singleton]. set_solver.
  - intros t Ht. by rewrite condition_of_place, decide_False.
  - done.
Qed.
End published.

(** ** A concrete server *)

(** One pod, whose updates fail while [broken]. *)
Record OnePod := { op_ns : string; op_pod : Pod; op_broken : nat }.

#[global] Instance OnePod_client : PodClient OnePod := {|
  pods_Get ns name k :=
    (k, if decide (ns = op_ns k ∧ name = pod_Name (op_pod k)) then Ok (op_pod k)
        else Err (Errorf "not found"));
  pods_UpdateStatus ns pod k :=
    if decide (ns = op_ns k ∧ pod_Name pod = pod_Name (op_pod k)) then
      match op_broken k with
      | O => ({| op_ns := op_ns k; op_pod := pod; op_broken := 0 |}, Ok pod)
      | S n => ({| op_ns := op_ns k; op_pod := op_pod k; op_broken := n |},
                Err (Errorf "server unavailable"))
      end
    else (k, Err (Errorf "not found"))
|}.

#[global] Instance OnePod_server : PodServer OnePod.
Proof.
  refine {| stored k ns name :=
    if decide ((ns, name) = (op_ns k, pod_Name (op_pod k))) then Some (op_pod k) else None |}.
  - intros ns name k k' r [= <- <-]. split; [done|]. intros pod. case_decide as Hd; [|done].
    destruct Hd as [-> ->]. intros [= <-]. by rewrite decide_True.
  - intros ns pod [ns0 pod0 br] k' r. simpl. case_decide as Hd; [|by intros [= <- <-]].
    destruct Hd as [-> Hn]. destruct br; intros [= <- <-]; [|done]. intros ns' name. simpl.
    rewrite Hn. by destruct (decide _).
Defined.

Definition example_cond (status : string) (now : Z) : PodCondition :=
  newConditionTemplate NodeTopologyUpdated status now.

Definition example_server : OnePod :=
  {| op_ns := "rte"; op_broken := 1;
     op_pod := {| pod_Name := "rte-x"; pod_Conditions := [newConditionTemplate "Ready" "True" 5] |} |}.

(** The first write fails, the second succeeds, the third is skipped. *)
Definition example_inputs : list InjectorInput :=
  [CondReceived (example_cond "True" 10); CondReceived (example_cond "True" 20)].

Definition example_injector : ConditionInjector OnePod :=
  (Run (NewConditionInjectorWithIdentity example_server "rte" "rte-x") example_inputs).1.

Lemma Inject_published_witness :
  shows (Inject example_injector (example_cond "True" 30)).1 (example_cond "True" 30).
Proof.
  apply (Inject_published example_server "rte" "rte-x" example_inputs example_injector);
    reflexivity.
Defined.

Lemma Inject_frame_witness :
  ∃ conds', published (Inject example_injector (example_cond "False" 30)).1 = Some conds' ∧
    condition_of conds' "Ready" = Some (newConditionTemplate "Ready" "True" 5).
Proof.
  edestruct (Inject_frame example_injector (example_cond "False" 30)) as (conds' & Hp & _ & Ht & _);
    [reflexivity|apply surjective_pairing|].
  exists conds'. split; [exact Hp|]. rewrite (Ht "Ready"); [reflexivity|discriminate].
Defined.
