(* ===== verification/NRTUpdater.v ===== *)
(** * Publishing the NodeResourceTopology object

    Models [pkg/nrtupdater/nrtupdater.go], [pkg/nrtupdater/node_getter.go]
    and [pkg/k8sannotations/annotations.go]: the updater's state, its two ways
    of sending an object (get and update, or patch the last one sent), the
    contents it gives the object, and its loop.  The API server is a client
    interface; JSON encoding and merge patches are a library interface. *)

From S2P Require Import Prelude GoStrings Counters Metrics ResourceMonitor PodReadiness.

(** ** Annotations *)

Definition RTEUpdate : string := "k8stopoawareschedwg/rte-update".
Definition SleepDuration : string := "k8stopoawareschedwg/sleep-duration".
Definition UpdateInterval : string := "k8stopoawareschedwg/update-interval".

(** A nil map is [None]. *)
Definition Merge `{MapOrder} (kvs : list (option (gmap string string))) : gmap string string :=
  foldl (λ ret kv, foldl (λ ret entry, <[entry.1 := entry.2]> ret) ret (range (default ∅ kv))) ∅ kvs.

(** ** The node getter *)

Module NodeGetter.

Record Node := { Name : string; UID : string }.

Definition NotConfigured : error := Errorf "unconfigured feature".
Definition NotFound (nodeName : string) : error := Errorf ("node " +:+ nodeName +:+ " Not Found").

(** The two implementations of the interface. *)
Inductive t :=
| DisabledNodeGetter
| CachedNodeGetter (nodes : gmap string Node).

Definition NewCachedNodeGetter (nodelist : outcome (list Node)) : outcome t :=
  match nodelist with
  | Ok items => Ok (CachedNodeGetter (foldl (λ nodes node, <[Name node := node]> nodes) ∅ items))
  | Err err => Err (Wrapf "unable to get node list information" err)
  | Panic p => Panic p
  end.

Definition Get (ng : t) (nodeName : string) : outcome Node :=
  match ng with
  | DisabledNodeGetter => Err (Wrapf "" NotConfigured)
  | CachedNodeGetter nodes =>
      match nodes !! nodeName with
      | Some node => Ok node
      | None => Err (Wrapf "" (NotFound nodeName))
      end
  end.

End NodeGetter.

(** ** Data *)

Record OwnerReference := {
  or_APIVersion : string; or_Kind : string; or_Name : string; or_UID : string
}.

(** The object; [nrt_ResourceVersion] stands for the metadata the API server
    manages. *)
Record NodeResourceTopology := {
  nrt_Name : string;
  nrt_ResourceVersion : Z;
  nrt_Annotations : option (gmap string string);
  nrt_OwnerReferences : list OwnerReference;
  nrt_TopologyPolicies : list string;
  nrt_Zones : list Zone;
  nrt_Attributes : list AttributeInfo
}.

Record UpdaterArgs := {
  NoPublish : bool;
  Oneshot : bool;
  Hostname : string;
  KubeConfig : string;
  PatchMode : bool;
  PatchResync : Z
}.

(** As the source has it: [KubeConfig] is not copied. *)
Definition UpdaterArgs_Clone (args : UpdaterArgs) : UpdaterArgs := {|
  NoPublish := NoPublish args; Oneshot := Oneshot args; Hostname := Hostname args;
  KubeConfig := ""; PatchMode := PatchMode args; PatchResync := PatchResync args |}.

Record TMConfig := { tm_Policy : string; tm_Scope : string }.

Definition TMConfig_IsValid (conf : TMConfig) : bool :=
  negb (bool_decide (tm_Policy conf = "")) && negb (bool_decide (tm_Scope conf = "")).

Record MonitorInfo := {
  mi_Timer : bool;
  mi_Zones : list Zone;
  mi_Attributes : list AttributeInfo;
  mi_Annotations : option (gmap string string)
}.

Definition RTEUpdatePeriodic : string := "periodic".
Definition RTEUpdateReactive : string := "reactive".

Definition UpdateReason (mi : MonitorInfo) : string :=
  if mi_Timer mi then RTEUpdatePeriodic else RTEUpdateReactive.

(** ** Interfaces *)

(** The typed client of the API server, and how it tells a missing object. *)
Class NRTClient (A : Type) := {
  api_Get : string → A → A * outcome NodeResourceTopology;
  api_Create : NodeResourceTopology → A → A * outcome NodeResourceTopology;
  api_Update : NodeResourceTopology → A → A * outcome NodeResourceTopology;
  api_Patch : string → string → A → A * outcome NodeResourceTopology;
  IsNotFound : error → bool
}.

Class JSONLib := {
  json_Marshal : NodeResourceTopology → outcome string;
  CreateThreeWayJSONMergePatch : string → string → string → outcome string
}.

(** Which method [sendObject] is bound to. *)
Inductive SendObject := SendObjectPatch | SendObjectUpdate.

Record NRTUpdater (A : Type) := {
  te_args : UpdaterArgs;
  te_tmConfig : TMConfig;
  te_nodeGetter : NodeGetter.t;
  te_nrtCli : A;
  te_sendObject : SendObject;
  te_prevNRT : option NodeResourceTopology;
  te_patchCount : Z
}.
Arguments te_args {A}.
Arguments te_tmConfig {A}.
Arguments te_nodeGetter {A}.
Arguments te_nrtCli {A}.
Arguments te_sendObject {A}.
Arguments te_prevNRT {A}.
Arguments te_patchCount {A}.
Arguments Build_NRTUpdater {A}.

Record NRTPatchInfo := { Patch : string; FullObjBytes : Z }.

Definition SizeRatio (pi : NRTPatchInfo) : spec_float :=
  if FullObjBytes pi =? 0 then float64 1
  else float64_div (float64 (Z.of_nat (String.length (Patch pi)))) (float64 (FullObjBytes pi)).

Definition ErrMissingPreviousNRT : error := Errorf "missing previous NRT data".

(** ** The updater *)

Section updater.
Context `{MapOrder} `{JSONLib}.
Context {A : Type} `{NRTClient A}.
Implicit Types te : NRTUpdater A.
Implicit Types m : Registry.

Definition set_api te (cli : A) : NRTUpdater A :=
  Build_NRTUpdater (te_args te) (te_tmConfig te) (te_nodeGetter te) cli (te_sendObject te)
    (te_prevNRT te) (te_patchCount te).
Definition set_prevNRT te (nrt : option NodeResourceTopology) : NRTUpdater A :=
  Build_NRTUpdater (te_args te) (te_tmConfig te) (te_nodeGetter te) (te_nrtCli te)
    (te_sendObject te) nrt (te_patchCount te).
Definition set_patchCount te (n : Z) : NRTUpdater A :=
  Build_NRTUpdater (te_args te) (te_tmConfig te) (te_nodeGetter te) (te_nrtCli te)
    (te_sendObject te) (te_prevNRT te) n.

(** A nil client is [None]. *)
Definition NewNRTUpdater (nodeGetter : NodeGetter.t) (nrtCli : option A) (args : UpdaterArgs)
  (tmconf : TMConfig) : outcome (NRTUpdater A) :=
  match nrtCli with
  | None => Err (Errorf "missing NRT client interface")
  | Some cli =>
      Ok (Build_NRTUpdater args tmconf nodeGetter cli
            (if PatchMode args then SendObjectPatch else SendObjectUpdate) None 0)
  end.

Definition makeAttributes te : list AttributeInfo :=
  [{| attr_Name := "topologyManagerScope"; attr_Value := tm_Scope (te_tmConfig te) |};
   {| attr_Name := "topologyManagerPolicy"; attr_Value := tm_Policy (te_tmConfig te) |}].

Definition updateNRTInfo te (nrt : NodeResourceTopology) (info : MonitorInfo) : NodeResourceTopology :=
  let annotations := Merge [nrt_Annotations nrt; mi_Annotations info] in
  let annotations := <[RTEUpdate := UpdateReason info]> annotations in
  {| nrt_Name := nrt_Name nrt;
     nrt_ResourceVersion := nrt_ResourceVersion nrt;
     nrt_Annotations := Some annotations;
     nrt_OwnerReferences := nrt_OwnerReferences nrt;
     nrt_TopologyPolicies := nrt_TopologyPolicies nrt;
     nrt_Zones := mi_Zones info;
     nrt_Attributes := mi_Attributes info ++ makeAttributes te |}.

Definition updateOwnerReferences te (nrt : NodeResourceTopology) : NodeResourceTopology :=
  match NodeGetter.Get (te_nodeGetter te) (nrt_Name nrt) with
  | Ok node =>
      let nodeReference := {| or_APIVersion := "v1"; or_Kind := "Node";
                              or_Name := NodeGetter.Name node; or_UID := NodeGetter.UID node |} in
      {| nrt_Name := nrt_Name nrt;
         nrt_ResourceVersion := nrt_ResourceVersion nrt;
         nrt_Annotations := nrt_Annotations nrt;
         nrt_OwnerReferences := [nodeReference];
         nrt_TopologyPolicies := nrt_TopologyPolicies nrt;
         nrt_Zones := nrt_Zones nrt;
         nrt_Attributes := nrt_Attributes nrt |}
  | _ => nrt
  end.

(** The second component is the reason of a failure. *)
Definition MakeNRTPatch (nrtOld nrtNew : NodeResourceTopology) : outcome NRTPatchInfo * string :=
  match json_Marshal nrtOld with
  | Err err => (Err err, "marshal_previous")
  | Panic p => (Panic p, "")
  | Ok nrtOldJSON =>
      match json_Marshal nrtNew with
      | Err err => (Err err, "marshal_current")
      | Panic p => (Panic p, "")
      | Ok nrtNewJSON =>
          match CreateThreeWayJSONMergePatch nrtOldJSON nrtNewJSON nrtOldJSON with
          | Err err => (Err err, "make_patch")
          | Panic p => (Panic p, "")
          | Ok patch =>
              (Ok {| Patch := patch; FullObjBytes := Z.of_nat (String.length nrtNewJSON) |}, "")
          end
      end
  end.

Definition patchNRT te m (info : MonitorInfo)
  : NRTUpdater A * Registry * outcome NodeResourceTopology :=
  match te_prevNRT te with
  | None => (te, m, Err ErrMissingPreviousNRT)
  | Some prevNRT =>
      let nrtNew := updateNRTInfo te prevNRT info in
      let nrtNew := updateOwnerReferences te nrtNew in
      let '(patchInfo, reason) := MakeNRTPatch prevNRT nrtNew in
      match patchInfo with
      | Err err => (te, UpdateNodeResourceTopologyPatchFailuresMetric reason m, Err err)
      | Panic p => (te, m, Panic p)
      | Ok patchInfo =>
          let ratio := SizeRatio patchInfo in
          let m := UpdateNodeResourceTopologyPatchSizeRatioMetric ratio m in
          let '(cli, nrtUpdated) := api_Patch (nrt_Name prevNRT) (Patch patchInfo) (te_nrtCli te) in
          let te := set_api te cli in
          match nrtUpdated with
          | Err err => (te, UpdateNodeResourceTopologyPatchFailuresMetric "send_patch" m, Err err)
          | Panic p => (te, m, Panic p)
          | Ok nrtUpdated => (set_prevNRT te (Some nrtUpdated), m, Ok nrtUpdated)
          end
      end
  end.

Definition needsResync te : bool :=
  if PatchResync (te_args te) <=? 0 then false
  else PatchResync (te_args te) <=? te_patchCount te.

Definition sendObjectUpdate te m (info : MonitorInfo)
  : NRTUpdater A * Registry * outcome NodeResourceTopology :=
  let '(cli, nrt) := api_Get (Hostname (te_args te)) (te_nrtCli te) in
  let te := set_api te cli in
  match nrt with
  | Panic p => (te, m, Panic p)
  | Err err =>
      if IsNotFound err then
        let nrtNew := {| nrt_Name := Hostname (te_args te); nrt_ResourceVersion := 0;
                         nrt_Annotations := Some ∅; nrt_OwnerReferences := [];
                         nrt_TopologyPolicies := []; nrt_Zones := []; nrt_Attributes := [] |} in
        let nrtNew := updateNRTInfo te nrtNew info in
        let nrtNew := updateOwnerReferences te nrtNew in
        let '(cli, nrtCreated) := api_Create nrtNew (te_nrtCli te) in
        let te := set_api te cli in
        match nrtCreated with
        | Err err => (te, m, Err (Wrapf "update failed for NRT instance" err))
        | Panic p => (te, m, Panic p)
        | Ok nrtCreated =>
            (te, UpdateNodeResourceTopologyWritesMetric "create" (UpdateReason info) m, Ok nrtCreated)
        end
      else (te, m, Err err)
  | Ok nrt =>
      let nrtMutated := updateNRTInfo te nrt info in
      let nrtMutated := updateOwnerReferences te nrtMutated in
      let '(cli, nrtUpdated) := api_Update nrtMutated (te_nrtCli te) in
      let te := set_api te cli in
      match nrtUpdated with
      | Err err => (te, m, Err (Wrapf "update failed for NRT instance" err))
      | Panic p => (te, m, Panic p)
      | Ok nrtUpdated =>
          (te, UpdateNodeResourceTopologyWritesMetric "update" (UpdateReason info) m, Ok nrtUpdated)
      end
  end.

(** The tail of [sendObjectPatch]: send the full object and start over. *)
Definition sendObjectPatch te m (info : MonitorInfo)
  : NRTUpdater A * Registry * outcome NodeResourceTopology :=
  let resync te m :=
    let '(te, m, nrtObj) := sendObjectUpdate te m info in
    match nrtObj with
    | Ok nrtObj => (set_patchCount (set_prevNRT te (Some nrtObj)) 0, m, Ok nrtObj)
    | _ => (te, m, nrtObj)
    end in
  if negb (needsResync te) then
    let '(te, m, nrtObj) := patchNRT te m info in
    match nrtObj with
    | Ok nrtObj => (set_patchCount te (wrap64 (te_patchCount te + 1)), m, Ok nrtObj)
    | Panic p => (te, m, Panic p)
    | Err _ => resync te m
    end
  else resync te m.

Definition sendData te m (info : MonitorInfo) : NRTUpdater A * Registry * outcome unit :=
  if NoPublish (te_args te) then (te, m, Ok ())
  else
    let '(te, m, nrtObj) :=
      match te_sendObject te with
      | SendObjectPatch => sendObjectPatch te m info
      | SendObjectUpdate => sendObjectUpdate te m info
      end in
    (te, m, let! _ := nrtObj in Ok ()).

Definition Update te m (info : MonitorInfo) : NRTUpdater A * Registry * outcome unit :=
  sendData te m info.

(** What the loop receives: an info, with how long [Update] took and the time
    the condition is stamped with, or a stop. *)
Inductive RunInput :=
| InfoReceived (info : MonitorInfo) (elapsed now : Z)
| StopReceived.

(** The loop over a sequence of inputs: the last component tells whether it
    returned.  The [break] on [Oneshot] leaves the [select] only, so the
    loop goes on, without reporting a condition. *)
Fixpoint Run te m (condChan : option (list PodCondition)) (inputs : list RunInput)
  : NRTUpdater A * Registry * option (list PodCondition) * outcome bool :=
  match inputs with
  | [] => (te, m, condChan, Ok false)
  | StopReceived :: _ => (te, m, condChan, Ok true)
  | InfoReceived info elapsed now :: rest =>
      let '(te, m, err) := Update te m info in
      match err with
      | Panic p => (te, m, condChan, Panic p)
      | _ =>
          let condStatus := if is_ok err then ConditionTrue else ConditionFalse in
          let m := UpdateOperationDelayMetric "node_resource_object_update" RTEUpdateReactive
                     (Z.quot elapsed 1000000) m in
          if Oneshot (te_args te) then Run te m condChan rest
          else Run te m (SetCondition condChan NodeTopologyUpdated condStatus now) rest
      end
  end.
End updater.
#[global] Arguments RunInput : clear implicits.

(** ** What is published *)

(** Equal but for what the API server manages. *)
Definition same_content (a b : NodeResourceTopology) : Prop :=
  nrt_Name a = nrt_Name b ∧ nrt_Annotations a = nrt_Annotations b ∧
  nrt_OwnerReferences a = nrt_OwnerReferences b ∧
  nrt_TopologyPolicies a = nrt_TopologyPolicies b ∧
  nrt_Zones a = nrt_Zones b ∧ nrt_Attributes a = nrt_Attributes b.

#[global] Instance same_content_equiv : Equivalence same_content.
Proof.
  unfold same_content. split.
  - done.
  - intros a b (? & ? & ? & ? & ? & ?). by split_and!.
  - intros a b c (? & ? & ? & ? & ? & ?) (? & ? & ? & ? & ? & ?). split_and!; congruence.
Qed.

(** The API server as the updater relies on it: a store of objects by name;
    reads return what is stored; a write that succeeds stores the object it
    returns, which has the content asked for, and one that fails stores
    nothing.  A merge patch made from an old and a new object turns the old
    one into the new one. *)
Class NRTServer (A : Type) `{NRTClient A} `{JSONLib} := {
  objects : A → gmap string NodeResourceTopology;
  apply_patch : string → NodeResourceTopology → option NodeResourceTopology;
  api_Get_law name a a' r :
    api_Get name a = (a', r) →
    objects a' = objects a ∧
    match r with
    | Ok nrt => objects a !! name = Some nrt ∧ nrt_Name nrt = name
    | Err e => IsNotFound e = true → objects a !! name = None
    | Panic _ => True
    end;
  api_Create_law nrt a a' r :
    api_Create nrt a = (a', r) →
    match r with
    | Ok nrt' => objects a' = <[nrt_Name nrt := nrt']> (objects a) ∧ same_content nrt' nrt
    | _ => objects a' = objects a
    end;
  api_Update_law nrt a a' r :
    api_Update nrt a = (a', r) →
    match r with
    | Ok nrt' => objects a' = <[nrt_Name nrt := nrt']> (objects a) ∧ same_content nrt' nrt
    | _ => objects a' = objects a
    end;
  api_Patch_law name patch a a' r :
    api_Patch name patch a = (a', r) →
    match r with
    | Ok nrt' => ∃ old new, objects a !! name = Some old ∧ apply_patch patch old = Some new ∧
                 objects a' = <[name := nrt']> (objects a) ∧ same_content nrt' new
    | _ => objects a' = objects a
    end;
  merge_patch_law old new jold jnew patch :
    json_Marshal old = Ok jold → json_Marshal new = Ok jnew →
    CreateThreeWayJSONMergePatch jold jnew jold = Ok patch →
    nrt_Name old = nrt_Name new → apply_patch patch old = Some new
}.

Section published.
Context `{MapOrder} {A : Type} `{NRTServer A}.
Implicit Types te : NRTUpdater A.
Implicit Types m : Registry.

(** The object the updater starts from when there is none. *)
Definition blank (name : string) : NodeResourceTopology :=
  {| nrt_Name := name; nrt_ResourceVersion := 0; nrt_Annotations := Some ∅;
     nrt_OwnerReferences := []; nrt_TopologyPolicies := []; nrt_Zones := []; nrt_Attributes := [] |}.

(** The abstract operation: one object, rewritten from the scan. *)
Definition publish te (info : MonitorInfo) (old : option NodeResourceTopology)
  : NodeResourceTopology :=
  updateOwnerReferences te (updateNRTInfo te (default (blank (Hostname (te_args te))) old) info).

Definition current te : option NodeResourceTopology :=
  objects (te_nrtCli te) !! Hostname (te_args te).

(** Nobody else writes the object: what was last sent is what is stored. *)
Definition in_sync te : Prop :=
  ∀ prev, te_prevNRT te = Some prev → current te = Some prev ∧ nrt_Name prev = Hostname (te_args te).

(** Everything an update never changes. *)
Definition same_updater te te' : Prop :=
  te_args te' = te_args te ∧ te_tmConfig te' = te_tmConfig te ∧
  te_nodeGetter te' = te_nodeGetter te ∧ te_sendObject te' = te_sendObject te.

Lemma updateOwnerReferences_name te nrt : nrt_Name (updateOwnerReferences te nrt) = nrt_Name nrt.
Proof. unfold updateOwnerReferences. by destruct (NodeGetter.Get _ _). Qed.

Lemma publish_setup te te' info old :
  same_updater te te' → publish te' info old = publish te info old.
Proof.
  intros (Ha & Ht & Hn & _). unfold publish, updateOwnerReferences, updateNRTInfo, makeAttributes.
  by rewrite Ha, Ht, Hn.
Qed.

Lemma sendObjectUpdate_spec te m info te' m' r :
  sendObjectUpdate te m info = (te', m', r) →
  same_updater te te' ∧ te_prevNRT te' = te_prevNRT te ∧ te_patchCount te' = te_patchCount te ∧
  match r with
  | Ok nrt => current te' = Some nrt ∧ same_content nrt (publish te info (current te)) ∧
              nrt_Name nrt = Hostname (te_args te)
  | _ => objects (te_nrtCli te') = objects (te_nrtCli te)
  end.
Proof.
  unfold sendObjectUpdate, current.
  destruct (api_Get _ _) as [a nrt] eqn:Hget. apply api_Get_law in Hget as [Hobj Hget].
  destruct nrt as [nrt|e|p]; [| |by intros [= <- <- <-]].
  - destruct Hget as [Hcur Hname].
    destruct (api_Update _ _) as [a' r'] eqn:Hupd. apply api_Update_law in Hupd.
    destruct r' as [nrt'|e|p]; intros [= <- <- <-]; (split; [done|]); (split; [done|]); (split; [done|]);
      simpl in *; [|by rewrite Hupd, Hobj..].
    destruct Hupd as [Hst Hsame]. rewrite updateOwnerReferences_name in Hst. simpl in Hst.
    rewrite Hst, Hname, lookup_insert_eq, Hcur. split_and!; [done|exact Hsame|].
    destruct Hsame as [-> _]. rewrite updateOwnerReferences_name. done.
  - destruct (IsNotFound e) eqn:Hnf; [|by intros [= <- <- <-]].
    specialize (Hget eq_refl).
    destruct (api_Create _ _) as [a' r'] eqn:Hcr. apply api_Create_law in Hcr.
    destruct r' as [nrt'|e'|p]; intros [= <- <- <-]; (split; [done|]); (split; [done|]); (split; [done|]);
      simpl in *; [|by rewrite Hcr, Hobj..].
    destruct Hcr as [Hst Hsame]. rewrite updateOwnerReferences_name in Hst. simpl in Hst.
    rewrite Hst, lookup_insert_eq, Hget. split_and!; [done|exact Hsame|].
    destruct Hsame as [-> _]. rewrite updateOwnerReferences_name. done.
Qed.

Lemma MakeNRTPatch_Ok old new pi reason :
  MakeNRTPatch old new = (Ok pi, reason) → nrt_Name old = nrt_Name new →
  apply_patch (Patch pi) old = Some new.
Proof.
  unfold MakeNRTPatch. destruct (json_Marshal old) as [jo|e|p] eqn:Ho; [|done..].
  destruct (json_Marshal new) as [jn|e|p] eqn:Hn; [|done..].
  destruct (CreateThreeWayJSONMergePatch jo jn jo) as [patch|e|p] eqn:Hp; [|done..].
  intros [= <- <-] Hname. by eapply merge_patch_law.
Qed.

Lemma patchNRT_spec te m info te' m' r :
  in_sync te → patchNRT te m info = (te', m', r) →
  same_updater te te' ∧ te_patchCount te' = te_patchCount te ∧
  match r with
  | Ok nrt => te_prevNRT te' = Some nrt ∧ is_Some (te_prevNRT te) ∧ current te' = Some nrt ∧
              same_content nrt (publish te info (current te)) ∧
              nrt_Name nrt = Hostname (te_args te)
  | _ => te_prevNRT te' = te_prevNRT te ∧ objects (te_nrtCli te') = objects (te_nrtCli te)
  end.
Proof.
  intros Hsync. unfold patchNRT. destruct (te_prevNRT te) as [prev|] eqn:Hprev;
    [|by intros [= <- <- <-]].
  destruct (Hsync prev Hprev) as [Hcur Hname]. unfold current in *. cbv zeta.
  destruct (MakeNRTPatch _ _) as [pi reason] eqn:Hmk.
  destruct pi as [pi|e|p]; [|by intros [= <- <- <-]..].
  apply MakeNRTPatch_Ok in Hmk; [|by rewrite updateOwnerReferences_name].
  destruct (api_Patch _ _ _) as [a r'] eqn:Hpatch. apply api_Patch_law in Hpatch.
  destruct r' as [nrt|e|p]; intros [= <- <- <-]; (split; [done|]); (split; [done|]);
    [|by split..].
  destruct Hpatch as (old & new & Hold & Happ & Hst & Hsame).
  rewrite Hname, Hcur in Hold. injection Hold as <-. rewrite Happ in Hmk. injection Hmk as ->.
  simpl. rewrite Hst, Hname, lookup_insert_eq, Hcur. split_and!; [done|by eexists|done|done|].
  destruct Hsame as [-> _]. by rewrite updateOwnerReferences_name.
Qed.

Lemma resync_spec te m info te' m' r :
  (let '(te, m, nrtObj) := sendObjectUpdate te m info in
   match nrtObj with
   | Ok nrtObj => (set_patchCount (set_prevNRT te (Some nrtObj)) 0, m, Ok nrtObj)
   | _ => (te, m, nrtObj)
   end) = (te', m', r) →
  same_updater te te' ∧
  match r with
  | Ok nrt => te_prevNRT te' = Some nrt ∧ te_patchCount te' = 0 ∧ current te' = Some nrt ∧
              same_content nrt (publish te info (current te)) ∧
              nrt_Name nrt = Hostname (te_args te)
  | _ => te_prevNRT te' = te_prevNRT te ∧ te_patchCount te' = te_patchCount te ∧
         objects (te_nrtCli te') = objects (te_nrtCli te)
  end.
Proof.
  destruct (sendObjectUpdate te m info) as [[te1 m1] o] eqn:Hs.
  apply sendObjectUpdate_spec in Hs as (Hset & Hp & Hc & Ho).
  destruct o as [nrt|e|p]; intros [= <- <- <-]; split; try done; by destruct Ho as (? & ? & ?).
Qed.

(** One call of [sendObjectPatch]: a patch when it may and can, and else the
    full object. *)
Lemma sendObjectPatch_spec te m info te' m' r :
  in_sync te → sendObjectPatch te m info = (te', m', r) →
  same_updater te te' ∧
  match r with
  | Ok nrt => te_prevNRT te' = Some nrt ∧ current te' = Some nrt ∧
              same_content nrt (publish te info (current te)) ∧
              nrt_Name nrt = Hostname (te_args te) ∧
              (te_patchCount te' = 0 ∨
               needsResync te = false ∧ is_Some (te_prevNRT te) ∧
               te_patchCount te' = wrap64 (te_patchCount te + 1))
  | _ => te_prevNRT te' = te_prevNRT te ∧ te_patchCount te' = te_patchCount te ∧
         objects (te_nrtCli te') = objects (te_nrtCli te)
  end.
Proof.
  intros Hsync. unfold sendObjectPatch. destruct (negb (needsResync te)) eqn:Hneed.
  - apply negb_true_iff in Hneed. destruct (patchNRT te m info) as [[te1 m1] o] eqn:Hp.
    apply patchNRT_spec in Hp as (Hset & Hcnt & Ho); [|done].
    destruct o as [nrt|e|p]; [by intros [= <- <- <-]; rewrite Hcnt; naive_solver| |
      by intros [= <- <- <-]; destruct Ho].
    intros Hr. apply resync_spec in Hr as [Hset' Hr]. destruct Ho as [Hprev Hobj].
    assert (same_updater te te') as Hset''.
    { destruct Hset as (? & ? & ? & ?), Hset' as (? & ? & ? & ?). split_and!; congruence. }
    assert (current te1 = current te) as Hcur.
    { unfold current. destruct Hset as (-> & _). by rewrite Hobj. }
    split; [done|]. destruct r as [nrt|e'|p].
    + rewrite (publish_setup _ _ _ _ Hset), Hcur in Hr. destruct Hset as (Ha & _). rewrite Ha in Hr.
      destruct Hr as (? & ? & ? & ? & ?). split_and!; auto.
    + destruct Hr as (-> & -> & ->). done.
    + destruct Hr as (-> & -> & ->). done.
  - intros Hr. apply resync_spec in Hr as [Hset Hr]. split; [done|].
    destruct r; [|done..]. destruct Hr as (? & ? & ? & ? & ?). split_and!; auto.
Qed.

(** *** The updater's invariant *)

(** In patch mode what was last sent is what is stored; in update mode nothing
    is remembered; the patches since the last full object are counted and,
    when a resync is configured, never more than it allows. *)
Record updater_ok te : Prop := {
  ok_sync : in_sync te;
  ok_mode : te_sendObject te = SendObjectUpdate → te_prevNRT te = None;
  ok_none : te_prevNRT te = None → te_patchCount te = 0;
  ok_count : 0 < PatchResync (te_args te) → 0 ≤ te_patchCount te ≤ PatchResync (te_args te)
}.

Lemma patchCount_step te n :
  int64_ok (PatchResync (te_args te)) → updater_ok te →
  n = 0 ∨ needsResync te = false ∧ is_Some (te_prevNRT te) ∧ n = wrap64 (te_patchCount te + 1) →
  0 < PatchResync (te_args te) → 0 ≤ n ≤ PatchResync (te_args te).
Proof.
  intros Hr Hok [->|(Hneed & _ & ->)] Hpos; [lia|].
  pose proof (ok_count te Hok Hpos) as Hc. unfold needsResync in Hneed.
  destruct (Z.leb_spec (PatchResync (te_args te)) 0); [lia|]. apply Z.leb_gt in Hneed.
  rewrite wrap64_id; [lia|]. unfold_int64. lia.
Qed.

Lemma updater_ok_unchanged te te' :
  updater_ok te → same_updater te te' → te_prevNRT te' = te_prevNRT te →
  te_patchCount te' = te_patchCount te → objects (te_nrtCli te') = objects (te_nrtCli te) →
  updater_ok te' ∧ current te' = current te.
Proof.
  intros [Hs Hm Hn Hc] (Ha & _ & _ & Hsend) Hp Hcnt Hobj.
  assert (current te' = current te) as Hcur by (unfold current; by rewrite Ha, Hobj).
  split; [|done]. constructor; unfold in_sync; rewrite ?Hp, ?Hcnt, ?Ha, ?Hsend, ?Hcur; done.
Qed.

(** An update's effect: what the abstract operation says, or none. *)
Lemma Update_spec te m info te' m' r :
  int64_ok (PatchResync (te_args te)) → updater_ok te → NoPublish (te_args te) = false →
  Update te m info = (te', m', r) →
  same_updater te te' ∧ updater_ok te' ∧
  match r with
  | Ok _ => ∃ nrt, current te' = Some nrt ∧ same_content nrt (publish te info (current te))
  | _ => current te' = current te
  end.
Proof.
  intros Hres Hok Hnp. unfold Update, sendData. rewrite Hnp.
  destruct (te_sendObject te) eqn:Hmode.
  - destruct (sendObjectPatch te m info) as [[te1 m1] o] eqn:Hs.
    apply sendObjectPatch_spec in Hs as [Hset Ho]; [|by apply ok_sync].
    intros [= <- <- <-]. split; [done|]. destruct o as [nrt|e|p]; simpl;
      [|by apply updater_ok_unchanged; destruct Ho as (? & ? & ?)..].
    destruct Ho as (Hp & Hcur & Hsame & Hname & Hcnt). split; [|by exists nrt].
    pose proof (patchCount_step te (te_patchCount te1) Hres Hok Hcnt) as Hbound.
    destruct Hset as (Ha & _ & _ & Hsend). constructor.
    + intros prev. rewrite Hp. intros [= <-]. by rewrite Ha.
    + by rewrite Hsend, Hmode.
    + by rewrite Hp.
    + by rewrite Ha.
  - destruct (sendObjectUpdate te m info) as [[te1 m1] o] eqn:Hs.
    apply sendObjectUpdate_spec in Hs as (Hset & Hp & Hcnt & Ho).
    intros [= <- <- <-]. split; [done|]. destruct o as [nrt|e|p]; simpl;
      [|by apply updater_ok_unchanged..].
    destruct Ho as (Hcur & Hsame & Hname). split; [|by exists nrt].
    rewrite (ok_mode te Hok Hmode) in Hp. destruct Hset as (Ha & _ & _ & Hsend).
    constructor; unfold in_sync; rewrite ?Hp, ?Hcnt, ?Ha, ?Hsend; [done|done| |].
    + intros _. by apply (ok_none te Hok), (ok_mode te Hok).
    + by apply (ok_count te Hok).
Qed.
End published.
