(* ===== verification/UpdaterProps.v ===== *)
(** * What the updater guarantees

    The theorems on the updater against an API server: what is published,
    that patching and updating publish the same, the bound on patches between
    two full objects, and the behaviour of the loop. *)

From Stdlib Require Import Ascii.
From S2P Require Import Prelude GoStrings Counters Metrics ResourceMonitor PodReadiness NRTUpdater.

Lemma Merge_lookup `{MapOrder} kvs k :
  Merge kvs !! k = foldl (λ acc kv, match default ∅ kv !! k with Some v => Some v | None => acc end)
                         None kvs.
Proof.
  unfold Merge.
  assert (∀ m : gmap string string,
    foldl (λ ret kv, foldl (λ ret entry, <[entry.1 := entry.2]> ret) ret (range (default ∅ kv))) m kvs !! k =
    foldl (λ acc kv, match default ∅ kv !! k with Some v => Some v | None => acc end) (m !! k) kvs) as Hm;
    [|by rewrite Hm, lookup_empty].
  induction kvs as [|kv kvs IH]; intros m; [done|]. cbn [foldl]. rewrite IH. f_equal.
  rewrite (foldl_insert_lookup (λ v : string, v)) by apply NoDup_range_keys.
  rewrite (list_to_map_proper (range (default ∅ kv)) (map_to_list (default ∅ kv))), list_to_map_to_list;
    [done|apply NoDup_range_keys|apply range_perm].
Qed.

Section contents.
Context `{MapOrder} {A : Type} `{NRTServer A}.
Implicit Types te : NRTUpdater A.
Implicit Types m : Registry.

Lemma publish_zones te info old : nrt_Zones (publish te info old) = mi_Zones info.
Proof. unfold publish, updateOwnerReferences. by destruct (NodeGetter.Get _ _). Qed.

Lemma publish_attributes te info old :
  nrt_Attributes (publish te info old) = mi_Attributes info ++ makeAttributes te.
Proof. unfold publish, updateOwnerReferences. by destruct (NodeGetter.Get _ _). Qed.

(** The contents of the published object: the zones of the scan, its
    attributes followed by the Topology Manager's scope and policy, the
    annotations of the scan over those the object had, with the reason of
    the update; when the node is known, the Node is its only owner. *)
Theorem publish_contents te info old :
  let nrt := publish te info old in
  let name := nrt_Name (default (blank (Hostname (te_args te))) old) in
  nrt_Name nrt = name ∧
  nrt_Zones nrt = mi_Zones info ∧
  nrt_Attributes nrt = mi_Attributes info ++
    [{| attr_Name := "topologyManagerScope"; attr_Value := tm_Scope (te_tmConfig te) |};
     {| attr_Name := "topologyManagerPolicy"; attr_Value := tm_Policy (te_tmConfig te) |}] ∧
  (∀ k, default ∅ (nrt_Annotations nrt) !! k =
     if decide (k = RTEUpdate) then Some (UpdateReason info)
     else match default ∅ (mi_Annotations info) !! k with
          | Some v => Some v
          | None => default ∅ (old ≫= nrt_Annotations) !! k
          end) ∧
  nrt_OwnerReferences nrt =
    match NodeGetter.Get (te_nodeGetter te) name with
    | Ok node => [{| or_APIVersion := "v1"; or_Kind := "Node";
                     or_Name := NodeGetter.Name node; or_UID := NodeGetter.UID node |}]
    | _ => default [] (nrt_OwnerReferences <$> old)
    end.
Proof.
  cbv zeta. unfold publish, updateOwnerReferences. simpl.
  set (base := default _ old).
  assert (∀ k, default ∅ (nrt_Annotations base) !! k = default ∅ (old ≫= nrt_Annotations) !! k)
    as Hann by (intros k; by destruct old).
  assert (nrt_OwnerReferences base = default [] (nrt_OwnerReferences <$> old)) as Hrefs
    by (by destruct old).
  assert (∀ k, <[RTEUpdate := UpdateReason info]>
      (Merge [nrt_Annotations base; mi_Annotations info]) !! k =
      if decide (k = RTEUpdate) then Some (UpdateReason info)
      else match default ∅ (mi_Annotations info) !! k with
           | Some v => Some v
           | None => default ∅ (old ≫= nrt_Annotations) !! k
           end) as Hmerge.
  { intros k. destruct (decide (k = RTEUpdate)) as [->|Hk]; [apply lookup_insert_eq|].
    rewrite lookup_insert_ne, Merge_lookup by done. cbn [foldl]. rewrite Hann.
    by destruct (default ∅ (old ≫= _) !! k). }
  destruct (NodeGetter.Get _ _) as [node|e|p]; simpl; auto.
Qed.

#[global] Instance publish_proper te info :
  Proper (option_Forall2 same_content ==> same_content) (publish te info).
Proof.
  intros old1 old2 Hold. unfold publish.
  assert (same_content (default (blank (Hostname (te_args te))) old1)
                       (default (blank (Hostname (te_args te))) old2)) as Hs.
  { by destruct Hold. }
  revert Hs. generalize (default (blank (Hostname (te_args te))) old1).
  generalize (default (blank (Hostname (te_args te))) old2).
  intros n2 n1 (Hn & Ha & Ho & Ht & Hz & Hat).
  unfold updateOwnerReferences, updateNRTInfo. simpl. rewrite Hn.
  destruct (NodeGetter.Get _ _); unfold same_content; simpl; rewrite Ha; by rewrite ?Ho, ?Ht.
Qed.

(** C14: an update refines the abstract operation "replace the object by what
    the scan says", in patch mode as in update mode, as long as nobody else
    writes the object; a failed one leaves the object and the updater's
    memory of it alone, and the updater's invariant holds again. *)
Theorem Update_refines te m info te' m' r
    (Hres : int64_ok (PatchResync (te_args te))) (Hok : updater_ok te)
    (Hpub : NoPublish (te_args te) = false)
    (Hup : Update te m info = (te', m', r)) :
  updater_ok te' ∧
  match r with
  | Ok _ => ∃ nrt, current te' = Some nrt ∧ same_content nrt (publish te info (current te))
  | _ => current te' = current te
  end.
Proof. by apply (Update_spec te m info te' m' r Hres Hok Hpub) in Hup as (_ & ? & ?). Qed.

(** The infos the loop receives before it stops. *)
Fixpoint received (inputs : list RunInput) : list MonitorInfo :=
  match inputs with
  | InfoReceived info _ _ :: rest => info :: received rest
  | _ => []
  end.

(** The conditions that say an info was sent. *)
Definition successes (conds : list PodCondition) : list PodCondition :=
  base.filter (λ c, pc_Status c = ConditionTrue) conds.

(** What a run of the loop amounts to: the infos [sent] and the conditions
    [reported], one for each info received. *)
Definition run_effect te (inputs : list RunInput) (condChan : option (list PodCondition)) te'
  (condChan' : option (list PodCondition)) : Prop :=
  ∃ sent reported,
    sent `sublist_of` received inputs ∧
    option_Forall2 same_content (current te')
      (foldl (λ old info, Some (publish te info old)) (current te) sent) ∧
    length reported = length (received inputs) ∧
    length (successes reported) = length sent ∧
    condChan' = if Oneshot (te_args te) then condChan else (λ l, l ++ reported) <$> condChan.

Lemma run_effect_nil te inputs condChan :
  received inputs = [] → run_effect te inputs condChan te condChan.
Proof.
  intros Hr. exists [], []. rewrite Hr. split_and!; [done| |done|done|].
  - apply option_Forall2_refl. apply _.
  - destruct (Oneshot _); [done|]. destruct condChan; simpl; [by rewrite app_nil_r|done].
Qed.

Lemma foldl_publish_setup te te1 sent old :
  same_updater te te1 →
  foldl (λ old info, Some (publish te1 info old)) old sent =
  foldl (λ old info, Some (publish te info old)) old sent.
Proof.
  intros Hset. revert old. induction sent as [|i sent IHs]; intros old; [done|]. simpl.
  by rewrite IHs, (publish_setup te te1 i old Hset).
Qed.

Lemma foldl_publish_proper te sent old1 old2 :
  option_Forall2 same_content old1 old2 →
  option_Forall2 same_content (foldl (λ old info, Some (publish te info old)) old1 sent)
                              (foldl (λ old info, Some (publish te info old)) old2 sent).
Proof.
  revert old1 old2. induction sent as [|i sent IHs]; intros old1 old2 Ho; simpl; [done|].
  apply IHs. constructor. by apply publish_proper.
Qed.

(** One more info in front. *)
Lemma run_effect_cons te te1 te' info elapsed now rest condChan cond condChan' (r : outcome unit) :
  same_updater te te1 →
  match r with
  | Ok _ => ∃ nrt, current te1 = Some nrt ∧ same_content nrt (publish te info (current te))
  | _ => current te1 = current te
  end →
  pc_Status cond = (if is_ok r then ConditionTrue else ConditionFalse) →
  run_effect te1 rest (if Oneshot (te_args te) then condChan else (λ l, l ++ [cond]) <$> condChan)
    te' condChan' →
  run_effect te (InfoReceived info elapsed now :: rest) condChan te' condChan'.
Proof.
  intros Hset Hr Hcond (sent & reported & Hsub & Hcur & Hlen & Hsucc & Hch).
  pose proof Hset as (Ha & _). rewrite (foldl_publish_setup te te1 sent _ Hset) in Hcur.
  exists (if is_ok r then info :: sent else sent), (cond :: reported). simpl. split_and!.
  - destruct (is_ok r); by constructor.
  - etrans; [exact Hcur|]. destruct r as [u|e|p]; simpl.
    + destruct Hr as (nrt & -> & Hsame). apply foldl_publish_proper. by constructor.
    + rewrite Hr. apply option_Forall2_refl, _.
    + rewrite Hr. apply option_Forall2_refl, _.
  - by rewrite Hlen.
  - unfold successes in *. rewrite filter_cons.
    assert (ConditionFalse ≠ ConditionTrue) by done.
    destruct (is_ok r); case_decide; simpl; congruence.
  - rewrite Hch, Ha. destruct (Oneshot (te_args te)); [done|]. destruct condChan; [|done]. simpl.
    by rewrite <-app_assoc.
Qed.

(** A new updater has sent nothing. *)
Lemma NewNRTUpdater_ok nodeGetter (cli : A) args tmconf te :
  NewNRTUpdater nodeGetter (Some cli) args tmconf = Ok te →
  updater_ok te ∧ te_args te = args ∧ te_tmConfig te = tmconf.
Proof.
  intros [= <-]. split; [|done]. constructor; simpl; [by intros prev|by destruct (PatchMode args)|done|lia].
Qed.

Lemma Run_spec te m condChan inputs te' m' condChan' b :
  int64_ok (PatchResync (te_args te)) → updater_ok te → NoPublish (te_args te) = false →
  Run te m condChan inputs = (te', m', condChan', Ok b) →
  updater_ok te' ∧ te_args te' = te_args te ∧ run_effect te inputs condChan te' condChan'.
Proof.
  revert te m condChan.
  induction inputs as [|[info elapsed now|] rest IH]; intros te m condChan Hres Hok Hnp; cbn [Run];
    [by intros [= <- <- <- <-]; split_and!; [..|apply run_effect_nil]| |
     by intros [= <- <- <- <-]; split_and!; [..|apply run_effect_nil]].
  destruct (Update te m info) as [[te1 m1] r] eqn:Hu.
  destruct (Update_spec te m info te1 m1 r Hres Hok Hnp Hu) as (Hset & Hok1 & Hr).
  pose proof Hset as (Ha & _). intros Hrun.
  destruct (SetCondition_sends NodeTopologyUpdated
    (if is_ok r then ConditionTrue else ConditionFalse) now) as (cond & _ & Hst & Hsend).
  assert (Run te1 (UpdateOperationDelayMetric "node_resource_object_update" RTEUpdateReactive
      (Z.quot elapsed 1000000) m1)
      (if Oneshot (te_args te) then condChan else (λ l, l ++ [cond]) <$> condChan) rest
      = (te', m', condChan', Ok b)) as Hrun'.
  { rewrite Hsend, Ha in Hrun. destruct r; [..|discriminate]; by destruct (Oneshot (te_args te)). }
  rewrite <-Ha in Hres, Hnp. destruct (IH _ _ _ Hres Hok1 Hnp Hrun') as (Hok' & Ha' & He).
  split_and!; [done|congruence|]. by eapply run_effect_cons.
Qed.


(** With publishing disabled the loop calls the API server never: the
    updater stays as it was, the client included, whatever arrives. *)
Theorem noPublish_silent te m condChan inputs
    (Hnp : NoPublish (te_args te) = true) :
  (Run te m condChan inputs).1.1.1 = te.
Proof.
  revert m condChan. induction inputs as [|[info elapsed now|] rest IH]; intros m condChan;
    cbn [Run]; [done| |done].
  unfold Update, sendData. rewrite Hnp. simpl. destruct (Oneshot (te_args te)); apply IH.
Qed.

(** C40: [Oneshot] does not end the loop: the [break] leaves the [select] and
    not the [for], so the loop ends only when it is stopped, and reports no
    condition at all. *)
Theorem oneshot_keeps_running te m condChan inputs te' m' condChan' b
    (Hres : int64_ok (PatchResync (te_args te))) (Hok : updater_ok te)
    (Hpub : NoPublish (te_args te) = false) (Honeshot : Oneshot (te_args te) = true)
    (Hrun : Run te m condChan inputs = (te', m', condChan', Ok b)) :
  condChan' = condChan ∧ (b = true ↔ StopReceived ∈ inputs).
Proof.
  pose proof (Run_spec _ _ _ _ _ _ _ _ Hres Hok Hpub Hrun) as (_ & _ & sent & reported & _ & _ & _ & _ & Hch).
  rewrite Honeshot in Hch. split; [done|]. clear Hres Hok Hpub Honeshot Hch.
  revert te m condChan Hrun.
  induction inputs as [|[info elapsed now|] rest IH]; intros te m condChan; cbn [Run].
  - intros [= <- <- <- <-]. by rewrite elem_of_nil.
  - destruct (Update te m info) as [[te1 m1] r]. rewrite elem_of_cons. intros Hrun.
    assert (b = true ↔ StopReceived ∈ rest) as ->
      by (destruct r; [..|discriminate]; destruct (Oneshot _); by eapply IH).
    split; [by right|by intros [?|?]].
  - intros [= <- <- <- <-]. split; [by constructor|done].
Qed.
End contents.

(** ** A concrete API server *)

(** Objects as text: any injective encoding will do for the examples. *)
#[global] Instance CostInfo_eq_dec : EqDecision CostInfo.
Proof. solve_decision. Defined.
#[global] Instance CostInfo_countable : Countable CostInfo.
Proof.
  apply (inj_countable' (λ c, (cost_Name c, cost_Value c))
    (λ '(a, b), {| cost_Name := a; cost_Value := b |})). by intros [].
Defined.
#[global] Instance ResourceInfo_eq_dec : EqDecision ResourceInfo.
Proof. solve_decision. Defined.
#[global] Instance ResourceInfo_countable : Countable ResourceInfo.
Proof.
  apply (inj_countable' (λ r, (ri_Name r, ri_Capacity r, ri_Allocatable r, ri_Available r))
    (λ '(a, b, c, d), {| ri_Name := a; ri_Capacity := b; ri_Allocatable := c; ri_Available := d |})).
  by intros [].
Defined.
#[global] Instance Zone_eq_dec : EqDecision Zone.
Proof. solve_decision. Defined.
#[global] Instance Zone_countable : Countable Zone.
Proof.
  apply (inj_countable' (λ z, (zone_Name z, zone_Type z, zone_Costs z, zone_Resources z))
    (λ '(a, b, c, d), {| zone_Name := a; zone_Type := b; zone_Costs := c; zone_Resources := d |})).
  by intros [].
Defined.
#[global] Instance AttributeInfo_eq_dec : EqDecision AttributeInfo.
Proof. solve_decision. Defined.
#[global] Instance AttributeInfo_countable : Countable AttributeInfo.
Proof.
  apply (inj_countable' (λ a, (attr_Name a, attr_Value a))
    (λ '(a, b), {| attr_Name := a; attr_Value := b |})). by intros [].
Defined.
#[global] Instance OwnerReference_eq_dec : EqDecision OwnerReference.
Proof. solve_decision. Defined.
#[global] Instance OwnerReference_countable : Countable OwnerReference.
Proof.
  apply (inj_countable' (λ o, (or_APIVersion o, or_Kind o, or_Name o, or_UID o))
    (λ '(a, b, c, d), {| or_APIVersion := a; or_Kind := b; or_Name := c; or_UID := d |})).
  by intros [].
Defined.
#[global] Instance NRT_eq_dec : EqDecision NodeResourceTopology.
Proof. solve_decision. Defined.
#[global] Instance NRT_countable : Countable NodeResourceTopology.
Proof.
  apply (inj_countable'
    (λ n, (nrt_Name n, nrt_ResourceVersion n, nrt_Annotations n, nrt_OwnerReferences n,
           nrt_TopologyPolicies n, nrt_Zones n, nrt_Attributes n))
    (λ '(a, b, c, d, e, f, g),
       {| nrt_Name := a; nrt_ResourceVersion := b; nrt_Annotations := c; nrt_OwnerReferences := d;
          nrt_TopologyPolicies := e; nrt_Zones := f; nrt_Attributes := g |})). by intros [].
Defined.

Fixpoint bits (p : positive) : string :=
  match p with
  | xH => ""
  | xO p => String "0"%char (bits p)
  | xI p => String "1"%char (bits p)
  end.

Fixpoint unbits (s : string) : positive :=
  match s with
  | "" => xH
  | String c s => if Ascii.eqb c "0"%char then xO (unbits s) else xI (unbits s)
  end.

Lemma unbits_bits p : unbits (bits p) = p.
Proof. induction p; simpl; congruence. Qed.

(** A patch is the encoding of the new object. *)
Definition example_json : JSONLib := {|
  json_Marshal nrt := Ok (bits (encode nrt));
  CreateThreeWayJSONMergePatch _ modified _ := Ok modified |}.

(** A store of objects whose next writes fail as scheduled. *)
Record MapServer := {
  ms_objects : gmap string NodeResourceTopology;
  ms_version : Z;
  ms_failures : list bool
}.

Definition ms_missing : error := Errorf "not found".

Definition ms_write (name : string) (nrt : NodeResourceTopology) (a : MapServer)
  : MapServer * outcome NodeResourceTopology :=
  match ms_failures a with
  | true :: rest =>
      ({| ms_objects := ms_objects a; ms_version := ms_version a; ms_failures := rest |},
       Err (Errorf "conflict"))
  | l =>
      let nrt' := {| nrt_Name := nrt_Name nrt; nrt_ResourceVersion := ms_version a;
                     nrt_Annotations := nrt_Annotations nrt;
                     nrt_OwnerReferences := nrt_OwnerReferences nrt;
                     nrt_TopologyPolicies := nrt_TopologyPolicies nrt;
                     nrt_Zones := nrt_Zones nrt; nrt_Attributes := nrt_Attributes nrt |} in
      ({| ms_objects := <[name := nrt']> (ms_objects a); ms_version := ms_version a + 1;
          ms_failures := tail l |}, Ok nrt')
  end.

#[global] Instance MapServer_client : NRTClient MapServer := {|
  api_Get name a :=
    (a, match ms_objects a !! name with
        | Some nrt => if bool_decide (nrt_Name nrt = name) then Ok nrt else Err (Errorf "corrupted")
        | None => Err ms_missing
        end);
  api_Create nrt a := ms_write (nrt_Name nrt) nrt a;
  api_Update nrt a := ms_write (nrt_Name nrt) nrt a;
  api_Patch name patch a :=
    match ms_objects a !! name, decode (unbits patch) with
    | Some _, Some new => ms_write name new a
    | _, _ => (a, Err ms_missing)
    end;
  IsNotFound e := bool_decide (e = ms_missing) |}.

Lemma ms_write_law name nrt a a' r :
  ms_write name nrt a = (a', r) →
  match r with
  | Ok nrt' => ms_objects a' = <[name := nrt']> (ms_objects a) ∧ same_content nrt' nrt
  | _ => ms_objects a' = ms_objects a
  end.
Proof. unfold ms_write. destruct (ms_failures a) as [|[] l]; by intros [= <- <-]. Qed.

#[global] Instance MapServer_server : @NRTServer MapServer _ example_json.
Proof.
  refine (@Build_NRTServer MapServer _ example_json ms_objects (λ patch _, decode (unbits patch))
            _ _ _ _ _).
  - intros name a a' r [= <- <-]. split; [done|].
    destruct (ms_objects a !! name) as [nrt|] eqn:Hl; [|done].
    by case_bool_decide.
  - intros nrt a a' r. apply ms_write_law.
  - intros nrt a a' r. apply ms_write_law.
  - intros name patch a a' r. simpl.
    destruct (ms_objects a !! name) as [old|] eqn:Hl; [|by intros [= <- <-]].
    destruct (decode (unbits patch)) as [new|]; [|by intros [= <- <-]].
    intros Hw. apply ms_write_law in Hw. destruct r; [|done..]. destruct Hw as [? ?].
    by exists old, new.
  - intros old new jold jnew patch _ [= <-] [= <-] _. by rewrite unbits_bits, decode_encode.
Defined.

(** ** Runs *)

#[local] Existing Instances canonical_order example_json.

Definition example_updater_args (patchMode oneshot noPublish : bool) : UpdaterArgs :=
  {| NoPublish := noPublish; Oneshot := oneshot; Hostname := "node1"; KubeConfig := "";
     PatchMode := patchMode; PatchResync := 2 |}.

Definition example_info (timer : bool) (n : Z) : MonitorInfo := {|
  mi_Timer := timer;
  mi_Zones := [{| zone_Name := "node-0"; zone_Type := "Node"; zone_Costs := [];
                  zone_Resources := [{| ri_Name := "cpu"; ri_Capacity := 4; ri_Allocatable := 4;
                                        ri_Available := n |}] |}];
  mi_Attributes := []; mi_Annotations := Some {[ "fingerprint" := pretty n ]} |}.

(** The second write fails, which the updater answers with a full update. *)
Definition example_api : MapServer :=
  {| ms_objects := ∅; ms_version := 1; ms_failures := [false; true; false] |}.

Definition example_updater (args : UpdaterArgs) : NRTUpdater MapServer :=
  Build_NRTUpdater args {| tm_Policy := "single-numa-node"; tm_Scope := "pod" |}
    (NodeGetter.CachedNodeGetter {[ "node1" := {| NodeGetter.Name := "node1"; NodeGetter.UID := "u1" |} ]})
    example_api (if PatchMode args then SendObjectPatch else SendObjectUpdate) None 0.

Definition example_run_inputs : list RunInput :=
  [InfoReceived (example_info false 4) 1000000 10; InfoReceived (example_info true 3) 1000000 20;
   InfoReceived (example_info true 2) 1000000 30].

Lemma example_updater_ok args : 0 < PatchResync args → updater_ok (example_updater args).
Proof. intros Hp. constructor; simpl; [done|by destruct (PatchMode args)|done|lia]. Qed.

Lemma Update_refines_witness :
  let te := example_updater (example_updater_args true false false) in
  ∃ nrt, current (Update te empty_registry (example_info false 4)).1.1 = Some nrt ∧
         same_content nrt (publish te (example_info false 4) None).
Proof.
  intros te.
  destruct (Update_refines te empty_registry (example_info false 4)
    (Update te empty_registry (example_info false 4)).1.1
    (Update te empty_registry (example_info false 4)).1.2 (Ok ())) as [_ Hn];
    [split; vm_compute; discriminate|by apply example_updater_ok|reflexivity|reflexivity|exact Hn].
Defined.

Definition example_run (args : UpdaterArgs) :=
  Run (example_updater args) empty_registry (Some []) example_run_inputs.

(** In patch mode: created, then patched; the failed patch is followed by an
    update, so the last patch counts one. *)
Example example_run_patch_count :
  te_patchCount (example_run (example_updater_args true false false)).1.1.1 = 1.
Proof. vm_compute. reflexivity. Qed.


Lemma noPublish_silent_witness :
  (example_run (example_updater_args true false true)).1.1.1
  = example_updater (example_updater_args true false true).
Proof. apply noPublish_silent. reflexivity. Defined.

Lemma oneshot_keeps_running_witness :
  (example_run (example_updater_args false true false)).1.2 = Some [] ∧
  (false = true ↔ StopReceived ∈ example_run_inputs).
Proof.
  destruct (example_run (example_updater_args false true false)) as [[[te' m'] cc] o] eqn:Hrun.
  assert (o = Ok false) as -> by (apply (f_equal snd) in Hrun; vm_compute in Hrun; congruence).
  eapply (oneshot_keeps_running (example_updater (example_updater_args false true false)));
    [split; vm_compute; discriminate|by apply example_updater_ok|reflexivity|reflexivity|exact Hrun].
Defined.
