(* ===== verification/Observer.v ===== *)
(** * The observer, and the exporter as a whole

    Models [pkg/resourcetopologyexporter/resourceobserver.go] (the loop that
    turns wake-ups into scans and scans into infos for the updater) and, of
    [pkg/resourcetopologyexporter/resourcetopologyexporter.go], the choice of
    the Topology Manager settings and the wiring of the parts. *)

From S2P Require Import Prelude GoStrings GoTime PodRes Counters SysInfo Metrics Events.
From S2P Require Import ResourceMonitor MonitorProps MonitorRefresh PodReadiness NRTUpdater UpdaterProps.

(** ** The interface the observer scans through *)

Class ResourceMonitorIf `{PodFingerprintLib} (R : Type) := {
  mon_Scan : R → World → gmap string (list string) →
             World * R * outcome (ScanResponse * option error)
}.

#[global] Instance resourceMonitor_if `{MapOrder} `{PodFingerprintLib} {C} `{PodResourcesListerClient C} :
  ResourceMonitorIf (resourceMonitor C) := {| mon_Scan := Scan |}.

(** ** The observer *)

Record ResourceObserver (R : Type) := {
  ro_resMon : R;
  ro_resourceExclude : gmap string (list string);
  ro_exposeTiming : bool
}.
Arguments ro_resMon {R}.
Arguments ro_resourceExclude {R}.
Arguments ro_exposeTiming {R}.

(** The state of the loop: the observer, the last wake-up, the metrics, the
    infos sent to the updater and the conditions sent so far. *)
Record ObserverState `{PodFingerprintLib} (R : Type) := {
  obs : ResourceObserver R;
  obs_lastWakeup : Z;
  obs_world : World;
  obs_infos : list MonitorInfo;
  obs_condChan : option (list PodCondition)
}.
Arguments obs {_ R}.
Arguments obs_lastWakeup {_ R}.
Arguments obs_world {_ R}.
Arguments obs_infos {_ R}.
Arguments obs_condChan {_ R}.
Arguments Build_ObserverState {_ R}.

Section observer.
Context `{PodFingerprintLib} {R : Type} `{!ResourceMonitorIf R}.
Implicit Types st : ObserverState R.

Definition NewResourceObserver (resMon : outcome R) (args : Args) : outcome (ResourceObserver R) :=
  match resMon with
  | Ok rm => Ok {| ro_resMon := rm; ro_resourceExclude := args_ResourceExclude args;
                   ro_exposeTiming := ExposeTiming args |}
  | Err err => Err (Wrapf "failed to initialize ResourceMonitor" err)
  | Panic p => Panic p
  end.

Definition set_resMon (o : ResourceObserver R) (rm : R) : ResourceObserver R :=
  {| ro_resMon := rm; ro_resourceExclude := ro_resourceExclude o;
     ro_exposeTiming := ro_exposeTiming o |}.

(** The annotations of the info: writing the timings to a nil map panics. *)
Definition timingAnnotations (expose : bool) (annotations : option (gmap string string))
  (tsWakeupDiff timerInterval : Z) : outcome (option (gmap string string)) :=
  if expose then
    match annotations with
    | None => Panic "assignment to entry in nil map"
    | Some a =>
        Ok (Some (<[UpdateInterval := Duration_String (clampTime timerInterval)]>
                  (<[SleepDuration := Duration_String (clampTime (Round tsWakeupDiff Second))]> a)))
    end
  else Ok annotations.

(** From the wake-up to the info: the metrics, the monitor and the info, which
    is [None] when the scan failed. *)
Definition scanEvent (o : ResourceObserver R) (lastWakeup : Z) (w : World) (ev : Event)
  : World * R * outcome (option MonitorInfo) :=
  let reason := if IsTimer ev then RTEUpdatePeriodic else RTEUpdateReactive in
  let tsWakeupDiff := Sub (ev_Timestamp ev) lastWakeup in
  let w := with_metrics (UpdateWakeupDelayMetric reason (Milliseconds tsWakeupDiff)) w in
  let '(w, rm, r) := mon_Scan (ro_resMon o) w (ro_resourceExclude o) in
  (w, rm,
   let! (scanRes, err) := r in
   let! annotations := timingAnnotations (ro_exposeTiming o) (sr_Annotations scanRes)
     tsWakeupDiff (ev_TimerInterval ev) in
   Ok (match err with
       | Some _ => None
       | None => Some {| mi_Timer := IsTimer ev; mi_Zones := sr_Zones scanRes;
                         mi_Attributes := sr_Attributes scanRes; mi_Annotations := annotations |}
       end)).

(** The delay of a scan, recorded once its info was handed over. *)
Definition recordScan (info : MonitorInfo) (elapsed : Z) (w : World) : World :=
  with_metrics (UpdateOperationDelayMetric "podresources_scan" (UpdateReason info) (Milliseconds elapsed)) w.

(** The handling of one event; [elapsed] is how long the scan took and [now]
    stamps the condition. *)
Definition observe st (ev : Event) (elapsed now : Z) : ObserverState R * outcome unit :=
  let '(w, rm, r) := scanEvent (obs st) (obs_lastWakeup st) (obs_world st) ev in
  let st' w infos condChan :=
    Build_ObserverState (set_resMon (obs st) rm) (ev_Timestamp ev) w infos condChan in
  match r with
  | Panic p => (st' w (obs_infos st) (obs_condChan st), Panic p)
  | Err e => (st' w (obs_infos st) (obs_condChan st), Err e)
  | Ok None =>
      (st' w (obs_infos st)
         (SetCondition (obs_condChan st) PodresourcesFetched ConditionFalse now), Ok ())
  | Ok (Some monInfo) =>
      (st' (recordScan monInfo elapsed w) (obs_infos st ++ [monInfo])
         (SetCondition (obs_condChan st) PodresourcesFetched ConditionTrue now), Ok ())
  end.

Inductive ObserverInput :=
| EventReceived (ev : Event) (elapsed now : Z)
| StopObserver.

Fixpoint ObserverRun st (inputs : list ObserverInput) : ObserverState R * outcome bool :=
  match inputs with
  | [] => (st, Ok false)
  | StopObserver :: _ => (st, Ok true)
  | EventReceived ev elapsed now :: rest =>
      let '(st, r) := observe st ev elapsed now in
      match r with
      | Ok _ => ObserverRun st rest
      | Err e => (st, Err e)
      | Panic p => (st, Panic p)
      end
  end.
End observer.
#[global] Arguments ObserverInput : clear implicits.

(** ** The Topology Manager settings *)

(** [klConfig] is the kubelet's configuration, as read from its file. *)
Definition getTopologyManagerSettings (policy scope kubeletConfigFile : string)
  (klConfig : string → outcome TMConfig) : outcome TMConfig :=
  if negb (bool_decide (policy = "")) && negb (bool_decide (scope = ""))
  then Ok {| tm_Policy := policy; tm_Scope := scope |}
  else if negb (bool_decide (kubeletConfigFile = "")) then
    match klConfig kubeletConfigFile with
    | Ok conf => Ok {| tm_Policy := tm_Policy conf; tm_Scope := tm_Scope conf |}
    | Err err => Err (Wrapf "error getting topology Manager Policy" err)
    | Panic p => Panic p
    end
  else Err (Errorf "cannot find the kubelet Topology Manager policy").

(** ** Facts *)

Section observer_facts.
Context `{MapOrder} `{PodFingerprintLib} {C : Type} `{PodResourcesListerClient C}.
Implicit Types st : ObserverState (resourceMonitor C).

(** An info made from a successful scan of a monitor with the setup of [rm]. *)
Definition info_of_scan (rm : resourceMonitor C) (ex : gmap string (list string)) (info : MonitorInfo) : Prop :=
  ∃ rm1 w w' rm2 resp, same_setup rm rm1 ∧
    Scan rm1 w ex = (w', rm2, Ok (resp, None)) ∧
    mi_Zones info = sr_Zones resp ∧ mi_Attributes info = sr_Attributes resp.

Lemma Scan_setup (rm : resourceMonitor C) w ex w' rm' r :
  Scan rm w ex = (w', rm', r) → same_setup rm rm'.
Proof.
  unfold Scan. destruct (cli_List _) as [c [resp|e|p]]; [|by intros [= <- <- <-]..].
  destruct (if PodSetFingerprint _ then _ else _) as [[??]?].
  by intros [= <- <- <-].
Qed.

Lemma same_setup_trans (a b c : resourceMonitor C) : same_setup a b → same_setup b c → same_setup a c.
Proof. intros (? & ? & ? & ?) (? & ? & ? & ?). split_and!; congruence. Qed.

Lemma scanEvent_info o last w ev w' rm' r :
  scanEvent o last w ev = (w', rm', r) →
  same_setup (ro_resMon o) rm' ∧
  ∀ info, r = Ok (Some info) → info_of_scan (ro_resMon o) (ro_resourceExclude o) info.
Proof.
  unfold scanEvent, mon_Scan, resourceMonitor_if. destruct (Scan _ _ _) as [[w1 rm] o1] eqn:Hs.
  intros [= <- <- <-]. split; [by eapply Scan_setup|]. intros info.
  destruct o1 as [[resp err]|e|p]; [|done..]. simpl.
  destruct (timingAnnotations _ _ _ _) as [ann|e|p]; [|done..]. simpl.
  destruct err as [e|]; [done|]. intros [= <-]. do 5 eexists. split_and!; [|exact Hs|done|done].
  by split_and!.
Qed.

(** One event appends at most one info, and that one comes from a scan. *)
Lemma observe_infos st ev elapsed now st' r :
  observe st ev elapsed now = (st', r) →
  same_setup (ro_resMon (obs st)) (ro_resMon (obs st')) ∧
  ro_resourceExclude (obs st') = ro_resourceExclude (obs st) ∧
  ∃ new, obs_infos st' = obs_infos st ++ new ∧
         Forall (info_of_scan (ro_resMon (obs st)) (ro_resourceExclude (obs st))) new.
Proof.
  unfold observe. destruct (scanEvent _ _ _ _) as [[w rm] o] eqn:Hs.
  apply scanEvent_info in Hs as [Hset Hinfo].
  destruct o as [[info|]|e|p]; intros [= <- <-]; simpl; (split; [done|]); (split; [done|]);
    [exists [info]; split; [done|]; by constructor; [apply Hinfo|]|exists []; by rewrite app_nil_r..].
Qed.

Lemma info_of_scan_setup rm rm' ex info :
  same_setup rm rm' → info_of_scan rm' ex info → info_of_scan rm ex info.
Proof.
  intros Hs (rm1 & w & w' & rm2 & resp & Hs1 & ?). exists rm1, w, w', rm2, resp.
  split; [by eapply same_setup_trans|done].
Qed.

Lemma ObserverRun_infos st inputs st' r :
  ObserverRun st inputs = (st', r) →
  ∃ new, obs_infos st' = obs_infos st ++ new ∧
         Forall (info_of_scan (ro_resMon (obs st)) (ro_resourceExclude (obs st))) new.
Proof.
  revert st. induction inputs as [|[ev elapsed now|] rest IH]; intros st; simpl;
    [by intros [= <- <-]; exists []; rewrite app_nil_r| |
     by intros [= <- <-]; exists []; rewrite app_nil_r].
  destruct (observe st ev elapsed now) as [st1 r1] eqn:Ho.
  apply observe_infos in Ho as (Hset & Hex & new1 & Hi1 & Hf1).
  destruct r1 as [u|e|p]; [|by intros [= <- <-]; exists new1..].
  intros Hrun. destruct (IH _ Hrun) as (new2 & Hi2 & Hf2). exists (new1 ++ new2).
  rewrite Hi2, Hi1, app_assoc. split; [done|]. apply Forall_app. split; [done|].
  rewrite Hex in Hf2. eapply Forall_impl; [exact Hf2|]. intros info. by apply info_of_scan_setup.
Qed.
End observer_facts.

(** ** Theorems *)

Section observe_spec.
Context `{PodFingerprintLib} {R : Type} `{!ResourceMonitorIf R}.
Implicit Types st : ObserverState R.

(** The metrics as the scan finds them: the wake-up is recorded first. *)
Definition wakeup_world st (ev : Event) : World :=
  with_metrics (UpdateWakeupDelayMetric (if IsTimer ev then RTEUpdatePeriodic else RTEUpdateReactive)
                  (Milliseconds (Sub (ev_Timestamp ev) (obs_lastWakeup st)))) (obs_world st).

End observe_spec.

Section whole.
Context `{MapOrder} `{PodFingerprintLib} {C : Type} `{PodResourcesListerClient C}.
Context {A : Type} `{NRTServer A}.

(** Exposing the timings makes a failed scan fatal: the monitor returns a
    nil map of annotations with its error, and the observer writes the
    timings to it before it looks at the error. *)
Theorem observe_timing_panic (st : ObserverState (resourceMonitor C)) ev elapsed now c e
    (Hexpose : ro_exposeTiming (obs st) = true)
    (Hlist : cli_List (rm_podResCli (ro_resMon (obs st))) = (c, Err e)) :
  ∃ p, (observe st ev elapsed now).2 = Panic p.
Proof.
  unfold observe, scanEvent, mon_Scan, resourceMonitor_if, Scan. rewrite Hlist. simpl.
  unfold timingAnnotations. rewrite Hexpose. by eexists.
Qed.

(** The infos as the updater receives them, with the time each update takes
    and the time it ends. *)
Definition deliver (infos : list MonitorInfo) (times : nat → Z * Z) : list RunInput :=
  imap (λ i info, InfoReceived info (times i).1 (times i).2) infos.

Lemma received_deliver infos times : received (deliver infos times) = infos.
Proof.
  unfold deliver. revert times. induction infos as [|info infos IH]; intros times; [done|].
  rewrite imap_cons. simpl. f_equal. apply (IH (λ i, times (S i))).
Qed.

(** An object with the content published from a scan. *)
Lemma published_scan (rm : resourceMonitor C) excl info (te : NRTUpdater A) old nrt :
  info_of_scan rm excl info → same_content nrt (publish te info old) →
  nrt_Zones nrt = mi_Zones info ∧
  length (nrt_Zones nrt) = length (topo_Nodes (rm_topo rm)) ∧
  (∀ i zone, nrt_Zones nrt !! i = Some zone → zone_Name zone = makeZoneName (Z.of_nat i)) ∧
  {| attr_Name := "topologyManagerScope"; attr_Value := tm_Scope (te_tmConfig te) |} ∈ nrt_Attributes nrt ∧
  {| attr_Name := "topologyManagerPolicy"; attr_Value := tm_Policy (te_tmConfig te) |} ∈ nrt_Attributes nrt.
Proof.
  intros (rm1 & w & w' & rm2 & resp & Hset & Hscan & Hzones & _) (_ & _ & _ & _ & Hz & Hat).
  rewrite publish_zones in Hz. rewrite publish_attributes in Hat.
  apply Scan_Ok in Hscan as (c & r & _ & _ & _ & Hzs). destruct Hset as (_ & _ & Htopo & _).
  rewrite Hz, Hat, Hzones, Hzs, Htopo. split_and!; [done|by rewrite length_imap| |set_solver..].
  intros i zone Hl. rewrite <-Htopo in Hl. apply lookup_scan_zone in Hl as [_ ->]. done.
Qed.

(** End to end: run the observer over any wake-ups, hand its infos to a new
    updater over a NodeResourceTopology server nobody else writes to, in
    patch or update mode; if every update was reported as successful, the
    server ends up with the zones of the last successful scan: one zone per
    NUMA node of the machine, named "node-0", "node-1", ..., with the Topology
    Manager's scope and policy among the attributes. *)
Theorem exporter_publishes (st : ObserverState (resourceMonitor C)) obsInputs st' b
    nodeGetter (cli : A) args tmconf te m times te' m' conds b' info
    (Hobs : ObserverRun st obsInputs = (st', Ok b)) (Hfresh : obs_infos st = [])
    (Hres : int64_ok (PatchResync args)) (Hpub : NoPublish args = false)
    (Honeshot : Oneshot args = false)
    (Hnew : NewNRTUpdater nodeGetter (Some cli) args tmconf = Ok te)
    (Hrun : Run te m (Some []) (deliver (obs_infos st') times) = (te', m', Some conds, Ok b'))
    (Hconds : Forall (λ c, pc_Status c = ConditionTrue) conds)
    (Hlast : last (obs_infos st') = Some info) :
  ∃ nrt, objects (te_nrtCli te') !! Hostname args = Some nrt ∧
    nrt_Zones nrt = mi_Zones info ∧
    info_of_scan (ro_resMon (obs st)) (ro_resourceExclude (obs st)) info ∧
    length (nrt_Zones nrt) = length (topo_Nodes (rm_topo (ro_resMon (obs st)))) ∧
    (∀ i zone, nrt_Zones nrt !! i = Some zone → zone_Name zone = makeZoneName (Z.of_nat i)) ∧
    {| attr_Name := "topologyManagerScope"; attr_Value := tm_Scope tmconf |} ∈ nrt_Attributes nrt ∧
    {| attr_Name := "topologyManagerPolicy"; attr_Value := tm_Policy tmconf |} ∈ nrt_Attributes nrt.
Proof.
  destruct (NewNRTUpdater_ok _ _ _ _ _ Hnew) as [Hok0 _]. injection Hnew as <-.
  apply Run_spec in Hrun as (_ & Ha & sent & reported & Hsub & Hcur & Hlen & Hsucc & Hch); [|done..].
  simpl in Ha, Hch. rewrite Honeshot in Hch. injection Hch as ->.
  rewrite received_deliver in Hsub, Hlen.
  assert (sent = obs_infos st') as ->.
  { apply sublist_full; [done|]. rewrite <-Hlen, <-Hsucc. unfold successes.
    by rewrite filter_all. }
  apply last_Some in Hlast as [infos Hinfos].
  rewrite Hinfos, foldl_app in Hcur. simpl in Hcur. unfold current in Hcur. rewrite Ha in Hcur.
  inversion Hcur as [nrt obj Hsame Hnrt Hobj|]; subst. exists nrt. split; [done|].
  apply ObserverRun_infos in Hobs as (new & Hi & Hf). rewrite Hfresh in Hi. simpl in Hi.
  rewrite Hinfos in Hi. subst new. apply Forall_app in Hf as [_ Hf]. apply Forall_inv in Hf.
  destruct (published_scan _ _ _ _ _ _ Hf Hsame) as (? & ? & ? & ? & ?). by split_and!.
Qed.
End whole.

(** ** A run of the exporter *)

#[local] Existing Instances canonical_order example_pfp example_json.

(** The kubelet answers twice, then fails. *)
Definition example_kubelet : MockClient :=
  {| mock_lists := [Ok {| lr_PodResources := example_running |}; Ok {| lr_PodResources := [] |}];
     mock_allocs := []; mock_gets := [] |}.

Definition example_observer (cli : MockClient) (expose : bool) : ObserverState (resourceMonitor MockClient) :=
  Build_ObserverState {| ro_resMon := example_ready cli; ro_resourceExclude := ∅; ro_exposeTiming := expose |}
    0 example_world [] (Some []).

Definition example_wakeups : list ObserverInput :=
  [EventReceived {| ev_Timestamp := 1500000000; ev_TimerInterval := 0 |} 1000000 1600000000;
   EventReceived {| ev_Timestamp := 60000000000; ev_TimerInterval := 58500000000 |} 1000000 61000000000].

Definition example_observed : ObserverState (resourceMonitor MockClient) :=
  (ObserverRun (example_observer example_kubelet true) example_wakeups).1.

Definition first_wakeup : Event := {| ev_Timestamp := 1500000000; ev_TimerInterval := 0 |}.

Definition example_first_scan :=
  mon_Scan (example_ready example_kubelet)
    (wakeup_world (example_observer example_kubelet true) first_wakeup) ∅.

Definition example_first_response : ScanResponse :=
  match example_first_scan.2 with Ok (resp, _) => resp | _ => emptyScanResponse end.

Lemma example_first_scan_Ok :
  example_first_scan = (example_first_scan.1.1, example_first_scan.1.2, Ok (example_first_response, None)).
Proof.
  assert (match example_first_scan.2 with Ok (_, None) => true | _ => false end = true) as Hok
    by (vm_compute; reflexivity).
  unfold example_first_response. destruct example_first_scan as [[w rm] [[resp [e|]]|e|p]]; done.
Qed.


Lemma observe_timing_panic_witness :
  ∃ p, (observe (example_observer example_broken_client true) first_wakeup 0 0).2 = Panic p.
Proof. eapply observe_timing_panic; reflexivity. Defined.

Definition example_delivered : list RunInput :=
  deliver (obs_infos example_observed) (λ i, (1000000, 70000000000 + Z.of_nat i)).

Definition example_published :=
  Run (example_updater (example_updater_args true false false)) empty_registry (Some []) example_delivered.

Lemma example_observed_Ok :
  ObserverRun (example_observer example_kubelet true) example_wakeups = (example_observed, Ok false).
Proof.
  assert ((ObserverRun (example_observer example_kubelet true) example_wakeups).2 = Ok false) as <-
    by (vm_compute; reflexivity).
  apply surjective_pairing.
Qed.

Definition example_last_info : MonitorInfo :=
  default (example_info false 0) (last (obs_infos example_observed)).

Lemma example_last_info_eq : last (obs_infos example_observed) = Some example_last_info.
Proof.
  unfold example_last_info.
  assert (bool_decide (is_Some (last (obs_infos example_observed))) = true) as Hs
    by (vm_compute; reflexivity).
  apply bool_decide_eq_true in Hs as [info ->]. reflexivity.
Qed.

(** The first write succeeds, the second fails as a patch and goes through as
    an update. *)
Lemma exporter_publishes_example :
  ∃ nrt, objects (te_nrtCli example_published.1.1.1) !! "node1" = Some nrt ∧
         nrt_Zones nrt = mi_Zones example_last_info ∧ length (nrt_Zones nrt) = 2%nat.
Proof.
  destruct (example_published) as [[[te' m'] cc] o] eqn:Hrun.
  pose proof (f_equal (λ x, pc_Status <$> default [] x.1.2) Hrun) as Hcc. vm_compute in Hcc.
  pose proof (f_equal (λ x, bool_decide (is_Some x.1.2)) Hrun) as Hsome. vm_compute in Hsome.
  pose proof (f_equal (λ x, x.2) Hrun) as Ho. vm_compute in Ho. subst o. simpl in *.
  destruct cc as [conds|]; [|discriminate].
  destruct (exporter_publishes (example_observer example_kubelet true) example_wakeups
      example_observed false (te_nodeGetter (example_updater (example_updater_args true false false)))
      example_api (example_updater_args true false false)
      {| tm_Policy := "single-numa-node"; tm_Scope := "pod" |}
      (example_updater (example_updater_args true false false)) empty_registry
      (λ i, (1000000, 70000000000 + Z.of_nat i)) te' m' conds false example_last_info
      example_observed_Ok eq_refl) as (nrt & Hn & Hz & _ & Hlen & _);
    [|reflexivity|reflexivity|reflexivity|exact Hrun| |exact example_last_info_eq|].
  - split; vm_compute; discriminate.
  - destruct conds as [|c1 [|c2 [|]]]; try discriminate Hcc. simpl in Hcc. injection Hcc as H1 H2.
    by repeat constructor.
  - exists nrt. split; [exact Hn|]. split; [exact Hz|exact Hlen].
Defined.
