(* ===== verification/GoFlag.v ===== *)
(** * Go's [flag] package and the values it parses

    [strconv.ParseBool], [strconv.ParseInt] with base 0, [time.ParseDuration]
    and the command line parser [FlagSet.Parse], as the command line of the
    exporter uses them: the errors of the parser end the process
    ([flag.ExitOnError]), so only their exit status is kept. *)

From Stdlib Require Import Ascii SpecFloat.
From S2P Require Import Prelude GoStrings GoTime Metrics.

(** ** Values *)

Definition ParseBool (s : string) : option bool :=
  if bool_decide (s ∈ ["1"; "t"; "T"; "true"; "TRUE"; "True"]) then Some true
  else if bool_decide (s ∈ ["0"; "f"; "F"; "false"; "FALSE"; "False"]) then Some false
  else None.

(** The value of a digit in bases up to 36. *)
Definition any_digit_val (c : ascii) : option Z :=
  match digit_val c with
  | Some d => Some d
  | None =>
      let k := Z.of_N (N_of_ascii (lower_ascii c)) - 97 in
      if (0 <=? k) && (k <=? 25) then Some (k + 10) else None
  end.

(** The base named by the prefix of a number, and what follows it. *)
Definition base_prefix (s : string) : Z * string :=
  match s with
  | String "0" (String c ((String _ _) as rest)) =>
      if Ascii.eqb (lower_ascii c) "b" then (2, rest)
      else if Ascii.eqb (lower_ascii c) "o" then (8, rest)
      else if Ascii.eqb (lower_ascii c) "x" then (16, rest)
      else (8, String c rest)
  | String "0" rest => (8, rest)
  | _ => (10, s)
  end.

(** The digits of a number, underscores skipped. *)
Fixpoint digits_val (base : Z) (s : string) (n : Z) : option Z :=
  match s with
  | "" => Some n
  | String c s' =>
      if Ascii.eqb c "_" then digits_val base s' n
      else
        match any_digit_val c with
        | None => None
        | Some d => if base <=? d then None else digits_val base s' (n * base + d)
        end
  end.

(** What was read last: nothing yet, a digit or base prefix, an underscore,
    something else. *)
Inductive saw := SawStart | SawDigit | SawUnderscore | SawOther.

Fixpoint underscores_ok (hex : bool) (s : string) (i : saw) : bool :=
  match s with
  | "" => match i with SawUnderscore => false | _ => true end
  | String c s' =>
      let isDigit :=
        match any_digit_val c with Some d => (d <=? 9) || (hex && (d <=? 15)) | None => false end in
      if isDigit then underscores_ok hex s' SawDigit
      else if Ascii.eqb c "_" then
        match i with SawDigit => underscores_ok hex s' SawUnderscore | _ => false end
      else match i with SawUnderscore => false | _ => underscores_ok hex s' SawOther end
  end.

Definition underscoreOK (s : string) : bool :=
  match s with
  | String "0" (String c rest) =>
      if Ascii.eqb (lower_ascii c) "x" then underscores_ok true rest SawDigit
      else if Ascii.eqb (lower_ascii c) "b" || Ascii.eqb (lower_ascii c) "o"
      then underscores_ok false rest SawDigit
      else underscores_ok false s SawStart
  | _ => underscores_ok false s SawStart
  end.

(** [strconv.ParseInt(s, 0, 64)]; [None] for both of its errors. *)
Definition ParseInt0 (s : string) : option Z :=
  let '(neg, body) :=
    match s with
    | String "+" rest => (false, rest)
    | String "-" rest => (true, rest)
    | _ => (false, s)
    end in
  if bool_decide (body = "") then None
  else
    let '(base, digits) := base_prefix body in
    match digits_val base digits 0 with
    | None => None
    | Some un =>
        if negb (underscoreOK body) then None
        else if neg then (if 2 ^ 63 <? un then None else Some (- un))
        else if 2 ^ 63 <=? un then None else Some un
    end.

(** *** [time.ParseDuration] *)

(** [leadingInt]: [None] on overflow. *)
Fixpoint leadingInt (s : string) (x : Z) : option (Z * string) :=
  match s with
  | "" => Some (x, "")
  | String c s' =>
      match digit_val c with
      | None => Some (x, s)
      | Some d =>
          if 2 ^ 63 / 10 <? x then None
          else let x := x * 10 + d in if 2 ^ 63 <? x then None else leadingInt s' x
      end
  end.

Definition float64_mul (x y : spec_float) : spec_float := SFmul 53 1024 x y.

(** Truncation towards zero of a finite number. *)
Definition float64_trunc (f : spec_float) : Z :=
  match f with
  | S754_finite s m e =>
      let a := if 0 <=? e then Z.pos m * 2 ^ e else Z.pos m / 2 ^ (- e) in if s then - a else a
  | _ => 0
  end.

Fixpoint leadingFraction (s : string) (x : Z) (scale : spec_float) (overflow : bool)
  : Z * spec_float * string :=
  match s with
  | "" => (x, scale, "")
  | String c s' =>
      match digit_val c with
      | None => (x, scale, s)
      | Some d =>
          if overflow then leadingFraction s' x scale true
          else if (2 ^ 63 - 1) / 10 <? x then leadingFraction s' x scale true
          else
            let y := x * 10 + d in
            if 2 ^ 63 <? y then leadingFraction s' x scale true
            else leadingFraction s' y (float64_mul scale (float64 10)) false
      end
  end.

Definition number_char (c : ascii) : bool := Ascii.eqb c "." || is_digit c.

(** The characters up to the next number. *)
Fixpoint cut_unit (s : string) : string * string :=
  match s with
  | "" => ("", "")
  | String c s' => if number_char c then ("", s)
                   else let '(u, rest) := cut_unit s' in (String c u, rest)
  end.

(** The Greek letter mu, the other spelling of [micro]. *)
Definition mu : string := String (ascii_of_N 206) (String (ascii_of_N 188) "").

Definition unitMap (u : string) : option Z :=
  if bool_decide (u = "ns") then Some Nanosecond
  else if bool_decide (u = "us") || bool_decide (u = micro +:+ "s") || bool_decide (u = mu +:+ "s")
  then Some Microsecond
  else if bool_decide (u = "ms") then Some Millisecond
  else if bool_decide (u = "s") then Some Second
  else if bool_decide (u = "m") then Some (60 * Second)
  else if bool_decide (u = "h") then Some (3600 * Second)
  else None.

(** One number with its unit: the value and what is left. *)
Definition parse_term (s : string) : option (Z * string) :=
  match s with
  | "" => None
  | String c _ =>
      if negb (number_char c) then None
      else
        match leadingInt s 0 with
        | None => None
        | Some (v, s1) =>
            let pre := negb (String.length s1 =? String.length s)%nat in
            let '(f, scale, s2, post) :=
              match s1 with
              | String "." s1' =>
                  let '(f, scale, s2) := leadingFraction s1' 0 (float64 1) false in
                  (f, scale, s2, negb (String.length s2 =? String.length s1')%nat)
              | _ => (0, float64 1, s1, false)
              end in
            if negb pre && negb post then None
            else
              let '(u, s3) := cut_unit s2 in
              match unitMap u with
              | None => None
              | Some unit =>
                  if 2 ^ 63 / unit <? v then None
                  else
                    let v := v * unit in
                    let v := if 0 <? f
                      then v + float64_trunc (float64_mul (float64 f) (float64_div (float64 unit) scale))
                      else v in
                    if 2 ^ 63 <? v then None else Some (v, s3)
              end
        end
  end.

(** Each term consumes at least one character. *)
Fixpoint parse_terms (fuel : nat) (s : string) (d : Z) : option Z :=
  match s, fuel with
  | "", _ => Some d
  | _, O => None
  | _, S fuel =>
      match parse_term s with
      | None => None
      | Some (v, rest) => let d := d + v in if 2 ^ 63 <? d then None else parse_terms fuel rest d
      end
  end.

Definition ParseDuration (s : string) : option Z :=
  let '(neg, s) :=
    match s with
    | String "-" rest => (true, rest)
    | String "+" rest => (false, rest)
    | _ => (false, s)
    end in
  if bool_decide (s = "0") then Some 0
  else if bool_decide (s = "") then None
  else
    match parse_terms (String.length s) s 0 with
    | None => None
    | Some d => if neg then Some (- d) else if 2 ^ 63 - 1 <? d then None else Some d
    end.

(** ** [FlagSet.Parse] *)

(** A registered flag: whether it is a boolean flag, and what [Set] does to
    the variables; [None] is an error. *)
Record Flag (S : Type) := { IsBoolFlag : bool; Set_ : string → S → option S }.
Arguments IsBoolFlag {S}.
Arguments Set_ {S}.

Inductive parsed (S : Type) :=
| Parsed (st : S) (args : list string)
| Exit (status : Z).
Arguments Parsed {S}.
Arguments Exit {S}.

(** The first ['='] of a flag, if any, separates its name from its value. *)
Fixpoint cut_value (name : string) : string * option string :=
  match name with
  | "" => ("", None)
  | String c rest =>
      if Ascii.eqb c "=" then ("", Some rest)
      else let '(n, v) := cut_value rest in (String c n, v)
  end.

Inductive argument :=
| NotAFlag
| Terminator
| BadSyntax
| AFlag (name : string) (value : option string).

Definition flag_body (body : string) : argument :=
  match body with
  | "" => BadSyntax
  | String c _ =>
      if Ascii.eqb c "-" || Ascii.eqb c "=" then BadSyntax
      else let '(name, value) := cut_value body in AFlag name value
  end.

Definition classify (s : string) : argument :=
  match s with
  | String "-" "" => NotAFlag
  | String "-" (String "-" "") => Terminator
  | String "-" (String "-" body) => flag_body body
  | String "-" body => flag_body body
  | _ => NotAFlag
  end.

Fixpoint Lookup {S} (formal : list (string * S)) (name : string) : option S :=
  match formal with
  | [] => None
  | (n, f) :: rest => if bool_decide (n = name) then Some f else Lookup rest name
  end.

(** The process goes on with a value, or it ends. *)
Inductive run (A : Type) :=
| Done (a : A)
| Exited (status : Z)
| Crashed (why : string).
Arguments Done {A}.
Arguments Exited {A}.
Arguments Crashed {A}.

Definition rbind {A B} (x : run A) (k : A → run B) : run B :=
  match x with Done a => k a | Exited s => Exited s | Crashed w => Crashed w end.

Notation "'run!' x := c1 'in' c2" := (rbind c1 (λ x, c2))
  (at level 10, x pattern, c1 at level 100, c2 at level 200) : go_scope.

Section parse.
Context {S : Type} (formal : list (string * Flag S)).

(** [parseOne] in a loop, with what [flag.ExitOnError] does of its errors. *)
Fixpoint Parse (args : list string) (st : S) : parsed S :=
  match args with
  | [] => Parsed st []
  | s :: rest =>
      match classify s with
      | NotAFlag => Parsed st args
      | Terminator => Parsed st rest
      | BadSyntax => Exit 2
      | AFlag name value =>
          match Lookup formal name with
          | None => if bool_decide (name = "help") || bool_decide (name = "h") then Exit 0 else Exit 2
          | Some f =>
              if IsBoolFlag f then
                match Set_ f (default "true" value) st with
                | None => Exit 2
                | Some st' => Parse rest st'
                end
              else
                match value with
                | Some v =>
                    match Set_ f v st with None => Exit 2 | Some st' => Parse rest st' end
                | None =>
                    match rest with
                    | [] => Exit 2
                    | v :: rest' =>
                        match Set_ f v st with None => Exit 2 | Some st' => Parse rest' st' end
                    end
                end
          end
      end
  end.

(** *** The assignments of a command line *)

(** The assignments a command line makes, in order, and the arguments left;
    [None] when the syntax is wrong or a flag is not defined. *)
Fixpoint assignments (args : list string) : option (list (string * string) * list string) :=
  match args with
  | [] => Some ([], [])
  | s :: rest =>
      match classify s with
      | NotAFlag => Some ([], args)
      | Terminator => Some ([], rest)
      | BadSyntax => None
      | AFlag name value =>
          f ← Lookup formal name;
          match value, rest with
          | Some v, _ => '(l, r) ← assignments rest; Some ((name, v) :: l, r)
          | None, _ =>
              if IsBoolFlag f then '(l, r) ← assignments rest; Some ((name, "true") :: l, r)
              else match rest with
                   | [] => None
                   | v :: rest' => '(l, r) ← assignments rest'; Some ((name, v) :: l, r)
                   end
          end
      end
  end.

Fixpoint assign (l : list (string * string)) (st : S) : option S :=
  match l with
  | [] => Some st
  | (name, v) :: l => f ← Lookup formal name; st' ← Set_ f v st; assign l st'
  end.

Lemma Parse_assign args st st' rest :
  Parse args st = Parsed st' rest ↔
  ∃ l, assignments args = Some (l, rest) ∧ assign l st = Some st'.
Proof.
  revert st. remember (length args) as n eqn:Hn. assert (length args ≤ n)%nat as Hle by lia. clear Hn.
  revert args Hle. induction n as [|n IH]; intros args Hle st;
    (destruct args as [|s args]; simpl in *; [naive_solver|]); [lia|].
  destruct (classify s) as [| | |name value]; [naive_solver..|].
  destruct (Lookup formal name) as [f|] eqn:Hf; simpl; [|destruct (bool_decide _ || _); naive_solver].
  assert (∀ v args', (length args' ≤ n)%nat →
    match Set_ f v st with None => Exit 2 | Some st' => Parse args' st' end = Parsed st' rest ↔
    ∃ l, ('(l, r) ← assignments args'; Some ((name, v) :: l, r)) = Some (l, rest) ∧
         assign l st = Some st') as Hstep.
  { intros v args' Hlen. split.
    - destruct (Set_ f v st) as [st1|] eqn:Hset; [|done].
      rewrite IH by done. intros (l & -> & Hl). eexists. split; [done|]. simpl. by rewrite Hf; simpl; rewrite Hset.
    - intros (l & Hl & Ha). destruct (assignments args') as [[l' r]|] eqn:Hargs; simplify_eq/=.
      rewrite Hf in Ha. simpl in Ha. destruct (Set_ f v st); [|done]. simpl in Ha. apply IH; eauto. }
  destruct (IsBoolFlag f) eqn:Hb; [destruct value; apply Hstep; lia|].
  destruct value; [apply Hstep; lia|]. destruct args as [|v args]; [naive_solver|].
  apply Hstep. simpl in Hle. lia.
Qed.
End parse.

(** *** Looking flags up *)

Section lookup.
Context {X : Type}.
Implicit Types l : list (string * X).

Lemma Lookup_elem_of l n x : Lookup l n = Some x → (n, x) ∈ l.
Proof.
  induction l as [|[n' x'] l IH]; simpl; [done|]. case_bool_decide; [|set_solver].
  intros [= ->]. subst. by left.
Qed.

Lemma Lookup_NoDup l n x : NoDup l.*1 → (n, x) ∈ l → Lookup l n = Some x.
Proof.
  induction l as [|[n' x'] l IH]; simpl; [set_solver|]. rewrite NoDup_cons.
  intros [Hn' Hnd] [[= -> ->]|Hin]%elem_of_cons; [by rewrite bool_decide_eq_true_2|].
  rewrite bool_decide_eq_false_2; [auto|]. intros ->. apply Hn'.
  by apply (list_elem_of_fmap_2 fst) in Hin.
Qed.
End lookup.

Lemma assignments_ext {S} (f1 f2 : list (string * Flag S)) args :
  (∀ n, IsBoolFlag <$> Lookup f1 n = IsBoolFlag <$> Lookup f2 n) →
  assignments f1 args = assignments f2 args.
Proof.
  intros Hext. remember (length args) as k eqn:Hk. assert (length args ≤ k)%nat as Hle by lia. clear Hk.
  revert args Hle. induction k as [|k IH]; intros [|s args] Hle; try done; simpl in Hle; [lia|].
  simpl. destruct (classify s) as [| | |name value]; try done.
  specialize (Hext name). destruct (Lookup f1 name), (Lookup f2 name); try done. simpl.
  injection Hext as ->. destruct value; [by rewrite IH by lia|].
  destruct (IsBoolFlag _); [by rewrite IH by lia|]. destruct args as [|v args]; [done|].
  simpl in Hle. by rewrite IH by lia.
Qed.

(** The last value assigned to a flag. *)
Fixpoint last_value (l : list (string * string)) (name : string) : option string :=
  match l with
  | [] => None
  | (n, v) :: l =>
      match last_value l name with
      | Some v' => Some v'
      | None => if bool_decide (n = name) then Some v else None
      end
  end.
