(* ===== verification/ConfigArgs.v ===== *)
(** * The arguments of the program

    Models the argument structures of [pkg/config/config.go] and
    [pkg/resourcetopologyexporter/resourcetopologyexporter.go] and the layers
    that write them one field at a time: [pkg/config/defaults.go],
    [environ.go], [cfgdispatch.go], the flags of [flags.go] and the checks of
    [validation.go].  A pointer to a field of the arguments is a [binding]:
    how to read the field and how to write it. *)

From Stdlib Require Import Ascii SpecFloat.
From S2P Require Import Prelude GoStrings GoTime PodRes Middleware Counters Metrics MetricsServer ResourceMonitor NRTUpdater GoFlag.

(** ** The structures *)

Record GlobalArgs := {
  ga_KubeConfig : string;
  ga_Debug : bool;
  ga_Verbose : Z
}.

Record RTEArgs := {
  rte_ReferenceContainer : option SharedCPUs.ContainerIdent;
  rte_TopologyManagerPolicy : string;
  rte_TopologyManagerScope : string;
  rte_KubeletConfigFile : string;
  rte_PodResourcesSocketPath : string;
  rte_SleepInterval : Z;
  rte_PodReadinessEnable : bool;
  rte_NotifyFilePath : string;
  rte_MaxEventsPerTimeUnit : Z;
  rte_TimeUnitToLimitEvents : Z;
  rte_AddNRTOwnerEnable : bool;
  rte_MetricsMode : string;
  rte_MetricsPort : Z;
  rte_MetricsAddress : string;
  rte_MetricsTLSCfg : TLSConfig
}.

Record ProgArgs := {
  pa_Global : GlobalArgs;
  pa_NRTupdater : UpdaterArgs;
  pa_Resourcemonitor : Args;
  pa_RTE : RTEArgs;
  pa_Version : bool;
  pa_DumpConfig : string
}.

(** *** Field updates *)

Definition set_ga_KubeConfig (v : string) (a : GlobalArgs) : GlobalArgs :=
  Build_GlobalArgs v (ga_Debug a) (ga_Verbose a).
Definition set_ga_Debug (v : bool) (a : GlobalArgs) : GlobalArgs :=
  Build_GlobalArgs (ga_KubeConfig a) v (ga_Verbose a).
Definition set_ga_Verbose (v : Z) (a : GlobalArgs) : GlobalArgs :=
  Build_GlobalArgs (ga_KubeConfig a) (ga_Debug a) v.

Definition set_NoPublish (v : bool) (a : UpdaterArgs) : UpdaterArgs :=
  Build_UpdaterArgs v (Oneshot a) (Hostname a) (KubeConfig a) (PatchMode a) (PatchResync a).
Definition set_Oneshot (v : bool) (a : UpdaterArgs) : UpdaterArgs :=
  Build_UpdaterArgs (NoPublish a) v (Hostname a) (KubeConfig a) (PatchMode a) (PatchResync a).
Definition set_Hostname (v : string) (a : UpdaterArgs) : UpdaterArgs :=
  Build_UpdaterArgs (NoPublish a) (Oneshot a) v (KubeConfig a) (PatchMode a) (PatchResync a).
Definition set_KubeConfig (v : string) (a : UpdaterArgs) : UpdaterArgs :=
  Build_UpdaterArgs (NoPublish a) (Oneshot a) (Hostname a) v (PatchMode a) (PatchResync a).
Definition set_PatchMode (v : bool) (a : UpdaterArgs) : UpdaterArgs :=
  Build_UpdaterArgs (NoPublish a) (Oneshot a) (Hostname a) (KubeConfig a) v (PatchResync a).
Definition set_PatchResync (v : Z) (a : UpdaterArgs) : UpdaterArgs :=
  Build_UpdaterArgs (NoPublish a) (Oneshot a) (Hostname a) (KubeConfig a) (PatchMode a) v.

Definition set_Namespace (v : string) (a : Args) : Args :=
  ResourceMonitor.Build_Args v (SysfsRoot a) (args_ResourceExclude a) (RefreshNodeResources a)
    (PodSetFingerprint a) (PodSetFingerprintMethod a) (ExposeTiming a)
    (PodSetFingerprintStatusFile a) (args_PodExclude a) (ExcludeTerminalPods a).
Definition set_SysfsRoot (v : string) (a : Args) : Args :=
  ResourceMonitor.Build_Args (Namespace a) v (args_ResourceExclude a) (RefreshNodeResources a)
    (PodSetFingerprint a) (PodSetFingerprintMethod a) (ExposeTiming a)
    (PodSetFingerprintStatusFile a) (args_PodExclude a) (ExcludeTerminalPods a).
Definition set_args_ResourceExclude (v : gmap string (list string)) (a : Args) : Args :=
  ResourceMonitor.Build_Args (Namespace a) (SysfsRoot a) v (RefreshNodeResources a)
    (PodSetFingerprint a) (PodSetFingerprintMethod a) (ExposeTiming a)
    (PodSetFingerprintStatusFile a) (args_PodExclude a) (ExcludeTerminalPods a).
Definition set_RefreshNodeResources (v : bool) (a : Args) : Args :=
  ResourceMonitor.Build_Args (Namespace a) (SysfsRoot a) (args_ResourceExclude a) v
    (PodSetFingerprint a) (PodSetFingerprintMethod a) (ExposeTiming a)
    (PodSetFingerprintStatusFile a) (args_PodExclude a) (ExcludeTerminalPods a).
Definition set_PodSetFingerprint (v : bool) (a : Args) : Args :=
  ResourceMonitor.Build_Args (Namespace a) (SysfsRoot a) (args_ResourceExclude a)
    (RefreshNodeResources a) v (PodSetFingerprintMethod a) (ExposeTiming a)
    (PodSetFingerprintStatusFile a) (args_PodExclude a) (ExcludeTerminalPods a).
Definition set_PodSetFingerprintMethod (v : string) (a : Args) : Args :=
  ResourceMonitor.Build_Args (Namespace a) (SysfsRoot a) (args_ResourceExclude a)
    (RefreshNodeResources a) (PodSetFingerprint a) v (ExposeTiming a)
    (PodSetFingerprintStatusFile a) (args_PodExclude a) (ExcludeTerminalPods a).
Definition set_ExposeTiming (v : bool) (a : Args) : Args :=
  ResourceMonitor.Build_Args (Namespace a) (SysfsRoot a) (args_ResourceExclude a)
    (RefreshNodeResources a) (PodSetFingerprint a) (PodSetFingerprintMethod a) v
    (PodSetFingerprintStatusFile a) (args_PodExclude a) (ExcludeTerminalPods a).
Definition set_PodSetFingerprintStatusFile (v : string) (a : Args) : Args :=
  ResourceMonitor.Build_Args (Namespace a) (SysfsRoot a) (args_ResourceExclude a)
    (RefreshNodeResources a) (PodSetFingerprint a) (PodSetFingerprintMethod a) (ExposeTiming a) v
    (args_PodExclude a) (ExcludeTerminalPods a).
Definition set_args_PodExclude (v : list PodExclude.Item) (a : Args) : Args :=
  ResourceMonitor.Build_Args (Namespace a) (SysfsRoot a) (args_ResourceExclude a)
    (RefreshNodeResources a) (PodSetFingerprint a) (PodSetFingerprintMethod a) (ExposeTiming a)
    (PodSetFingerprintStatusFile a) v (ExcludeTerminalPods a).
Definition set_ExcludeTerminalPods (v : bool) (a : Args) : Args :=
  ResourceMonitor.Build_Args (Namespace a) (SysfsRoot a) (args_ResourceExclude a)
    (RefreshNodeResources a) (PodSetFingerprint a) (PodSetFingerprintMethod a) (ExposeTiming a)
    (PodSetFingerprintStatusFile a) (args_PodExclude a) v.

Definition set_CertsDir (v : string) (a : TLSConfig) : TLSConfig :=
  Build_TLSConfig v (CertFile a) (KeyFile a) (WantCliAuth a) (MinTLSVersion a) (CipherSuites a).
Definition set_CertFile (v : string) (a : TLSConfig) : TLSConfig :=
  Build_TLSConfig (CertsDir a) v (KeyFile a) (WantCliAuth a) (MinTLSVersion a) (CipherSuites a).
Definition set_KeyFile (v : string) (a : TLSConfig) : TLSConfig :=
  Build_TLSConfig (CertsDir a) (CertFile a) v (WantCliAuth a) (MinTLSVersion a) (CipherSuites a).
Definition set_WantCliAuth (v : bool) (a : TLSConfig) : TLSConfig :=
  Build_TLSConfig (CertsDir a) (CertFile a) (KeyFile a) v (MinTLSVersion a) (CipherSuites a).
Definition set_MinTLSVersion (v : string) (a : TLSConfig) : TLSConfig :=
  Build_TLSConfig (CertsDir a) (CertFile a) (KeyFile a) (WantCliAuth a) v (CipherSuites a).
Definition set_CipherSuites (v : string) (a : TLSConfig) : TLSConfig :=
  Build_TLSConfig (CertsDir a) (CertFile a) (KeyFile a) (WantCliAuth a) (MinTLSVersion a) v.

Definition set_rte_ReferenceContainer (v : option SharedCPUs.ContainerIdent) (a : RTEArgs) : RTEArgs :=
  Build_RTEArgs v (rte_TopologyManagerPolicy a) (rte_TopologyManagerScope a)
    (rte_KubeletConfigFile a) (rte_PodResourcesSocketPath a) (rte_SleepInterval a)
    (rte_PodReadinessEnable a) (rte_NotifyFilePath a) (rte_MaxEventsPerTimeUnit a)
    (rte_TimeUnitToLimitEvents a) (rte_AddNRTOwnerEnable a) (rte_MetricsMode a) (rte_MetricsPort a)
    (rte_MetricsAddress a) (rte_MetricsTLSCfg a).
Definition set_rte_TopologyManagerPolicy (v : string) (a : RTEArgs) : RTEArgs :=
  Build_RTEArgs (rte_ReferenceContainer a) v (rte_TopologyManagerScope a) (rte_KubeletConfigFile a)
    (rte_PodResourcesSocketPath a) (rte_SleepInterval a) (rte_PodReadinessEnable a)
    (rte_NotifyFilePath a) (rte_MaxEventsPerTimeUnit a) (rte_TimeUnitToLimitEvents a)
    (rte_AddNRTOwnerEnable a) (rte_MetricsMode a) (rte_MetricsPort a) (rte_MetricsAddress a)
    (rte_MetricsTLSCfg a).
Definition set_rte_TopologyManagerScope (v : string) (a : RTEArgs) : RTEArgs :=
  Build_RTEArgs (rte_ReferenceContainer a) (rte_TopologyManagerPolicy a) v (rte_KubeletConfigFile a)
    (rte_PodResourcesSocketPath a) (rte_SleepInterval a) (rte_PodReadinessEnable a)
    (rte_NotifyFilePath a) (rte_MaxEventsPerTimeUnit a) (rte_TimeUnitToLimitEvents a)
    (rte_AddNRTOwnerEnable a) (rte_MetricsMode a) (rte_MetricsPort a) (rte_MetricsAddress a)
    (rte_MetricsTLSCfg a).
Definition set_rte_KubeletConfigFile (v : string) (a : RTEArgs) : RTEArgs :=
  Build_RTEArgs (rte_ReferenceContainer a) (rte_TopologyManagerPolicy a)
    (rte_TopologyManagerScope a) v (rte_PodResourcesSocketPath a) (rte_SleepInterval a)
    (rte_PodReadinessEnable a) (rte_NotifyFilePath a) (rte_MaxEventsPerTimeUnit a)
    (rte_TimeUnitToLimitEvents a) (rte_AddNRTOwnerEnable a) (rte_MetricsMode a) (rte_MetricsPort a)
    (rte_MetricsAddress a) (rte_MetricsTLSCfg a).
Definition set_rte_PodResourcesSocketPath (v : string) (a : RTEArgs) : RTEArgs :=
  Build_RTEArgs (rte_ReferenceContainer a) (rte_TopologyManagerPolicy a)
    (rte_TopologyManagerScope a) (rte_KubeletConfigFile a) v (rte_SleepInterval a)
    (rte_PodReadinessEnable a) (rte_NotifyFilePath a) (rte_MaxEventsPerTimeUnit a)
    (rte_TimeUnitToLimitEvents a) (rte_AddNRTOwnerEnable a) (rte_MetricsMode a) (rte_MetricsPort a)
    (rte_MetricsAddress a) (rte_MetricsTLSCfg a).
Definition set_rte_SleepInterval (v : Z) (a : RTEArgs) : RTEArgs :=
  Build_RTEArgs (rte_ReferenceContainer a) (rte_TopologyManagerPolicy a)
    (rte_TopologyManagerScope a) (rte_KubeletConfigFile a) (rte_PodResourcesSocketPath a) v
    (rte_PodReadinessEnable a) (rte_NotifyFilePath a) (rte_MaxEventsPerTimeUnit a)
    (rte_TimeUnitToLimitEvents a) (rte_AddNRTOwnerEnable a) (rte_MetricsMode a) (rte_MetricsPort a)
    (rte_MetricsAddress a) (rte_MetricsTLSCfg a).
Definition set_rte_PodReadinessEnable (v : bool) (a : RTEArgs) : RTEArgs :=
  Build_RTEArgs (rte_ReferenceContainer a) (rte_TopologyManagerPolicy a)
    (rte_TopologyManagerScope a) (rte_KubeletConfigFile a) (rte_PodResourcesSocketPath a)
    (rte_SleepInterval a) v (rte_NotifyFilePath a) (rte_MaxEventsPerTimeUnit a)
    (rte_TimeUnitToLimitEvents a) (rte_AddNRTOwnerEnable a) (rte_MetricsMode a) (rte_MetricsPort a)
    (rte_MetricsAddress a) (rte_MetricsTLSCfg a).
Definition set_rte_NotifyFilePath (v : string) (a : RTEArgs) : RTEArgs :=
  Build_RTEArgs (rte_ReferenceContainer a) (rte_TopologyManagerPolicy a)
    (rte_TopologyManagerScope a) (rte_KubeletConfigFile a) (rte_PodResourcesSocketPath a)
    (rte_SleepInterval a) (rte_PodReadinessEnable a) v (rte_MaxEventsPerTimeUnit a)
    (rte_TimeUnitToLimitEvents a) (rte_AddNRTOwnerEnable a) (rte_MetricsMode a) (rte_MetricsPort a)
    (rte_MetricsAddress a) (rte_MetricsTLSCfg a).
Definition set_rte_MaxEventsPerTimeUnit (v : Z) (a : RTEArgs) : RTEArgs :=
  Build_RTEArgs (rte_ReferenceContainer a) (rte_TopologyManagerPolicy a)
    (rte_TopologyManagerScope a) (rte_KubeletConfigFile a) (rte_PodResourcesSocketPath a)
    (rte_SleepInterval a) (rte_PodReadinessEnable a) (rte_NotifyFilePath a) v
    (rte_TimeUnitToLimitEvents a) (rte_AddNRTOwnerEnable a) (rte_MetricsMode a) (rte_MetricsPort a)
    (rte_MetricsAddress a) (rte_MetricsTLSCfg a).
Definition set_rte_TimeUnitToLimitEvents (v : Z) (a : RTEArgs) : RTEArgs :=
  Build_RTEArgs (rte_ReferenceContainer a) (rte_TopologyManagerPolicy a)
    (rte_TopologyManagerScope a) (rte_KubeletConfigFile a) (rte_PodResourcesSocketPath a)
    (rte_SleepInterval a) (rte_PodReadinessEnable a) (rte_NotifyFilePath a)
    (rte_MaxEventsPerTimeUnit a) v (rte_AddNRTOwnerEnable a) (rte_MetricsMode a) (rte_MetricsPort a)
    (rte_MetricsAddress a) (rte_MetricsTLSCfg a).
Definition set_rte_AddNRTOwnerEnable (v : bool) (a : RTEArgs) : RTEArgs :=
  Build_RTEArgs (rte_ReferenceContainer a) (rte_TopologyManagerPolicy a)
    (rte_TopologyManagerScope a) (rte_KubeletConfigFile a) (rte_PodResourcesSocketPath a)
    (rte_SleepInterval a) (rte_PodReadinessEnable a) (rte_NotifyFilePath a)
    (rte_MaxEventsPerTimeUnit a) (rte_TimeUnitToLimitEvents a) v (rte_MetricsMode a)
    (rte_MetricsPort a) (rte_MetricsAddress a) (rte_MetricsTLSCfg a).
Definition set_rte_MetricsMode (v : string) (a : RTEArgs) : RTEArgs :=
  Build_RTEArgs (rte_ReferenceContainer a) (rte_TopologyManagerPolicy a)
    (rte_TopologyManagerScope a) (rte_KubeletConfigFile a) (rte_PodResourcesSocketPath a)
    (rte_SleepInterval a) (rte_PodReadinessEnable a) (rte_NotifyFilePath a)
    (rte_MaxEventsPerTimeUnit a) (rte_TimeUnitToLimitEvents a) (rte_AddNRTOwnerEnable a) v
    (rte_MetricsPort a) (rte_MetricsAddress a) (rte_MetricsTLSCfg a).
Definition set_rte_MetricsPort (v : Z) (a : RTEArgs) : RTEArgs :=
  Build_RTEArgs (rte_ReferenceContainer a) (rte_TopologyManagerPolicy a)
    (rte_TopologyManagerScope a) (rte_KubeletConfigFile a) (rte_PodResourcesSocketPath a)
    (rte_SleepInterval a) (rte_PodReadinessEnable a) (rte_NotifyFilePath a)
    (rte_MaxEventsPerTimeUnit a) (rte_TimeUnitToLimitEvents a) (rte_AddNRTOwnerEnable a)
    (rte_MetricsMode a) v (rte_MetricsAddress a) (rte_MetricsTLSCfg a).
Definition set_rte_MetricsAddress (v : string) (a : RTEArgs) : RTEArgs :=
  Build_RTEArgs (rte_ReferenceContainer a) (rte_TopologyManagerPolicy a)
    (rte_TopologyManagerScope a) (rte_KubeletConfigFile a) (rte_PodResourcesSocketPath a)
    (rte_SleepInterval a) (rte_PodReadinessEnable a) (rte_NotifyFilePath a)
    (rte_MaxEventsPerTimeUnit a) (rte_TimeUnitToLimitEvents a) (rte_AddNRTOwnerEnable a)
    (rte_MetricsMode a) (rte_MetricsPort a) v (rte_MetricsTLSCfg a).
Definition set_rte_MetricsTLSCfg (v : TLSConfig) (a : RTEArgs) : RTEArgs :=
  Build_RTEArgs (rte_ReferenceContainer a) (rte_TopologyManagerPolicy a)
    (rte_TopologyManagerScope a) (rte_KubeletConfigFile a) (rte_PodResourcesSocketPath a)
    (rte_SleepInterval a) (rte_PodReadinessEnable a) (rte_NotifyFilePath a)
    (rte_MaxEventsPerTimeUnit a) (rte_TimeUnitToLimitEvents a) (rte_AddNRTOwnerEnable a)
    (rte_MetricsMode a) (rte_MetricsPort a) (rte_MetricsAddress a) v.

Definition set_pa_Global (v : GlobalArgs) (a : ProgArgs) : ProgArgs :=
  Build_ProgArgs v (pa_NRTupdater a) (pa_Resourcemonitor a) (pa_RTE a) (pa_Version a) (pa_DumpConfig a).
Definition set_pa_NRTupdater (v : UpdaterArgs) (a : ProgArgs) : ProgArgs :=
  Build_ProgArgs (pa_Global a) v (pa_Resourcemonitor a) (pa_RTE a) (pa_Version a) (pa_DumpConfig a).
Definition set_pa_Resourcemonitor (v : Args) (a : ProgArgs) : ProgArgs :=
  Build_ProgArgs (pa_Global a) (pa_NRTupdater a) v (pa_RTE a) (pa_Version a) (pa_DumpConfig a).
Definition set_pa_RTE (v : RTEArgs) (a : ProgArgs) : ProgArgs :=
  Build_ProgArgs (pa_Global a) (pa_NRTupdater a) (pa_Resourcemonitor a) v (pa_Version a)
    (pa_DumpConfig a).
Definition set_pa_Version (v : bool) (a : ProgArgs) : ProgArgs :=
  Build_ProgArgs (pa_Global a) (pa_NRTupdater a) (pa_Resourcemonitor a) (pa_RTE a) v (pa_DumpConfig a).
Definition set_pa_DumpConfig (v : string) (a : ProgArgs) : ProgArgs :=
  Build_ProgArgs (pa_Global a) (pa_NRTupdater a) (pa_Resourcemonitor a) (pa_RTE a) (pa_Version a) v.

(** *** Copies *)

Definition GlobalArgs_Clone (args : GlobalArgs) : GlobalArgs := {|
  ga_KubeConfig := ga_KubeConfig args; ga_Debug := ga_Debug args; ga_Verbose := ga_Verbose args |}.

Definition RTEArgs_Clone (args : RTEArgs) : RTEArgs := {|
  rte_ReferenceContainer := Some (SharedCPUs.Clone (rte_ReferenceContainer args));
  rte_TopologyManagerPolicy := rte_TopologyManagerPolicy args;
  rte_TopologyManagerScope := rte_TopologyManagerScope args;
  rte_KubeletConfigFile := rte_KubeletConfigFile args;
  rte_PodResourcesSocketPath := rte_PodResourcesSocketPath args;
  rte_SleepInterval := rte_SleepInterval args;
  rte_PodReadinessEnable := rte_PodReadinessEnable args;
  rte_NotifyFilePath := rte_NotifyFilePath args;
  rte_MaxEventsPerTimeUnit := rte_MaxEventsPerTimeUnit args;
  rte_TimeUnitToLimitEvents := rte_TimeUnitToLimitEvents args;
  rte_AddNRTOwnerEnable := rte_AddNRTOwnerEnable args;
  rte_MetricsMode := rte_MetricsMode args;
  rte_MetricsPort := rte_MetricsPort args;
  rte_MetricsAddress := rte_MetricsAddress args;
  rte_MetricsTLSCfg := TLSConfig_Clone (rte_MetricsTLSCfg args) |}.

Definition ProgArgs_Clone `{MapOrder} (pa : ProgArgs) : ProgArgs := {|
  pa_Global := GlobalArgs_Clone (pa_Global pa);
  pa_NRTupdater := UpdaterArgs_Clone (pa_NRTupdater pa);
  pa_Resourcemonitor := Args_Clone (pa_Resourcemonitor pa);
  pa_RTE := RTEArgs_Clone (pa_RTE pa);
  pa_Version := pa_Version pa;
  pa_DumpConfig := pa_DumpConfig pa |}.

(** ** Bindings *)

Inductive binding :=
| BString (key : string) (get : ProgArgs → string) (set : string → ProgArgs → ProgArgs)
| BInt (key : string) (get : ProgArgs → Z) (set : Z → ProgArgs → ProgArgs)
| BBool (key : string) (get : ProgArgs → bool) (set : bool → ProgArgs → ProgArgs)
| BDuration (key : string) (get : ProgArgs → Z) (set : Z → ProgArgs → ProgArgs).

Definition b_key (b : binding) : string :=
  match b with BString k _ _ | BInt k _ _ | BBool k _ _ | BDuration k _ _ => k end.

(** The keys of the configuration files and the arguments they set. *)
Definition cbs : list binding :=
  [BBool "global.debug" (λ p, ga_Debug (pa_Global p))
     (λ v p, set_pa_Global (set_ga_Debug v (pa_Global p)) p);
   BInt "global.verbose" (λ p, ga_Verbose (pa_Global p))
     (λ v p, set_pa_Global (set_ga_Verbose v (pa_Global p)) p);
   BString "global.kubeconfig" (λ p, ga_KubeConfig (pa_Global p))
     (λ v p, set_pa_Global (set_ga_KubeConfig v (pa_Global p)) p);
   BBool "nrtUpdater.noPublish" (λ p, NoPublish (pa_NRTupdater p))
     (λ v p, set_pa_NRTupdater (set_NoPublish v (pa_NRTupdater p)) p);
   BBool "nrtUpdater.oneShot" (λ p, Oneshot (pa_NRTupdater p))
     (λ v p, set_pa_NRTupdater (set_Oneshot v (pa_NRTupdater p)) p);
   BString "nrtUpdater.hostname" (λ p, Hostname (pa_NRTupdater p))
     (λ v p, set_pa_NRTupdater (set_Hostname v (pa_NRTupdater p)) p);
   BBool "nrtUpdater.patchMode" (λ p, PatchMode (pa_NRTupdater p))
     (λ v p, set_pa_NRTupdater (set_PatchMode v (pa_NRTupdater p)) p);
   BInt "nrtUpdater.patchResync" (λ p, PatchResync (pa_NRTupdater p))
     (λ v p, set_pa_NRTupdater (set_PatchResync v (pa_NRTupdater p)) p);
   BString "resourceMonitor.namespace" (λ p, Namespace (pa_Resourcemonitor p))
     (λ v p, set_pa_Resourcemonitor (set_Namespace v (pa_Resourcemonitor p)) p);
   BString "resourceMonitor.sysfsRoot" (λ p, SysfsRoot (pa_Resourcemonitor p))
     (λ v p, set_pa_Resourcemonitor (set_SysfsRoot v (pa_Resourcemonitor p)) p);
   BBool "resourceMonitor.refreshNodeResources" (λ p, RefreshNodeResources (pa_Resourcemonitor p))
     (λ v p, set_pa_Resourcemonitor (set_RefreshNodeResources v (pa_Resourcemonitor p)) p);
   BBool "resourceMonitor.podSetFingerprint" (λ p, PodSetFingerprint (pa_Resourcemonitor p))
     (λ v p, set_pa_Resourcemonitor (set_PodSetFingerprint v (pa_Resourcemonitor p)) p);
   BString "resourceMonitor.podSetFingerprintMethod" (λ p, PodSetFingerprintMethod (pa_Resourcemonitor p))
     (λ v p, set_pa_Resourcemonitor (set_PodSetFingerprintMethod v (pa_Resourcemonitor p)) p);
   BBool "resourceMonitor.exposeTiming" (λ p, ExposeTiming (pa_Resourcemonitor p))
     (λ v p, set_pa_Resourcemonitor (set_ExposeTiming v (pa_Resourcemonitor p)) p);
   BString "resourceMonitor.podSetFingerprintStatusFile" (λ p, PodSetFingerprintStatusFile (pa_Resourcemonitor p))
     (λ v p, set_pa_Resourcemonitor (set_PodSetFingerprintStatusFile v (pa_Resourcemonitor p)) p);
   BBool "resourceMonitor.excludeTerminalPods" (λ p, ExcludeTerminalPods (pa_Resourcemonitor p))
     (λ v p, set_pa_Resourcemonitor (set_ExcludeTerminalPods v (pa_Resourcemonitor p)) p);
   BString "topologyExporter.podResourcesSocketPath" (λ p, rte_PodResourcesSocketPath (pa_RTE p))
     (λ v p, set_pa_RTE (set_rte_PodResourcesSocketPath v (pa_RTE p)) p);
   BDuration "topologyExporter.sleepInterval" (λ p, rte_SleepInterval (pa_RTE p))
     (λ v p, set_pa_RTE (set_rte_SleepInterval v (pa_RTE p)) p);
   BBool "topologyExporter.podReadinessEnable" (λ p, rte_PodReadinessEnable (pa_RTE p))
     (λ v p, set_pa_RTE (set_rte_PodReadinessEnable v (pa_RTE p)) p);
   BString "topologyExporter.notifyFilePath" (λ p, rte_NotifyFilePath (pa_RTE p))
     (λ v p, set_pa_RTE (set_rte_NotifyFilePath v (pa_RTE p)) p);
   BDuration "topologyExporter.timeUnitToLimitEvents" (λ p, rte_TimeUnitToLimitEvents (pa_RTE p))
     (λ v p, set_pa_RTE (set_rte_TimeUnitToLimitEvents v (pa_RTE p)) p);
   BBool "topologyExporter.addNRTOwnerEnable" (λ p, rte_AddNRTOwnerEnable (pa_RTE p))
     (λ v p, set_pa_RTE (set_rte_AddNRTOwnerEnable v (pa_RTE p)) p);
   BString "topologyExporter.metricsMode" (λ p, rte_MetricsMode (pa_RTE p))
     (λ v p, set_pa_RTE (set_rte_MetricsMode v (pa_RTE p)) p);
   BInt "topologyExporter.metricsPort" (λ p, rte_MetricsPort (pa_RTE p))
     (λ v p, set_pa_RTE (set_rte_MetricsPort v (pa_RTE p)) p);
   BString "topologyExporter.MetricsAddress" (λ p, rte_MetricsAddress (pa_RTE p))
     (λ v p, set_pa_RTE (set_rte_MetricsAddress v (pa_RTE p)) p);
   BString "topologyExporter.metricsTLS.certsDir" (λ p, CertsDir (rte_MetricsTLSCfg (pa_RTE p)))
     (λ v p, set_pa_RTE (set_rte_MetricsTLSCfg (set_CertsDir v (rte_MetricsTLSCfg (pa_RTE p))) (pa_RTE p)) p);
   BString "topologyExporter.metricsTLS.certFile" (λ p, CertFile (rte_MetricsTLSCfg (pa_RTE p)))
     (λ v p, set_pa_RTE (set_rte_MetricsTLSCfg (set_CertFile v (rte_MetricsTLSCfg (pa_RTE p))) (pa_RTE p)) p);
   BString "topologyExporter.metricsTLS.keyFile" (λ p, KeyFile (rte_MetricsTLSCfg (pa_RTE p)))
     (λ v p, set_pa_RTE (set_rte_MetricsTLSCfg (set_KeyFile v (rte_MetricsTLSCfg (pa_RTE p))) (pa_RTE p)) p);
   BBool "topologyExporter.metricsTLS.wantCliAuth" (λ p, WantCliAuth (rte_MetricsTLSCfg (pa_RTE p)))
     (λ v p, set_pa_RTE (set_rte_MetricsTLSCfg (set_WantCliAuth v (rte_MetricsTLSCfg (pa_RTE p))) (pa_RTE p)) p);
   BString "topologyExporter.metricsTLS.minTLSVersion" (λ p, MinTLSVersion (rte_MetricsTLSCfg (pa_RTE p)))
     (λ v p, set_pa_RTE (set_rte_MetricsTLSCfg (set_MinTLSVersion v (rte_MetricsTLSCfg (pa_RTE p))) (pa_RTE p)) p);
   BString "topologyExporter.metricsTLS.cipherSuites" (λ p, CipherSuites (rte_MetricsTLSCfg (pa_RTE p)))
     (λ v p, set_pa_RTE (set_rte_MetricsTLSCfg (set_CipherSuites v (rte_MetricsTLSCfg (pa_RTE p))) (pa_RTE p)) p)].

(** The flags of the command line and the arguments they set. *)
Definition flagBindings : list binding :=
  [BBool "debug" (λ p, ga_Debug (pa_Global p))
     (λ v p, set_pa_Global (set_ga_Debug v (pa_Global p)) p);
   BString "kubeconfig" (λ p, ga_KubeConfig (pa_Global p))
     (λ v p, set_pa_Global (set_ga_KubeConfig v (pa_Global p)) p);
   BBool "no-publish" (λ p, NoPublish (pa_NRTupdater p))
     (λ v p, set_pa_NRTupdater (set_NoPublish v (pa_NRTupdater p)) p);
   BBool "oneshot" (λ p, Oneshot (pa_NRTupdater p))
     (λ v p, set_pa_NRTupdater (set_Oneshot v (pa_NRTupdater p)) p);
   BString "hostname" (λ p, Hostname (pa_NRTupdater p))
     (λ v p, set_pa_NRTupdater (set_Hostname v (pa_NRTupdater p)) p);
   BBool "patch-mode" (λ p, PatchMode (pa_NRTupdater p))
     (λ v p, set_pa_NRTupdater (set_PatchMode v (pa_NRTupdater p)) p);
   BInt "patch-resync" (λ p, PatchResync (pa_NRTupdater p))
     (λ v p, set_pa_NRTupdater (set_PatchResync v (pa_NRTupdater p)) p);
   BString "watch-namespace" (λ p, Namespace (pa_Resourcemonitor p))
     (λ v p, set_pa_Resourcemonitor (set_Namespace v (pa_Resourcemonitor p)) p);
   BString "sysfs" (λ p, SysfsRoot (pa_Resourcemonitor p))
     (λ v p, set_pa_Resourcemonitor (set_SysfsRoot v (pa_Resourcemonitor p)) p);
   BBool "pods-fingerprint" (λ p, PodSetFingerprint (pa_Resourcemonitor p))
     (λ v p, set_pa_Resourcemonitor (set_PodSetFingerprint v (pa_Resourcemonitor p)) p);
   BBool "expose-timing" (λ p, ExposeTiming (pa_Resourcemonitor p))
     (λ v p, set_pa_Resourcemonitor (set_ExposeTiming v (pa_Resourcemonitor p)) p);
   BBool "refresh-node-resources" (λ p, RefreshNodeResources (pa_Resourcemonitor p))
     (λ v p, set_pa_Resourcemonitor (set_RefreshNodeResources v (pa_Resourcemonitor p)) p);
   BString "pods-fingerprint-status-file" (λ p, PodSetFingerprintStatusFile (pa_Resourcemonitor p))
     (λ v p, set_pa_Resourcemonitor (set_PodSetFingerprintStatusFile v (pa_Resourcemonitor p)) p);
   BBool "exclude-terminal-pods" (λ p, ExcludeTerminalPods (pa_Resourcemonitor p))
     (λ v p, set_pa_Resourcemonitor (set_ExcludeTerminalPods v (pa_Resourcemonitor p)) p);
   BString "pods-fingerprint-method" (λ p, PodSetFingerprintMethod (pa_Resourcemonitor p))
     (λ v p, set_pa_Resourcemonitor (set_PodSetFingerprintMethod v (pa_Resourcemonitor p)) p);
   BString "topology-manager-policy" (λ p, rte_TopologyManagerPolicy (pa_RTE p))
     (λ v p, set_pa_RTE (set_rte_TopologyManagerPolicy v (pa_RTE p)) p);
   BString "topology-manager-scope" (λ p, rte_TopologyManagerScope (pa_RTE p))
     (λ v p, set_pa_RTE (set_rte_TopologyManagerScope v (pa_RTE p)) p);
   BDuration "sleep-interval" (λ p, rte_SleepInterval (pa_RTE p))
     (λ v p, set_pa_RTE (set_rte_SleepInterval v (pa_RTE p)) p);
   BString "kubelet-config-file" (λ p, rte_KubeletConfigFile (pa_RTE p))
     (λ v p, set_pa_RTE (set_rte_KubeletConfigFile v (pa_RTE p)) p);
   BString "podresources-socket" (λ p, rte_PodResourcesSocketPath (pa_RTE p))
     (λ v p, set_pa_RTE (set_rte_PodResourcesSocketPath v (pa_RTE p)) p);
   BBool "podreadiness" (λ p, rte_PodReadinessEnable (pa_RTE p))
     (λ v p, set_pa_RTE (set_rte_PodReadinessEnable v (pa_RTE p)) p);
   BBool "add-nrt-owner" (λ p, rte_AddNRTOwnerEnable (pa_RTE p))
     (λ v p, set_pa_RTE (set_rte_AddNRTOwnerEnable v (pa_RTE p)) p);
   BString "metrics-mode" (λ p, rte_MetricsMode (pa_RTE p))
     (λ v p, set_pa_RTE (set_rte_MetricsMode v (pa_RTE p)) p);
   BInt "metrics-port" (λ p, rte_MetricsPort (pa_RTE p))
     (λ v p, set_pa_RTE (set_rte_MetricsPort v (pa_RTE p)) p);
   BString "metrics-ip" (λ p, rte_MetricsAddress (pa_RTE p))
     (λ v p, set_pa_RTE (set_rte_MetricsAddress v (pa_RTE p)) p);
   BString "metrics-certs-dir" (λ p, CertsDir (rte_MetricsTLSCfg (pa_RTE p)))
     (λ v p, set_pa_RTE (set_rte_MetricsTLSCfg (set_CertsDir v (rte_MetricsTLSCfg (pa_RTE p))) (pa_RTE p)) p);
   BString "metrics-cert-file" (λ p, CertFile (rte_MetricsTLSCfg (pa_RTE p)))
     (λ v p, set_pa_RTE (set_rte_MetricsTLSCfg (set_CertFile v (rte_MetricsTLSCfg (pa_RTE p))) (pa_RTE p)) p);
   BString "metrics-key-file" (λ p, KeyFile (rte_MetricsTLSCfg (pa_RTE p)))
     (λ v p, set_pa_RTE (set_rte_MetricsTLSCfg (set_KeyFile v (rte_MetricsTLSCfg (pa_RTE p))) (pa_RTE p)) p);
   BBool "metrics-want-cli-auth" (λ p, WantCliAuth (rte_MetricsTLSCfg (pa_RTE p)))
     (λ v p, set_pa_RTE (set_rte_MetricsTLSCfg (set_WantCliAuth v (rte_MetricsTLSCfg (pa_RTE p))) (pa_RTE p)) p);
   BString "metrics-tls-min-version" (λ p, MinTLSVersion (rte_MetricsTLSCfg (pa_RTE p)))
     (λ v p, set_pa_RTE (set_rte_MetricsTLSCfg (set_MinTLSVersion v (rte_MetricsTLSCfg (pa_RTE p))) (pa_RTE p)) p);
   BString "metrics-tls-cipher-suites" (λ p, CipherSuites (rte_MetricsTLSCfg (pa_RTE p)))
     (λ v p, set_pa_RTE (set_rte_MetricsTLSCfg (set_CipherSuites v (rte_MetricsTLSCfg (pa_RTE p))) (pa_RTE p)) p);
   BString "notify-file" (λ p, rte_NotifyFilePath (pa_RTE p))
     (λ v p, set_pa_RTE (set_rte_NotifyFilePath v (pa_RTE p)) p);
   BInt "max-events-per-second" (λ p, rte_MaxEventsPerTimeUnit (pa_RTE p))
     (λ v p, set_pa_RTE (set_rte_MaxEventsPerTimeUnit v (pa_RTE p)) p);
   BBool "version" pa_Version
     set_pa_Version;
   BString "dump-config" pa_DumpConfig
     set_pa_DumpConfig].

(** ** Configuration objects: [cfgdispatch.go] *)

(** A value of a flattened configuration object, as [encoding/json] decodes
    it into an [interface{}]; [COther] keeps the name of any other type. *)
Inductive cfgVal :=
| CString (s : string)
| CFloat64 (f : spec_float)
| CBool (b : bool)
| COther (typ : string).

Definition type_name (v : cfgVal) : string :=
  match v with
  | CString _ => "string" | CFloat64 _ => "float64" | CBool _ => "bool" | COther t => t
  end.

(** The conversion of a [float64] to a 64-bit integer truncates; the result is
    implementation-defined when the value is out of range. *)
Class GoPlatform := { float64_overflow : spec_float → Z }.

Definition int_of_float64 `{GoPlatform} (f : spec_float) : Z :=
  match f with
  | S754_nan | S754_infinity _ => float64_overflow f
  | _ => if bool_decide (int64_ok (float64_trunc f)) then float64_trunc f else float64_overflow f
  end.

Definition wrongType (key repr : string) (v : cfgVal) : error :=
  Errorf ("key " +:+ Sprintf_q key +:+ " has " +:+ repr +:+ " " +:+ type_name v).

(** The methods of a [configMap]: [Ok None] when the key is not there, which
    leaves the target alone. *)
Definition cm_String (cm : gmap string cfgVal) (key : string) : outcome (option string) :=
  match cm !! key with
  | None => Ok None
  | Some (CString s) => Ok (Some s)
  | Some v => Err (wrongType key "non-string value" v)
  end.

Definition cm_Bool (cm : gmap string cfgVal) (key : string) : outcome (option bool) :=
  match cm !! key with
  | None => Ok None
  | Some (CBool b) => Ok (Some b)
  | Some v => Err (wrongType key "non-bool value" v)
  end.

Section dispatch.
Context `{GoPlatform}.

Definition cm_Int (cm : gmap string cfgVal) (key : string) : outcome (option Z) :=
  match cm !! key with
  | None => Ok None
  | Some (CFloat64 j) => Ok (Some (int_of_float64 j))
  | Some v => Err (wrongType key "non-float64 value representation" v)
  end.

Definition cm_Duration (cm : gmap string cfgVal) (key : string) : outcome (option Z) :=
  match cm !! key with
  | None => Ok None
  | Some (CFloat64 j) => Ok (Some (int_of_float64 j))
  | Some v => Err (wrongType key "non-float64 value representation" v)
  end.

(** [*out = v] for a value that is there. *)
Definition store {V} (set : V → ProgArgs → ProgArgs) (v : option V) (pArgs : ProgArgs) : ProgArgs :=
  match v with None => pArgs | Some v => set v pArgs end.

Definition cm_Value (cm : gmap string cfgVal) (cb : binding) (pArgs : ProgArgs) : outcome ProgArgs :=
  match cb with
  | BString key _ set => let! v := cm_String cm key in Ok (store set v pArgs)
  | BInt key _ set => let! v := cm_Int cm key in Ok (store set v pArgs)
  | BBool key _ set => let! v := cm_Bool cm key in Ok (store set v pArgs)
  | BDuration key _ set => let! v := cm_Duration cm key in Ok (store set v pArgs)
  end.

(** The loop stops at the first error; the fields written before stay. *)
Fixpoint dispatchBindings (cm : gmap string cfgVal) (l : list binding) (pArgs : ProgArgs)
  : ProgArgs * outcome unit :=
  match l with
  | [] => (pArgs, Ok ())
  | cb :: rest =>
      match cm_Value cm cb pArgs with
      | Ok pArgs' => dispatchBindings cm rest pArgs'
      | Err e => (pArgs, Err e)
      | Panic p => (pArgs, Panic p)
      end
  end.

Definition refCntKey : string := "topologyExporter.referenceContainer".
Definition maxEventsKey : string := "topologyExporter.maxEventPerTimeUnit".

Definition set_ReferenceContainer (v : option SharedCPUs.ContainerIdent) (p : ProgArgs) : ProgArgs :=
  set_pa_RTE (set_rte_ReferenceContainer v (pa_RTE p)) p.
Definition set_MaxEvents (v : Z) (p : ProgArgs) : ProgArgs :=
  set_pa_RTE (set_rte_MaxEventsPerTimeUnit v (pa_RTE p)) p.

(** The special cases that follow the loop. *)
Definition dispatchSpecial (obj : gmap string cfgVal) (pArgs : ProgArgs) : ProgArgs * outcome unit :=
  match cm_String obj refCntKey with
  | Err e => (pArgs, Err e)
  | Panic p => (pArgs, Panic p)
  | Ok s =>
      let refCnt := default "" s in
      match SharedCPUs.ContainerIdentFromString refCnt with
      | Err e => (set_ReferenceContainer None pArgs, Err e)
      | Panic p => (pArgs, Panic p)
      | Ok ci =>
          let pArgs := set_ReferenceContainer ci pArgs in
          match cm_Int obj maxEventsKey with
          | Err e => (pArgs, Err e)
          | Panic p => (pArgs, Panic p)
          | Ok v =>
              let maxEventsPerTimeUnit := default (-1) v in
              (if negb (maxEventsPerTimeUnit =? -1) then set_MaxEvents maxEventsPerTimeUnit pArgs
               else pArgs, Ok ())
          end
      end
  end.

Definition dispatchConfObj (obj : gmap string cfgVal) (pArgs : ProgArgs) : ProgArgs * outcome unit :=
  match dispatchBindings obj cbs pArgs with
  | (pArgs, Ok _) => dispatchSpecial obj pArgs
  | (pArgs, Err e) => (pArgs, Err e)
  | (pArgs, Panic p) => (pArgs, Panic p)
  end.
End dispatch.

(** ** Defaults: [defaults.go] *)

Section defaults.
Context `{PodFingerprintLib}.

Definition SetDefaults (pArgs : ProgArgs) : ProgArgs :=
  let g := pa_Global pArgs in
  let g := set_ga_Verbose 2 g in
  let n := pa_NRTupdater pArgs in
  let n := set_PatchMode true n in
  let n := set_PatchResync 10 n in
  let r := pa_Resourcemonitor pArgs in
  let r := set_SysfsRoot "/sys" r in
  let r := set_PodSetFingerprint true r in
  let r := set_PodSetFingerprintMethod pfp_MethodWithExclusiveResources r in
  let t := pa_RTE pArgs in
  let t := set_rte_SleepInterval (60 * Second) t in
  let t := set_rte_KubeletConfigFile "/podresources/config.yaml" t in
  let t := set_rte_PodResourcesSocketPath "unix:///podresources/kubelet.sock" t in
  let t := set_rte_PodReadinessEnable true t in
  let t := set_rte_AddNRTOwnerEnable true t in
  let t := set_rte_MetricsMode ServingDefault t in
  let t := set_rte_MetricsPort PortDefault t in
  let t := set_rte_MetricsAddress AddressDefault t in
  let t := set_rte_MetricsTLSCfg NewDefaultTLSConfig t in
  let t := set_rte_MaxEventsPerTimeUnit 1 t in
  let t := set_rte_TimeUnitToLimitEvents Second t in
  {| pa_Global := g; pa_NRTupdater := n; pa_Resourcemonitor := r; pa_RTE := t;
     pa_Version := pa_Version pArgs; pa_DumpConfig := pa_DumpConfig pArgs |}.

(** ** Checks: [validation.go] *)

Definition Validate (pArgs : ProgArgs) : ProgArgs * outcome unit :=
  let '(mode, err) := ServingModeIsSupported (rte_MetricsMode (pa_RTE pArgs)) in
  let pArgs := set_pa_RTE (set_rte_MetricsMode mode (pa_RTE pArgs)) pArgs in
  match err with
  | Some e => (pArgs, Err e)
  | None =>
      let '(meth, err) :=
        PFPMethodIsSupported (PodSetFingerprintMethod (pa_Resourcemonitor pArgs)) in
      let pArgs :=
        set_pa_Resourcemonitor (set_PodSetFingerprintMethod meth (pa_Resourcemonitor pArgs)) pArgs in
      match err with
      | Some e => (pArgs, Err e)
      | None => (pArgs, Ok ())
      end
  end.
End defaults.

(** The zero value. *)
Definition zero_args : ProgArgs := {|
  pa_Global := {| ga_KubeConfig := ""; ga_Debug := false; ga_Verbose := 0 |};
  pa_NRTupdater := {| NoPublish := false; Oneshot := false; Hostname := ""; KubeConfig := "";
                      PatchMode := false; PatchResync := 0 |};
  pa_Resourcemonitor := {| Namespace := ""; SysfsRoot := ""; args_ResourceExclude := ∅;
    RefreshNodeResources := false; PodSetFingerprint := false; PodSetFingerprintMethod := "";
    ExposeTiming := false; PodSetFingerprintStatusFile := ""; args_PodExclude := [];
    ExcludeTerminalPods := false |};
  pa_RTE := {| rte_ReferenceContainer := None; rte_TopologyManagerPolicy := "";
    rte_TopologyManagerScope := ""; rte_KubeletConfigFile := ""; rte_PodResourcesSocketPath := "";
    rte_SleepInterval := 0; rte_PodReadinessEnable := false; rte_NotifyFilePath := "";
    rte_MaxEventsPerTimeUnit := 0; rte_TimeUnitToLimitEvents := 0; rte_AddNRTOwnerEnable := false;
    rte_MetricsMode := ""; rte_MetricsPort := 0; rte_MetricsAddress := "";
    rte_MetricsTLSCfg := {| CertsDir := ""; CertFile := ""; KeyFile := ""; WantCliAuth := false;
                            MinTLSVersion := ""; CipherSuites := "" |} |};
  pa_Version := false; pa_DumpConfig := "" |}.

(** ** Environment: [environ.go] *)

Definition LookupOr (env : gmap string string) (name : string) : string :=
  match env !! name with Some val => val | None => "" end.

Definition HostNameFromEnv (env : gmap string string) : string := LookupOr env "NODE_NAME".
Definition TopologyManagerPolicyFromEnv (env : gmap string string) : string :=
  LookupOr env "TOPOLOGY_MANAGER_POLICY".
Definition TopologyManagerScopeFromEnv (env : gmap string string) : string :=
  LookupOr env "TOPOLOGY_MANAGER_SCOPE".
Definition PodSetFingerprintStatusFileFromEnv (env : gmap string string) : string :=
  LookupOr env "PFP_STATUS_FILE".

Definition when (b : bool) (f : ProgArgs → ProgArgs) (p : ProgArgs) : ProgArgs := if b then f p else p.

Definition FromEnv (env : gmap string string) (pArgs : ProgArgs) : ProgArgs :=
  let pArgs := when (bool_decide (Hostname (pa_NRTupdater pArgs) = ""))
    (λ p, set_pa_NRTupdater (set_Hostname (HostNameFromEnv env) (pa_NRTupdater p)) p) pArgs in
  let pArgs := when (bool_decide (rte_TopologyManagerPolicy (pa_RTE pArgs) = ""))
    (λ p, set_pa_RTE (set_rte_TopologyManagerPolicy (TopologyManagerPolicyFromEnv env) (pa_RTE p)) p) pArgs in
  let pArgs := when (bool_decide (rte_TopologyManagerScope (pa_RTE pArgs) = ""))
    (λ p, set_pa_RTE (set_rte_TopologyManagerScope (TopologyManagerScopeFromEnv env) (pa_RTE p)) p) pArgs in
  let pArgs := when (SharedCPUs.IsEmpty (rte_ReferenceContainer (pa_RTE pArgs)))
    (λ p, set_pa_RTE (set_rte_ReferenceContainer (SharedCPUs.ContainerIdentFromEnv env) (pa_RTE p)) p) pArgs in
  let pArgs := when (rte_MetricsPort (pa_RTE pArgs) =? 0)
    (λ p, set_pa_RTE (set_rte_MetricsPort (PortFromEnv env) (pa_RTE p)) p) pArgs in
  let pArgs := when (bool_decide (rte_MetricsAddress (pa_RTE pArgs) = ""))
    (λ p, set_pa_RTE (set_rte_MetricsAddress (AddressFromEnv env) (pa_RTE p)) p) pArgs in
  when (bool_decide (PodSetFingerprintStatusFile (pa_Resourcemonitor pArgs) = ""))
    (λ p, set_pa_Resourcemonitor (set_PodSetFingerprintStatusFile (PodSetFingerprintStatusFileFromEnv env)
                                    (pa_Resourcemonitor p)) p) pArgs.
