(* ===== verification/ConfigProps.v ===== *)
(** * What the layers of configuration write

    Each binding of the configuration files and of the command line is a lens
    on the arguments, and the lenses of either table are independent.  From
    this follows what a configuration object does to every argument. *)

From Stdlib Require Import Ascii SpecFloat.
From S2P Require Import Prelude GoStrings GoTime PodRes Middleware Counters Metrics MetricsServer ResourceMonitor NRTUpdater GoFlag ConfigArgs.

(** ** Bindings as lenses *)

(** The value of an argument. *)
Inductive goVal :=
| GString (s : string)
| GInt (z : Z)
| GBool (b : bool)
| GDuration (z : Z).

Definition b_get (b : binding) (p : ProgArgs) : goVal :=
  match b with
  | BString _ get _ => GString (get p)
  | BInt _ get _ => GInt (get p)
  | BBool _ get _ => GBool (get p)
  | BDuration _ get _ => GDuration (get p)
  end.

(** Writing a value of the right type. *)
Definition b_put (b : binding) (v : goVal) (p : ProgArgs) : option ProgArgs :=
  match b, v with
  | BString _ _ set, GString s => Some (set s p)
  | BInt _ _ set, GInt z => Some (set z p)
  | BBool _ _ set, GBool x => Some (set x p)
  | BDuration _ _ set, GDuration z => Some (set z p)
  | _, _ => None
  end.

Definition lens (b : binding) : Prop :=
  ∀ v p p', b_put b v p = Some p' → b_get b p' = v.

Definition frames (b b' : binding) : Prop :=
  ∀ v p p', b_put b' v p = Some p' → b_get b p' = b_get b p.

Record lenses (bs : list binding) : Prop := {
  lenses_keys : NoDup (b_key <$> bs);
  lenses_lens : Forall lens bs;
  lenses_frames : Forall (λ b, Forall (λ b', b_key b ≠ b_key b' → frames b b') bs) bs
}.

Ltac solve_binding :=
  intros [] p p' Hput; simpl in Hput; try discriminate Hput; injection Hput as <-; reflexivity.

Ltac solve_frames :=
  repeat (constructor; [intros Hne; first [solve_binding | by destruct Hne]|]); constructor.

Ltac solve_lenses bs :=
  split;
    [ apply (bool_decide_unpack (NoDup (b_key <$> bs))); vm_compute; exact I
    | unfold bs; repeat (constructor; [solve_binding|]); constructor
    | unfold bs; repeat (constructor; [solve_frames|]); constructor ].

Lemma cbs_lenses : lenses cbs.
Proof. solve_lenses cbs. Qed.

Lemma flagBindings_lenses : lenses flagBindings.
Proof. solve_lenses flagBindings. Qed.

Lemma lenses_cons b bs :
  lenses (b :: bs) → lens b ∧ Forall (λ b', frames b b' ∧ frames b' b) bs ∧ lenses bs.
Proof.
  intros [Hk Hl Hf]. rewrite fmap_cons, NoDup_cons in Hk. destruct Hk as [Hb Hk].
  apply Forall_cons in Hl as [Hl Hls]. apply Forall_cons in Hf as [Hf Hfs].
  apply Forall_cons in Hf as [_ Hf]. split_and!; [done| |split; [done..|]].
  - apply Forall_forall. intros b' Hb'. rewrite Forall_forall in Hf. rewrite Forall_forall in Hfs.
    assert (b_key b ≠ b_key b').
    { intros Heq. apply Hb. rewrite Heq. by apply list_elem_of_fmap_2. }
    split; [by apply Hf|]. specialize (Hfs b' Hb'). apply Forall_cons in Hfs as [Hfs _]. auto.
  - eapply Forall_impl; [exact Hfs|]. intros b' Hb'. by apply Forall_cons in Hb' as [_ Hb'].
Qed.

(** The arguments that no key of the configuration files names. *)
Definition unbound (p : ProgArgs) :=
  (KubeConfig (pa_NRTupdater p), args_ResourceExclude (pa_Resourcemonitor p),
   args_PodExclude (pa_Resourcemonitor p), rte_TopologyManagerPolicy (pa_RTE p),
   rte_TopologyManagerScope (pa_RTE p), rte_KubeletConfigFile (pa_RTE p),
   rte_ReferenceContainer (pa_RTE p), rte_MaxEventsPerTimeUnit (pa_RTE p),
   pa_Version p, pa_DumpConfig p).

Definition keeps {X} (f : ProgArgs → X) (b : binding) : Prop :=
  ∀ v p p', b_put b v p = Some p' → f p' = f p.

Lemma cbs_unbound : Forall (keeps unbound) cbs.
Proof. unfold cbs. repeat (constructor; [solve_binding|]). constructor. Qed.

(** ** Dispatching a configuration object *)

Section dispatch.
Context `{GoPlatform}.

(** The value a binding takes from a configuration value. *)
Definition b_convert (b : binding) (v : cfgVal) : option goVal :=
  match b, v with
  | BString _ _ _, CString s => Some (GString s)
  | BInt _ _ _, CFloat64 j => Some (GInt (int_of_float64 j))
  | BBool _ _ _, CBool x => Some (GBool x)
  | BDuration _ _ _, CFloat64 j => Some (GDuration (int_of_float64 j))
  | _, _ => None
  end.

Definition accepts (cm : gmap string cfgVal) (b : binding) : Prop :=
  ∀ v, cm !! b_key b = Some v → is_Some (b_convert b v).

(** What a binding reads once [cm] has been applied to [p]. *)
Definition updated (cm : gmap string cfgVal) (p : ProgArgs) (b : binding) : goVal :=
  match cm !! b_key b ≫= b_convert b with Some g => g | None => b_get b p end.

Lemma cm_Value_spec cm b p :
  match cm !! b_key b with
  | None => cm_Value cm b p = Ok p
  | Some v =>
      match b_convert b v with
      | None => ∃ e, cm_Value cm b p = Err e
      | Some g => ∃ p', b_put b g p = Some p' ∧ cm_Value cm b p = Ok p'
      end
  end.
Proof.
  destruct b as [k get set|k get set|k get set|k get set]; simpl;
    unfold cm_String, cm_Int, cm_Bool, cm_Duration; destruct (cm !! k) as [[]|]; simpl; eauto.
Qed.

Lemma dispatchBindings_keeps {X} (f : ProgArgs → X) cm l p :
  Forall (keeps f) l → f (dispatchBindings cm l p).1 = f p.
Proof.
  revert p. induction l as [|b l IH]; intros p Hl; [done|]. apply Forall_cons in Hl as [Hb Hl]. simpl.
  pose proof (cm_Value_spec cm b p) as Hspec. destruct (cm !! b_key b) as [v|].
  - destruct (b_convert b v) as [g|].
    + destruct Hspec as (p' & Hput & ->). rewrite IH by done. by eapply Hb.
    + by destruct Hspec as [e ->].
  - rewrite Hspec. by apply IH.
Qed.

Lemma dispatchBindings_spec cm l p :
  lenses l →
  ((dispatchBindings cm l p).2 = Ok () ↔ Forall (accepts cm) l) ∧
  ((dispatchBindings cm l p).2 = Ok () →
   ∀ b, b ∈ l → b_get b (dispatchBindings cm l p).1 = updated cm p b).
Proof.
  revert p. induction l as [|b l IH]; intros p Hl; [simpl; split; [naive_solver|set_solver]|].
  apply lenses_cons in Hl as (Hb & Hf & Hl). simpl. rewrite Forall_cons. unfold accepts at 1.
  pose proof (cm_Value_spec cm b p) as Hspec.
  destruct (cm !! b_key b) as [v|] eqn:Hv; [destruct (b_convert b v) as [g|] eqn:Hg|].
  - destruct Hspec as (p1 & Hput & ->). destruct (IH p1 Hl) as [Hok Hget]. split.
    { rewrite Hok. split; [|tauto]. intros ?. split; [|done]. intros v' ?. simplify_eq. by rewrite Hg. }
    intros Hr b' [->|Hb']%elem_of_cons.
    + rewrite dispatchBindings_keeps by (eapply Forall_impl; [exact Hf|]; intros ? [??]; done).
      rewrite (Hb _ _ _ Hput). unfold updated. by rewrite Hv; simpl; rewrite Hg.
    + rewrite Hget by done. unfold updated. destruct (cm !! b_key b' ≫= b_convert b'); [done|].
      rewrite Forall_forall in Hf. by eapply Hf.
  - destruct Hspec as [e ->]. simpl. split; [|done]. split; [done|].
    intros [Hacc _]. destruct (Hacc v eq_refl) as [? Hc]. by rewrite Hg in Hc.
  - rewrite Hspec. destruct (IH p Hl) as [Hok Hget]. split; [rewrite Hok; naive_solver|].
    intros Hr b' [->|Hb']%elem_of_cons; [|auto].
    rewrite dispatchBindings_keeps by (eapply Forall_impl; [exact Hf|]; intros ? [??]; done).
    unfold updated. by rewrite Hv.
Qed.

(** The reference container an object asks for; [None]: not an identity. *)
Definition refCnt_of (cm : gmap string cfgVal) : option (option SharedCPUs.ContainerIdent) :=
  match cm !! refCntKey with
  | None => Some None
  | Some (CString s) =>
      match SharedCPUs.ContainerIdentFromString s with Ok ci => Some ci | _ => None end
  | Some _ => None
  end.

(** The event rate an object asks for; [-1] and no value ask for none. *)
Definition maxEvents_of (cm : gmap string cfgVal) : option Z :=
  match cm !! maxEventsKey with
  | Some (CFloat64 j) => if int_of_float64 j =? -1 then None else Some (int_of_float64 j)
  | _ => None
  end.

Definition well_typed (cm : gmap string cfgVal) : Prop :=
  Forall (accepts cm) cbs ∧ is_Some (refCnt_of cm) ∧
  ∀ v, cm !! maxEventsKey = Some v → ∃ j, v = CFloat64 j.

Definition set_special (ci : option SharedCPUs.ContainerIdent) (maxEvents : option Z) (p : ProgArgs) :=
  store set_MaxEvents maxEvents (set_ReferenceContainer ci p).

Lemma dispatchSpecial_spec cm p :
  (∃ ci, refCnt_of cm = Some ci ∧ (∀ v, cm !! maxEventsKey = Some v → ∃ j, v = CFloat64 j) ∧
     dispatchSpecial cm p = (set_special ci (maxEvents_of cm) p, Ok ())) ∨
  (¬ (is_Some (refCnt_of cm) ∧ ∀ v, cm !! maxEventsKey = Some v → ∃ j, v = CFloat64 j) ∧
   ∃ e, (dispatchSpecial cm p).2 = Err e).
Proof.
  unfold dispatchSpecial, refCnt_of, maxEvents_of, cm_String, cm_Int, set_special.
  destruct (cm !! refCntKey) as [[s|f|b|t]|]; simpl;
    [|right; split; [intros [[? ?] _]; discriminate|eauto]..|].
  - destruct (SharedCPUs.ContainerIdentFromString s) as [ci|e|p'] eqn:Hci.
    + destruct (cm !! maxEventsKey) as [[]|]; simpl;
        try (right; split; [intros [_ Hj]; by destruct (Hj _ eq_refl)|eauto]; fail).
      * left. exists ci. split_and!; [done|naive_solver|]. by destruct (_ =? -1).
      * left. exists ci. split_and!; [done|naive_solver|done].
    + right. split; [intros [[? ?] _]; discriminate|simpl; eauto].
    + unfold SharedCPUs.ContainerIdentFromString in Hci. destruct (bool_decide _); [done|].
      by destruct (Split s "/") as [|? [|? [|? [|? ?]]]].
  - destruct (cm !! maxEventsKey) as [[]|]; simpl;
      try (right; split; [intros [_ Hj]; by destruct (Hj _ eq_refl)|eauto]; fail).
    + left. exists None. split_and!; [done|naive_solver|]. by destruct (_ =? -1).
    + left. exists None. split_and!; [done|naive_solver|done].
Qed.

Lemma b_get_special b ci me p : b ∈ cbs → b_get b (set_special ci me p) = b_get b p.
Proof.
  intros Hb. assert (Forall (λ b, b_get b (set_special ci me p) = b_get b p) cbs) as Hall;
    [|rewrite Forall_forall in Hall; by apply Hall].
  unfold cbs, set_special, store. destruct me; repeat (constructor; [reflexivity|]); constructor.
Qed.

Lemma dispatchConfObj_get cm p p' b :
  dispatchConfObj cm p = (p', Ok ()) → b ∈ cbs → b_get b p' = updated cm p b.
Proof.
  unfold dispatchConfObj. destruct (dispatchBindings_spec cm cbs p cbs_lenses) as [_ Hget].
  destruct (dispatchBindings cm cbs p) as [p1 [[]|e|w]]; simpl in *; [|done..]. intros Hs Hb.
  destruct (dispatchSpecial_spec cm p1) as [(ci & _ & _ & Heq)|(_ & e & He)]; rewrite Hs in *; [|done].
  injection Heq as ->. rewrite b_get_special by done. auto.
Qed.

End dispatch.
