(* ===== verification/Config.v ===== *)
(** * Loading the configuration

    Models [pkg/config/cfgfile.go], the path checks of
    [pkg/config/validation.go], [pkg/config/flags.go],
    [pkg/config/config.go] and [pkg/kloglevel/kloglevel.go].  The file system,
    the YAML decoder, [flatten] and the flags of [klog] are interfaces. *)

From Stdlib Require Import Ascii SpecFloat.
From S2P Require Import Prelude GoStrings GoTime PodRes Filepath Middleware Counters Metrics MetricsServer ResourceMonitor NRTUpdater GoFlag ConfigArgs.

(** ** Outside the program *)

Record DirEntry := { de_Name : string; de_IsRegular : bool }.

(** [os.ErrNotExist], also known as [fs.ErrNotExist]. *)
Definition ErrNotExist : error := Errorf "file does not exist".

(** What the configuration reads of the operating system. *)
Class ConfigFS := {
  EvalSymlinks : string → outcome string;
  ReadFile : string → outcome string;
  ReadDir : string → outcome (list DirEntry)
}.

Record Host := {
  environ : gmap string string;
  Getuid : Z;
  os_Hostname : outcome string
}.

Record kubeletParams := { kp_TopologyManagerPolicy : string; kp_TopologyManagerScope : string }.

Record config := {
  cf_Kubelet : kubeletParams;
  cf_ResourceExclude : gmap string (list string);
  cf_PodExclude : list PodExclude.Item
}.

Definition zero_config : config :=
  {| cf_Kubelet := {| kp_TopologyManagerPolicy := ""; kp_TopologyManagerScope := "" |};
     cf_ResourceExclude := ∅; cf_PodExclude := [] |}.

(** [sigs.k8s.io/yaml] into a generic object and into a [config], and
    [flatten.Flatten] with dotted keys. *)
Class YAMLLib := {
  yaml_object : Type;
  yaml_Unmarshal : string → outcome yaml_object;
  flatten_Flatten : yaml_object → outcome (gmap string cfgVal);
  yaml_Unmarshal_config : string → outcome config
}.

(** The flag values [klog.InitFlags] registers: whether one is boolean, its
    [Set] method, and the level it holds if it is a [*klog.Level]. *)
Class KlogLib := {
  klogValue : Type;
  klog_IsBoolFlag : klogValue → bool;
  klog_Set : string → klogValue → option klogValue;
  klog_Level : klogValue → option Z
}.

(** ** The files: [validation.go] and [cfgfile.go] *)

Definition DefaultConfigRoot : string := "/etc/rte".
Definition LegacyExtraConfigPath : string := "/etc/resource-topology-exporter/config.yaml".
Definition configDirExtra : string := "extra".

Definition SkipDirectory : error := Errorf "skip config directory".

Definition UserRunDir (uid : Z) : outcome string :=
  Ok (Filepath.Join ["/run"; "user"; Sprintf_d uid; "rte"]).

Definition UserHomeDir (env : gmap string string) : outcome string :=
  match env !! "HOME" with
  | None => Err SkipDirectory
  | Some homeDir =>
      if bool_decide (homeDir = "") then Err SkipDirectory else Ok (Filepath.Join [homeDir; ".rte"])
  end.

Definition staticPatterns : list string :=
  ["/etc/rte"; "/run/rte"; "/var/rte"; "/usr/local/etc/rte"; "/etc/resource-topology-exporter"].

(** The directories the functions name, appended; [SkipDirectory] skips. *)
Fixpoint addDirs (allowedPatterns : list string) (addDirFns : list (outcome string))
  : outcome (list string) :=
  match addDirFns with
  | [] => Ok allowedPatterns
  | addDirFn :: rest =>
      match addDirFn with
      | Ok userDir => addDirs (allowedPatterns ++ [userDir]) rest
      | Err err => if errors_Is err SkipDirectory then addDirs allowedPatterns rest else Err err
      | Panic p => Panic p
      end
  end.

Definition firstPrefix (cfgPath : string) (patterns : list string) : string :=
  match List.find (λ pattern, HasPrefix cfgPath pattern) patterns with
  | Some pattern => pattern
  | None => ""
  end.

Definition IsConfigRootAllowed (cfgPath : string) (addDirFns : list (outcome string)) : outcome string :=
  let! allowedPatterns := addDirs staticPatterns addDirFns in
  Ok (firstPrefix cfgPath allowedPatterns).

Section files.
Context `{MapOrder} `{GoPlatform} `{ConfigFS} `{YAMLLib} (host : Host).

(** The checks [ReadConfigletDir] and [ReadConfiglet] share, line by line:
    the path to read. *)
Definition validatePath (configPath : string) : outcome string :=
  let configRoot := Filepath.Clean configPath in
  let! cfgRoot :=
    match EvalSymlinks configRoot with
    | Ok cfgRoot => Ok cfgRoot
    | Err err => if errors_Is err ErrNotExist then Ok configRoot
                 else Err (Wrapf "failed to validate config path" err)
    | Panic p => Panic p
    end in
  let! pattern := IsConfigRootAllowed cfgRoot [UserRunDir (Getuid host); UserHomeDir (environ host)] in
  if bool_decide (pattern = "") then
    Err (Errorf ("failed to validate configRoot path " +:+ Sprintf_q cfgRoot +:+ ": does not match any allowed pattern"))
  else Ok cfgRoot.

Definition ReadConfigletDir (configPath : string) : outcome (list DirEntry) :=
  let! cfgRoot := validatePath configPath in ReadDir cfgRoot.

Definition ReadConfiglet (configPath : string) : outcome string :=
  let! cfgRoot := validatePath configPath in ReadFile cfgRoot.

Definition mergeConfObj (obj upd : gmap string cfgVal) : gmap string cfgVal :=
  foldl (λ obj (kv : string * cfgVal), <[kv.1 := kv.2]> obj) obj (range upd).

Definition loadConfiglet (confObj : gmap string cfgVal) (configPath : string)
  : outcome (gmap string cfgVal) :=
  let! data := ReadConfiglet configPath in
  let! obj := yaml_Unmarshal data in
  let! flat := flatten_Flatten obj in
  Ok (mergeConfObj confObj flat).

Fixpoint loadConfiglets (configletDir : string) (configlets : list DirEntry)
  (confObj : gmap string cfgVal) : outcome (gmap string cfgVal) :=
  match configlets with
  | [] => Ok confObj
  | configlet :: rest =>
      if negb (de_IsRegular configlet) then loadConfiglets configletDir rest confObj
      else
        let! confObj := loadConfiglet confObj (Filepath.Join [configletDir; de_Name configlet]) in
        loadConfiglets configletDir rest confObj
  end.

(** The object the files of the daemon describe. *)
Definition daemonConfObj (configPathRoot : string) : outcome (gmap string cfgVal) :=
  let! confObj := loadConfiglet ∅ (Filepath.Join [configPathRoot; "daemon"; "config.yaml"]) in
  let configletDir := Filepath.Join [configPathRoot; "daemon"; "config.yaml.d"] in
  match ReadConfigletDir configletDir with
  | Ok configlets => loadConfiglets configletDir configlets confObj
  | Err _ => Ok confObj
  | Panic p => Panic p
  end.

Definition fromDaemonFiles (pArgs : ProgArgs) (configPathRoot : string) : ProgArgs * outcome unit :=
  match daemonConfObj configPathRoot with
  | Ok confObj => dispatchConfObj confObj pArgs
  | Err e => (pArgs, Err e)
  | Panic p => (pArgs, Panic p)
  end.

Definition readExtraConfig (configPath : string) : outcome config :=
  match ReadConfiglet configPath with
  | Err err => if errors_Is err ErrNotExist then Ok zero_config else Err err
  | Panic p => Panic p
  | Ok data => yaml_Unmarshal_config data
  end.

Definition setupArgsFromConfig (pArgs : ProgArgs) (conf : config) : ProgArgs :=
  let pArgs := when (negb (bool_decide (cf_ResourceExclude conf = ∅)))
    (λ p, set_pa_Resourcemonitor
            (set_args_ResourceExclude (cf_ResourceExclude conf) (pa_Resourcemonitor p)) p) pArgs in
  let pArgs := when (negb (bool_decide (cf_PodExclude conf = [])))
    (λ p, set_pa_Resourcemonitor
            (set_args_PodExclude (cf_PodExclude conf) (pa_Resourcemonitor p)) p) pArgs in
  let pArgs := when (bool_decide (rte_TopologyManagerPolicy (pa_RTE pArgs) = ""))
    (λ p, set_pa_RTE (set_rte_TopologyManagerPolicy
            (kp_TopologyManagerPolicy (cf_Kubelet conf)) (pa_RTE p)) p) pArgs in
  when (bool_decide (rte_TopologyManagerScope (pa_RTE pArgs) = ""))
    (λ p, set_pa_RTE (set_rte_TopologyManagerScope
            (kp_TopologyManagerScope (cf_Kubelet conf)) (pa_RTE p)) p) pArgs.

Definition fromExtraFile (pArgs : ProgArgs) (extraConfigPath : string) : ProgArgs * outcome unit :=
  match readExtraConfig extraConfigPath with
  | Err err => (pArgs, Err (Wrapf "error getting exclude list from the configuration" err))
  | Panic p => (pArgs, Panic p)
  | Ok conf => (setupArgsFromConfig pArgs conf, Ok ())
  end.

Definition FromFiles (pArgs : ProgArgs) (configRoot extraConfigPath : string) : ProgArgs * outcome unit :=
  if bool_decide (configRoot = "") then
    (pArgs, Err (Errorf "configRoot is not allowed to be an empty string"))
  else if bool_decide (extraConfigPath = "") then
    (pArgs, Err (Errorf "extraConfigPath is not allowed to be an empty string"))
  else
    match fromDaemonFiles pArgs configRoot with
    | (pArgs, Err err) =>
        if negb (errors_Is err ErrNotExist) then (pArgs, Err err) else fromExtraFile pArgs extraConfigPath
    | (pArgs, Panic p) => (pArgs, Panic p)
    | (pArgs, Ok _) => fromExtraFile pArgs extraConfigPath
    end.
End files.

Definition FixExtraConfigPath (configRoot : string) : string :=
  Filepath.Join [configRoot; configDirExtra; "config.yaml"].

(** ** The command line: [flags.go] *)

Section flags.
Context `{KlogLib}.

(** The variables the flags write; the values of [klog]'s flags are kept by
    [klog] from one flag set to the next. *)
Record FlagVars := {
  fv_pArgs : ProgArgs;
  fv_refCnt : string;
  fv_configPath : string;
  fv_klog : list (string * klogValue)
}.

Definition with_pArgs (st : FlagVars) (p : ProgArgs) : FlagVars :=
  {| fv_pArgs := p; fv_refCnt := fv_refCnt st; fv_configPath := fv_configPath st; fv_klog := fv_klog st |}.

Definition set_fv_refCnt (st : FlagVars) (s : string) : FlagVars :=
  {| fv_pArgs := fv_pArgs st; fv_refCnt := s; fv_configPath := fv_configPath st; fv_klog := fv_klog st |}.

Definition set_fv_configPath (st : FlagVars) (s : string) : FlagVars :=
  {| fv_pArgs := fv_pArgs st; fv_refCnt := fv_refCnt st; fv_configPath := s; fv_klog := fv_klog st |}.

Definition set_fv_klog (st : FlagVars) (k : list (string * klogValue)) : FlagVars :=
  {| fv_pArgs := fv_pArgs st; fv_refCnt := fv_refCnt st; fv_configPath := fv_configPath st; fv_klog := k |}.

(** The [Value] of a bound flag: [stringValue], [intValue] or [int64Value],
    [boolValue], [durationValue]. *)
Definition bindingFlag (b : binding) : Flag FlagVars :=
  match b with
  | BString _ _ set =>
      {| IsBoolFlag := false; Set_ v st := Some (with_pArgs st (set v (fv_pArgs st))) |}
  | BInt _ _ set =>
      {| IsBoolFlag := false; Set_ v st := z ← ParseInt0 v; Some (with_pArgs st (set z (fv_pArgs st))) |}
  | BBool _ _ set =>
      {| IsBoolFlag := true; Set_ v st := x ← ParseBool v; Some (with_pArgs st (set x (fv_pArgs st))) |}
  | BDuration _ _ set =>
      {| IsBoolFlag := false; Set_ v st := z ← ParseDuration v; Some (with_pArgs st (set z (fv_pArgs st))) |}
  end.

Fixpoint klog_assign (name v : string) (klog : list (string * klogValue))
  : option (list (string * klogValue)) :=
  match klog with
  | [] => None
  | (n, val) :: rest =>
      if bool_decide (n = name) then val' ← klog_Set v val; Some ((n, val') :: rest)
      else rest' ← klog_assign name v rest; Some ((n, val) :: rest')
  end.

Definition klogFlag (kv : string * klogValue) : string * Flag FlagVars :=
  (kv.1, {| IsBoolFlag := klog_IsBoolFlag kv.2;
            Set_ v st := k ← klog_assign kv.1 v (fv_klog st); Some (set_fv_klog st k) |}).

Definition formal (klog : list (string * klogValue)) : list (string * Flag FlagVars) :=
  (klogFlag <$> klog) ++
  [("config", {| IsBoolFlag := false; Set_ v st := Some (set_fv_configPath st v) |})] ++
  ((λ b, (b_key b, bindingFlag b)) <$> flagBindings) ++
  [("reference-container", {| IsBoolFlag := false; Set_ v st := Some (set_fv_refCnt st v) |})].

(** The flags with their default values are the variables as they are, the
    reference container in its printed form.  Defining a flag twice panics. *)
Definition FromFlags (pArgs : ProgArgs) (klog : list (string * klogValue)) (args : list string)
  : run (ProgArgs * list (string * klogValue) * (string * string * outcome unit)) :=
  let st := {| fv_pArgs := pArgs;
               fv_refCnt := SharedCPUs.String (rte_ReferenceContainer (pa_RTE pArgs));
               fv_configPath := LegacyExtraConfigPath; fv_klog := klog |} in
  if negb (bool_decide (NoDup (formal klog).*1)) then Crashed "flag redefined"
  else
    match Parse (formal klog) args st with
    | Exit status => Exited status
    | Parsed st params =>
        let pArgs := fv_pArgs st in
        let klog := fv_klog st in
        if pa_Version pArgs then Done (pArgs, klog, (DefaultConfigRoot, LegacyExtraConfigPath, Ok ()))
        else
          let '(pArgs, err) :=
            if negb (bool_decide (fv_refCnt st = "")) then
              match SharedCPUs.ContainerIdentFromString (fv_refCnt st) with
              | Ok ci => (set_ReferenceContainer ci pArgs, Ok ())
              | Err e => (set_ReferenceContainer None pArgs, Err e)
              | Panic p => (pArgs, Panic p)
              end
            else (pArgs, Ok ()) in
          match err with
          | Err e => Done (pArgs, klog, (DefaultConfigRoot, LegacyExtraConfigPath, Err e))
          | Panic p => Crashed p
          | Ok _ =>
              match params with
              | [] => Done (pArgs, klog, (DefaultConfigRoot, fv_configPath st, Ok ()))
              | [configRoot] => Done (pArgs, klog, (configRoot, FixExtraConfigPath configRoot, Ok ()))
              | _ :: _ :: _ =>
                  Done (pArgs, klog, (DefaultConfigRoot, fv_configPath st,
                    Err (Errorf ("too many config roots given (" +:+
                      Sprintf_d (Z.of_nat (length params)) +:+ "), currently supported up to 1"))))
              end
          end
    end.

(** ** The log level: [kloglevel.go] *)

(** The [Value] of a flag of the command line: one of [klog]'s, or a variable
    of the program. *)
Inductive FlagValue :=
| FKlog (v : klogValue)
| FProgram.

Definition command_line (klog : list (string * klogValue)) : list (string * FlagValue) :=
  ((λ kv, (kv.1, FKlog kv.2)) <$> klog) ++
  ((λ f, (f.1, FProgram)) <$> drop (length klog) (formal klog)).

Definition asLevel (v : FlagValue) : option Z :=
  match v with FKlog v => klog_Level v | FProgram => None end.

(** The name of the flag that holds the level, and the level. *)
Definition getKLogLevel (cmdline : list (string * FlagValue)) : option (string * Z) :=
  match f ← Lookup cmdline "v"; asLevel f with
  | Some level => Some ("v", level)
  | None =>
      foldl (λ found (f : string * FlagValue),
        match found with
        | Some _ => found
        | None => level ← asLevel f.2; Some (f.1, level)
        end) None (sortByName fst cmdline)
  end.

Definition kloglevel_Get (klog : list (string * klogValue)) : outcome Z :=
  match getKLogLevel (command_line klog) with
  | None => Err (Errorf "cannot get the log level programmatically")
  | Some (_, level) => Ok level
  end.

(** [freshSet]: the outcome of setting a level of its own, the fallback. *)
Definition kloglevel_Set (freshSet : string → outcome unit) (klog : list (string * klogValue)) (v : Z)
  : list (string * klogValue) * outcome unit :=
  let verbosity := Sprintf_d v in
  match getKLogLevel (command_line klog) with
  | Some (name, _) =>
      match klog_assign name verbosity klog with
      | Some klog' => (klog', Ok ())
      | None => (klog, Err (Errorf verbosity))
      end
  | None =>
      match freshSet verbosity with
      | Err e => (klog, Err (Errorf ("failed set klog.logging.verbosity " +:+ verbosity)))
      | r => (klog, r)
      end
  end.

(** ** [config.go] *)

(** [klog.Level] is a 32-bit integer. *)
Definition wrap32 (z : Z) : Z := (z + 2 ^ 31) `mod` 2 ^ 32 - 2 ^ 31.

(** The second reading of the level, in debug mode, returns its error. *)
Definition Finalize (host : Host) (freshSet : string → outcome unit) (pArgs : ProgArgs)
  (klog : list (string * klogValue)) : ProgArgs * list (string * klogValue) * outcome unit :=
  let '(pArgs, err) :=
    if bool_decide (Hostname (pa_NRTupdater pArgs) = "") then
      let '(name, err) := match os_Hostname host with
                          | Ok name => (name, Ok ()) | Err e => ("", Err e) | Panic p => ("", Panic p)
                          end in
      (set_pa_NRTupdater (set_Hostname name (pa_NRTupdater pArgs)) pArgs, err)
    else (pArgs, Ok ()) in
  let verb := wrap32 (ga_Verbose (pa_Global pArgs)) in
  let VL := kloglevel_Get klog in
  let err := match VL with Ok _ => Ok () | Err e => Err e | Panic p => Panic p end in
  let verb := match VL with Ok VL => if verb <? VL then VL else verb | _ => verb end in
  let klog := (kloglevel_Set freshSet klog verb).1 in
  let err :=
    if ga_Debug (pa_Global pArgs) then
      match kloglevel_Get klog with Ok _ => Ok () | Err e => Err e | Panic p => Panic p end
    else err in
  (pArgs, klog, err).
End flags.

Section load.
Context `{MapOrder} `{GoPlatform} `{PodFingerprintLib} `{ConfigFS} `{YAMLLib} `{KlogLib}.
Context (host : Host) (freshSet : string → outcome unit).

Definition set_Debug (v : bool) (p : ProgArgs) : ProgArgs :=
  set_pa_Global (set_ga_Debug v (pa_Global p)) p.

Definition LoadArgs (klog : list (string * klogValue)) (args : list string)
  : run (ProgArgs * list (string * klogValue) * outcome unit) :=
  let pArgs := SetDefaults zero_args in
  let tmp := ProgArgs_Clone pArgs in
  run! (tmp, klog, (configRoot, extraConfigPath, err)) := FromFlags tmp klog args in
  match err with
  | Err e => Done (pArgs, klog, Err e)
  | Panic p => Crashed p
  | Ok _ =>
      let pArgs := set_Debug (ga_Debug (pa_Global tmp)) pArgs in
      let pArgs := set_pa_Version (pa_Version tmp) pArgs in
      let pArgs := set_pa_DumpConfig (pa_DumpConfig tmp) pArgs in
      if pa_Version pArgs then Done (pArgs, klog, Ok ())
      else
        match FromFiles host pArgs configRoot extraConfigPath with
        | (pArgs, Err e) => Done (pArgs, klog, Err e)
        | (_, Panic p) => Crashed p
        | (pArgs, Ok _) =>
            let pArgs := FromEnv (environ host) pArgs in
            run! (pArgs, klog, (_, _, err)) := FromFlags pArgs klog args in
            match err with
            | Err e => Done (pArgs, klog, Err e)
            | Panic p => Crashed p
            | Ok _ =>
                match Validate pArgs with
                | (pArgs, Err e) => Done (pArgs, klog, Err e)
                | (_, Panic p) => Crashed p
                | (pArgs, Ok _) => Done (Finalize host freshSet pArgs klog)
                end
            end
        end
  end.
End load.
