(* ===== verification/ConfigLoad.v ===== *)
(** * What loading the configuration guarantees

    No file outside the allowed directories has any influence
    ([LoadArgs_isolated]), and the layers override each other in the
    documented order ([LoadArgs_precedence]): the command line, then the
    environment and the files, then the defaults. *)

From Stdlib Require Import Ascii SpecFloat.
From S2P Require Import Prelude GoStrings GoTime PodRes Filepath Middleware Counters Metrics MetricsServer ResourceMonitor NRTUpdater GoFlag MonitorProps ConfigArgs ConfigProps Config.

(** ** Only allowed files are read *)

Section allowed.
Context (host : Host).

Definition userDirs : list (outcome string) := [UserRunDir (Getuid host); UserHomeDir (environ host)].

(** The path starts with one of the allowed patterns. *)
Definition allowed (path : string) : Prop :=
  ∃ pattern, (pattern ∈ staticPatterns ∨ Ok pattern ∈ userDirs) ∧ HasPrefix path pattern = true.

Lemma addDirs_sound patterns fns out :
  addDirs patterns fns = Ok out → ∀ p, p ∈ out → p ∈ patterns ∨ Ok p ∈ fns.
Proof.
  revert patterns. induction fns as [|fn fns IH]; intros patterns Hadd p Hp; simpl in Hadd.
  - naive_solver.
  - destruct fn as [dir|e|w]; [| |done].
    + destruct (IH _ Hadd p Hp) as [Hin|Hin]; [|by right; right].
      apply elem_of_app in Hin as [Hin| ->%list_elem_of_singleton]; [by left|by right; left].
    + destruct (errors_Is e SkipDirectory); [|done].
      destruct (IH _ Hadd p Hp); [by left|by right; right].
Qed.

Lemma firstPrefix_sound path patterns :
  firstPrefix path patterns ≠ "" →
  firstPrefix path patterns ∈ patterns ∧ HasPrefix path (firstPrefix path patterns) = true.
Proof.
  unfold firstPrefix. destruct (List.find _ patterns) as [p|] eqn:Hf; [|done]. intros _.
  apply List.find_some in Hf as [Hin Hp]. by apply list_elem_of_In in Hin.
Qed.

Lemma validatePath_allowed `{ConfigFS} configPath path :
  validatePath host configPath = Ok path → allowed path.
Proof.
  unfold validatePath. intros Hv. destruct_outcomes.
  match goal with Hif : (if bool_decide (?pat = "") then _ else _) = Ok _,
                  Ha : IsConfigRootAllowed _ _ = Ok _ |- _ =>
    case_bool_decide as Hpat; [discriminate Hif|]; unfold IsConfigRootAllowed in Ha;
    destruct_outcomes end.
  match goal with Hdirs : addDirs _ _ = Ok _ |- _ =>
    destruct (firstPrefix_sound _ _ Hpat) as [Hin Hpre]; apply (addDirs_sound _ _ _ Hdirs) in Hin end.
  eexists. split; [exact Hin|exact Hpre].
Qed.
End allowed.

(** A file system with the same names and links, and other contents. *)
Definition with_contents (fs : ConfigFS) (readFile : string → outcome string)
  (readDir : string → outcome (list DirEntry)) : ConfigFS :=
  {| EvalSymlinks := EvalSymlinks; ReadFile := readFile; ReadDir := readDir |}.

Section isolation.
Context `{MapOrder} `{GoPlatform} `{PodFingerprintLib} `{fs : ConfigFS} `{YAMLLib} `{KlogLib}.
Context (host : Host) (readFile : string → outcome string) (readDir : string → outcome (list DirEntry)).
Context (Hfiles : ∀ path, allowed host path → readFile path = ReadFile path).
Context (Hdirs : ∀ path, allowed host path → readDir path = ReadDir path).

Lemma ReadConfiglet_isolated configPath :
  @ReadConfiglet (with_contents fs readFile readDir) host configPath = ReadConfiglet host configPath.
Proof.
  unfold ReadConfiglet. change (@validatePath (with_contents _ _ _) host configPath) with (validatePath host configPath).
  destruct (validatePath host configPath) as [path|e|w] eqn:Hv; [|done..]. simpl.
  apply Hfiles. by eapply validatePath_allowed.
Qed.

Lemma ReadConfigletDir_isolated configPath :
  @ReadConfigletDir (with_contents fs readFile readDir) host configPath = ReadConfigletDir host configPath.
Proof.
  unfold ReadConfigletDir. change (@validatePath (with_contents _ _ _) host configPath) with (validatePath host configPath).
  destruct (validatePath host configPath) as [path|e|w] eqn:Hv; [|done..]. simpl.
  apply Hdirs. by eapply validatePath_allowed.
Qed.

Lemma loadConfiglet_isolated confObj configPath :
  @loadConfiglet _ (with_contents fs readFile readDir) _ host confObj configPath = loadConfiglet host confObj configPath.
Proof. unfold loadConfiglet. by rewrite ReadConfiglet_isolated. Qed.

Lemma loadConfiglets_isolated dir entries confObj :
  @loadConfiglets _ (with_contents fs readFile readDir) _ host dir entries confObj = loadConfiglets host dir entries confObj.
Proof.
  revert confObj. induction entries as [|e entries IH]; intros confObj; [done|]. simpl.
  rewrite loadConfiglet_isolated. destruct (negb _); [apply IH|].
  destruct (loadConfiglet host confObj _); simpl; auto.
Qed.

Lemma FromFiles_isolated pArgs configRoot extraConfigPath :
  @FromFiles _ _ (with_contents fs readFile readDir) _ host pArgs configRoot extraConfigPath =
  FromFiles host pArgs configRoot extraConfigPath.
Proof.
  unfold FromFiles, fromDaemonFiles, fromExtraFile, readExtraConfig, daemonConfObj.
  rewrite loadConfiglet_isolated, ReadConfigletDir_isolated, ReadConfiglet_isolated.
  destruct (loadConfiglet host ∅ _) as [obj|e|w]; simpl; [|done..].
  destruct (ReadConfigletDir host _) as [entries|e|w]; simpl; [|done..].
  by rewrite loadConfiglets_isolated.
Qed.
End isolation.


(** ** What the command line does *)

(** The value a flag takes from its text. *)
Definition b_parse (b : binding) (v : string) : option goVal :=
  match b with
  | BString _ _ _ => Some (GString v)
  | BInt _ _ _ => GInt <$> ParseInt0 v
  | BBool _ _ _ => GBool <$> ParseBool v
  | BDuration _ _ _ => GDuration <$> ParseDuration v
  end.

Section flags.
Context `{KlogLib}.
Implicit Types (klog : list (string * klogValue)) (st : FlagVars).

Lemma bindingFlag_spec b v st st' :
  Set_ (bindingFlag b) v st = Some st' ↔
  ∃ g p', b_parse b v = Some g ∧ b_put b g (fv_pArgs st) = Some p' ∧ st' = with_pArgs st p'.
Proof.
  destruct b as [k get set|k get set|k get set|k get set]; simpl.
  - naive_solver.
  - destruct (ParseInt0 v); naive_solver.
  - destruct (ParseBool v); naive_solver.
  - destruct (ParseDuration v); naive_solver.
Qed.

Lemma elem_of_formal klog n f :
  (n, f) ∈ formal klog →
  (∃ kv, kv ∈ klog ∧ (n, f) = klogFlag kv) ∨
  (n = "config" ∧ ∀ v st st', Set_ f v st = Some st' → st' = set_fv_configPath st v) ∨
  (∃ b, b ∈ flagBindings ∧ n = b_key b ∧ f = bindingFlag b) ∨
  (n = "reference-container" ∧ ∀ v st st', Set_ f v st = Some st' → st' = set_fv_refCnt st v).
Proof.
  unfold formal. rewrite !elem_of_app, !list_elem_of_fmap, !list_elem_of_singleton.
  intros [(kv & Heq & Hin)|[[= -> ->]|[(b & [= -> ->] & Hin)|[= -> ->]]]].
  - left. exists kv. done.
  - right; left. split; [done|]. simpl. naive_solver.
  - right; right; left. eauto.
  - right; right; right. split; [done|]. simpl. naive_solver.
Qed.

(** Assigning to a flag writes its own argument and no other. *)
Lemma Set_frame klog n f v st st' b :
  Lookup (formal klog) n = Some f → Set_ f v st = Some st' → b ∈ flagBindings → n ≠ b_key b →
  b_get b (fv_pArgs st') = b_get b (fv_pArgs st).
Proof.
  intros Hf Hset Hb Hne. apply Lookup_elem_of, elem_of_formal in Hf
    as [([n' val] & _ & [= -> ->])|[(-> & Hs)|[(b' & Hb' & -> & ->)|(-> & Hs)]]].
  - simpl in Hset. destruct (klog_assign _ _ _); simpl in Hset; by simplify_eq.
  - by rewrite (Hs _ _ _ Hset).
  - apply bindingFlag_spec in Hset as (g & p' & _ & Hput & ->). simpl.
    pose proof (lenses_frames _ flagBindings_lenses) as Hframes.
    rewrite Forall_forall in Hframes. specialize (Hframes b Hb).
    rewrite Forall_forall in Hframes. exact (Hframes b' Hb' (not_eq_sym Hne) _ _ _ Hput).
  - by rewrite (Hs _ _ _ Hset).
Qed.

Lemma Lookup_formal klog b :
  NoDup (formal klog).*1 → b ∈ flagBindings → Lookup (formal klog) (b_key b) = Some (bindingFlag b).
Proof.
  intros Hnd Hb. apply Lookup_NoDup; [done|]. unfold formal. rewrite !elem_of_app. right; right; left.
  by apply (list_elem_of_fmap_2 (λ b, (b_key b, bindingFlag b))).
Qed.

Definition assigned (l : list (string * string)) (p : ProgArgs) (b : binding) : goVal :=
  match last_value l (b_key b) ≫= b_parse b with Some g => g | None => b_get b p end.

Lemma assign_spec klog l st st' b :
  NoDup (formal klog).*1 → assign (formal klog) l st = Some st' → b ∈ flagBindings →
  b_get b (fv_pArgs st') = assigned l (fv_pArgs st) b ∧
  ∀ v, last_value l (b_key b) = Some v → is_Some (b_parse b v).
Proof.
  intros Hnd Hassign Hb. revert st Hassign. induction l as [|[n v] l IH]; intros st Hassign; simpl in Hassign.
  { simplify_eq. done. }
  destruct (Lookup (formal klog) n) as [f|] eqn:Hf; [|done]. simpl in Hassign.
  destruct (Set_ f v st) as [st1|] eqn:Hset; [|done]. simpl in Hassign.
  destruct (IH st1 Hassign) as [Hget Hparse]. unfold assigned. simpl.
  destruct (last_value l (b_key b)) as [v'|] eqn:Hlast.
  - unfold assigned in Hget. rewrite Hlast in Hget. split; [|naive_solver]. rewrite Hget. simpl.
    destruct (Hparse v' eq_refl) as [g Hg]. by rewrite Hg.
  - unfold assigned in Hget. rewrite Hlast in Hget. simpl in Hget. rewrite Hget. case_bool_decide as Hn.
    + subst n. rewrite Lookup_formal in Hf by done. injection Hf as <-.
      apply bindingFlag_spec in Hset as (g & p' & Hg & Hput & ->). simpl. rewrite Hg.
      pose proof (lenses_lens _ flagBindings_lenses) as Hlens. rewrite Forall_forall in Hlens.
      split; [by eapply Hlens|]. intros v0 [= <-]. by rewrite Hg.
    + simpl. split; [by eapply Set_frame|done].
Qed.
End flags.

(** What is known of [klog]'s flag values: setting one does not change its
    kind, and a level set from a printed 32-bit number holds that number. *)
Class KlogLaws `{KlogLib} := {
  klog_Set_kind : ∀ v x y, klog_Set v x = Some y → klog_IsBoolFlag y = klog_IsBoolFlag x;
  klog_Set_level : ∀ x level z, klog_Level x = Some level → - 2 ^ 31 ≤ z < 2 ^ 31 →
    ∃ y, klog_Set (Sprintf_d z) x = Some y ∧ klog_Level y = Some z
}.

Section from_flags.
Context `{KlogLaws}.
Implicit Types klog : list (string * klogValue).

Definition shape klog : list (string * bool) := (λ kv, (kv.1, klog_IsBoolFlag kv.2)) <$> klog.

Lemma klog_assign_shape name v klog klog' :
  klog_assign name v klog = Some klog' → shape klog' = shape klog.
Proof.
  revert klog'. induction klog as [|[n x] klog IH]; intros klog' Ha; simpl in Ha; [done|].
  case_bool_decide.
  - destruct (klog_Set v x) as [y|] eqn:Hy; simpl in Ha; simplify_eq. unfold shape.
    rewrite !fmap_cons. simpl. by rewrite (klog_Set_kind _ _ _ Hy).
  - destruct (klog_assign name v klog) as [rest|] eqn:Hrest; simpl in Ha; simplify_eq.
    unfold shape in *. rewrite !fmap_cons. by rewrite IH.
Qed.

Lemma assign_shape klog l st st' :
  assign (formal klog) l st = Some st' → shape (fv_klog st') = shape (fv_klog st).
Proof.
  revert st. induction l as [|[n v] l IH]; intros st Ha; simpl in Ha; [by simplify_eq|].
  destruct (Lookup (formal klog) n) as [f|] eqn:Hf; [|done]. simpl in Ha.
  destruct (Set_ f v st) as [st1|] eqn:Hset; [|done]. rewrite (IH _ Ha).
  apply Lookup_elem_of, elem_of_formal in Hf
    as [([n' val] & _ & [= -> ->])|[(-> & Hs)|[(b' & Hb' & -> & ->)|(-> & Hs)]]].
  - simpl in Hset. destruct (klog_assign _ _ _) as [k|] eqn:Hk; simpl in Hset; simplify_eq.
    by apply klog_assign_shape in Hk.
  - by rewrite (Hs _ _ _ Hset).
  - by apply bindingFlag_spec in Hset as (g & p' & _ & Hput & ->).
  - by rewrite (Hs _ _ _ Hset).
Qed.

Lemma Lookup_fmap {A B} (f : A → B) (l : list (string * A)) n :
  Lookup ((λ kv, (kv.1, f kv.2)) <$> l) n = f <$> Lookup l n.
Proof. induction l as [|[n' x] l IH]; simpl; [done|]. by case_bool_decide. Qed.

Lemma assignments_shape klog klog' args :
  shape klog = shape klog' → assignments (formal klog) args = assignments (formal klog') args.
Proof.
  intros Hshape. apply assignments_ext. intros n.
  rewrite <- !(Lookup_fmap IsBoolFlag). f_equal. unfold formal. rewrite !fmap_app. f_equal.
  rewrite <- !list_fmap_compose. exact Hshape.
Qed.

Lemma b_get_refCnt b ci p : b ∈ flagBindings → b_get b (set_ReferenceContainer ci p) = b_get b p.
Proof.
  intros Hb. assert (Forall (λ b, b_get b (set_ReferenceContainer ci p) = b_get b p) flagBindings) as Hall;
    [|rewrite Forall_forall in Hall; by apply Hall].
  unfold flagBindings. repeat (constructor; [reflexivity|]). constructor.
Qed.

Lemma FromFlags_spec p klog args p' klog' root extra :
  FromFlags p klog args = Done (p', klog', (root, extra, Ok ())) →
  ∃ l params, assignments (formal klog) args = Some (l, params) ∧ shape klog' = shape klog ∧
    (pa_Version p' = false → root = default DefaultConfigRoot (head params)) ∧
    ∀ b, b ∈ flagBindings → b_get b p' = assigned l p b.
Proof.
  unfold FromFlags. destruct (bool_decide (NoDup _)) eqn:Hnd; [|done]. apply bool_decide_eq_true in Hnd. simpl.
  destruct (Parse _ _ _) as [st params|] eqn:Hparse; [|done].
  apply Parse_assign in Hparse as (l & Hl & Hassign). intros Hres. exists l, params.
  split; [done|]. assert (∀ b, b ∈ flagBindings → b_get b (fv_pArgs st) = assigned l p b) as Hget.
  { intros b Hb. by destruct (assign_spec _ _ _ _ b Hnd Hassign Hb) as [Hget _]. }
  apply assign_shape in Hassign. simpl in Hassign.
  destruct (pa_Version (fv_pArgs st)) eqn:Hv; [simplify_eq; split_and!; [done|congruence|done]|].
  destruct (if negb (bool_decide (fv_refCnt st = "")) then _ else _) as [p1 err] eqn:Href.
  assert (∀ b, b ∈ flagBindings → b_get b p1 = assigned l p b) as Hget1.
  { intros b Hb. rewrite <- Hget by done. destruct (negb _); [|by simplify_eq].
    destruct (SharedCPUs.ContainerIdentFromString _); simplify_eq; try done; by apply b_get_refCnt. }
  destruct err as [[]|e|w]; [|simplify_eq..]. destruct params as [|r [|? ?]]; simplify_eq; done.
Qed.
End from_flags.

(** ** The order of the layers *)

(** The arguments less those that the environment, the extra file, the checks
    or the first reading of the flags may write. *)
Definition core (p : ProgArgs) : ProgArgs :=
  let p := set_Debug false p in
  let p := set_pa_Version false p in
  let p := set_pa_DumpConfig "" p in
  let p := set_pa_NRTupdater (set_Hostname "" (pa_NRTupdater p)) p in
  let r := pa_Resourcemonitor p in
  let r := set_args_ResourceExclude ∅ (set_args_PodExclude [] r) in
  let r := set_PodSetFingerprintMethod "" (set_PodSetFingerprintStatusFile "" r) in
  let p := set_pa_Resourcemonitor r p in
  let t := pa_RTE p in
  let t := set_rte_TopologyManagerPolicy "" (set_rte_TopologyManagerScope "" t) in
  let t := set_rte_MetricsMode "" (set_rte_MetricsPort 0 (set_rte_MetricsAddress "" t)) in
  set_pa_RTE (set_rte_ReferenceContainer None t) p.

Lemma when_keeps {X} (g : ProgArgs → X) b f p : (∀ p, g (f p) = g p) → g (when b f p) = g p.
Proof. by destruct b; simpl. Qed.

Lemma core_FromEnv env p : core (FromEnv env p) = core p.
Proof.
  unfold FromEnv. cbv zeta.
  do 7 (etrans; [apply when_keeps; intros; reflexivity|]). reflexivity.
Qed.

Lemma core_setupArgs p conf : core (setupArgsFromConfig p conf) = core p.
Proof.
  unfold setupArgsFromConfig. cbv zeta.
  do 4 (etrans; [apply when_keeps; intros; reflexivity|]). reflexivity.
Qed.

Lemma core_Validate `{PodFingerprintLib} p : core (Validate p).1 = core p.
Proof.
  unfold Validate. destruct (ServingModeIsSupported _) as [mode [e|]]; [done|].
  by destruct (PFPMethodIsSupported _) as [meth [e|]].
Qed.

Lemma core_Finalize `{KlogLib} host freshSet p klog : core (Finalize host freshSet p klog).1.1 = core p.
Proof.
  unfold Finalize. case_bool_decide; [|done]. by destruct (os_Hostname host).
Qed.

Definition binding_of (bs : list binding) (key : string) : option binding :=
  List.find (λ b, bool_decide (b_key b = key)) bs.

(** The arguments that have both a flag and a key in the files, and no other
    source. *)
Definition layered : list (string * string) :=
  [("kubeconfig", "global.kubeconfig");
   ("no-publish", "nrtUpdater.noPublish"); ("oneshot", "nrtUpdater.oneShot");
   ("patch-mode", "nrtUpdater.patchMode"); ("patch-resync", "nrtUpdater.patchResync");
   ("watch-namespace", "resourceMonitor.namespace"); ("sysfs", "resourceMonitor.sysfsRoot");
   ("refresh-node-resources", "resourceMonitor.refreshNodeResources");
   ("pods-fingerprint", "resourceMonitor.podSetFingerprint");
   ("expose-timing", "resourceMonitor.exposeTiming");
   ("exclude-terminal-pods", "resourceMonitor.excludeTerminalPods");
   ("podresources-socket", "topologyExporter.podResourcesSocketPath");
   ("sleep-interval", "topologyExporter.sleepInterval");
   ("podreadiness", "topologyExporter.podReadinessEnable");
   ("notify-file", "topologyExporter.notifyFilePath");
   ("add-nrt-owner", "topologyExporter.addNRTOwnerEnable");
   ("metrics-certs-dir", "topologyExporter.metricsTLS.certsDir");
   ("metrics-cert-file", "topologyExporter.metricsTLS.certFile");
   ("metrics-key-file", "topologyExporter.metricsTLS.keyFile");
   ("metrics-want-cli-auth", "topologyExporter.metricsTLS.wantCliAuth");
   ("metrics-tls-min-version", "topologyExporter.metricsTLS.minTLSVersion");
   ("metrics-tls-cipher-suites", "topologyExporter.metricsTLS.cipherSuites")].

(** A flag and a key of the table name the same argument, one of the core. *)
Definition paired (fk : string * string) : Prop :=
  ∃ fb cb, binding_of flagBindings fk.1 = Some fb ∧ binding_of cbs fk.2 = Some cb ∧
    (∀ p, b_get fb p = b_get cb p) ∧ (∀ p, b_get fb (core p) = b_get fb p).

Lemma layered_paired fk : fk ∈ layered → paired fk.
Proof.
  revert fk. apply Forall_forall. unfold layered.
  repeat (constructor; [eexists _, _; split; [reflexivity|split; [reflexivity|split; intros p; reflexivity]]|]).
  constructor.
Qed.

Lemma binding_of_elem bs key b : binding_of bs key = Some b → b ∈ bs ∧ b_key b = key.
Proof.
  intros Hf. apply List.find_some in Hf as [Hin Hk]. apply bool_decide_eq_true in Hk.
  by apply list_elem_of_In in Hin.
Qed.

(** The host name has a flag and a key too, and other sources. *)
Definition hostname_flag : binding :=
  BString "hostname" (λ p, Hostname (pa_NRTupdater p))
    (λ v p, set_pa_NRTupdater (set_Hostname v (pa_NRTupdater p)) p).

Definition hostname_key : binding :=
  BString "nrtUpdater.hostname" (λ p, Hostname (pa_NRTupdater p))
    (λ v p, set_pa_NRTupdater (set_Hostname v (pa_NRTupdater p)) p).

Section precedence.
Context `{MapOrder} `{GoPlatform} `{PodFingerprintLib} `{ConfigFS} `{YAMLLib} `{KlogLaws}.
Context (host : Host).

(** The object of the daemon's files; missing files are an empty object. *)
Definition file_object (root : string) : gmap string cfgVal :=
  match daemonConfObj host root with Ok obj => obj | _ => ∅ end.

Lemma cm_Value_exists cm b p e : cm_Value cm b p = Err e → errors_Is e ErrNotExist = false.
Proof.
  destruct b; simpl; unfold cm_String, cm_Int, cm_Bool, cm_Duration;
    destruct (cm !! _) as [[]|]; simpl; naive_solver.
Qed.

(** A refused configuration object is never taken for a missing file. *)
Lemma dispatch_exists cm p p' e : dispatchConfObj cm p = (p', Err e) → errors_Is e ErrNotExist = false.
Proof.
  unfold dispatchConfObj. destruct (dispatchBindings cm cbs p) as [p1 r] eqn:Hb.
  assert (∀ e, r = Err e → errors_Is e ErrNotExist = false) as Hr.
  { intros e' ->. revert p Hb. induction cbs as [|b bs IH]; intros p Hb; simpl in Hb; [done|].
    destruct (cm_Value cm b p) as [p2|e2|w] eqn:Hv; [by eapply IH| |done].
    simplify_eq. by eapply cm_Value_exists. }
  clear Hb. destruct r as [[]|e1|w]; [|intros [= _ <-]; by apply Hr|done]. clear Hr.
  unfold dispatchSpecial, cm_String, cm_Int.
  destruct (cm !! refCntKey) as [[s|f|b|t]|]; simpl; [|by intros [= _ <-]..|];
    [unfold SharedCPUs.ContainerIdentFromString; destruct (bool_decide (s = ""));
       [|destruct (Split s "/") as [|? [|? [|? [|? ?]]]]; try by intros [= _ <-]]|];
    destruct (cm !! maxEventsKey) as [[]|]; by intros [= _ <-].
Qed.

Lemma FromFiles_layer p root extra p' :
  FromFiles host p root extra = (p', Ok ()) →
  (∀ cb, cb ∈ cbs → (∀ q, b_get cb (core q) = b_get cb q) → b_get cb p' = updated (file_object root) p cb) ∧
  GString (Hostname (pa_NRTupdater p')) =
    updated (file_object root) p hostname_key.
Proof.
  unfold FromFiles. do 2 (case_bool_decide; [done|]). unfold fromExtraFile. intros Hff.
  assert (∃ conf p1, p' = setupArgsFromConfig p1 conf ∧
    ∀ cb, cb ∈ cbs → b_get cb p1 = updated (file_object root) p cb) as (conf & p1 & -> & Hp1).
  { unfold fromDaemonFiles in Hff. unfold file_object. destruct (daemonConfObj host root) as [obj|e|w]; [| |done].
    - destruct (dispatchConfObj obj p) as [p1 r] eqn:Hobj. destruct r as [[]|e|w]; [|by rewrite (dispatch_exists _ _ _ _ Hobj) in Hff|done].
      destruct (readExtraConfig host extra) as [conf|?|?]; [|done..]. simplify_eq.
      exists conf, p1. split; [done|]. intros cb. by apply dispatchConfObj_get.
    - destruct (negb _); [done|]. destruct (readExtraConfig host extra) as [conf|?|?]; [|done..].
      simplify_eq. exists conf, p. split; [done|]. intros cb _. unfold updated. by rewrite lookup_empty. }
  split.
  - intros cb Hcb Hcore. rewrite <- Hcore, core_setupArgs, Hcore. by apply Hp1.
  - rewrite <- Hp1 by (apply (binding_of_elem cbs "nrtUpdater.hostname"); reflexivity). simpl. f_equal.
    unfold setupArgsFromConfig. cbv zeta.
    do 4 (etrans; [apply (when_keeps (λ p, Hostname (pa_NRTupdater p))); intros; reflexivity|]). reflexivity.
Qed.

(** The host name before the last resort, the operating system. *)
Definition host_name (l : list (string * string)) (obj : gmap string cfgVal) : string :=
  let file := match obj !! "nrtUpdater.hostname" with Some (CString s) => s | _ => "" end in
  let env := if decide (file = "") then LookupOr (environ host) "NODE_NAME" else file in
  default env (last_value l "hostname").

Lemma FromEnv_Hostname env p :
  Hostname (pa_NRTupdater (FromEnv env p)) =
  if decide (Hostname (pa_NRTupdater p) = "") then LookupOr env "NODE_NAME" else Hostname (pa_NRTupdater p).
Proof.
  unfold FromEnv. cbv zeta.
  do 6 (etrans; [apply (when_keeps (λ p, Hostname (pa_NRTupdater p))); intros; reflexivity|]).
  case_bool_decide; case_decide; done.
Qed.

Context (freshSet : string → outcome unit).

Lemma LoadArgs_stages klog args p klog' :
  LoadArgs host freshSet klog args = Done (p, klog', Ok ()) → pa_Version p = false →
  ∃ tmp klog1 root extra p2 p4 klog2 p5,
    FromFlags (ProgArgs_Clone (SetDefaults zero_args)) klog args = Done (tmp, klog1, (root, extra, Ok ())) ∧
    pa_Version tmp = false ∧
    FromFiles host (set_pa_DumpConfig (pa_DumpConfig tmp) (set_pa_Version (pa_Version tmp)
      (set_Debug (ga_Debug (pa_Global tmp)) (SetDefaults zero_args)))) root extra = (p2, Ok ()) ∧
    (∃ root' extra', FromFlags (FromEnv (environ host) p2) klog1 args = Done (p4, klog2, (root', extra', Ok ()))) ∧
    Validate p4 = (p5, Ok ()) ∧ Finalize host freshSet p5 klog2 = (p, klog', Ok ()).
Proof.
  unfold LoadArgs. intros Hload Hv.
  destruct (FromFlags _ klog args) as [[[tmp klog1] [[root extra] [[]|e|w]]]|s|w]; simpl in Hload; simplify_eq.
  destruct (pa_Version tmp) eqn:Hvt; [simplify_eq/=|].
  destruct (FromFiles host _ root extra) as [p2 [[]|e|w]] eqn:Hff; simplify_eq.
  destruct (FromFlags (FromEnv _ p2) klog1 args) as [[[p4 klog2] [[root' extra'] [[]|e|w]]]|s|w] eqn:Hf2;
    simpl in Hload; simplify_eq.
  destruct (Validate p4) as [p5 [[]|e|w]] eqn:Hval; simplify_eq.
  eexists tmp, klog1, root, extra, p2, p4, klog2, p5. rewrite Hvt in *. split_and!; eauto.
Qed.

Lemma Validate_Hostname p : Hostname (pa_NRTupdater (Validate p).1) = Hostname (pa_NRTupdater p).
Proof.
  unfold Validate. destruct (ServingModeIsSupported _) as [mode [e|]]; [done|].
  by destruct (PFPMethodIsSupported _) as [meth [e|]].
Qed.

Lemma Finalize_Hostname p klog :
  Hostname (pa_NRTupdater (Finalize host freshSet p klog).1.1) =
  if decide (Hostname (pa_NRTupdater p) = "") then match os_Hostname host with Ok name => name | _ => "" end
  else Hostname (pa_NRTupdater p).
Proof.
  unfold Finalize. case_bool_decide; case_decide; try done. by destruct (os_Hostname host).
Qed.
End precedence.

(** C13: the layers of configuration override each other in their order.
    For each argument with a flag and a key, a flag on the command line
    (the last one given) wins over the daemon's files under the configuration
    root of the command line, which win over the defaults; the host name is
    that of the command line, or that of the files, or [NODE_NAME], and the
    one the system reports only when this leaves it empty. *)
Theorem LoadArgs_precedence `{MapOrder} `{GoPlatform} `{PodFingerprintLib} `{ConfigFS} `{YAMLLib} `{KlogLaws}
    host freshSet klog args p klog'
    (Hload : LoadArgs host freshSet klog args = Done (p, klog', Ok ()))
    (Hrun : pa_Version p = false) :
  ∃ l params, assignments (formal klog) args = Some (l, params) ∧
    let obj := file_object host (default DefaultConfigRoot (head params)) in
    (∀ flag key, (flag, key) ∈ layered →
       ∃ fb cb, binding_of flagBindings flag = Some fb ∧ binding_of cbs key = Some cb ∧
         b_get fb p =
           match last_value l flag ≫= b_parse fb with
           | Some g => g
           | None => match obj !! key ≫= b_convert cb with
                     | Some g => g
                     | None => b_get fb (SetDefaults zero_args)
                     end
           end) ∧
    Hostname (pa_NRTupdater p) =
      (if decide (host_name host l obj = "") then match os_Hostname host with Ok name => name | _ => "" end
       else host_name host l obj).
Proof.
  apply LoadArgs_stages in Hload as (tmp & klog1 & root & extra & p2 & p4 & klog2 & p5 & Hf1 & Hvt & Hff &
    (root' & extra' & Hf2) & Hval & Hfin); [|done].
  apply FromFlags_spec in Hf1 as (l & params & Hl & Hshape & Hroot & _). specialize (Hroot Hvt). subst root.
  apply FromFlags_spec in Hf2 as (l' & params' & Hl' & _ & _ & Hget).
  rewrite (assignments_shape klog1 klog) in Hl' by done. rewrite Hl in Hl'. simplify_eq.
  exists l', params'. split; [done|]. apply FromFiles_layer in Hff as [Hlayer Hhost].
  assert (core p = core p4) as Hcore.
  { pose proof (core_Finalize host freshSet p5 klog2) as Hc. rewrite Hfin in Hc. simpl in Hc. rewrite Hc.
    pose proof (core_Validate p4) as Hc'. by rewrite Hval in Hc'. }
  split.
  - intros flag key (fb & cb & Hfb & Hcb & Hsame & Hin)%layered_paired. cbn [fst snd] in Hfb, Hcb. exists fb, cb.
    split_and!; [done..|]. destruct (binding_of_elem _ _ _ Hfb) as [Hfb' <-].
    destruct (binding_of_elem _ _ _ Hcb) as [Hcb' <-].
    rewrite <- Hin, Hcore, Hin, Hget by done. unfold assigned.
    destruct (last_value l' (b_key fb) ≫= b_parse fb); [done|].
    rewrite <- Hin, core_FromEnv, Hin, Hsame, Hlayer by (try done; intros q; by rewrite <- !Hsame).
    unfold updated. destruct (_ !! b_key cb ≫= b_convert cb); [done|]. rewrite Hsame, <- !Hsame, <- Hin.
    rewrite <- (Hin (SetDefaults zero_args)). reflexivity.
  - pose proof (Finalize_Hostname host freshSet p5 klog2) as Hh. rewrite Hfin in Hh. simpl in Hh. rewrite Hh.
    pose proof (Validate_Hostname p4) as Hh'. rewrite Hval in Hh'. simpl in Hh'. rewrite Hh'.
    assert (Hostname (pa_NRTupdater p4) = host_name host l' (file_object host (default DefaultConfigRoot (head params'))))
      as ->; [|done].
    pose proof (FromEnv_Hostname (environ host) p2) as He. remember (FromEnv (environ host) p2) as p3 eqn:Hp3.
    clear Hp3. specialize (Hget hostname_flag (proj1 (binding_of_elem flagBindings "hostname" hostname_flag eq_refl))).
    unfold assigned in Hget. cbn [b_get b_key b_parse hostname_flag] in Hget. unfold host_name.
    destruct (last_value l' "hostname") as [v|]; simpl in Hget; [by injection Hget|].
    injection Hget as ->. rewrite He.
    unfold updated in Hhost. cbn [b_key b_get b_convert hostname_key] in Hhost.
    by destruct (file_object host _ !! "nrtUpdater.hostname") as [[]|]; simpl in Hhost; injection Hhost as ->.
Qed.

(** ** A configuration *)

(** On amd64 an out-of-range conversion gives the least integer. *)
Definition amd64 : GoPlatform := {| float64_overflow _ := int64_min |}.

(** A daemon configuration with one configlet. *)
Definition example_files : gmap string string :=
  {["/etc/rte/daemon/config.yaml" := "main"; "/etc/rte/daemon/config.yaml.d/10-more.yaml" := "more"]}.

Definition example_fs : ConfigFS := {|
  EvalSymlinks path := Ok path;
  ReadFile path := match example_files !! path with Some s => Ok s | None => Err ErrNotExist end;
  ReadDir path := if bool_decide (path = "/etc/rte/daemon/config.yaml.d")
                  then Ok [{| de_Name := "10-more.yaml"; de_IsRegular := true |}] else Err ErrNotExist |}.

Definition example_yaml : YAMLLib := {|
  yaml_object := gmap string cfgVal;
  yaml_Unmarshal data :=
    if bool_decide (data = "main")
    then Ok {["nrtUpdater.oneShot" := CBool true; "topologyExporter.sleepInterval" := CFloat64 (float64 30000000000)]}
    else if bool_decide (data = "more")
    then Ok {["topologyExporter.sleepInterval" := CFloat64 (float64 20000000000)]}
    else Err (Errorf "yaml");
  flatten_Flatten obj := Ok obj;
  yaml_Unmarshal_config _ := Ok zero_config |}.

Definition example_klog : KlogLib := {|
  klogValue := Z + string;
  klog_IsBoolFlag _ := false;
  klog_Set s v := match v with
    | inl _ => match Atoi s with (z, None) => Some (inl z) | _ => None end
    | inr _ => Some (inr s)
    end;
  klog_Level v := match v with inl z => Some z | inr _ => None end |}.

Definition example_klog_laws : @KlogLaws example_klog.
Proof.
  split; [done|]. intros [level'|s] level z Hl Hz; [|discriminate Hl].
  exists (inl z). split; [|done]. simpl. unfold Atoi.
  by rewrite ParseInt_Sprintf_int64 by (unfold int64_ok, int64_min, int64_max; lia).
Defined.

Definition example_klog_flags : list (string * @klogValue example_klog) := [("v", inl 0); ("vmodule", inr "")].

Definition example_host : Host :=
  {| environ := {["NODE_NAME" := "node0"; "HOME" := "/root"]}; Getuid := 1000; os_Hostname := Ok "localhost" |}.

Definition example_klog_set : list (string * @klogValue example_klog) := [("v", inl 4); ("vmodule", inr "")].

Definition example_args : list string := ["--sleep-interval=10s"; "-v"; "4"].

#[local] Existing Instances canonical_order amd64 example_pfp example_yaml example_klog example_klog_laws.

Definition example_loaded : ProgArgs := Eval vm_compute in
  match @LoadArgs _ _ _ example_fs _ _ example_host (λ _, Ok ()) example_klog_flags example_args with
  | Done (p, _, _) => p | _ => zero_args
  end.

Lemma LoadArgs_precedence_witness :
  @LoadArgs _ _ _ example_fs _ _ example_host (λ _, Ok ()) example_klog_flags example_args =
    Done (example_loaded, example_klog_set, Ok ()) ∧
  ∃ l params, assignments (formal example_klog_flags) example_args = Some (l, params) ∧
    let obj := @file_object _ example_fs _ example_host (default DefaultConfigRoot (head params)) in
    Hostname (pa_NRTupdater example_loaded) =
      (if decide (host_name example_host l obj = "")
       then match os_Hostname example_host with Ok name => name | _ => "" end
       else host_name example_host l obj).
Proof.
  assert (@LoadArgs _ _ _ example_fs _ _ example_host (λ _, Ok ()) example_klog_flags example_args =
    Done (example_loaded, example_klog_set, Ok ())) as Hload by (vm_compute; reflexivity).
  split; [exact Hload|].
  destruct (LoadArgs_precedence example_host (λ _, Ok ()) example_klog_flags example_args
    example_loaded example_klog_set Hload eq_refl) as (l & params & Hl & _ & Hhost).
  exists l, params. split; [exact Hl|exact Hhost].
Defined.

(** The flag wins over both files, the files over the default. *)
Example example_loaded_values :
  rte_SleepInterval (pa_RTE example_loaded) = 10 * Second ∧
  Oneshot (pa_NRTupdater example_loaded) = true ∧
  Hostname (pa_NRTupdater example_loaded) = "node0".
Proof. vm_compute. auto. Qed.

(** Somebody else's file. *)
Definition example_other (path : string) : outcome string :=
  if bool_decide (path = "/etc/passwd") then Ok "main" else @ReadFile example_fs path.


(** ** What goes wrong *)

(** When the system cannot tell its name, loading goes on with an empty one:
    the error of [os.Hostname] is overwritten by the reading of the log
    level. *)
Theorem Finalize_hostname_lost `{KlogLib} host freshSet p klog level e :
  Hostname (pa_NRTupdater p) = "" → os_Hostname host = Err e → kloglevel_Get klog = Ok level →
  ga_Debug (pa_Global p) = false →
  let '(p', _, r) := Finalize host freshSet p klog in r = Ok () ∧ Hostname (pa_NRTupdater p') = "".
Proof.
  intros Hname Herr Hlevel Hdebug. unfold Finalize. rewrite bool_decide_eq_true_2, Herr by done.
  cbn [fst snd pa_Global set_pa_NRTupdater]. by rewrite Hlevel, Hdebug.
Qed.

(** The check of the configuration root compares strings and not path
    elements. *)
Example allowed_sibling : IsConfigRootAllowed "/etc/rte-of-somebody-else" [] = Ok "/etc/rte".
Proof. reflexivity. Qed.

(** The port and the address of the metrics endpoint have non-empty defaults,
    so that the environment is never asked for them unless a file clears
    them. *)
Lemma FromEnv_metrics `{PodFingerprintLib} env p :
  pa_RTE p = pa_RTE (SetDefaults zero_args) →
  rte_MetricsPort (pa_RTE (FromEnv env p)) = PortDefault ∧
  rte_MetricsAddress (pa_RTE (FromEnv env p)) = AddressDefault.
Proof.
  intros Hp. unfold FromEnv. cbv zeta. split.
  - do 2 (etrans; [apply (when_keeps (λ p, rte_MetricsPort (pa_RTE p))); intros; reflexivity|]).
    match goal with |- rte_MetricsPort (pa_RTE (when _ _ ?q)) = _ =>
      assert (rte_MetricsPort (pa_RTE q) = PortDefault) as Hq end.
    { do 4 (etrans; [apply (when_keeps (λ p, rte_MetricsPort (pa_RTE p))); intros; reflexivity|]).
      by rewrite Hp. }
    unfold when at 1. by rewrite Hq.
  - etrans; [apply (when_keeps (λ p, rte_MetricsAddress (pa_RTE p))); intros; reflexivity|].
    match goal with |- rte_MetricsAddress (pa_RTE (when _ _ ?q)) = _ =>
      assert (rte_MetricsAddress (pa_RTE q) = AddressDefault) as Hq end.
    { do 5 (etrans; [apply (when_keeps (λ p, rte_MetricsAddress (pa_RTE p))); intros; reflexivity|]).
      by rewrite Hp. }
    unfold when at 1. by rewrite bool_decide_eq_false_2 by (rewrite Hq; done).
Qed.
