(* ===== verification/ConfigTyped.v ===== *)
(** * The type of the loaded arguments

    Every integer the configuration delivers fits its 64-bit field, whichever
    layer it comes from, and the two enumerations hold one of their values
    ([LoadArgs_typed]).  The parser of durations never runs out of fuel. *)

From Stdlib Require Import Ascii SpecFloat.
From S2P Require Import Prelude GoStrings GoTime PodRes Filepath Middleware Counters Metrics MetricsServer ResourceMonitor NRTUpdater GoFlag MonitorProps ConfigArgs ConfigProps Config ConfigLoad.

(** ** Numbers of the command line *)

Lemma digit_val_nonneg c d : digit_val c = Some d → 0 ≤ d.
Proof.
  unfold digit_val. case_match eqn:Hc; intros; simplify_eq. by apply andb_true_iff in Hc as [Hc%Z.leb_le _].
Qed.

Lemma any_digit_val_nonneg c d : any_digit_val c = Some d → 0 ≤ d.
Proof.
  unfold any_digit_val, digit_val. repeat case_match; intros; simplify_eq;
    rewrite ?andb_true_iff, ?Z.leb_le in *; lia.
Qed.

Lemma digits_val_nonneg base s n un : 0 ≤ base → 0 ≤ n → digits_val base s n = Some un → 0 ≤ un.
Proof.
  intros Hb. revert n. induction s as [|c s IH]; intros n Hn; simpl; [by intros [= <-]|].
  destruct (Ascii.eqb c "_"); [by apply IH|]. destruct (any_digit_val c) as [d|] eqn:Hd; [|done].
  apply any_digit_val_nonneg in Hd. destruct (base <=? d); [done|]. apply IH. nia.
Qed.

Lemma base_prefix_nonneg s : 0 ≤ (base_prefix s).1.
Proof. unfold base_prefix. repeat (case_match; simpl; try lia). Qed.

Lemma ParseInt0_ok s z : ParseInt0 s = Some z → int64_ok z.
Proof.
  unfold ParseInt0, int64_ok, int64_min, int64_max.
  destruct (match s with "" => _ | String _ _ => _ end) as [neg body]. case_bool_decide; [done|].
  pose proof (base_prefix_nonneg body) as Hb. destruct (base_prefix body) as [base digits]. simpl in Hb.
  destruct (digits_val base digits 0) as [un|] eqn:Hun; [|done]. apply digits_val_nonneg in Hun; [|lia..].
  destruct (negb _); [done|]. destruct neg.
  - destruct (Z.ltb_spec (2 ^ 63) un); [done|]. intros [= <-]. lia.
  - destruct (Z.leb_spec (2 ^ 63) un); [done|]. intros [= <-]. lia.
Qed.

(** *** Durations *)

(** The sign bit is clear. *)
Definition nonneg_float (f : spec_float) : Prop :=
  match f with S754_zero s | S754_infinity s | S754_finite s _ _ => s = false | S754_nan => True end.

Lemma binary_round_aux_nonneg prec emax m e l : nonneg_float (binary_round_aux prec emax false m e l).
Proof.
  unfold binary_round_aux. destruct (shr_fexp _ _ _ _ _) as [r1 e1].
  destruct (shr_fexp _ _ _ _ _) as [r2 e2]. destruct (shr_m r2); simpl; [done| |done].
  by destruct (_ <=? _).
Qed.

Lemma float64_nonneg z : 0 ≤ z → nonneg_float (float64 z).
Proof.
  intros Hz. unfold float64, binary_normalize. destruct z as [|m|m]; [done| |lia].
  unfold binary_round. destruct (shl_align _ _ _). apply binary_round_aux_nonneg.
Qed.

Lemma float64_mul_nonneg x y : nonneg_float x → nonneg_float y → nonneg_float (float64_mul x y).
Proof.
  unfold float64_mul, SFmul. destruct x, y; simpl; intros; subst; try done; apply binary_round_aux_nonneg.
Qed.

Lemma float64_div_nonneg x y : nonneg_float x → nonneg_float y → nonneg_float (float64_div x y).
Proof.
  unfold float64_div, SFdiv. destruct x, y; simpl; intros; subst; try done.
  repeat case_match; try done; apply binary_round_aux_nonneg.
Qed.

Lemma float64_trunc_nonneg f : nonneg_float f → 0 ≤ float64_trunc f.
Proof.
  destruct f as [s|s| |s m e]; simpl; try lia. intros ->. destruct (Z.leb_spec 0 e); [|apply Z.div_pos; lia].
  apply Z.mul_nonneg_nonneg; [lia|]. apply Z.pow_nonneg. lia.
Qed.

Lemma leadingInt_ok s x x' rest :
  0 ≤ x → leadingInt s x = Some (x', rest) → 0 ≤ x' ∧ (String.length rest ≤ String.length s)%nat.
Proof.
  revert x. induction s as [|c s IH]; intros x Hx; simpl; [intros [= <- <-]; simpl; lia|].
  destruct (digit_val c) as [d|] eqn:Hd; [|intros [= <- <-]; simpl; lia].
  destruct (_ <? x); [done|]. destruct (_ <? _); [done|]. intros Hl%IH; [lia|].
  apply digit_val_nonneg in Hd. lia.
Qed.

Lemma leadingFraction_ok s x scale ov :
  0 ≤ x → nonneg_float scale →
  let '(f, scale', rest) := leadingFraction s x scale ov in
  0 ≤ f ∧ nonneg_float scale' ∧ (String.length rest ≤ String.length s)%nat.
Proof.
  revert x scale ov. induction s as [|c s IH]; intros x scale ov Hx Hs; simpl; [split_and!; [done..|lia]|].
  destruct (digit_val c) as [d|] eqn:Hd; [|split_and!; [done..|simpl; lia]].
  apply digit_val_nonneg in Hd.
  assert (∀ y scale ov, 0 ≤ y → nonneg_float scale →
    let '(f, scale', rest) := leadingFraction s y scale ov in
    0 ≤ f ∧ nonneg_float scale' ∧ (String.length rest ≤ S (String.length s))%nat) as IH'.
  { intros y sc o Hy Hsc. specialize (IH y sc o Hy Hsc). destruct (leadingFraction s y sc o) as [[??]?].
    destruct IH as (?&?&?). split_and!; [done..|lia]. }
  destruct ov; [by apply IH'|]. destruct (_ <? x); [by apply IH'|].
  destruct (_ <? _); [by apply IH'|]. apply IH'; [lia|]. by apply float64_mul_nonneg.
Qed.

Lemma cut_unit_length s :
  String.length s = (String.length (cut_unit s).1 + String.length (cut_unit s).2)%nat.
Proof.
  induction s as [|c s IH]; simpl; [done|]. destruct (number_char c); [done|].
  destruct (cut_unit s). simpl in *. by rewrite IH.
Qed.

Lemma unitMap_ok u unit : unitMap u = Some unit → 0 ≤ unit ∧ (0 < String.length u)%nat.
Proof.
  unfold unitMap, Nanosecond, Microsecond, Millisecond, Second.
  destruct u as [|c u]; [done|]. intros Hu. split; [|simpl; lia].
  repeat case_match; simplify_eq; lia.
Qed.

Lemma parse_term_ok s v rest :
  parse_term s = Some (v, rest) → 0 ≤ v ∧ (String.length rest < String.length s)%nat.
Proof.
  unfold parse_term. destruct s as [|c s]; [done|]. destruct (negb (number_char c)); [done|].
  destruct (leadingInt (String c s) 0) as [[v1 s1]|] eqn:Hi; [|done].
  apply leadingInt_ok in Hi as [Hv1 Hs1]; [|lia].
  assert (∃ f scale s2 post,
    match s1 with
    | String "." s1' =>
        let '(f, scale, s2) := leadingFraction s1' 0 (float64 1) false in
        (f, scale, s2, negb (String.length s2 =? String.length s1')%nat)
    | _ => (0, float64 1, s1, false)
    end = (f, scale, s2, post) ∧ 0 ≤ f ∧ nonneg_float scale ∧ (String.length s2 ≤ String.length s1)%nat)
    as (f & scale & s2 & post & -> & Hf & Hscale & Hs2).
  { assert (∃ f scale s2 post, (0, float64 1, s1, false) = (f, scale, s2, post) ∧ 0 ≤ f ∧ nonneg_float scale ∧
      (String.length s2 ≤ String.length s1)%nat) as Hplain.
    { eexists _, _, _, _. split; [done|]. split_and!; [lia|by apply float64_nonneg|done]. }
    destruct s1 as [|[[] [] [] [] [] [] [] []] s1']; try exact Hplain.
    pose proof (leadingFraction_ok s1' 0 (float64 1) false ltac:(lia) ltac:(by apply float64_nonneg)) as Hlf.
    destruct (leadingFraction s1' 0 (float64 1) false) as [[f scale] s2]. destruct Hlf as (?&?&?).
    eexists _, _, _, _. split; [done|]. split_and!; [done..|simpl; lia]. }
  destruct (negb _ && negb post); [done|].
  pose proof (cut_unit_length s2) as Hcut. destruct (cut_unit s2) as [u s3]. simpl in Hcut.
  destruct (unitMap u) as [unit|] eqn:Hu; [|done]. apply unitMap_ok in Hu as [Hunit Hlen].
  destruct (_ <? v1); [done|].
  set (v2 := if 0 <? f then _ else _). assert (0 ≤ v2) as Hv2.
  { unfold v2. destruct (0 <? f); [|nia]. apply Z.add_nonneg_nonneg; [nia|]. apply float64_trunc_nonneg.
    apply float64_mul_nonneg; [by apply float64_nonneg|]. apply float64_div_nonneg; [by apply float64_nonneg|done]. }
  destruct (_ <? v2); [done|]. intros [= <- <-]. split; [done|lia].
Qed.

(** A term consumes something, so the length of the text is fuel enough. *)
Lemma parse_terms_fuel fuel1 fuel2 s d :
  (String.length s ≤ fuel1)%nat → (String.length s ≤ fuel2)%nat →
  parse_terms fuel1 s d = parse_terms fuel2 s d.
Proof.
  revert fuel2 s d. induction fuel1 as [|fuel1 IH]; intros fuel2 s d H1 H2.
  - destruct s; simpl in H1; [by destruct fuel2|lia].
  - destruct s as [|c s]; [by destruct fuel2|]. destruct fuel2 as [|fuel2]; simpl in H2; [lia|].
    cbn [parse_terms]. destruct (parse_term (String c s)) as [[v rest]|] eqn:Ht; [|done].
    apply parse_term_ok in Ht as [_ Hlen]. simpl in Hlen, H1. destruct (_ <? _); [done|]. apply IH; lia.
Qed.

Lemma parse_terms_ok fuel s d d' :
  0 ≤ d ≤ 2 ^ 63 → parse_terms fuel s d = Some d' → 0 ≤ d' ≤ 2 ^ 63.
Proof.
  revert s d. induction fuel as [|fuel IH]; intros [|c s] d Hd; cbn [parse_terms];
    [by intros [= <-]|done|by intros [= <-]|].
  destruct (parse_term (String c s)) as [[v rest]|] eqn:Ht; [|done]. apply parse_term_ok in Ht as [Hv _].
  destruct (Z.ltb_spec (2 ^ 63) (d + v)); [done|]. apply IH. lia.
Qed.

Lemma ParseDuration_ok s z : ParseDuration s = Some z → int64_ok z.
Proof.
  unfold ParseDuration, int64_ok, int64_min, int64_max.
  destruct (match s with "" => _ | String _ _ => _ end) as [neg body].
  case_bool_decide; [intros [= <-]; lia|]. case_bool_decide; [done|].
  destruct (parse_terms _ body 0) as [d|] eqn:Hd; [|done]. apply parse_terms_ok in Hd; [|lia].
  destruct neg; [intros [= <-]; lia|]. destruct (Z.ltb_spec (2 ^ 63 - 1) d); [done|]. intros [= <-]. lia.
Qed.

Lemma parse_uint_loop_nonneg s n un err : 0 ≤ n → parse_uint_loop s n = (un, err) → 0 ≤ un.
Proof.
  revert n. induction s as [|c s IH]; intros n Hn; simpl; [by intros [= <- _]|].
  destruct (digit_val c) as [d|] eqn:Hd; [|by intros [= <- _]]. apply digit_val_nonneg in Hd.
  destruct (_ <=? n); [by intros [= <- _]|]. destruct (_ <? _); [by intros [= <- _]|]. apply IH. lia.
Qed.

Lemma parse_int_signed_ok neg body z : parse_int_signed neg body = (z, None) → int64_ok z.
Proof.
  unfold parse_int_signed, ParseUint, int64_ok, int64_min, int64_max.
  destruct body as [|c body]; [done|].
  destruct (parse_uint_loop (String c body) 0) as [un err] eqn:Hun. apply parse_uint_loop_nonneg in Hun; [|done].
  destruct err as [[]|]; [done|..];
    (destruct neg; simpl;
       [destruct (Z.ltb_spec (2 ^ 63) un); [done|]|destruct (Z.leb_spec (2 ^ 63) un); [done|]];
       intros [= <-]; lia).
Qed.

Lemma Atoi_ok s z : Atoi s = (z, None) → int64_ok z.
Proof.
  unfold Atoi, ParseInt. destruct s as [|c s]; [done|].
  repeat (case_match; try done); apply parse_int_signed_ok.
Qed.

(** What is known of the platform: an out-of-range conversion still gives a
    64-bit value. *)
Class GoPlatformLaws `{GoPlatform} := { float64_overflow_ok : ∀ f, int64_ok (float64_overflow f) }.

Lemma int_of_float64_ok `{GoPlatformLaws} f : int64_ok (int_of_float64 f).
Proof.
  unfold int_of_float64. destruct f as [s|s| |s m e]; try apply float64_overflow_ok;
    (case_bool_decide; [done|apply float64_overflow_ok]).
Qed.

(** ** The integers of the arguments *)

Definition ints (p : ProgArgs) : list Z :=
  [ga_Verbose (pa_Global p); PatchResync (pa_NRTupdater p); rte_SleepInterval (pa_RTE p);
   rte_MaxEventsPerTimeUnit (pa_RTE p); rte_TimeUnitToLimitEvents (pa_RTE p); rte_MetricsPort (pa_RTE p)].

Definition typed (p : ProgArgs) : Prop := Forall int64_ok (ints p).

Definition val_ok (v : goVal) : Prop :=
  match v with GInt z | GDuration z => int64_ok z | _ => True end.

(** Writing a value that fits keeps the arguments typed. *)
Definition keeps_typed (b : binding) : Prop :=
  ∀ v p p', val_ok v → b_put b v p = Some p' → typed p → typed p'.

Ltac solve_typed :=
  intros [] p p' Hv Hput; simpl in Hv, Hput; try discriminate Hput; injection Hput as <-;
  unfold typed, ints; simpl; rewrite !Forall_cons; tauto.

Lemma cbs_typed : Forall keeps_typed cbs.
Proof. unfold cbs. repeat (constructor; [solve_typed|]). constructor. Qed.

Lemma flagBindings_typed : Forall keeps_typed flagBindings.
Proof. unfold flagBindings. repeat (constructor; [solve_typed|]). constructor. Qed.

Lemma b_parse_ok b v g : b_parse b v = Some g → val_ok g.
Proof.
  destruct b; simpl; intros Hg; [by simplify_eq| | |].
  - destruct (ParseInt0 v) eqn:Hp; simplify_eq/=. by apply ParseInt0_ok in Hp.
  - destruct (ParseBool v); by simplify_eq/=.
  - destruct (ParseDuration v) eqn:Hp; simplify_eq/=. by apply ParseDuration_ok in Hp.
Qed.

(** An update of a part of the arguments that holds no integer. *)
Lemma typed_when b f p : (∀ p, ints (f p) = ints p) → typed p → typed (when b f p).
Proof. unfold typed, when. intros Hf Hp. destruct b; [by rewrite Hf|done]. Qed.

Section files.
Context `{GoPlatformLaws}.

Lemma b_convert_ok b v g : b_convert b v = Some g → val_ok g.
Proof. destruct b, v; simpl; intros; simplify_eq; try done; apply int_of_float64_ok. Qed.

Lemma dispatchBindings_typed cm l p :
  Forall keeps_typed l → typed p → typed (dispatchBindings cm l p).1.
Proof.
  revert p. induction l as [|b l IH]; intros p Hl Hp; [done|]. apply Forall_cons in Hl as [Hb Hl]. simpl.
  pose proof (cm_Value_spec cm b p) as Hspec. destruct (cm !! b_key b) as [v|].
  - destruct (b_convert b v) as [g|] eqn:Hg; [|by destruct Hspec as [e ->]].
    destruct Hspec as (p' & Hput & ->). apply IH; [done|]. apply b_convert_ok in Hg. by eapply Hb.
  - rewrite Hspec. by apply IH.
Qed.

Lemma dispatchConfObj_typed cm p : typed p → typed (dispatchConfObj cm p).1.
Proof.
  intros Hp%(dispatchBindings_typed cm cbs); [|apply cbs_typed]. unfold dispatchConfObj.
  destruct (dispatchBindings cm cbs p) as [p1 [[]|e|w]]; try done. clear p. simpl in Hp. unfold dispatchSpecial.
  destruct (cm_String cm refCntKey); [|done..].
  destruct (SharedCPUs.ContainerIdentFromString _); [|done..].
  unfold cm_Int. destruct (cm !! maxEventsKey) as [[]|]; try done. simpl.
  destruct (negb _); [|done]. unfold typed, ints in *. simpl. rewrite !Forall_cons in *.
  pose proof (int_of_float64_ok f). tauto.
Qed.

Lemma FromFiles_typed `{MapOrder} `{ConfigFS} `{YAMLLib} host p root extra :
  typed p → typed (FromFiles host p root extra).1.
Proof.
  assert (∀ q, typed q → typed (fromExtraFile host q extra).1) as Hextra.
  { intros q Hq. unfold fromExtraFile. destruct (readExtraConfig host extra) as [conf|e|w]; [|done..]. simpl.
    unfold setupArgsFromConfig. cbv zeta. repeat (apply typed_when; [done|]). done. }
  intros Hp. unfold FromFiles. do 2 (case_bool_decide; [done|]).
  unfold fromDaemonFiles. destruct (daemonConfObj host root) as [obj|e|w]; [| |done].
  - pose proof (dispatchConfObj_typed obj p Hp). destruct (dispatchConfObj obj p) as [p1 [[]|e|w]]; simpl in *; auto.
    destruct (negb _); auto.
  - destruct (negb _); auto.
Qed.
End files.

Lemma FromEnv_typed env p : typed p → typed (FromEnv env p).
Proof.
  intros Hp. unfold FromEnv. cbv zeta. do 2 (apply typed_when; [done|]).
  assert (∀ b q, typed q → typed (when b
    (λ p, set_pa_RTE (set_rte_MetricsPort (PortFromEnv env) (pa_RTE p)) p) q)) as Hport.
  { intros [] q Hq; [|done]. unfold when, typed, ints in *. simpl. rewrite !Forall_cons in *.
    assert (int64_ok (PortFromEnv env)); [|tauto]. unfold PortFromEnv.
    destruct (env !! _) as [s|]; [|done]. destruct (Atoi s) as [z []] eqn:Hz; [done|]. by apply Atoi_ok in Hz. }
  apply Hport. repeat (apply typed_when; [done|]). done.
Qed.

Section flags.
Context `{KlogLib}.

Lemma assign_typed klog l st st' :
  assign (formal klog) l st = Some st' → typed (fv_pArgs st) → typed (fv_pArgs st').
Proof.
  revert st. induction l as [|[n v] l IH]; intros st Ha Hst; simpl in Ha; [by simplify_eq|].
  destruct (Lookup (formal klog) n) as [f|] eqn:Hf; [|done]. simpl in Ha.
  destruct (Set_ f v st) as [st1|] eqn:Hset; [|done]. apply (IH _ Ha).
  apply Lookup_elem_of, elem_of_formal in Hf
    as [([n' val] & _ & [= -> ->])|[(-> & Hs)|[(b' & Hb' & -> & ->)|(-> & Hs)]]].
  - simpl in Hset. destruct (klog_assign _ _ _); by simplify_eq/=.
  - by rewrite (Hs _ _ _ Hset).
  - apply bindingFlag_spec in Hset as (g & p' & Hg%b_parse_ok & Hput & ->). simpl.
    pose proof flagBindings_typed as Ht. rewrite Forall_forall in Ht. by eapply (Ht b').
  - by rewrite (Hs _ _ _ Hset).
Qed.

Lemma FromFlags_typed p klog args p' klog' r :
  FromFlags p klog args = Done (p', klog', r) → typed p → typed p'.
Proof.
  unfold FromFlags. destruct (bool_decide (NoDup _)); [|done]. simpl.
  destruct (Parse _ _ _) as [st params|] eqn:Hparse; [|done].
  apply Parse_assign in Hparse as (l & _ & Hassign). intros Hres Hp.
  apply assign_typed in Hassign; [|done].
  destruct (pa_Version (fv_pArgs st)); [by simplify_eq|].
  destruct (if negb (bool_decide (fv_refCnt st = "")) then _ else _) as [p1 err] eqn:Href.
  assert (typed p1) as Hp1.
  { destruct (negb _); [|by simplify_eq].
    destruct (SharedCPUs.ContainerIdentFromString _); by simplify_eq. }
  destruct err as [[]|e|w]; [|by simplify_eq..]. destruct params as [|? [|? ?]]; by simplify_eq.
Qed.

Lemma Finalize_typed host freshSet p klog : typed p → typed (Finalize host freshSet p klog).1.1.
Proof. unfold Finalize. case_bool_decide; [|done]. by destruct (os_Hostname host). Qed.
End flags.

(** The values a supported serving mode and fingerprint method may take. *)
Definition modes : list string := [ServingDisabled; ServingHTTP; ServingHTTPTLS].

Lemma Validate_typed `{PodFingerprintLib} p : typed p → typed (Validate p).1.
Proof.
  unfold Validate. destruct (ServingModeIsSupported _) as [mode [e|]]; [done|].
  by destruct (PFPMethodIsSupported _) as [meth [e|]].
Qed.

Lemma Validate_enums `{PodFingerprintLib} p p' :
  Validate p = (p', Ok ()) →
  rte_MetricsMode (pa_RTE p') ∈ modes ∧
  PodSetFingerprintMethod (pa_Resourcemonitor p') ∈ [pfp_MethodAll; pfp_MethodWithExclusiveResources].
Proof.
  unfold Validate, ServingModeIsSupported, modes. set (mode := ToLower _).
  assert (∀ meth meth', PFPMethodIsSupported meth = (meth', None) →
    meth' ∈ [pfp_MethodAll; pfp_MethodWithExclusiveResources]) as Hmeth.
  { intros meth meth'. unfold PFPMethodIsSupported. set (m := ToLower meth). clearbody m.
    do 2 case_bool_decide; simpl; intros; simplify_eq; set_solver. }
  destruct (decide (mode ∈ [ServingDisabled; ServingHTTP; ServingHTTPTLS])) as [Hmode|Hmode].
  - assert ((if bool_decide (mode = ServingDisabled) then (mode, None)
      else if bool_decide (mode = ServingHTTP) then (mode, None)
      else if bool_decide (mode = ServingHTTPTLS) then (mode, None)
      else (mode, Some (Errorf ("unsupported method  " +:+ Sprintf_q (rte_MetricsMode (pa_RTE p)))))) = (mode, None)) as ->.
    { repeat case_bool_decide; try done. set_solver. }
    simpl. destruct (PFPMethodIsSupported _) as [meth [e|]] eqn:Hm; [done|]. intros [= <-]. simpl. eauto.
  - repeat (case_bool_decide; [set_solver|]). done.
Qed.

Lemma Finalize_enums `{KlogLib} host freshSet p klog :
  let p' := (Finalize host freshSet p klog).1.1 in
  (rte_MetricsMode (pa_RTE p'), PodSetFingerprintMethod (pa_Resourcemonitor p')) =
  (rte_MetricsMode (pa_RTE p), PodSetFingerprintMethod (pa_Resourcemonitor p)).
Proof. unfold Finalize. case_bool_decide; [|done]. by destruct (os_Hostname host). Qed.

Lemma LoadArgs_ok `{MapOrder} `{GoPlatformLaws} `{PodFingerprintLib} `{ConfigFS} `{YAMLLib} `{KlogLib}
    host freshSet klog args p klog' r
    (Hload : LoadArgs host freshSet klog args = Done (p, klog', r)) :
  typed p ∧
  (r = Ok () → pa_Version p = false →
   rte_MetricsMode (pa_RTE p) ∈ modes ∧
   PodSetFingerprintMethod (pa_Resourcemonitor p) ∈ [pfp_MethodAll; pfp_MethodWithExclusiveResources]).
Proof.
  assert (typed (SetDefaults zero_args)) as Ht0.
  { unfold typed, ints. repeat (apply Forall_cons_2; [by vm_compute|]). apply Forall_nil_2. }
  unfold LoadArgs in Hload.
  destruct (FromFlags _ klog args) as [[[tmp klog1] [[root extra] [[]|e|w]]]|s|w]; simpl in Hload; simplify_eq; [|done].
  set (p1 := set_pa_DumpConfig _ _) in Hload. assert (typed p1) as Ht1 by exact Ht0.
  assert (pa_Version p1 = pa_Version tmp) as Hv by done. clearbody p1.
  destruct (pa_Version tmp); [simplify_eq; split; [done|congruence]|].
  pose proof (FromFiles_typed host p1 root extra Ht1) as Ht2.
  destruct (FromFiles host p1 root extra) as [p2 [[]|e|w]]; simpl in Ht2; [|by simplify_eq..].
  apply (FromEnv_typed (environ host)) in Ht2.
  destruct (FromFlags (FromEnv _ p2) klog1 args) as [[[p4 klog2] [[root' extra'] err]]|s|w] eqn:Hf2; simpl in Hload; [|done..].
  apply FromFlags_typed in Hf2; [|done]. destruct err as [[]|e|w]; [|by simplify_eq..].
  pose proof (Validate_typed p4 Hf2) as Ht5. pose proof (Validate_enums p4) as Henum.
  destruct (Validate p4) as [p5 [[]|e|w]]; simpl in Ht5; [|by simplify_eq..].
  injection Hload as Hfin. pose proof (Finalize_typed host freshSet p5 klog2 Ht5) as Ht6.
  pose proof (Finalize_enums host freshSet p5 klog2) as Hkeep. rewrite Hfin in Ht6, Hkeep. simpl in Ht6, Hkeep.
  split; [done|]. intros _ _. injection Hkeep as -> ->. by apply Henum.
Qed.

(** C21: the type of the configuration.  Whatever the files, the environment
    and the command line say, every integer of the loaded arguments fits its
    64-bit field; when loading succeeds, the serving mode of the metrics is
    one of the three modes and the fingerprint method one of the two methods. *)
Theorem LoadArgs_typed `{MapOrder} `{GoPlatformLaws} `{PodFingerprintLib} `{ConfigFS} `{YAMLLib} `{KlogLib}
    host freshSet klog args p klog' r
    (Hload : LoadArgs host freshSet klog args = Done (p, klog', r)) :
  Forall int64_ok (ints p) ∧
  (r = Ok () → pa_Version p = false →
   rte_MetricsMode (pa_RTE p) ∈ modes ∧
   PodSetFingerprintMethod (pa_Resourcemonitor p) ∈ [pfp_MethodAll; pfp_MethodWithExclusiveResources]).
Proof. exact (LoadArgs_ok _ _ _ _ _ _ _ Hload). Qed.

#[local] Existing Instances canonical_order amd64 example_pfp example_yaml example_klog.

#[local] Instance amd64_laws : @GoPlatformLaws amd64.
Proof. split. intros f. unfold int64_ok. split; reflexivity || discriminate. Defined.

Lemma LoadArgs_typed_witness :
  @LoadArgs _ _ _ example_fs _ _ example_host (λ _, Ok ()) example_klog_flags example_args =
    Done (example_loaded, example_klog_set, Ok ()) ∧
  Forall int64_ok (ints example_loaded).
Proof.
  assert (@LoadArgs _ _ _ example_fs _ _ example_host (λ _, Ok ()) example_klog_flags example_args =
    Done (example_loaded, example_klog_set, Ok ())) as Hload by (vm_compute; reflexivity).
  split; [exact Hload|].
  exact (proj1 (LoadArgs_typed example_host (λ _, Ok ()) example_klog_flags example_args
    example_loaded example_klog_set (Ok ()) Hload)).
Defined.
