(* ===== verification/PfpDump.v ===== *)
(** * Dumping the fingerprint status

    Models [pkg/pfpdump/pfpdump.go]: each status of the pod fingerprint is
    written to a temporary file that is then renamed over the status file.
    The files are a map from clean paths to contents.  A run is the list of
    the file systems after each system call, which is what another process
    that reads the status file can find at any time, or what a crash leaves
    behind. *)

From Stdlib Require Import Ascii.
From S2P Require Import Prelude GoStrings Filepath.

Abbreviation Disk := (gmap string string).

(** [filepath.Split]: the directory keeps its separator. *)
Definition file_Split (path : string) : string * string :=
  let dir := upto_last_sep path in (dir, string_drop (String.length dir) path).

(** The part of a pattern before its last ['*'] and the part after it. *)
Fixpoint prefixAndSuffix (pattern : string) : string * string :=
  match pattern with
  | "" => ("", "")
  | String c rest =>
      if string_mem "*" rest then let '(p, s) := prefixAndSuffix rest in (String c p, s)
      else if Ascii.eqb c "*" then ("", rest)
      else (pattern, "")
  end.

(** The name [os.CreateTemp] makes of a pattern and of the digits it draws. *)
Definition tempName (pattern digits : string) : string :=
  let '(prefix, suffix) := prefixAndSuffix pattern in prefix +:+ digits +:+ suffix.

(** What the system answers to the calls of one dump: the numbers drawn for
    the name of the new file, how much of the data is written, the outcomes of
    the calls. *)
Record Answers := {
  an_create : outcome (list N);
  an_write : nat * option error;
  an_close : option error;
  an_rename : option error;
  an_remove : option error
}.

Section dump.
Context {Status : Type} (json_Marshal : Status → outcome string) (tempDir : string).

(** [os.CreateTemp] without a directory uses the system's. *)
Definition tempPath (dir file digits : string) : string :=
  Filepath.Join [if bool_decide (dir = "") then tempDir else dir; tempName ("__" +:+ file) digits].

(** [os.CreateTemp] tries names until one does not exist. *)
Fixpoint CreateTemp (dir file : string) (drawn : list N) (disk : Disk) : outcome string :=
  match drawn with
  | [] => Err (Errorf "file exists")
  | n :: rest =>
      let tmp := tempPath dir file (pretty n) in
      match disk !! tmp with None => Ok tmp | Some _ => CreateTemp dir file rest disk end
  end.

(** The deferred removal of the temporary file, whose error is ignored. *)
Definition removeTemp (an : Answers) (tmp : string) (disk : Disk) : Disk :=
  match an_remove an with None => delete tmp disk | Some _ => disk end.

(** The file systems after each call, oldest first, and the result. *)
Definition ToFile (st : Status) (dir file : string) (an : Answers) (disk : Disk)
  : list Disk * outcome unit :=
  match json_Marshal st with
  | Err e => ([], Err e)
  | Panic p => ([], Panic p)
  | Ok data =>
      match (let! drawn := an_create an in CreateTemp dir file drawn disk) with
      | Err e => ([], Err e)
      | Panic p => ([], Panic p)
      | Ok tmp =>
          let disk := <[tmp := ""]> disk in
          let trace := [disk] in
          let '(n, werr) := an_write an in
          let n := match werr with None => String.length data | Some _ => n end in
          let disk := <[tmp := String.substring 0 n data]> disk in
          let trace := trace ++ [disk] in
          match werr with
          | Some e => (trace ++ [removeTemp an tmp disk], Err e)
          | None =>
              match an_close an with
              | Some e => (trace ++ [removeTemp an tmp disk], Err e)
              | None =>
                  match an_rename an with
                  | Some e => (trace ++ [removeTemp an tmp disk], Err e)
                  | None =>
                      let disk := match disk !! tmp with
                                  | Some content => <[Filepath.Join [dir; file] := content]> (delete tmp disk)
                                  | None => disk
                                  end in
                      (trace ++ [disk; removeTemp an tmp disk], Ok ())
                  end
              end
          end
      end
  end.

Inductive DumpInput :=
| DumpUpdate (st : Status) (an : Answers)
| DumpDone.

Definition last_disk (disk : Disk) (trace : list Disk) : Disk := foldl (λ _ d, d) disk trace.

(** The loop ignores the errors and goes on until the context is done.  The
    statuses whose dump succeeded are kept for the specification. *)
Fixpoint dumpLoop_from (dir file : string) (inputs : list DumpInput) (disk : Disk)
  : list Disk * list Status :=
  match inputs with
  | [] | DumpDone :: _ => ([], [])
  | DumpUpdate st an :: rest =>
      let '(trace, r) := ToFile st dir file an disk in
      let '(trace', dumped) := dumpLoop_from dir file rest (last_disk disk trace) in
      (trace ++ trace', match r with Ok _ => st :: dumped | _ => dumped end)
  end.

Definition dumpLoop (dumpfile : string) (inputs : list DumpInput) (disk : Disk)
  : list Disk * list Status :=
  let '(dir, file) := file_Split dumpfile in dumpLoop_from dir file inputs disk.

(** [Execute]: without a status file there is nothing to do, and the statuses
    are not even asked for. *)
Definition Execute (dumpfile : string) (inputs : list DumpInput) (disk : Disk)
  : list Disk * list Status :=
  if bool_decide (dumpfile = "") then ([], []) else dumpLoop dumpfile inputs disk.
End dump.

(** ** Where the temporary file is *)

Lemma prefixAndSuffix_length pattern :
  let '(p, s) := prefixAndSuffix pattern in
  (String.length pattern ≤ S (String.length p + String.length s))%nat.
Proof.
  induction pattern as [|c rest IH]; simpl; [lia|].
  destruct (string_mem "*" rest).
  - destruct (prefixAndSuffix rest) as [p s]. simpl. lia.
  - destruct (Ascii.eqb c "*"); simpl; lia.
Qed.

Lemma tempName_longer file digits : (String.length file < String.length (tempName ("__" +:+ file) digits))%nat.
Proof.
  unfold tempName. pose proof (prefixAndSuffix_length ("__" +:+ file)) as Hlen.
  destruct (prefixAndSuffix _) as [p s]. rewrite string_length_app in Hlen.
  rewrite !string_length_app. simpl in Hlen. lia.
Qed.

Lemma prefixAndSuffix_free sep pattern :
  free_of sep pattern →
  free_of sep (prefixAndSuffix pattern).1 ∧ free_of sep (prefixAndSuffix pattern).2.
Proof.
  induction pattern as [|d rest IH]; simpl; [done|]. intros Hf. pose proof Hf as [Hd Hrest]%andb_True.
  destruct (string_mem "*" rest).
  - destruct (prefixAndSuffix rest) as [p s]. destruct (IH Hrest) as [Hp Hs]. simpl in *. split; [|done].
    by apply andb_True.
  - destruct (Ascii.eqb d "*"); simpl; done.
Qed.

Lemma tempName_free file digits :
  free_of "/" file → free_of "/" digits → free_of "/" (tempName ("__" +:+ file) digits).
Proof.
  intros Hfile Hdigits. destruct (prefixAndSuffix_free "/" ("__" +:+ file)) as [Hp Hs]; [done|].
  unfold tempName. destruct (prefixAndSuffix _) as [p s]. simpl in *.
  rewrite !free_of_app. by rewrite !andb_True.
Qed.

(** An element that [Clean] keeps. *)
Definition ordinary (elem : string) : Prop :=
  elem ≠ "" ∧ elem ≠ "." ∧ elem ≠ ".." ∧ free_of "/" elem.

Lemma clean_elems_snoc rooted elems e :
  ordinary e → clean_elems rooted (elems ++ [e]) = clean_elems rooted elems ++ [e].
Proof.
  intros (H0 & H1 & H2 & _). unfold clean_elems. rewrite foldl_app. simpl.
  unfold clean_step at 1. by rewrite !bool_decide_eq_false_2.
Qed.

Lemma Join_snoc_inj elems (a b sep : string) :
  GoStrings.Join (elems ++ [a]) sep = GoStrings.Join (elems ++ [b]) sep → a = b.
Proof.
  induction elems as [|e elems IH]; simpl; [done|].
  destruct elems as [|e' elems]; simpl in *; intros Heq.
  - by do 2 apply (inj (String.app _)) in Heq.
  - do 2 apply (inj (String.app _)) in Heq. by apply IH.
Qed.

Lemma HasPrefix_slash_app (dir s : string) : dir ≠ "" → HasPrefix (dir +:+ s) "/" = HasPrefix dir "/".
Proof. destruct dir as [|c dir]; [done|]. intros _.
  change (String c dir +:+ s) with (String c (dir +:+ s)). unfold HasPrefix. cbn [String.prefix].
  destruct (ascii_dec "/" c); [|done]. by destruct dir; [destruct s|].
Qed.

(** In one directory, different names are different paths. *)
Lemma Join_dir_inj dir a b :
  dir ≠ "" → ordinary a → ordinary b → Filepath.Join [dir; a] = Filepath.Join [dir; b] → a = b.
Proof.
  intros Hdir Ha Hb. assert (∀ e, ordinary e → Filepath.Join [dir; e] =
    (if HasPrefix dir "/" then "/" else "") +:+
    GoStrings.Join (clean_elems (HasPrefix dir "/") (Split dir "/") ++ [e]) "/") as Hjoin.
  { intros e He. cbn [Filepath.Join]. rewrite bool_decide_eq_false_2 by done.
    change (GoStrings.Join [dir; e] "/") with (dir +:+ String "/" e). unfold Clean, Separator.
    rewrite bool_decide_eq_false_2 by (destruct dir; done).
    rewrite HasPrefix_slash_app, Split_app by done.
    rewrite (Split_free e) by apply He. rewrite clean_elems_snoc by done.
    destruct (HasPrefix dir "/"); [done|]. rewrite bool_decide_eq_false_2; [done|].
    destruct (clean_elems _ _) as [|e0 [|e1 es]]; simpl; [apply He|..]; by destruct e0. }
  rewrite !Hjoin by done. intros Heq. apply (inj (String.app _)) in Heq. by apply Join_snoc_inj in Heq.
Qed.

Lemma tempName_head file digits : ∃ rest, tempName ("__" +:+ file) digits = "__" +:+ rest.
Proof.
  unfold tempName. change ("__" +:+ file) with (String "_" (String "_" file)). simpl.
  destruct (string_mem "*" file).
  - destruct (prefixAndSuffix file) as [p s]. by eexists.
  - by eexists.
Qed.

Lemma tempName_ordinary file digits :
  free_of "/" file → free_of "/" digits → ordinary (tempName ("__" +:+ file) digits).
Proof.
  intros Hfile Hdigits. pose proof (tempName_free _ _ Hfile Hdigits) as Hfree.
  destruct (tempName_head file digits) as [rest Hrest]. rewrite Hrest in *. done.
Qed.

Lemma tempPath_other tempDir dir file (n : N) :
  dir ≠ "" → ordinary file → tempPath tempDir dir file (pretty n) ≠ Filepath.Join [dir; file].
Proof.
  intros Hdir Hfile Heq. unfold tempPath in Heq. rewrite bool_decide_eq_false_2 in Heq by done.
  apply Join_dir_inj in Heq; [|done|apply tempName_ordinary; [apply Hfile|by apply free_of_pretty]|done].
  pose proof (tempName_longer file (pretty n)) as Hlen. rewrite Heq in Hlen. lia.
Qed.

(** ** What a reader of the status file sees *)

Section atomic.
Context {Status : Type} (json_Marshal : Status → outcome string) (tempDir dir file : string).
Context (Hdir : dir ≠ "") (Hfile : ordinary file).

Abbreviation dst := (Filepath.Join [dir; file]).

Lemma CreateTemp_spec drawn disk tmp :
  CreateTemp tempDir dir file drawn disk = Ok tmp → tmp ≠ dst ∧ disk !! tmp = None.
Proof using Hdir Hfile.
  induction drawn as [|n drawn IH]; simpl; [done|].
  destruct (disk !! tempPath tempDir dir file (pretty n)) eqn:Hn; [done|]. intros [= <-].
  split; [by apply tempPath_other|done].
Qed.

(** The files other than the status file, temporary files apart. *)
Definition keeps_others (disk disk' : Disk) : Prop :=
  ∀ path c, path ≠ dst → disk !! path = Some c → disk' !! path = Some c.

(** A file system that a dump of [st] may show. *)
Definition during (st : Status) (disk disk' : Disk) : Prop :=
  disk' !! dst = disk !! dst ∧ keeps_others disk disk'.

Definition dumped (st : Status) (disk disk' : Disk) : Prop :=
  (∃ data, json_Marshal st = Ok data ∧ disk' !! dst = Some data) ∧ keeps_others disk disk'.

Lemma write_during (st : Status) tmp s disk disk' :
  tmp ≠ dst → disk !! tmp = None → during st disk disk' → during st disk (<[tmp := s]> disk').
Proof.
  intros Hne Hfresh [Hdst Hothers]. split; [by rewrite lookup_insert_ne|].
  intros path c Hpath Hc. rewrite lookup_insert_ne by congruence. by apply Hothers.
Qed.

Lemma remove_keeps an tmp disk disk' :
  disk !! tmp = None → keeps_others disk disk' → keeps_others disk (removeTemp an tmp disk').
Proof.
  intros Hfresh Hothers path c Hpath Hc. unfold removeTemp.
  destruct (an_remove an); [|rewrite lookup_delete_ne by congruence]; by apply Hothers.
Qed.

Lemma remove_dst an tmp (disk : Disk) : tmp ≠ dst → removeTemp an tmp disk !! dst = disk !! dst.
Proof. intros Hne. unfold removeTemp. destruct (an_remove an); [done|by rewrite lookup_delete_ne]. Qed.

Lemma remove_during (st : Status) an tmp disk disk' :
  tmp ≠ dst → disk !! tmp = None → during st disk disk' → during st disk (removeTemp an tmp disk').
Proof.
  intros Hne Hfresh [Hdst Hothers]. split; [by rewrite remove_dst|by apply remove_keeps].
Qed.

Lemma substring_all (s : string) : String.substring 0 (String.length s) s = s.
Proof. induction s as [|c s IH]; simpl; [done|]. by rewrite IH. Qed.

Lemma ToFile_spec st an disk trace r :
  ToFile json_Marshal tempDir st dir file an disk = (trace, r) →
  (∀ d, d ∈ trace → during st disk d ∨ r = Ok () ∧ dumped st disk d) ∧
  match r with
  | Ok _ => dumped st disk (last_disk disk trace)
  | _ => during st disk (last_disk disk trace)
  end.
Proof using Hdir Hfile.
  assert (during st disk disk) as Hrefl by (by split; [|intros ???]).
  unfold ToFile, last_disk. destruct (json_Marshal st) as [data|e|w] eqn:Hjson;
    [|intros [= <- <-]; split; [set_solver|done]..].
  destruct (let! drawn := an_create an in _) as [tmp|e|w] eqn:Htmp;
    [|intros [= <- <-]; split; [set_solver|done]..].
  assert (tmp ≠ dst ∧ disk !! tmp = None) as [Hne Hfresh].
  { destruct (an_create an); simpl in Htmp; [|done..]. by apply CreateTemp_spec in Htmp. }
  destruct (an_write an) as [n werr].
  set (d1 := <[tmp := ""]> disk). set (d2 := <[tmp := String.substring 0 _ data]> d1).
  assert (during st disk d1) as H1 by by apply write_during.
  assert (during st disk d2) as H2 by by apply write_during.
  pose proof (remove_during st an tmp disk d2 Hne Hfresh H2) as H3.
  destruct werr as [e|]; [intros [= <- <-]; split; [set_solver|done]|].
  destruct (an_close an) as [e|]; [intros [= <- <-]; split; [set_solver|done]|].
  destruct (an_rename an) as [e|]; [intros [= <- <-]; split; [set_solver|done]|].
  assert (d2 !! tmp = Some data) as Hd2 by (unfold d2; by rewrite lookup_insert_eq, substring_all).
  rewrite Hd2. set (d4 := <[dst := data]> (delete tmp d2)). intros [= <- <-].
  assert (dumped st disk d4) as H4.
  { split; [exists data; split; [done|apply lookup_insert_eq]|]. intros path c Hpath Hc.
    unfold d4. rewrite lookup_insert_ne, lookup_delete_ne by congruence. by apply H2. }
  assert (dumped st disk (removeTemp an tmp d4)) as H5.
  { destruct H4 as [(data' & Hm & Hdata') Hothers]. split; [|by apply remove_keeps].
    exists data'. by rewrite remove_dst. }
  split; [set_solver|done].
Qed.

(** Nothing is left behind when the removal works. *)
Lemma ToFile_tidy st an disk trace r path :
  ToFile json_Marshal tempDir st dir file an disk = (trace, r) → an_remove an = None → path ≠ dst →
  last_disk disk trace !! path = disk !! path.
Proof using Hdir Hfile.
  unfold ToFile, last_disk, removeTemp. intros Hto Hrm Hpath. rewrite Hrm in Hto.
  destruct (json_Marshal st) as [data|e|w]; [|by simplify_eq..].
  destruct (let! drawn := an_create an in _) as [tmp|e|w] eqn:Htmp; [|by simplify_eq..].
  assert (tmp ≠ dst ∧ disk !! tmp = None) as [Hne Hfresh].
  { destruct (an_create an); simpl in Htmp; [|done..]. by apply CreateTemp_spec in Htmp. }
  assert (∀ s s', delete tmp (<[tmp := s]> (<[tmp := s']> disk)) !! path = disk !! path) as Hdel.
  { intros s s'. destruct (decide (path = tmp)) as [->|Hp]; [by rewrite lookup_delete_eq|].
    by rewrite lookup_delete_ne, !lookup_insert_ne. }
  destruct (an_write an) as [n [e|]]; [simplify_eq; apply Hdel|].
  destruct (an_close an); [simplify_eq; apply Hdel|].
  destruct (an_rename an); [simplify_eq; apply Hdel|]. simplify_eq. cbn [foldl app].
  rewrite lookup_insert_eq. destruct (decide (path = tmp)) as [->|Hp]; [by rewrite lookup_delete_eq|].
  rewrite lookup_delete_ne, lookup_insert_ne by done. apply Hdel.
Qed.

Definition tidy (input : DumpInput (Status := Status)) : Prop :=
  match input with DumpUpdate _ an => an_remove an = None | DumpDone => True end.

Lemma last_disk_app disk t1 t2 : last_disk disk (t1 ++ t2) = last_disk (last_disk disk t1) t2.
Proof. apply foldl_app. Qed.

Lemma keeps_others_trans d1 d2 d3 : keeps_others d1 d2 → keeps_others d2 d3 → keeps_others d1 d3.
Proof. unfold keeps_others. eauto. Qed.

Lemma dumpLoop_spec inputs disk trace dumps :
  dumpLoop_from json_Marshal tempDir dir file inputs disk = (trace, dumps) →
  (∀ d, d ∈ trace →
     (d !! dst = disk !! dst ∨ ∃ st data, st ∈ dumps ∧ json_Marshal st = Ok data ∧ d !! dst = Some data) ∧
     keeps_others disk d) ∧
  (match last dumps with
   | Some st => ∃ data, json_Marshal st = Ok data ∧ last_disk disk trace !! dst = Some data
   | None => last_disk disk trace !! dst = disk !! dst
   end) ∧
  (Forall tidy inputs → ∀ path, path ≠ dst → last_disk disk trace !! path = disk !! path).
Proof using Hdir Hfile.
  revert disk trace dumps. induction inputs as [|[st an|] inputs IH]; intros disk trace dumps Hloop; simpl in Hloop;
    [simplify_eq; split_and!; [set_solver|done|by intros]| |simplify_eq; split_and!; [set_solver|done|by intros]].
  destruct (ToFile _ _ st dir file an disk) as [t1 r] eqn:Hto.
  destruct (dumpLoop_from _ _ dir file inputs _) as [t2 dumps2] eqn:Hrest.
  injection Hloop as <- <-. destruct (IH _ _ _ Hrest) as (Hin & Hlast & Htidy).
  destruct (ToFile_spec _ _ _ _ _ Hto) as [Hin1 Hend].
  rewrite last_disk_app. set (mid := last_disk disk t1) in *.
  assert (∀ d, d ∈ t1 → (d !! dst = disk !! dst ∨ r = Ok () ∧ ∃ data, json_Marshal st = Ok data ∧ d !! dst = Some data)
            ∧ keeps_others disk d) as Hin1'.
  { intros d [[??]|[-> [? ?]]]%Hin1; auto. }
  assert (keeps_others disk mid) as Hmid by (destruct r; apply Hend).
  split_and!.
  - intros d [Hd|Hd]%elem_of_app.
    + destruct (Hin1' d Hd) as [[Heq|[-> (data & Hm & Hdata)]] Hothers]; (split; [|done]); [by left|].
      right. exists st, data. split; [by left|done].
    + destruct (Hin d Hd) as [Hcase Hothers]. split; [|by eapply keeps_others_trans].
      destruct Hcase as [Heq|(st' & data & Hst' & Hm & Hdata)].
      * rewrite Heq. destruct r as [[]|e|w]; [|left; apply Hend..].
        destruct Hend as [(data & Hm & Hdata) _]. right. exists st, data. split; [by left|done].
      * right. exists st', data. split; [|done]. destruct r; [by right|done..].
  - destruct r as [[]|e|w]; [|destruct (last dumps2); [done|]; rewrite Hlast; apply Hend..].
    destruct Hend as [(data & Hm & Hdata) _]. rewrite last_cons. destruct (last dumps2); [done|].
    exists data. split; [done|]. by rewrite Hlast.
  - intros [Hrm Hrest']%Forall_cons path Hpath. rewrite Htidy by done. by eapply ToFile_tidy.
Qed.
End atomic.

(** C23: whoever reads the status file, at whatever moment and after
    whatever crash, finds what was there before or the complete text of a
    status that was dumped, never a part of one; no other file is ever
    changed; in the end the status file holds the last status whose dump
    succeeded, and no temporary file is left when the removals work. *)
Theorem dump_atomic {Status} (json_Marshal : Status → outcome string) tempDir dumpfile inputs disk dir file
    (Hsplit : file_Split dumpfile = (dir, file)) (Hdir : dir ≠ "") (Hfile : ordinary file) :
  let '(trace, dumps) := Execute json_Marshal tempDir dumpfile inputs disk in
  let path := Filepath.Join [dir; file] in
  (∀ d, d ∈ trace →
     (d !! path = disk !! path ∨
      ∃ st data, st ∈ dumps ∧ json_Marshal st = Ok data ∧ d !! path = Some data) ∧
     (∀ other c, other ≠ path → disk !! other = Some c → d !! other = Some c)) ∧
  (match last dumps with
   | Some st => ∃ data, json_Marshal st = Ok data ∧ last_disk disk trace !! path = Some data
   | None => last_disk disk trace !! path = disk !! path
   end) ∧
  (Forall tidy inputs → ∀ other, other ≠ path → last_disk disk trace !! other = disk !! other).
Proof.
  unfold Execute, dumpLoop. rewrite Hsplit. case_bool_decide as Hempty.
  { subst dumpfile. injection Hsplit as <- <-. done. }
  destruct (dumpLoop_from _ _ dir file inputs disk) as [trace dumps] eqn:Hloop.
  exact (dumpLoop_spec json_Marshal tempDir dir file Hdir Hfile _ _ _ _ Hloop).
Qed.

(** The second dump is cut short; the third one succeeds. *)
Definition example_answers (n : N) (cut : option nat) : Answers :=
  {| an_create := Ok [n]; an_write := match cut with Some k => (k, Some (Errorf "disk full")) | None => (0%nat, None) end;
     an_close := None; an_rename := None; an_remove := None |}.

Definition example_dumps : list (DumpInput (Status := string)) :=
  [DumpUpdate "one" (example_answers 1 None); DumpUpdate "second" (example_answers 2 (Some 3%nat));
   DumpUpdate "three" (example_answers 1 None); DumpDone].

Lemma dump_atomic_witness :
  last_disk ∅ (Execute (λ st, Ok st) "/tmp" "/run/pfp/dump.json" example_dumps ∅).1
    !! Filepath.Join ["/run/pfp/"; "dump.json"] = Some "three" ∧
  (Execute (λ st, Ok st) "/tmp" "/run/pfp/dump.json" example_dumps ∅).2 = ["one"; "three"].
Proof.
  pose proof (dump_atomic (λ st, Ok st) "/tmp" "/run/pfp/dump.json" example_dumps ∅ "/run/pfp/" "dump.json"
    eq_refl ltac:(discriminate) ltac:(repeat split; discriminate)) as Hd.
  assert ((Execute (λ st, Ok st) "/tmp" "/run/pfp/dump.json" example_dumps ∅).2 = ["one"; "three"]) as Hdumps
    by (vm_compute; reflexivity).
  rewrite (surjective_pairing (Execute _ _ _ _ _)), Hdumps in Hd.
  destruct Hd as (_ & (data & Hdata & Hlast) & _). injection Hdata as <-.
  split; [exact Hlast|exact Hdumps].
Defined.

(** A status file given without a directory is first written to the directory
    of temporary files, from where a rename may not reach. *)
Example bare_name_temp : tempPath "/tmp" (file_Split "dump.json").1 (file_Split "dump.json").2 "1" = "/tmp/__dump.json1".
Proof. reflexivity. Qed.
