(* ===== verification/PodResClient.v ===== *)
(** * Connecting to the podresources API

    Models [pkg/podres/client.go], the client made from an endpoint URL,
    [pkg/podres/fake.go], the client that answers from files, and
    [pkg/podres/proxy/proxy.go], the server that forwards to a client, with
    its program [cmd/podresources-proxy/main.go].  The part of [net/url] an
    endpoint goes through is written out; the checks of a non-empty authority
    and the gRPC connection are interfaces. *)

From Stdlib Require Import Ascii.
From S2P Require Import Prelude GoStrings GoTime PodRes Filepath Middleware GoFlag.

(** ** [url.Parse], as far as the scheme and the path *)

Record URL := { u_Scheme : string; u_Path : string }.

(** The errors of [parseAuthority] on a non-empty authority. *)
Class URLLib := { parseAuthority : string → option error }.

Definition is_letter (c : ascii) : bool :=
  let n := N_of_ascii (lower_ascii c) in (97 <=? n)%N && (n <=? 122)%N.

Definition is_ctl (c : ascii) : bool :=
  let n := N_of_ascii c in (n <? 32)%N || (n =? 127)%N.

(** [getScheme] past its first character: the scheme read so far is reversed
    by the recursion; [None] when there is none. *)
Fixpoint scheme_rest (s : string) : option (string * string) :=
  match s with
  | "" => None
  | String c rest =>
      if Ascii.eqb c ":" then Some ("", rest)
      else if is_letter c || is_digit c || Ascii.eqb c "+" || Ascii.eqb c "-" || Ascii.eqb c "."
      then '(scheme, rest) ← scheme_rest rest; Some (String c scheme, rest)
      else None
  end.

Definition getScheme (rawURL : string) : outcome (string * string) :=
  match rawURL with
  | "" => Ok ("", "")
  | String c rest =>
      if is_letter c then
        match scheme_rest rest with
        | Some (scheme, rest) => Ok (String c scheme, rest)
        | None => Ok ("", rawURL)
        end
      else if Ascii.eqb c ":" then Err (Errorf "missing protocol scheme")
      else Ok ("", rawURL)
  end.

(** The part before the first [sep]. *)
Fixpoint Before (sep : ascii) (s : string) : string :=
  match s with
  | "" => ""
  | String c rest => if Ascii.eqb c sep then "" else String c (Before sep rest)
  end.

Fixpoint From (sep : ascii) (s : string) : string :=
  match s with
  | "" => ""
  | String c rest => if Ascii.eqb c sep then s else From sep rest
  end.

Definition hex_val (c : ascii) : option N :=
  match any_digit_val c with
  | Some d => if d <=? 15 then Some (Z.to_N d) else None
  | None => None
  end.

(** [unescape] of a path. *)
Fixpoint unescape (s : string) : outcome string :=
  match s with
  | "" => Ok ""
  | String c rest =>
      if Ascii.eqb c "%" then
        match rest with
        | String h (String l rest') =>
            match hex_val h, hex_val l with
            | Some a, Some b => let! t := unescape rest' in Ok (String (ascii_of_N (a * 16 + b)) t)
            | _, _ => Err (Errorf "invalid URL escape")
            end
        | _ => Err (Errorf "invalid URL escape")
        end
      else let! t := unescape rest in Ok (String c t)
  end.

Definition setPath (scheme path : string) : outcome URL :=
  let! path := unescape path in Ok {| u_Scheme := scheme; u_Path := path |}.

Section url.
Context `{URLLib}.

(** [parse] of what precedes the fragment; an opaque URL has no path. *)
Definition url_parse (rawURL : string) : outcome URL :=
  if negb (string_all (λ c, negb (is_ctl c)) rawURL) then
    Err (Errorf "net/url: invalid control character in URL")
  else if bool_decide (rawURL = "*") then Ok {| u_Scheme := ""; u_Path := "*" |}
  else
    let! (scheme, rest) := getScheme rawURL in
    let scheme := ToLower scheme in
    let rest := Before "?" rest in
    if negb (HasPrefix rest "/") then
      if negb (bool_decide (scheme = "")) then Ok {| u_Scheme := scheme; u_Path := "" |}
      else if Contains (Before "/" rest) ":" then
        Err (Errorf "first path segment in URL cannot contain colon")
      else setPath scheme rest
    else if (negb (bool_decide (scheme = "")) || negb (HasPrefix rest "///")) && HasPrefix rest "//" then
      let authority := Before "/" (string_drop 2 rest) in
      let rest := From "/" (string_drop 2 rest) in
      match (if bool_decide (authority = "") then None else parseAuthority authority) with
      | Some e => Err e
      | None => setPath scheme rest
      end
    else setPath scheme rest.

(** [setFragment] unescapes the fragment. *)
Definition url_Parse (rawURL : string) : outcome URL :=
  let! url := url_parse (Before "#" rawURL) in
  let! _ := unescape (string_drop 1 (From "#" rawURL)) in
  Ok url.

(** ** Endpoints *)

Definition UnixProtocol : string := "unix".
Definition FakeProtocol : string := "fake".
Definition DefaultTimeout : Z := 10 * Second.
Definition DefaultMaxMsgSize : Z := 1024 * 1024 * 16.

Definition UnsupportedProtocolError (proto : string) : error :=
  Errorf ("protocol " +:+ Sprintf_q proto +:+ " not supported").

(** The three results: protocol, path and error. *)
Definition ParseEndpoint (endpoint : string) : string * string * outcome unit :=
  match url_Parse endpoint with
  | Err err => ("", "", Err err)
  | Panic p => ("", "", Panic p)
  | Ok u =>
      if negb (bool_decide (u_Scheme u = UnixProtocol)) && negb (bool_decide (u_Scheme u = FakeProtocol))
      then ("", "", Err (UnsupportedProtocolError (u_Scheme u)))
      else (u_Scheme u, u_Path u, Ok ())
  end.
End url.

(** ** The client that answers from files *)

(** [os.ReadFile], and [encoding/json] for each message. *)
Class FakeFS := {
  fake_ReadFile : string → outcome string;
  json_ListResponse : string → outcome ListPodResourcesResponse;
  json_AllocatableResponse : string → outcome AllocatableResourcesResponse;
  json_GetResponse : string → outcome GetPodResourcesResponse
}.

Record FakeClient := { fc_path : string }.

Definition NewFakePodResourcesLister (path : string) : FakeClient := {| fc_path := path |}.

Section fake.
Context `{FakeFS}.

Definition readJSON {V} (fc : FakeClient) (name : string) (unmarshal : string → outcome V) : outcome V :=
  let! data := fake_ReadFile (Filepath.Join [fc_path fc; name]) in unmarshal data.

#[global] Instance fake_lister : PodResourcesListerClient FakeClient := {|
  cli_List fc := (fc, readJSON fc "list.json" json_ListResponse);
  cli_GetAllocatableResources fc :=
    (fc, readJSON fc "get_allocatable_resources.json" json_AllocatableResponse);
  cli_Get _ fc := (fc, readJSON fc "get.json" json_GetResponse)
|}.
End fake.

(** ** Clients *)

Inductive CleanupFunc (C : Type) := nullCleanup | closeConn (conn : C).
Arguments nullCleanup {C}.
Arguments closeConn {C}.

Section client.
Context `{URLLib} `{FakeFS}.
(** A connection over gRPC, given the socket, the timeout and the size limit;
    a client that was dialled is one on its connection. *)
Context {C : Type} `{!PodResourcesListerClient C} (DialContext : string → Z → Z → outcome C).

(** The results of a constructor: the client, nil or not, its cleanup and the
    error. *)
Definition built : Type := option (C + FakeClient) * CleanupFunc C * outcome unit.

Definition GetV1ClientUnix (path : string) (connectionTimeout maxMsgSize : Z) : built :=
  match DialContext path connectionTimeout maxMsgSize with
  | Err err => (None, nullCleanup, Err (Wrapf ("error dialing unix endpoint at " +:+ Sprintf_q path) err))
  | Panic p => (None, nullCleanup, Panic p)
  | Ok conn => (Some (inl conn), closeConn conn, Ok ())
  end.

Definition GetV1ClientFake (path : string) : built :=
  (Some (inr (NewFakePodResourcesLister path)), nullCleanup, Ok ()).

Definition GetClient (endpoint : string) : built :=
  match ParseEndpoint endpoint with
  | (_, _, Err err) => (None, nullCleanup, Err err)
  | (_, _, Panic p) => (None, nullCleanup, Panic p)
  | (proto, path, Ok _) =>
      let '(cli, cleanup, err) :=
        if bool_decide (proto = UnixProtocol) then GetV1ClientUnix path DefaultTimeout DefaultMaxMsgSize
        else if bool_decide (proto = FakeProtocol) then GetV1ClientFake path
        else (None, nullCleanup, Ok ()) in
      match err with
      | Err err => (None, cleanup, Err (Wrapf "failed to create podresource client" err))
      | Panic p => (None, cleanup, Panic p)
      | Ok _ => (cli, cleanup, Ok ())
      end
  end.

(** Calling a method of a nil client panics. *)
Definition WaitForReady (b : built) : built :=
  let '(cli, cleanup, err) := b in
  match err with
  | Ok _ =>
      match cli with
      | None => (None, cleanup, Panic "nil pointer dereference")
      | Some cli =>
          let '(cli, resp) := cli_List cli in
          match resp with
          | Err listErr => (Some cli, cleanup, Err (Wrapf "WaitForReady failed" listErr))
          | Panic p => (Some cli, cleanup, Panic p)
          | Ok _ => (Some cli, cleanup, Ok ())
          end
      end
  | _ => (cli, cleanup, err)
  end.

(** The protocol is looked at before the error. *)
Definition GetV1Client (endpoint : string) (connectionTimeout maxMsgSize : Z) : built :=
  let '(proto, path, err) := ParseEndpoint endpoint in
  if negb (bool_decide (proto = UnixProtocol)) then
    (None, nullCleanup, Err (UnsupportedProtocolError proto))
  else
    match err with
    | Err err => (None, nullCleanup, Err err)
    | Panic p => (None, nullCleanup, Panic p)
    | Ok _ => GetV1ClientUnix path connectionTimeout maxMsgSize
    end.
End client.

(** ** The proxy *)

Record Proxy (C : Type) := {
  px_cli : C + FakeClient;
  px_cleanup : CleanupFunc C;
  px_endpoint : option string  (** what the listener listens on *)
}.
Arguments px_cli {C}.
Arguments px_cleanup {C}.
Arguments px_endpoint {C}.
Arguments Build_Proxy {C}.

Section proxy.
Context `{URLLib} `{FakeFS}.
Context {C : Type} `{!PodResourcesListerClient C} (DialContext : string → Z → Z → outcome C).
(** [criutil.CreateListener]. *)
Context (CreateListener : string → outcome unit).
Implicit Types p : Proxy C.

Definition New (cli : C + FakeClient) (cleanup : CleanupFunc C) : Proxy C := Build_Proxy cli cleanup None.

Definition with_px_cli p (cli : C + FakeClient) : Proxy C :=
  Build_Proxy cli (px_cleanup p) (px_endpoint p).

Definition Proxy_Setup p (endpoint : string) : Proxy C * outcome unit :=
  match CreateListener endpoint with
  | Ok _ => (Build_Proxy (px_cli p) (px_cleanup p) (Some endpoint), Ok ())
  | r => (p, r)
  end.

(** [conn.Close] of a dialled client. *)
Definition Proxy_Cleanup (Close : C → outcome unit) p : outcome unit :=
  match px_cleanup p with nullCleanup => Ok () | closeConn conn => Close conn end.

(** [grpc.Server.Serve] on the listener; before [Setup] there is no server. *)
Definition Proxy_Serve (Serve : string → outcome unit) p : outcome unit :=
  match px_endpoint p with Some endpoint => Serve endpoint | None => Panic "nil pointer dereference" end.

(** The requests of the proxy's clients are forwarded. *)
#[global] Instance proxy_lister : PodResourcesListerClient (Proxy C) := {|
  cli_List p := let '(c, r) := cli_List (px_cli p) in (with_px_cli p c, r);
  cli_GetAllocatableResources p :=
    let '(c, r) := cli_GetAllocatableResources (px_cli p) in (with_px_cli p c, r);
  cli_Get req p := let '(c, r) := cli_Get req (px_cli p) in (with_px_cli p c, r)
|}.

(** ** The program *)

Definition defaultKubeletSocketPath : string := "/var/lib/kubelet/pod-resources/kubelet.sock".
Definition defaultListenSocketPath : string := "/run/rte/podresources.sock".

(** No flag sets [proxy_Verbose]. *)
Record progArgs := { proxy_Verbose : Z; KubeletSocketPath : string; ListenSocketPath : string }.

Definition setDefaults : progArgs :=
  {| proxy_Verbose := 0; KubeletSocketPath := defaultKubeletSocketPath;
     ListenSocketPath := defaultListenSocketPath |}.

(** The flags of the program; those of [klog] are given. *)
Definition kubeletSocketFlag : Flag progArgs :=
  {| IsBoolFlag := false;
     Set_ v pa := Some {| proxy_Verbose := proxy_Verbose pa; KubeletSocketPath := v;
                       ListenSocketPath := ListenSocketPath pa |} |}.
Definition listenSocketFlag : Flag progArgs :=
  {| IsBoolFlag := false;
     Set_ v pa := Some {| proxy_Verbose := proxy_Verbose pa; KubeletSocketPath := KubeletSocketPath pa;
                       ListenSocketPath := v |} |}.

Definition proxyFlags (klogFlags : list (string * Flag progArgs)) : list (string * Flag progArgs) :=
  klogFlags ++ [("kubelet-socket", kubeletSocketFlag); ("listen-socket", listenSocketFlag)].

Definition parseFlags (klogFlags : list (string * Flag progArgs)) (pa : progArgs) (args : list string)
  : parsed progArgs :=
  Parse (proxyFlags klogFlags) args pa.

(** [main] up to serving; [klog.Fatalf] exits with status 255. *)
Definition proxy_main (klogFlags : list (string * Flag progArgs)) (args : list string) : run (Proxy C) :=
  match parseFlags klogFlags setDefaults args with
  | Exit status => Exited status
  | Parsed pArgs _ =>
      match GetClient DialContext ("unix://" +:+ KubeletSocketPath pArgs) with
      | (_, _, Err _) => Exited 255
      | (_, _, Panic p) => Crashed p
      | (None, _, Ok _) => Crashed "nil client"
      | (Some cli, cleanup, Ok _) =>
          match Proxy_Setup (New cli cleanup) ("unix://" +:+ ListenSocketPath pArgs) with
          | (_, Err _) => Exited 255
          | (_, Panic p) => Crashed p
          | (inst, Ok _) => Done inst
          end
      end
  end.
End proxy.

(** ** Endpoints with a path *)

Lemma Before_free sep s : free_of sep s → Before sep s = s.
Proof.
  induction s as [|c s IH]; simpl; [done|]. destruct (Ascii.eqb c sep); [done|]. intros Hs. by rewrite IH.
Qed.

Lemma From_free sep s : free_of sep s → From sep s = "".
Proof. induction s as [|c s IH]; simpl; [done|]. destruct (Ascii.eqb c sep); [done|]. auto. Qed.

Lemma unescape_free s : free_of "%" s → unescape s = Ok s.
Proof.
  induction s as [|c s IH]; cbn [unescape free_of]; [done|].
  destruct (Ascii.eqb c "%"); [done|]. intros Hs. by rewrite IH.
Qed.

(** A path as a socket has one: absolute, with no character that means
    something else in a URL. *)
Definition plain_path (path : string) : Prop :=
  HasPrefix path "/" = true ∧ string_all (λ c, negb (is_ctl c)) path = true ∧
  free_of "#" path ∧ free_of "?" path ∧ free_of "%" path.

Lemma HasPrefix_slash path : HasPrefix path "/" = true → ∃ rest, path = String "/" rest.
Proof.
  unfold HasPrefix. destruct path as [|c path]; cbn [String.prefix]; [done|].
  destruct (ascii_dec "/" c) as [<-|]; [eauto|done].
Qed.

Lemma url_Parse_plain `{URLLib} scheme path :
  scheme = UnixProtocol ∨ scheme = FakeProtocol → plain_path path →
  url_Parse (scheme +:+ "://" +:+ path) = Ok {| u_Scheme := scheme; u_Path := path |}.
Proof.
  intros Hscheme (Hslash & Hctl & Hhash & Hquest & Hperc).
  destruct (HasPrefix_slash path Hslash) as [rest ->]. unfold url_Parse.
  rewrite Before_free, From_free by (destruct Hscheme as [-> | ->]; done). simpl.
  assert (url_parse (scheme +:+ "://" +:+ String "/" rest) = setPath scheme (String "/" rest)) as ->.
  { unfold url_parse.
    assert (string_all (λ c, negb (is_ctl c)) (scheme +:+ "://" +:+ String "/" rest) = true ∧
      scheme +:+ "://" +:+ String "/" rest ≠ "*" ∧
      getScheme (scheme +:+ "://" +:+ String "/" rest) = Ok (scheme, "//" +:+ String "/" rest) ∧
      ToLower scheme = scheme ∧ scheme ≠ "") as (Hall & Hstar & Hget & Hlow & Hne)
      by (by destruct Hscheme as [-> | ->]).
    rewrite Hall, bool_decide_eq_false_2 by done. cbn [negb]. rewrite Hget. cbn [obind].
    rewrite Before_free, Hlow, (bool_decide_eq_false_2 (scheme = "")) by done.
    change (string_drop 2 ("//" +:+ String "/" rest)) with (String "/" rest). by destruct rest. }
  unfold setPath. by rewrite unescape_free.
Qed.

(** C38: the path of an endpoint is taken as it is written: a supported
    scheme followed by an absolute path without characters that are special
    in a URL names exactly that path. *)
Theorem ParseEndpoint_path `{URLLib} scheme path
    (Hscheme : scheme = UnixProtocol ∨ scheme = FakeProtocol) (Hpath : plain_path path) :
  ParseEndpoint (scheme +:+ "://" +:+ path) = (scheme, path, Ok ()).
Proof.
  unfold ParseEndpoint. rewrite url_Parse_plain by done. simpl. by destruct Hscheme as [-> | ->].
Qed.

(** ** The client of an endpoint *)

Section client_facts.
Context `{URLLib} `{FakeFS} {C : Type} `{!PodResourcesListerClient C} (DialContext : string → Z → Z → outcome C).

(** The client an endpoint stands for, with its cleanup. *)
Inductive reaches (endpoint : string) : C + FakeClient → CleanupFunc C → Prop :=
| reaches_unix path conn :
    ParseEndpoint endpoint = (UnixProtocol, path, Ok ()) →
    DialContext path DefaultTimeout DefaultMaxMsgSize = Ok conn →
    reaches endpoint (inl conn) (closeConn conn)
| reaches_fake path :
    ParseEndpoint endpoint = (FakeProtocol, path, Ok ()) →
    reaches endpoint (inr {| fc_path := path |}) nullCleanup.

Lemma ParseEndpoint_protocol endpoint proto path :
  ParseEndpoint endpoint = (proto, path, Ok ()) → proto = UnixProtocol ∨ proto = FakeProtocol.
Proof.
  unfold ParseEndpoint. destruct (url_Parse endpoint) as [u|e|w]; [|done..].
  destruct (bool_decide_reflect (u_Scheme u = UnixProtocol)); simpl; [naive_solver|].
  destruct (bool_decide_reflect (u_Scheme u = FakeProtocol)); naive_solver.
Qed.

Lemma GetClient_spec endpoint :
  match GetClient DialContext endpoint with
  | (Some cli, cleanup, Ok _) => reaches endpoint cli cleanup
  | (None, nullCleanup, Err _) | (None, nullCleanup, Panic _) => ∀ cli cleanup, ¬ reaches endpoint cli cleanup
  | _ => False
  end.
Proof.
  unfold GetClient. destruct (ParseEndpoint endpoint) as [[proto path] [[]|e|w]] eqn:Hparse;
    [|by intros ?? [? ? Hp|? Hp]; rewrite Hparse in Hp..].
  destruct (ParseEndpoint_protocol _ _ _ Hparse) as [-> | ->]; simpl.
  - unfold GetV1ClientUnix. destruct (DialContext path _ _) as [conn|e|w] eqn:Hdial; simpl;
      [by eapply reaches_unix|..];
      (intros ?? [path' conn Hp Hd|path' Hp]; rewrite Hparse in Hp; [injection Hp as <-|discriminate Hp];
       discriminate (eq_trans (eq_sym Hdial) Hd)).
  - by eapply reaches_fake.
Qed.
End client_facts.

(** The client made from an endpoint is the one the endpoint names, and
    it is ready.  Making it and waiting for it succeeds exactly when the
    endpoint names a socket that could be dialled or a directory of answers,
    and the client then answers [List]; the client returned is that one after
    the call, with the cleanup that closes its connection.  A client that
    could not be made is nil, with a cleanup that does nothing. *)
Theorem WaitForReady_correct `{URLLib} `{FakeFS} {C : Type} `{!PodResourcesListerClient C}
    (DialContext : string → Z → Z → outcome C) endpoint :
  match WaitForReady (GetClient DialContext endpoint) with
  | (Some cli', cleanup, r) =>
      ∃ cli, reaches DialContext endpoint cli cleanup ∧ cli' = (cli_List cli).1 ∧
        (r = Ok () ↔ is_ok (cli_List cli).2 = true)
  | (None, cleanup, r) =>
      r ≠ Ok () ∧ cleanup = nullCleanup ∧ ∀ cli cleanup, ¬ reaches DialContext endpoint cli cleanup
  end.
Proof.
  pose proof (GetClient_spec DialContext endpoint) as Hspec.
  destruct (GetClient DialContext endpoint) as [[[cli|] cleanup] [[]|e|w]]; simpl in *; try done.
  - destruct (match cli with inl _ => _ | inr _ => _ end) as [cli' resp] eqn:Hlist.
    destruct resp as [resp|e|w]; exists cli; simpl; rewrite Hlist; naive_solver.
  - by destruct cleanup.
  - by destruct cleanup.
  - by destruct cleanup.
Qed.


(** ** Examples *)

Definition example_url : URLLib := {| parseAuthority _ := None |}.
Definition example_fake : FakeFS := {|
  fake_ReadFile _ := Err (Errorf "file does not exist");
  json_ListResponse _ := Err (Errorf "unexpected end of JSON input");
  json_AllocatableResponse _ := Err (Errorf "unexpected end of JSON input");
  json_GetResponse _ := Err (Errorf "unexpected end of JSON input") |}.

Lemma ParseEndpoint_path_witness :
  @ParseEndpoint example_url "unix:///podresources/kubelet.sock" =
  ("unix", "/podresources/kubelet.sock", Ok ()).
Proof.
  apply (@ParseEndpoint_path example_url UnixProtocol "/podresources/kubelet.sock");
    [by left|repeat split].
Defined.


(** *** What goes wrong *)

(** An endpoint that cannot be parsed, and one of another protocol, are both
    reported by [GetV1Client] as an unsupported empty protocol. *)
Lemma GetV1Client_masks `{URLLib} {C : Type} (DialContext : string → Z → Z → outcome C) endpoint timeout size e :
  (ParseEndpoint endpoint).2 = Err e →
  (GetV1Client DialContext endpoint timeout size).2 = Err (UnsupportedProtocolError "").
Proof.
  unfold GetV1Client, ParseEndpoint. destruct (url_Parse endpoint) as [u|e'|w]; [|done..].
  destruct (negb _ && negb _); done.
Qed.

(** A relative socket path loses its first element, taken for a host. *)
Example relative_socket :
  @ParseEndpoint example_url ("unix://" +:+ "run/rte/podresources.sock") = ("unix", "/rte/podresources.sock", Ok ()).
Proof. reflexivity. Qed.
