(* ===== verification/Main.v ===== *)
(** * The program

    Models [Execute] of
    [pkg/resourcetopologyexporter/resourcetopologyexporter.go] and [main] of
    [cmd/resource-topology-exporter/main.go], with [pkg/k8shelpers],
    [pkg/kubeconf] and [pkg/version]: from the command line to the running
    exporter, built out of the components of the other files. *)

From Stdlib Require Import Ascii SpecFloat.
From S2P Require Import Prelude GoStrings GoTime PodRes Middleware Counters SysInfo Metrics MetricsServer.
From S2P Require Import Events ResourceMonitor MonitorProps MonitorRefresh PodReadiness NRTUpdater UpdaterProps Observer.
From S2P Require Import GoFlag ConfigArgs ConfigProps Config ConfigLoad PodResClient.

(** ** The version *)

Definition ProgramName : string := "resource-topology-exporter".
Definition undefinedVersion : string := "undefined".

(** [version] is a variable the linker may set. *)
Definition version_Get (ldflags : option string) : string := default undefinedVersion ldflags.

Definition version_Undefined (ldflags : option string) : bool := bool_decide (version_Get ldflags = undefinedVersion).

(** ** Outside the program *)

(** What the set-up asks the machine and the cluster; a call whose answer is
    an [outcome] may fail. *)
Record Machine := {
  mc_topology : string → outcome Info;  (** [ghwtopology.New], given the root of sysfs *)
  mc_sysfs : FileSystem;
  mc_nodeClient : NodeClient;
  mc_watcher : outcome unit;
  mc_canWatch : bool;
  mc_nodes : outcome (list NodeGetter.Node);
  mc_kubeletConfig : string → outcome TMConfig;  (** decoding of the kubelet's configuration *)
  mc_synced : gmap string bool;
  mc_terminalPods : outcome (list TerminalPods.Pod);
  mc_newServer : ServerOptions → option error;
  mc_yaml : ProgArgs → string + string;  (** [yaml.Marshal]: the text, or that of an error *)
  mc_version : option string  (** what the linker sets *)
}.

(** [client-go]: where the configuration comes from and the two clients made
    from it. *)
Class KubeClients (K A : Type) := {
  restConfig : Type;
  InClusterConfig : outcome restConfig;
  BuildConfigFromFlags : string → outcome restConfig;
  kubernetes_NewForConfig : restConfig → outcome K;
  topology_NewForConfig : restConfig → outcome A
}.

Section clients.
Context {K A : Type} `{KubeClients K A}.

Definition kubeConfigOf (kubeConfig : string) : outcome restConfig :=
  if bool_decide (kubeConfig = "") then InClusterConfig else BuildConfigFromFlags kubeConfig.

Definition GetTopologyClient (kubeConfig : string) : outcome A :=
  let! config := kubeConfigOf kubeConfig in topology_NewForConfig config.

Definition GetK8sClient (kubeConfig : string) : outcome K :=
  let! config := kubeConfigOf kubeConfig in kubernetes_NewForConfig config.
End clients.

Definition GetKubeletConfigFromLocalFile `{ConfigFS} (unmarshal : string → outcome TMConfig) (path : string)
  : outcome TMConfig :=
  let! kubeletBytes := ReadFile path in unmarshal kubeletBytes.

(** ** [Execute] *)

(** The running exporter: what its goroutines work on. *)
Record Exporter (C K A : Type) := {
  ex_injector : option (ConditionInjector K);
  ex_source : EventSource;
  ex_observer : ResourceObserver (resourceMonitor C);
  ex_updater : NRTUpdater A
}.
Arguments ex_injector {C K A}.
Arguments ex_source {C K A}.
Arguments ex_observer {C K A}.
Arguments ex_updater {C K A}.

Definition eventArgs (t : RTEArgs) : EventArgs :=
  {| SleepInterval := rte_SleepInterval t; NotifyFilePath := rte_NotifyFilePath t;
     MaxEventsPerTimeUnit := rte_MaxEventsPerTimeUnit t;
     TimeUnitToLimitEvents := rte_TimeUnitToLimitEvents t |}.

Section execute.
Context `{MapOrder} `{PodFingerprintLib} `{QuantityLib} `{ConfigFS} `{Fsnotify} {S : Type} `{NotifyFS S}.
Context {C : Type} `{PodResourcesListerClient C} {K : Type} {A : Type}.
Context (mc : Machine) (env : gmap string string).

Definition nodeGetterFor (rteArgs : RTEArgs) : outcome NodeGetter.t :=
  if rte_AddNRTOwnerEnable rteArgs then
    match NodeGetter.NewCachedNodeGetter (mc_nodes mc) with
    | Err err => Err (Wrapf "Cannot enable 'add-nrt-owner'." err)
    | r => r
    end
  else Ok NodeGetter.DisabledNodeGetter.

(** Up to the start of the event source. *)
Definition Execute (podResCli : C) (k8scli : K) (nrtCli : A) (nrtupdaterArgs : UpdaterArgs)
  (resourcemonitorArgs : Args) (rteArgs : RTEArgs) (fs : S) (w : World)
  : S * World * outcome (Exporter C K A) :=
  let pre :=
    let! tmConf := getTopologyManagerSettings (rte_TopologyManagerPolicy rteArgs)
      (rte_TopologyManagerScope rteArgs) (rte_KubeletConfigFile rteArgs)
      (GetKubeletConfigFromLocalFile (mc_kubeletConfig mc)) in
    let! nodeGetter := nodeGetterFor rteArgs in
    let! condIn := if rte_PodReadinessEnable rteArgs
      then (let! ci := NewConditionInjector k8scli env in Ok (Some ci)) else Ok None in
    Ok (tmConf, nodeGetter, condIn) in
  match pre with
  | Err e => (fs, w, Err e)
  | Panic p => (fs, w, Panic p)
  | Ok (tmConf, nodeGetter, condIn) =>
      let '(fs, es) := createEventSource (eventArgs rteArgs) (mc_watcher mc) (mc_canWatch mc) fs in
      match es with
      | Err e => (fs, w, Err e)
      | Panic p => (fs, w, Panic p)
      | Ok eventSource =>
          let '(w, resMon) := NewResourceMonitor (Build_Handle podResCli (mc_nodeClient mc)) resourcemonitorArgs [] env
            (mc_topology mc (SysfsRoot resourcemonitorArgs)) (mc_sysfs mc) w in
          (fs, w,
           let! resObs := NewResourceObserver resMon resourcemonitorArgs in
           let! upd := NewNRTUpdater nodeGetter (Some nrtCli) nrtupdaterArgs tmConf in
           Ok {| ex_injector := condIn; ex_source := eventSource; ex_observer := resObs;
                 ex_updater := upd |})
      end
  end.
End execute.

(** ** [main] *)

(** What the program writes before it runs. *)
Inductive Output :=
| Println (s : string)
| LogInfo (s : string)
| WroteFile (path content : string).

Inductive Final (E : Type) :=
| Fatal (msg : string) (cause : error)  (** [klog.Fatalf]: exit with status 255 *)
| Exits (status : Z)
| Crash (why : string)
| Running (ex : E).
Arguments Fatal {E}.
Arguments Exits {E}.
Arguments Crash {E}.
Arguments Running {E}.

(** [err != nil] of a step of [main]. *)
Definition orFatal {V E} (msg : string) (x : outcome V) (k : V → Final E) : Final E :=
  match x with Ok v => k v | Err e => Fatal msg e | Panic p => Crash p end.

(** The arguments as text, by the encoder of a library. *)
Definition renderArgs (marshal : ProgArgs → string + string) (pa : ProgArgs) : string :=
  match marshal pa with
  | inr err => "<ERROR=" +:+ Sprintf_q err +:+ ">"
  | inl data => data
  end.
Definition ToJSONString (json_Marshal : ProgArgs → string + string) (pa : ProgArgs) : string := renderArgs json_Marshal pa.
Definition ToYAMLString (yaml_Marshal : ProgArgs → string + string) (pa : ProgArgs) : string := renderArgs yaml_Marshal pa.

Section dump.
Context (writeFile : string → string → option error).

(** The dump of the configuration: what is written, and how the program ends
    if it does. *)
Definition dumpConfig {E} (target conf : string) : list Output * option (Final E) :=
  if bool_decide (target = "") then ([], None)
  else if bool_decide (target = "-") then ([Println conf], None)
  else if bool_decide (target = ".andexit") then ([Println conf], Some (Exits 0))
  else if bool_decide (target = ".log") then ([LogInfo conf], None)
  else
    match writeFile target conf with
    | Some e => ([], Some (Fatal "failed to write the config" e))
    | None => ([WroteFile target conf], None)
    end.
End dump.

Section main.
Context `{MapOrder} `{GoPlatform} `{PodFingerprintLib} `{ConfigFS} `{YAMLLib} `{KlogLib}.
Context `{QuantityLib} `{CPUSetLib} `{TLSFlagLib} `{URLLib} `{FakeFS} `{Fsnotify} {S : Type} `{NotifyFS S}.
Context {C : Type} `{PodResourcesListerClient C} {K A : Type} `{KubeClients K A}.
Context (host : Host) (mc : Machine) (freshSet : string → outcome unit).
Context (DialContext : string → Z → Z → outcome C) (writeFile : string → string → option error).

Abbreviation Wrapped := (Stack.Client (C + FakeClient)).

(** The client the monitor is given: [wrapClient] with the terminal pods'
    informer started. *)
Definition wrapAll (cli : C + FakeClient) (p : ProgArgs) : outcome Wrapped :=
  let debug := ga_Debug (pa_Global p) in
  let excludes := args_PodExclude (pa_Resourcemonitor p) in
  let pooled := SharedCPUs.NewFromLister cli debug (rte_ReferenceContainer (pa_RTE p)) in
  let excluded : Stack.Excluded (C + FakeClient) :=
    if (0 <? length excludes)%nat then inr (PodExclude.NewFromLister pooled debug excludes) else inl pooled in
  if ExcludeTerminalPods (pa_Resourcemonitor p) then
    let! tp := TerminalPods.NewFromLister excluded (mc_synced mc) (mc_terminalPods mc) debug in Ok (inr tp)
  else Ok (inl excluded).

(** The hostname as [metrics.Setup] asks for it. *)
Definition hostnameResult : string * option error :=
  match os_Hostname host with Ok n => (n, None) | Err e => ("", Some e) | Panic p => ("", Some (Errorf p)) end.

(** The running program: the exporter, the server of the metrics and the file
    the fingerprints are dumped to. *)
Record Program := {
  pg_exporter : Exporter Wrapped K A;
  pg_server : option ServerOptions;
  pg_dumpfile : option string;
  pg_fs : S;
  pg_world : World
}.

(** [main] once the arguments are loaded and the program is to run. *)
Definition start (p : ProgArgs) (fs : S) (w : World) : Final Program :=
  orFatal "failed to get a kubernetes core client" (GetK8sClient (ga_KubeConfig (pa_Global p))) (λ k8scli,
  orFatal "failed to get a noderesourcetopology client" (GetTopologyClient (ga_KubeConfig (pa_Global p))) (λ nrtcli,
  match WaitForReady (GetClient DialContext (rte_PodResourcesSocketPath (pa_RTE p))) with
  | (_, _, Err e) => Fatal "failed to get podresources client" e
  | (_, _, Panic why) => Crash why
  | (None, _, Ok _) => Crash "nil client"
  | (Some cli, _, Ok _) =>
      orFatal "failed to get PodResourceAPI client" (wrapAll cli p) (λ cli,
      match Metrics.Setup "" (environ host) hostnameResult (w_metrics w) with
      | (_, Some e) => Fatal "failed to setup metrics" e
      | (m, None) =>
          let w := with_metrics (λ _, m) w in
          orFatal "failed to setup metrics server"
            (MetricsServer.Setup (rte_MetricsMode (pa_RTE p))
               (NewConfig (rte_MetricsAddress (pa_RTE p)) (rte_MetricsPort (pa_RTE p)) (rte_MetricsTLSCfg (pa_RTE p)))
               (mc_newServer mc)) (λ server,
          let dumpfile := PodSetFingerprintStatusFile (pa_Resourcemonitor p) in
          let '(fs, w, ex) := Execute mc (environ host) cli k8scli nrtcli (pa_NRTupdater p)
            (pa_Resourcemonitor p) (pa_RTE p) fs w in
          orFatal "failed to execute" ex (λ ex,
          Running {| pg_exporter := ex; pg_server := server;
                     pg_dumpfile := if PodSetFingerprint (pa_Resourcemonitor p) && negb (bool_decide (dumpfile = ""))
                                    then Some dumpfile else None;
                     pg_fs := fs; pg_world := w |}))
      end)
  end)).

Definition main (klog : list (string * klogValue)) (args : list string) (fs : S) (w : World)
  : list Output * Final Program :=
  match LoadArgs host freshSet klog args with
  | Exited status => ([], Exits status)
  | Crashed why => ([], Crash why)
  | Done (_, _, Err e) => ([], Fatal "failed to parse args" e)
  | Done (_, _, Panic why) => ([], Crash why)
  | Done (p, _, Ok _) =>
      let '(out, ended) := dumpConfig writeFile (pa_DumpConfig p) (ToYAMLString (mc_yaml mc) p) in
      match ended with
      | Some f => (out, f)
      | None =>
          if pa_Version p then (out ++ [Println (ProgramName +:+ " " +:+ version_Get (mc_version mc))], Exits 0)
          else (out, start p fs w)
      end
  end.
End main.
