(* ===== verification/MainProps.v ===== *)
(** * The program as a whole: what runs is what was configured

    [main_wired] reads the components of the running program off the loaded
    arguments: the client and its filters, the monitor, the updater, the event
    source, the injector and the metrics server. *)

From Stdlib Require Import Ascii SpecFloat.
From S2P Require Import Prelude GoStrings GoTime PodRes Middleware Counters SysInfo Metrics MetricsServer.
From S2P Require Import Events ResourceMonitor MonitorProps MonitorRefresh PodReadiness NRTUpdater UpdaterProps Observer.
From S2P Require Import GoFlag ConfigArgs ConfigProps Config ConfigLoad ConfigTyped PodResClient Main.

Section wiring.
Context `{MapOrder} `{GoPlatform} `{PodFingerprintLib} `{ConfigFS} `{YAMLLib} `{KlogLib}.
Context `{QuantityLib} `{CPUSetLib} `{TLSFlagLib} `{URLLib} `{FakeFS} `{Fsnotify} {S : Type} `{NotifyFS S}.
Context {C : Type} `{PodResourcesListerClient C} {K A : Type} `{KubeClients K A}.
Context (host : Host) (mc : Machine) (DialContext : string → Z → Z → outcome C).
Implicit Types p : ProgArgs.

(** The Topology Manager settings in force. *)
Definition tmSettings p : outcome TMConfig :=
  getTopologyManagerSettings (rte_TopologyManagerPolicy (pa_RTE p)) (rte_TopologyManagerScope (pa_RTE p))
    (rte_KubeletConfigFile (pa_RTE p)) (GetKubeletConfigFromLocalFile (mc_kubeletConfig mc)).

(** The components of a running program, from its arguments. *)
Record wired p (fs : S) (pg : Program (S := S) (C := C) (K := K) (A := A)) : Prop := {
  wired_monitor : ∃ cli cleanup cli' wrapped w0,
    reaches DialContext (rte_PodResourcesSocketPath (pa_RTE p)) cli cleanup ∧
    (∃ resp, cli_List cli = (cli', Ok resp)) ∧
    wrapped = Stack.wrapClient cli' (ga_Debug (pa_Global p)) (rte_ReferenceContainer (pa_RTE p))
      (args_PodExclude (pa_Resourcemonitor p)) (ExcludeTerminalPods (pa_Resourcemonitor p)) (mc_terminalPods mc) ∧
    NewResourceMonitor (Build_Handle wrapped (mc_nodeClient mc)) (pa_Resourcemonitor p) [] (environ host)
      (mc_topology mc (SysfsRoot (pa_Resourcemonitor p))) (mc_sysfs mc) w0 =
    (pg_world pg, Ok (ro_resMon (ex_observer (pg_exporter pg))));
  wired_observer :
    ro_resourceExclude (ex_observer (pg_exporter pg)) = args_ResourceExclude (pa_Resourcemonitor p) ∧
    ro_exposeTiming (ex_observer (pg_exporter pg)) = ExposeTiming (pa_Resourcemonitor p);
  wired_updater : ∃ nrtcli tm nodeGetter,
    GetTopologyClient (ga_KubeConfig (pa_Global p)) = Ok nrtcli ∧ tmSettings p = Ok tm ∧
    nodeGetterFor mc (pa_RTE p) = Ok nodeGetter ∧
    NewNRTUpdater nodeGetter (Some nrtcli) (pa_NRTupdater p) tm = Ok (ex_updater (pg_exporter pg));
  wired_source :
    createEventSource (eventArgs (pa_RTE p)) (mc_watcher mc) (mc_canWatch mc) fs =
    (pg_fs pg, Ok (ex_source (pg_exporter pg)));
  wired_injector :
    if rte_PodReadinessEnable (pa_RTE p) then
      ∃ k8scli ci, GetK8sClient (ga_KubeConfig (pa_Global p)) = Ok k8scli ∧
        NewConditionInjector k8scli (environ host) = Ok ci ∧ ex_injector (pg_exporter pg) = Some ci
    else ex_injector (pg_exporter pg) = None;
  wired_server :
    MetricsServer.Setup (rte_MetricsMode (pa_RTE p))
      (NewConfig (rte_MetricsAddress (pa_RTE p)) (rte_MetricsPort (pa_RTE p)) (rte_MetricsTLSCfg (pa_RTE p)))
      (mc_newServer mc) = Ok (pg_server pg)
}.

Lemma orFatal_Running {V E} msg (x : outcome V) (k : V → Final E) e :
  orFatal msg x k = Running e → ∃ v, x = Ok v ∧ k v = Running e.
Proof. destruct x; simpl; [eauto|done..]. Qed.

Lemma Execute_Ok {P : Type} `{PodResourcesListerClient P} (cli : P) (k8scli : K) (nrtcli : A) p fs w fs' w' ex :
  Execute mc (environ host) cli k8scli nrtcli (pa_NRTupdater p) (pa_Resourcemonitor p) (pa_RTE p) fs w =
    (fs', w', Ok ex) →
  createEventSource (eventArgs (pa_RTE p)) (mc_watcher mc) (mc_canWatch mc) fs = (fs', Ok (ex_source ex)) ∧
  NewResourceMonitor (Build_Handle cli (mc_nodeClient mc)) (pa_Resourcemonitor p) [] (environ host)
    (mc_topology mc (SysfsRoot (pa_Resourcemonitor p))) (mc_sysfs mc) w =
    (w', Ok (ro_resMon (ex_observer ex))) ∧
  (ro_resourceExclude (ex_observer ex) = args_ResourceExclude (pa_Resourcemonitor p) ∧
   ro_exposeTiming (ex_observer ex) = ExposeTiming (pa_Resourcemonitor p)) ∧
  (∃ tm nodeGetter, tmSettings p = Ok tm ∧ nodeGetterFor mc (pa_RTE p) = Ok nodeGetter ∧
     NewNRTUpdater nodeGetter (Some nrtcli) (pa_NRTupdater p) tm = Ok (ex_updater ex)) ∧
  (if rte_PodReadinessEnable (pa_RTE p) then
     ∃ ci, NewConditionInjector k8scli (environ host) = Ok ci ∧ ex_injector ex = Some ci
   else ex_injector ex = None).
Proof.
  unfold Execute. fold (tmSettings p). destruct (tmSettings p) as [tm|e|why]; [|done..].
  destruct (nodeGetterFor mc (pa_RTE p)) as [ng|e|why]; [|done..]. cbn [obind].
  destruct (if rte_PodReadinessEnable (pa_RTE p) then _ else _) as [condIn|e|why] eqn:Hcond; [|done..].
  cbn [obind]. destruct (createEventSource _ _ _ fs) as [fs1 [es|e|why]]; [|done..].
  destruct (NewResourceMonitor _ _ _ _ _ _ w) as [w1 [rm|e|why]]; [|done..]. simpl.
  intros [= <- <- <-]. simpl. split_and!; [done..| |].
  - by exists tm, ng.
  - destruct (rte_PodReadinessEnable (pa_RTE p)); [|by injection Hcond as <-].
    destruct (NewConditionInjector k8scli (environ host)) as [ci|e|why]; [|done..].
    injection Hcond as <-. by exists ci.
Qed.

(** What [main] builds is the stack whose answers are known. *)
Lemma wrapAll_Ok (cli : C + FakeClient) p wrapped :
  wrapAll mc cli p = Ok wrapped →
  wrapped = Stack.wrapClient cli (ga_Debug (pa_Global p)) (rte_ReferenceContainer (pa_RTE p))
    (args_PodExclude (pa_Resourcemonitor p)) (ExcludeTerminalPods (pa_Resourcemonitor p)) (mc_terminalPods mc).
Proof.
  unfold wrapAll, Stack.wrapClient, TerminalPods.NewFromLister. destruct (ExcludeTerminalPods _); [|by intros [= <-]].
  destruct (TerminalPods.firstUnsynced _); [done|]. by intros [= <-].
Qed.

Lemma start_inv p fs w pg :
  start host mc DialContext p fs w = Running pg → wired p fs pg.
Proof.
  unfold start. intros (k8scli & Hk8s & Hstart)%orFatal_Running.
  apply orFatal_Running in Hstart as (nrtcli & Hnrt & Hstart).
  pose proof (GetClient_spec DialContext (rte_PodResourcesSocketPath (pa_RTE p))) as Hcli.
  destruct (GetClient DialContext _) as [[[cli|] cleanup] [[]|e|why]]; simpl in Hstart; try done.
  destruct (match cli with inl _ => _ | inr _ => _ end) as [cli' [resp|e|why]] eqn:Hlist; try done.
  apply orFatal_Running in Hstart as (wrapped & Hwrap%wrapAll_Ok & Hstart).
  destruct (Metrics.Setup _ _ _ _) as [m [e|]]; [done|].
  apply orFatal_Running in Hstart as (server & Hserver & Hstart).
  destruct (Execute _ _ _ _ _ _ _ _ _ _) as [[fs' w'] ex] eqn:Hex.
  apply orFatal_Running in Hstart as (ex' & -> & Hstart). injection Hstart as <-.
  apply Execute_Ok in Hex as (Hes & Hrm & Hobs & Hupd & Hinj).
  destruct Hupd as (tm & ng & Htm & Hng & Hupd). split; simpl; try done.
  - exists cli, cleanup, cli', wrapped, (with_metrics (λ _, m) w). split_and!; try done. by exists resp.
  - by exists nrtcli, tm, ng.
  - destruct (rte_PodReadinessEnable (pa_RTE p)); [|done]. destruct Hinj as (ci & Hci & Hi).
    by exists k8scli, ci.
Qed.
End wiring.

Section running.
Context `{MapOrder} `{GoPlatformLaws} `{PodFingerprintLib} `{ConfigFS} `{YAMLLib} `{KlogLib}.
Context `{QuantityLib} `{CPUSetLib} `{TLSFlagLib} `{URLLib} `{FakeFS} `{Fsnotify} {S : Type} `{NotifyFS S}.
Context {C : Type} `{PodResourcesListerClient C} {K A : Type} `{KubeClients K A}.
Context (host : Host) (mc : Machine) (freshSet : string → outcome unit).
Context (DialContext : string → Z → Z → outcome C) (writeFile : string → string → option error).

(** A program that runs has loaded its arguments, was asked neither for its
    version nor to stop after the dump, and was started with them. *)
Lemma main_inv klog args (fs : S) w out pg :
  main host mc freshSet DialContext writeFile klog args fs w = (out, Running pg) →
  ∃ p klog', LoadArgs host freshSet klog args = Done (p, klog', Ok ()) ∧ pa_Version p = false ∧
    pa_DumpConfig p ≠ ".andexit" ∧ start host mc DialContext p fs w = Running pg.
Proof.
  unfold main. destruct (LoadArgs host freshSet klog args) as [[[p klog'] [[]|e|why]]|s|why]; try done.
  intros Hmain. exists p, klog'. split; [done|]. unfold dumpConfig in Hmain.
  destruct (pa_Version p) eqn:Hv.
  - repeat (case_bool_decide; [by simplify_eq|]). by destruct (writeFile _ _).
  - split; [done|]. destruct (decide (pa_DumpConfig p = ".andexit")) as [Hd|Hd].
    + rewrite Hd in Hmain. by simplify_eq/=.
    + split; [done|]. do 2 (case_bool_decide; [by simplify_eq|]).
      rewrite bool_decide_eq_false_2 in Hmain by done.
      case_bool_decide; [by simplify_eq|]. destruct (writeFile _ _); by simplify_eq.
Qed.

Lemma NewResourceMonitor_topo {P : Type} `{PodResourcesListerClient P} (hnd : Handle P) args env detected fs
    w w' rm :
  NewResourceMonitor hnd args [] env detected fs w = (w', Ok rm) →
  ∃ topo, detected = Ok topo ∧ rm_topo rm = topo.
Proof.
  unfold NewResourceMonitor. cbn [foldl su_topo su_nodeName su_k8sCli]. destruct detected as [topo|e|why]; [|done..]. intros Hnew. exists topo.
  split; [done|]. destruct (updateNodeResources fs _ w) as [[w1 rm1] o] eqn:Hu.
  apply updateNodeResources_ok in Hu; [|done]. destruct o as [u|e|why]; [|done..].
  destruct Hu as [(_ & _ & Htopo & _) _].
  destruct (negb _); [by simplify_eq|]. destruct (addNodeInformerEvent _); by simplify_eq/=.
Qed.

(** C12: what runs is what was configured.  A program that gets to run has
    loaded its arguments, reaches the kubelet at the configured endpoint
    (which answered once), filters its answers as configured, writes with the
    configured updater, wakes up as configured, injects conditions exactly
    when asked to and serves its metrics in the configured mode. *)
Theorem main_wired klog args (fs : S) w out pg
    (Hmain : main host mc freshSet DialContext writeFile klog args fs w = (out, Running pg)) :
  ∃ p klog', LoadArgs host freshSet klog args = Done (p, klog', Ok ()) ∧
    pa_Version p = false ∧ pa_DumpConfig p ≠ ".andexit" ∧ wired host mc DialContext p fs pg.
Proof.
  apply main_inv in Hmain as (p & klog' & Hload & Hv & Hd & Hstart%start_inv). by exists p, klog'.
Qed.
End running.

(** ** A run of the program *)

#[local] Existing Instances canonical_order amd64 amd64_laws example_pfp ConfigLoad.example_fs example_yaml example_klog.
#[local] Existing Instances example_quantity example_cpuset example_tls example_url example_fake example_json.

#[local] Instance example_kube : KubeClients OnePod MapServer := {|
  restConfig := unit;
  InClusterConfig := Ok ();
  BuildConfigFromFlags _ := Ok ();
  kubernetes_NewForConfig _ := Ok example_server;
  topology_NewForConfig _ := Ok example_api |}.

Definition example_machine : Machine := {|
  mc_topology root := if bool_decide (root = "/sys") then Ok example_topo else Err ErrNotExist;
  mc_sysfs := SysInfo.example_fs; mc_nodeClient := {| nc_HasSynced := true |}; mc_watcher := Ok (); mc_canWatch := true;
  mc_nodes := Ok []; mc_kubeletConfig _ := Err (Errorf "none"); mc_synced := ∅;
  mc_terminalPods := Ok []; mc_newServer _ := None; mc_yaml _ := inl ""; mc_version := Some "devel" |}.

(** The kubelet answers the check that it is ready, then the scans. *)
Definition example_dial (path : string) (timeout size : Z) : outcome MockClient :=
  if bool_decide (path = "/podresources/kubelet.sock") then
    Ok {| mock_lists := [Ok {| lr_PodResources := [] |}; Ok {| lr_PodResources := example_running |};
                         Ok {| lr_PodResources := [] |}];
          mock_allocs := [Ok example_alloc]; mock_gets := [] |}
  else Err (Errorf "no such socket").

Definition example_command : list string :=
  ["--oneshot=false"; "--podreadiness=false"; "--add-nrt-owner=false"; "--metrics-mode=disabled";
   "--topology-manager-policy=single-numa-node"; "--topology-manager-scope=pod"].

Abbreviation example_main :=
  (main example_host example_machine (λ _, Ok ()) example_dial (λ _ _, None) example_klog_flags
     example_command example_sizes example_world).

Ltac running x :=
  let r := eval vm_compute in x in match r with (_, Running ?pg) => exact pg end.

Definition example_program : Program (S := SizesFS) (C := MockClient) (K := OnePod) (A := MapServer) :=
  ltac:(running constr:(example_main)).

Lemma example_main_runs : example_main = ([], Running example_program).
Proof. vm_cast_no_check (eq_refl (@nil Output, Running example_program)). Qed.

Lemma main_wired_witness :
  example_main = ([], Running example_program) ∧
  ∃ p klog', LoadArgs example_host (λ _, Ok ()) example_klog_flags example_command = Done (p, klog', Ok ()) ∧
    wired example_host example_machine example_dial p example_sizes example_program.
Proof.
  split; [exact example_main_runs|].
  destruct (main_wired example_host example_machine (λ _, Ok ()) example_dial (λ _ _, None)
      example_klog_flags example_command example_sizes example_world [] example_program
      example_main_runs)
    as (p & klog' & Hload & _ & _ & Hwired).
  exists p, klog'. split; [exact Hload|exact Hwired].
Defined.
