(* ===== verification/System.v ===== *)
(** * The running exporter: its goroutines and channels

    [Execute] starts four goroutines: the event source (with the two of its
    rate limiter), the observer, the updater and the condition injector; the
    node informer calls back on a fifth.  They share unbuffered channels and
    the metrics.  Here the running exporter is a labelled transition system:
    a state per goroutine, an [action] for every piece of work and every
    rendezvous, and [exec], which runs an action if it is enabled.  The sources
    are those of the components; what is added is how they interleave. *)

From S2P Require Import Prelude GoStrings GoTime PodRes Middleware Counters SysInfo Metrics.
From S2P Require Import Events ResourceMonitor MonitorProps MonitorRefresh PodReadiness NRTUpdater UpdaterProps Observer Main.

(** ** The event source *)

(** The event one input of the source makes. *)
Definition sourceEvent (es : UnlimitedEventSource) (input : SourceInput) : option Event :=
  match input with
  | TimerTick tickTs =>
      if 0 <? sleepInterval es then Some {| ev_Timestamp := tickTs; ev_TimerInterval := sleepInterval es |} else None
  | WatcherEvent event now =>
      if AnyFilter (filters es) event then Some {| ev_Timestamp := now; ev_TimerInterval := 0 |} else None
  | WatcherError _ | StopSource => None
  end.

(** The source, the event its goroutine waits to send, the limiter if there
    is one, and what happened so far: the inputs, the events made and those
    the observer took. *)
Record Front := {
  fr_es : UnlimitedEventSource;
  fr_pending : option Event;
  fr_limiter : option RateLimiter.t;
  fr_inputs : list SourceInput;
  fr_produced : list Event;
  fr_taken : list Event
}.

Definition startEvent (now : Z) : Event := {| ev_Timestamp := now; ev_TimerInterval := 0 |}.

(** The source sends an event as soon as it runs. *)
Definition newFront (src : EventSource) (now : Z) : Front :=
  {| fr_es := base_source src;
     fr_pending := Some (startEvent now);
     fr_limiter := match src with
                   | Unlimited _ => None | RateLimited _ _ _ => Some RateLimiter.NewRateLimitedEventSource
                   end;
     fr_inputs := []; fr_produced := [startEvent now]; fr_taken := [] |}.

(** The source is in its [select]. *)
Definition sourceStep (input : SourceInput) (fr : Front) : option Front :=
  match fr_pending fr, input with
  | Some _, _ | _, StopSource => None
  | None, _ =>
      let ev := sourceEvent (fr_es fr) input in
      Some {| fr_es := fr_es fr; fr_pending := ev; fr_limiter := fr_limiter fr;
              fr_inputs := fr_inputs fr ++ [input];
              fr_produced := fr_produced fr ++ option_list ev; fr_taken := fr_taken fr |}
  end.

(** The limiter's receiver takes the event. *)
Definition bufferStep (fr : Front) : option Front :=
  match fr_limiter fr, fr_pending fr with
  | Some l, Some ev =>
      if RateLimiter.receiverDone l then None
      else Some {| fr_es := fr_es fr; fr_pending := None; fr_limiter := Some (RateLimiter.receive l ev);
                   fr_inputs := fr_inputs fr; fr_produced := fr_produced fr; fr_taken := fr_taken fr |}
  | _, _ => None
  end.

Definition limiterTake (l : RateLimiter.t) : option RateLimiter.t :=
  match RateLimiter.senderDone l, RateLimiter.holding l, RateLimiter.buffer l with
  | false, None, ev :: rest =>
      Some {| RateLimiter.received := RateLimiter.received l; RateLimiter.buffer := rest;
              RateLimiter.holding := Some ev; RateLimiter.sent := RateLimiter.sent l;
              RateLimiter.dropped := RateLimiter.dropped l;
              RateLimiter.receiverDone := RateLimiter.receiverDone l;
              RateLimiter.senderDone := RateLimiter.senderDone l |}
  | _, _, _ => None
  end.

Definition limiterSend (l : RateLimiter.t) : option (Event * RateLimiter.t) :=
  match RateLimiter.holding l with
  | Some ev =>
      Some (ev, {| RateLimiter.received := RateLimiter.received l; RateLimiter.buffer := RateLimiter.buffer l;
                   RateLimiter.holding := None; RateLimiter.sent := RateLimiter.sent l ++ [ev];
                   RateLimiter.dropped := RateLimiter.dropped l;
                   RateLimiter.receiverDone := RateLimiter.receiverDone l;
                   RateLimiter.senderDone := RateLimiter.senderDone l |})
  | None => None
  end.

(** The limiter's sender takes an event from the buffer. *)
Definition takeStep (fr : Front) : option Front :=
  l ← fr_limiter fr;
  l' ← limiterTake l;
  Some {| fr_es := fr_es fr; fr_pending := fr_pending fr; fr_limiter := Some l';
          fr_inputs := fr_inputs fr; fr_produced := fr_produced fr; fr_taken := fr_taken fr |}.

(** The observer reads from [eventSource.Events()]. *)
Definition deliverStep (fr : Front) : option (Event * Front) :=
  match fr_limiter fr with
  | None =>
      ev ← fr_pending fr;
      Some (ev, {| fr_es := fr_es fr; fr_pending := None; fr_limiter := None; fr_inputs := fr_inputs fr;
                   fr_produced := fr_produced fr; fr_taken := fr_taken fr ++ [ev] |})
  | Some l =>
      '(ev, l') ← limiterSend l;
      Some (ev, {| fr_es := fr_es fr; fr_pending := fr_pending fr; fr_limiter := Some l';
                   fr_inputs := fr_inputs fr; fr_produced := fr_produced fr; fr_taken := fr_taken fr ++ [ev] |})
  end.

(** ** The other goroutines *)

Inductive obsPC :=
| ObsWaiting
| ObsBusy (ev : Event)
| ObsSendingInfo (info : MonitorInfo) (elapsed : Z)
| ObsSendingCond (cond : PodCondition).

(** With the results of the scans so far, [None] for a failed one. *)
Record ObsG (C : Type) := {
  og_obs : ResourceObserver (resourceMonitor C);
  og_lastWakeup : Z;
  og_pc : obsPC;
  og_scans : list (option MonitorInfo)
}.
Arguments og_obs {C}.
Arguments og_lastWakeup {C}.
Arguments og_pc {C}.
Arguments og_scans {C}.
Arguments Build_ObsG {C}.

Inductive updPC :=
| UpdWaiting
| UpdBusy (info : MonitorInfo)
| UpdSendingCond (cond : PodCondition).

(** With the infos handled so far, and whether their update succeeded. *)
Record UpdG (A : Type) := {
  ug_upd : NRTUpdater A;
  ug_pc : updPC;
  ug_updates : list (MonitorInfo * bool)
}.
Arguments ug_upd {A}.
Arguments ug_pc {A}.
Arguments ug_updates {A}.
Arguments Build_UpdG {A}.

Inductive injPC := InjWaiting | InjBusy (cond : PodCondition).

(** With the conditions handled so far, and whether their injection
    succeeded. *)
Record InjG (K : Type) := {
  ig_inj : ConditionInjector K;
  ig_pc : injPC;
  ig_injected : list (PodCondition * bool)
}.
Arguments ig_inj {K}.
Arguments ig_pc {K}.
Arguments ig_injected {K}.
Arguments Build_InjG {K}.

(** The informer's callback refreshes the monitor in three parts, between
    which the other goroutines run: nothing locks the monitor. *)
Inductive refPC := RefIdle | RefCapacity | RefAllocatable.

Section system.
Context `{MapOrder} `{PodFingerprintLib} `{QuantityLib}.
Context {C : Type} `{PodResourcesListerClient C} {K : Type} `{PodClient K} {A : Type} `{NRTClient A} `{JSONLib}.

(** Without pod readiness there is no injector and the channel of the
    conditions is nil. *)
Record System := {
  sy_front : Front;
  sy_obs : ObsG C;
  sy_upd : UpdG A;
  sy_inj : option (InjG K);
  sy_ref : refPC;
  sy_world : World
}.

Definition newSystem (ex : Exporter C K A) (w : World) (now lastWakeup : Z) : System :=
  {| sy_front := newFront (ex_source ex) now;
     sy_obs := Build_ObsG (ex_observer ex) lastWakeup ObsWaiting [];
     sy_upd := Build_UpdG (ex_updater ex) UpdWaiting [];
     sy_inj := (λ ci, Build_InjG ci InjWaiting []) <$> ex_injector ex;
     sy_ref := RefIdle;
     sy_world := w |}.

Implicit Types s : System.

Definition with_front s fr : System :=
  {| sy_front := fr; sy_obs := sy_obs s; sy_upd := sy_upd s; sy_inj := sy_inj s; sy_ref := sy_ref s;
     sy_world := sy_world s |}.
Definition with_obs s o w : System :=
  {| sy_front := sy_front s; sy_obs := o; sy_upd := sy_upd s; sy_inj := sy_inj s; sy_ref := sy_ref s;
     sy_world := w |}.
Definition with_upd s u w : System :=
  {| sy_front := sy_front s; sy_obs := sy_obs s; sy_upd := u; sy_inj := sy_inj s; sy_ref := sy_ref s;
     sy_world := w |}.
Definition with_inj s i : System :=
  {| sy_front := sy_front s; sy_obs := sy_obs s; sy_upd := sy_upd s; sy_inj := i; sy_ref := sy_ref s;
     sy_world := sy_world s |}.
Definition with_ref s r : System :=
  {| sy_front := sy_front s; sy_obs := sy_obs s; sy_upd := sy_upd s; sy_inj := sy_inj s; sy_ref := r;
     sy_world := sy_world s |}.

Definition set_obsPC (o : ObsG C) (pc : obsPC) : ObsG C :=
  Build_ObsG (og_obs o) (og_lastWakeup o) pc (og_scans o).
Definition set_updPC (u : UpdG A) (pc : updPC) : UpdG A := Build_UpdG (ug_upd u) pc (ug_updates u).

(** [SetCondition]: a nil channel is skipped. *)
Definition obsReports s (status : string) (now : Z) : obsPC :=
  match sy_inj s with
  | Some _ => ObsSendingCond (conditionFor PodresourcesFetched status now)
  | None => ObsWaiting
  end.
Definition updReports s (status : string) (now : Z) : updPC :=
  match sy_inj s with
  | Some _ => UpdSendingCond (conditionFor NodeTopologyUpdated status now)
  | None => UpdWaiting
  end.

(** ** The actions *)

Inductive action :=
| Source (input : SourceInput)
| Buffer | Take
| Wake
| DoScan (elapsed now : Z)
| HandOver (now : Z)
| DoUpdate (elapsed now : Z)
| ObsReport | UpdReport
| DoInject
| NodeEvent (fs : FileSystem) (nOld nNew : KNode)
| DoAllocatable | DoDevices.

Definition wakeStep s : option System :=
  match og_pc (sy_obs s) with
  | ObsWaiting =>
      '(ev, fr) ← deliverStep (sy_front s);
      Some (with_obs (with_front s fr) (set_obsPC (sy_obs s) (ObsBusy ev)) (sy_world s))
  | _ => None
  end.

Definition scanStep (elapsed now : Z) s : option (outcome System) :=
  let o := sy_obs s in
  match og_pc o with
  | ObsBusy ev =>
      let '(w, rm, r) := scanEvent (og_obs o) (og_lastWakeup o) (sy_world s) ev in
      Some (
        let! res := r in
        let pc := match res with
                  | Some info => ObsSendingInfo info elapsed
                  | None => obsReports s ConditionFalse now
                  end in
        Ok (with_obs s (Build_ObsG (set_resMon (og_obs o) rm) (ev_Timestamp ev) pc (og_scans o ++ [res])) w))
  | _ => None
  end.

Definition handOverStep (now : Z) s : option System :=
  match og_pc (sy_obs s), ug_pc (sy_upd s) with
  | ObsSendingInfo info elapsed, UpdWaiting =>
      let s := with_upd s (set_updPC (sy_upd s) (UpdBusy info)) (sy_world s) in
      Some (with_obs s (set_obsPC (sy_obs s) (obsReports s ConditionTrue now))
              (recordScan info elapsed (sy_world s)))
  | _, _ => None
  end.

Definition updateStep (elapsed now : Z) s : option (outcome System) :=
  let u := sy_upd s in
  match ug_pc u with
  | UpdBusy info =>
      let '(te, m, err) := Update (ug_upd u) (w_metrics (sy_world s)) info in
      Some (
        match err with
        | Panic p => Panic p
        | _ =>
            let m := UpdateOperationDelayMetric "node_resource_object_update" RTEUpdateReactive
                       (Z.quot elapsed 1000000) m in
            let pc := if Oneshot (te_args te) then UpdWaiting
                      else updReports s (if is_ok err then ConditionTrue else ConditionFalse) now in
            Ok (with_upd s (Build_UpdG te pc (ug_updates u ++ [(info, is_ok err)]))
                  (with_metrics (λ _, m) (sy_world s)))
        end)
  | _ => None
  end.

(** The injector receives a condition. *)
Definition receiveCond (inj : option (InjG K)) (cond : PodCondition) : option (InjG K) :=
  match inj with
  | Some (Build_InjG ci InjWaiting l) => Some (Build_InjG ci (InjBusy cond) l)
  | _ => None
  end.

Definition obsReportStep s : option System :=
  match og_pc (sy_obs s) with
  | ObsSendingCond cond =>
      i ← receiveCond (sy_inj s) cond;
      Some (with_inj (with_obs s (set_obsPC (sy_obs s) ObsWaiting) (sy_world s)) (Some i))
  | _ => None
  end.

Definition updReportStep s : option System :=
  match ug_pc (sy_upd s) with
  | UpdSendingCond cond =>
      i ← receiveCond (sy_inj s) cond;
      Some (with_inj (with_upd s (set_updPC (sy_upd s) UpdWaiting) (sy_world s)) (Some i))
  | _ => None
  end.

Definition injectStep s : option (outcome System) :=
  match sy_inj s with
  | Some (Build_InjG ci (InjBusy cond) l) =>
      let '(ci, err) := Inject ci cond in
      Some (match err with
            | Panic p => Panic p
            | _ => Ok (with_inj s (Some (Build_InjG ci InjWaiting (l ++ [(cond, is_ok err)]))))
            end)
  | _ => None
  end.

(** The monitor is shared by the observer and the callback. *)
Definition with_monitor s (rm : resourceMonitor C) w : System :=
  with_obs s (Build_ObsG (set_resMon (og_obs (sy_obs s)) rm) (og_lastWakeup (sy_obs s)) (og_pc (sy_obs s))
                (og_scans (sy_obs s))) w.

(** How the callback goes on after a part of the refresh; an error is
    logged and ends it. *)
Definition afterRefresh s (rm : resourceMonitor C) w (r : outcome unit) (next : refPC) : outcome System :=
  match r with
  | Panic p => Panic p
  | Ok _ => Ok (with_ref (with_monitor s rm w) next)
  | Err _ => Ok (with_ref (with_monitor s rm w) RefIdle)
  end.

Definition nodeEventStep (fs : FileSystem) (nOld nNew : KNode) s : option (outcome System) :=
  let rm := ro_resMon (og_obs (sy_obs s)) in
  match sy_ref s with
  | RefIdle =>
      if negb (RefreshNodeResources (rm_args rm)) then None
      else if negb (bool_decide (kn_Name nNew = rm_nodeName rm)) then Some (Ok s)
      else if negb (bool_decide (kn_Capacity nOld = kn_Capacity nNew)) ||
              negb (bool_decide (kn_Allocatable nOld = kn_Allocatable nNew))
      then let '(rm, r) := updateNodeCapacity fs rm in Some (afterRefresh s rm (sy_world s) r RefCapacity)
      else Some (Ok s)
  | _ => None
  end.

Definition allocatableStep s : option (outcome System) :=
  match sy_ref s with
  | RefCapacity =>
      let '(w, rm, r) := updateNodeAllocatable (ro_resMon (og_obs (sy_obs s))) (sy_world s) in
      Some (afterRefresh s rm w r RefAllocatable)
  | _ => None
  end.

Definition devicesStep s : option (outcome System) :=
  match sy_ref s with
  | RefAllocatable =>
      let '(rm, r) := updateDevicesCapacity (ro_resMon (og_obs (sy_obs s))) in
      Some (afterRefresh s rm (sy_world s) r RefIdle)
  | _ => None
  end.

(** [None] when the action is not enabled; a panic ends the process. *)
Definition exec (a : action) s : option (outcome System) :=
  match a with
  | Source input => (λ fr, Ok (with_front s fr)) <$> sourceStep input (sy_front s)
  | Buffer => (λ fr, Ok (with_front s fr)) <$> bufferStep (sy_front s)
  | Take => (λ fr, Ok (with_front s fr)) <$> takeStep (sy_front s)
  | Wake => Ok <$> wakeStep s
  | DoScan elapsed now => scanStep elapsed now s
  | HandOver now => Ok <$> handOverStep now s
  | DoUpdate elapsed now => updateStep elapsed now s
  | ObsReport => Ok <$> obsReportStep s
  | UpdReport => Ok <$> updReportStep s
  | DoInject => injectStep s
  | NodeEvent fs nOld nNew => nodeEventStep fs nOld nNew s
  | DoAllocatable => allocatableStep s
  | DoDevices => devicesStep s
  end.

(** From outside the program: the timer, the file, the node. *)
Definition external (a : action) : bool :=
  match a with Source _ | NodeEvent _ _ _ => true | _ => false end.

Definition step s s' : Prop := ∃ a, exec a s = Some (Ok s').
Definition internal s s' : Prop := ∃ a, external a = false ∧ exec a s = Some (Ok s').

(** A sequence of actions. *)
Fixpoint execAll (l : list action) s : option (outcome System) :=
  match l with
  | [] => Some (Ok s)
  | a :: l => match exec a s with Some (Ok s) => execAll l s | r => r end
  end.

(** Every goroutine waits and no event is on its way. *)
Definition quiet s : Prop :=
  fr_pending (sy_front s) = None ∧
  (∀ l, fr_limiter (sy_front s) = Some l → RateLimiter.buffer l = [] ∧ RateLimiter.holding l = None) ∧
  og_pc (sy_obs s) = ObsWaiting ∧ ug_pc (sy_upd s) = UpdWaiting ∧
  (∀ i, sy_inj s = Some i → ig_pc i = InjWaiting) ∧ sy_ref s = RefIdle.
End system.
