(* ===== verification/SystemProps.v ===== *)
(** * What the running exporter guarantees

    The invariant of the goroutines over every interleaving ([system_history]),
    the absence of deadlocks ([system_progress]), and what follows for the
    object on the API server and the conditions on the pod. *)

From S2P Require Import Prelude GoStrings GoTime PodRes Middleware Counters SysInfo Metrics.
From S2P Require Import Events ResourceMonitor MonitorProps MonitorRefresh PodReadiness NRTUpdater UpdaterProps Observer Main System.

(** ** The event source *)

Section front.
Implicit Types (fr : Front) (src : EventSource).

(** The events are those of the source, in its order; the observer takes all
    of them, or, behind a limiter, those the limiter does not drop. *)
Record front_ok src (now : Z) fr : Prop := {
  fo_es : fr_es fr = base_source src;
  fo_running : StopSource ∉ fr_inputs fr;
  fo_produced : fr_produced fr = (SourceRun (base_source src) now (fr_inputs fr)).1;
  fo_flow : match fr_limiter fr with
            | None => fr_produced fr = fr_taken fr ++ option_list (fr_pending fr)
            | Some l => RateLimiter.limiter_ok l ∧
                fr_produced fr = RateLimiter.received l ++ option_list (fr_pending fr) ∧
                fr_taken fr = RateLimiter.sent l ∧
                RateLimiter.receiverDone l = false ∧ RateLimiter.senderDone l = false
            end
}.

Lemma sourceLoop_events es inputs :
  StopSource ∉ inputs → (sourceLoop es inputs).1 = omap (sourceEvent es) inputs.
Proof.
  induction inputs as [|input inputs IH]; intros Hns; [done|]. rewrite not_elem_of_cons in Hns.
  destruct Hns as [Hne Hns]. specialize (IH Hns).
  destruct input; simpl; try done; destruct (sourceLoop es inputs) as [out stopped]; simpl in IH; subst out.
  - by destruct (0 <? sleepInterval es).
  - by destruct (AnyFilter (filters es) event).
Qed.

Lemma SourceRun_snoc es now inputs input :
  StopSource ∉ inputs ++ [input] →
  (SourceRun es now (inputs ++ [input])).1 = (SourceRun es now inputs).1 ++ option_list (sourceEvent es input).
Proof.
  intros Hns. assert (StopSource ∉ inputs) as Hns' by set_solver. unfold SourceRun.
  pose proof (sourceLoop_events es _ Hns) as H1. pose proof (sourceLoop_events es _ Hns') as H2.
  destruct (sourceLoop es (inputs ++ [input])) as [o1 ?], (sourceLoop es inputs) as [o2 ?]. simpl in *. subst.
  rewrite omap_app. simpl. by destruct (sourceEvent es input).
Qed.

Lemma front_ok_new src now : front_ok src now (newFront src now).
Proof.
  split; [by destruct src|set_solver|done|]. destruct src; simpl; [done|].
  split_and!; [apply RateLimiter.limiter_ok_new|done..].
Qed.

Lemma sourceStep_ok src now input fr fr' :
  sourceStep input fr = Some fr' → front_ok src now fr → front_ok src now fr'.
Proof.
  unfold sourceStep. intros Hs [Hes Hrun Hprod Hflow].
  destruct (fr_pending fr) eqn:Hp; [done|].
  assert (StopSource ∉ fr_inputs fr ++ [input]) as Hns by (destruct input; set_solver).
  assert (fr' = {| fr_es := fr_es fr; fr_pending := sourceEvent (fr_es fr) input; fr_limiter := fr_limiter fr;
                   fr_inputs := fr_inputs fr ++ [input];
                   fr_produced := fr_produced fr ++ option_list (sourceEvent (fr_es fr) input);
                   fr_taken := fr_taken fr |}) as -> by (destruct input; congruence).
  split; simpl; [done..| |].
  - by rewrite SourceRun_snoc, Hprod, Hes.
  - rewrite app_nil_r in Hflow. destruct (fr_limiter fr); [|by rewrite Hflow].
    destruct Hflow as (? & -> & ? & ? & ?). by rewrite app_nil_r.
Qed.

Lemma bufferStep_ok src now fr fr' : bufferStep fr = Some fr' → front_ok src now fr → front_ok src now fr'.
Proof.
  unfold bufferStep. intros Hs [Hes Hrun Hprod Hflow].
  destruct (fr_limiter fr) as [l|]; [|done]. destruct (fr_pending fr) as [ev|]; [|done].
  destruct Hflow as (Hok & Hp & Ht & Hr & Hsd). rewrite Hr in Hs. injection Hs as <-.
  split; simpl; [done..|]. split_and!.
  - eapply RateLimiter.step_ok; [by apply RateLimiter.step_receive|done].
  - rewrite Hp, app_nil_r. unfold RateLimiter.receive. by case_decide.
  - rewrite Ht. unfold RateLimiter.receive. by case_decide.
  - unfold RateLimiter.receive. by case_decide.
  - unfold RateLimiter.receive. by case_decide.
Qed.

Lemma limiterTake_step l l' : limiterTake l = Some l' → RateLimiter.step l l'.
Proof.
  unfold limiterTake. destruct (RateLimiter.senderDone l) eqn:Hsd; [done|].
  destruct (RateLimiter.holding l) eqn:Hh; [done|]. destruct (RateLimiter.buffer l) eqn:Hb; [done|].
  intros [= <-]. pose proof (RateLimiter.step_take l _ _ Hsd Hh Hb) as Hs. by rewrite Hsd in Hs.
Qed.

Lemma limiterSend_step l ev l' : limiterSend l = Some (ev, l') → RateLimiter.step l l'.
Proof.
  unfold limiterSend. destruct (RateLimiter.holding l) eqn:?; [|done]. intros [= <- <-].
  by apply RateLimiter.step_send.
Qed.

Lemma takeStep_ok src now fr fr' : takeStep fr = Some fr' → front_ok src now fr → front_ok src now fr'.
Proof.
  unfold takeStep. intros Hs [Hes Hrun Hprod Hflow]. destruct (fr_limiter fr) as [l|]; [|done]. simpl in Hs.
  destruct (limiterTake l) as [l'|] eqn:Hl; [|done]. injection Hs as <-.
  destruct Hflow as (Hok & Hp & Ht & Hr & Hsd). split; simpl; [done..|].
  pose proof (limiterTake_step _ _ Hl) as Hstep. unfold limiterTake in Hl. rewrite Hsd in Hl.
  destruct (RateLimiter.holding l); [done|]. destruct (RateLimiter.buffer l); [done|].
  split_and!; [by eapply RateLimiter.step_ok|by injection Hl as <-..].
Qed.

Lemma deliverStep_ok src now fr ev fr' :
  deliverStep fr = Some (ev, fr') → front_ok src now fr →
  front_ok src now fr' ∧ fr_taken fr' = fr_taken fr ++ [ev].
Proof.
  unfold deliverStep. intros Hs [Hes Hrun Hprod Hflow]. destruct (fr_limiter fr) as [l|].
  - destruct (limiterSend l) as [[ev' l']|] eqn:Hl; [|done]. simpl in Hs. simplify_eq.
    destruct Hflow as (Hok & Hp & Ht & Hr & Hsd). split; [|done]. split; simpl; [done..|].
    pose proof (limiterSend_step _ _ _ Hl) as Hstep. unfold limiterSend in Hl.
    destruct (RateLimiter.holding l); [|done].
    split_and!; [by eapply RateLimiter.step_ok|by injection Hl as <- <-; simpl; rewrite ?Ht..].
  - destruct (fr_pending fr) as [ev'|]; [|done]. simpl in Hs. simplify_eq. split; [|done].
    split; simpl; [done..|]. by rewrite app_nil_r.
Qed.
End front.

(** ** What is on its way *)

Definition obs_info (pc : obsPC) : option MonitorInfo :=
  match pc with ObsSendingInfo info _ => Some info | _ => None end.
Definition obs_cond (pc : obsPC) : option PodCondition :=
  match pc with ObsSendingCond cond => Some cond | _ => None end.
Definition obs_event (pc : obsPC) : option Event := match pc with ObsBusy ev => Some ev | _ => None end.
Definition upd_info (pc : updPC) : option MonitorInfo := match pc with UpdBusy info => Some info | _ => None end.
Definition upd_cond (pc : updPC) : option PodCondition :=
  match pc with UpdSendingCond cond => Some cond | _ => None end.
Definition inj_cond (pc : injPC) : option PodCondition := match pc with InjBusy cond => Some cond | _ => None end.

(** The conditions of a type. *)
Definition of_type (t : string) (conds : list PodCondition) : list PodCondition :=
  base.filter (λ c, pc_Type c = t) conds.

Lemma of_type_app t l1 l2 : of_type t (l1 ++ l2) = of_type t l1 ++ of_type t l2.
Proof. apply filter_app. Qed.

Lemma of_type_one t c : of_type t [c] = if decide (pc_Type c = t) then [c] else [].
Proof. unfold of_type. rewrite filter_cons, filter_nil. done. Qed.

Definition status_of (ok : bool) : string := if ok then ConditionTrue else ConditionFalse.

Section invariant.
Context `{MapOrder} `{PodFingerprintLib} `{QuantityLib}.
Context {C : Type} `{PodResourcesListerClient C} {K : Type} `{PodServer K} {A : Type} `{NRTServer A}.
Context (ex : Exporter C K A) (now : Z).
Implicit Types (s : System (C := C) (K := K) (A := A)) (te : NRTUpdater A) (i : InjG K) (u : UpdG A).

(** The infos the updater got. *)
Definition handed (u : UpdG A) : list MonitorInfo := (ug_updates u).*1 ++ option_list (upd_info (ug_pc u)).

(** The monitor keeps its setup; each event was or is being scanned; the
    scans made infos, handed over in order but for the one on its way. *)
Record obs_ok (taken : list Event) (u : UpdG A) (o : ObsG C) : Prop := {
  oo_setup : same_setup (ro_resMon (ex_observer ex)) (ro_resMon (og_obs o));
  oo_exclude : ro_resourceExclude (og_obs o) = ro_resourceExclude (ex_observer ex);
  oo_infos : Forall (info_of_scan (ro_resMon (ex_observer ex)) (ro_resourceExclude (ex_observer ex)))
               (omap id (og_scans o));
  oo_taken : length taken = (length (og_scans o) + length (option_list (obs_event (og_pc o))))%nat;
  oo_handed : omap id (og_scans o) = handed u ++ option_list (obs_info (og_pc o))
}.

(** The object is what it was at the start, replaced in turn by the infos
    whose update succeeded. *)
Record upd_ok (u : UpdG A) : Prop := {
  uo_ok : updater_ok (ug_upd u);
  uo_setup : same_updater (ex_updater ex) (ug_upd u);
  uo_current : option_Forall2 same_content (current (ug_upd u))
    (foldl (λ old info, Some (publish (ex_updater ex) info old)) (current (ex_updater ex))
       (base.filter (λ x, x.2 = true) (ug_updates u)).*1)
}.

(** The conditions the injector got or will get from either goroutine. *)
Definition received_conds (i : InjG K) : list PodCondition := (ig_injected i).*1 ++ option_list (inj_cond (ig_pc i)).

(** Every scan and every update is reported once, in order; no other
    condition is. *)
Record conds_ok (o : ObsG C) (u : UpdG A) (i : InjG K) : Prop := {
  co_obs : ∀ c, obs_cond (og_pc o) = Some c → pc_Type c = PodresourcesFetched;
  co_upd : ∀ c, upd_cond (ug_pc u) = Some c → pc_Type c = NodeTopologyUpdated;
  co_types : Forall (λ c, pc_Type c = PodresourcesFetched ∨ pc_Type c = NodeTopologyUpdated) (received_conds i);
  co_fetched : (pc_Status <$> of_type PodresourcesFetched (received_conds i)) ++
    (pc_Status <$> option_list (obs_cond (og_pc o))) ++
    ((λ _, ConditionTrue) <$> option_list (obs_info (og_pc o))) = status_of ∘ non_nil <$> og_scans o;
  co_updated : (pc_Status <$> of_type NodeTopologyUpdated (received_conds i)) ++
    (pc_Status <$> option_list (upd_cond (ug_pc u))) =
    if Oneshot (te_args (ex_updater ex)) then [] else (λ x, status_of x.2) <$> ug_updates u
}.

(** The injector is as after the conditions it got, one after the other, and
    the pod shows the last one of each type unless its injection failed. *)
Record inj_ok (ci0 : ConditionInjector K) (i : InjG K) : Prop := {
  io_coherent : coherent (ig_inj i);
  io_run : PodReadiness.Run ci0 (CondReceived <$> (ig_injected i).*1) = (ig_inj i, Ok false);
  io_shows : ∀ t c, last (base.filter (λ x, pc_Type x.1 = t) (ig_injected i)) = Some (c, true) → shows (ig_inj i) c
}.

Record sys_ok s : Prop := {
  so_front : front_ok (ex_source ex) now (sy_front s);
  so_obs : obs_ok (fr_taken (sy_front s)) (sy_upd s) (sy_obs s);
  so_upd : NoPublish (te_args (ex_updater ex)) = false → int64_ok (PatchResync (te_args (ex_updater ex))) →
    updater_ok (ex_updater ex) → upd_ok (sy_upd s);
  so_args : te_args (ug_upd (sy_upd s)) = te_args (ex_updater ex);
  so_conds : match ex_injector ex, sy_inj s with
    | Some ci, Some i => conds_ok (sy_obs s) (sy_upd s) i ∧ (coherent ci → inj_ok ci i)
    | None, None => obs_cond (og_pc (sy_obs s)) = None ∧ upd_cond (ug_pc (sy_upd s)) = None
    | _, _ => False
    end
}.

Lemma sys_ok_new w lastWakeup :
  sys_ok (newSystem ex w now lastWakeup).
Proof.
  split; simpl.
  - apply front_ok_new.
  - by split; simpl.
  - intros _ _ Hok. split; simpl; [done|done|]. apply option_Forall2_refl. apply _.
  - done.
  - destruct (ex_injector ex) as [ci|]; simpl; [|done]. split.
    + split; simpl; try done. by destruct (Oneshot _).
    + intros Hco. by split.
Qed.

(** *** The source *)

Lemma sys_ok_front s fr :
  sys_ok s → front_ok (ex_source ex) now fr → fr_taken fr = fr_taken (sy_front s) → sys_ok (with_front s fr).
Proof. intros [] Hfr Ht. split; simpl; [done|by rewrite Ht|done..]. Qed.

Lemma sourceStep_taken input fr fr' : sourceStep input fr = Some fr' → fr_taken fr' = fr_taken fr.
Proof. unfold sourceStep. by destruct (fr_pending fr), input; intros; simplify_eq. Qed.

Lemma bufferStep_taken fr fr' : bufferStep fr = Some fr' → fr_taken fr' = fr_taken fr.
Proof. unfold bufferStep. intros. by repeat case_match; simplify_eq. Qed.

Lemma takeStep_taken fr fr' : takeStep fr = Some fr' → fr_taken fr' = fr_taken fr.
Proof. unfold takeStep. destruct (fr_limiter fr) as [l|]; [|done]. simpl. destruct (limiterTake l); intros; by simplify_eq/=. Qed.

(** *** The observer *)

Lemma wakeStep_ok s s' : wakeStep s = Some s' → sys_ok s → sys_ok s'.
Proof.
  unfold wakeStep. intros Hs [Hf Ho Hu Ha Hc]. destruct (og_pc (sy_obs s)) eqn:Hpc; try done.
  destruct (deliverStep (sy_front s)) as [[ev fr]|] eqn:Hd; [|done]. simpl in Hs. simplify_eq.
  apply (deliverStep_ok (ex_source ex) now) in Hd as [Hf' Ht]; [|done]. destruct Ho. split; simpl; [done| |done..|].
  - split; simpl; try done.
    + rewrite Ht, length_app. rewrite Hpc in *. simpl in *. lia.
    + by rewrite Hpc in *.
  - destruct (ex_injector ex), (sy_inj s); try done.
    destruct Hc as [[] Hi]. split; [|done]. by split; simpl; rewrite ?Hpc in *.
Qed.

Lemma obsReports_info s status t : obs_info (obsReports s status t) = None ∧ obs_event (obsReports s status t) = None.
Proof. unfold obsReports. by destruct (sy_inj s). Qed.

Lemma omap_id_snoc {X} (l : list (option X)) r : omap id (l ++ [r]) = omap id l ++ option_list r.
Proof. rewrite omap_app. by destruct r. Qed.

Lemma scanStep_ok elapsed t s s' : scanStep elapsed t s = Some (Ok s') → sys_ok s → sys_ok s'.
Proof.
  unfold scanStep. intros Hs [Hf Ho Hu Ha Hc]. destruct (og_pc (sy_obs s)) as [|ev| |] eqn:Hpc; try done.
  destruct (scanEvent _ _ _ _) as [[w rm] r] eqn:Hscan. apply scanEvent_info in Hscan as [Hset Hinfo].
  injection Hs as Hs. apply obind_Ok_inv in Hs as (res & -> & Hs). injection Hs as <-.
  destruct Ho as [Hsetup Hexcl Hinfos Htaken Hhanded]. rewrite Hpc in *.
  destruct (obsReports_info s ConditionFalse t) as [Hi0 He0]. split; simpl; [done| |done..|].
  - split; simpl.
    + by eapply same_setup_trans.
    + done.
    + rewrite omap_id_snoc, Forall_app. split; [done|]. destruct res as [info|]; simpl; [|done].
      constructor; [|done]. rewrite <- Hexcl. eapply info_of_scan_setup; [done|]. by apply Hinfo.
    + rewrite length_app. simpl in *. destruct res; simpl; rewrite ?He0; simpl; lia.
    + rewrite omap_id_snoc, Hhanded. simpl. rewrite app_nil_r. destruct res; simpl; by rewrite ?Hi0.
  - unfold obsReports in *.
    destruct (ex_injector ex), (sy_inj s) as [i|]; try done; [|by destruct res].
    destruct Hc as [[Hc1 Hc2 Hc3 Hc4 Hc5] Hi]. split; [|done]. rewrite Hpc in *. simpl in *.
    destruct (conditionFor_spec PodresourcesFetched ConditionFalse t) as [Hct Hcs].
    split; simpl; try done.
    + destruct res; simpl; intros; by simplify_eq.
    + rewrite fmap_app, <- Hc4. rewrite !app_nil_r. f_equal. by destruct res.
Qed.

Lemma handOverStep_ok t s s' : handOverStep t s = Some s' → sys_ok s → sys_ok s'.
Proof.
  unfold handOverStep. intros Hs [Hf Ho Hu Ha Hc]. destruct (og_pc (sy_obs s)) as [| |info elapsed|] eqn:Hpc; try done.
  destruct (ug_pc (sy_upd s)) eqn:Hupc; try done. simplify_eq.
  destruct Ho as [Hsetup Hexcl Hinfos Htaken Hhanded]. rewrite Hpc in *. simpl in *.
  destruct (obsReports_info (with_upd s (set_updPC (sy_upd s) (UpdBusy info)) (sy_world s)) ConditionTrue t) as [Hi0 He0].
  split; simpl; [done| |by intros; destruct Hu|done|].
  - split; simpl; try done.
    + by rewrite He0.
    + rewrite Hhanded, Hi0. unfold handed. rewrite Hupc. simpl. by rewrite !app_nil_r.
  - unfold obsReports in *. simpl in *. destruct (ex_injector ex), (sy_inj s) as [i|]; try done.
    destruct Hc as [[Hc1 Hc2 Hc3 Hc4 Hc5] Hi]. split; [|done]. rewrite Hpc, Hupc in *. simpl in *.
    destruct (conditionFor_spec PodresourcesFetched ConditionTrue t) as [Hct Hcs].
    split; simpl; try done.
    + intros; by simplify_eq.
Qed.

(** *** The updater *)

Lemma sendObjectUpdate_args te m info : te_args (sendObjectUpdate te m info).1.1 = te_args te.
Proof.
  unfold sendObjectUpdate. destruct (api_Get _ _) as [cli [nrt|e|p]]; [|destruct (IsNotFound e)|];
    try done; [destruct (api_Update _ _) as [? []]|destruct (api_Create _ _) as [? []]]; done.
Qed.

Lemma patchNRT_args te m info : te_args (patchNRT te m info).1.1 = te_args te.
Proof.
  unfold patchNRT. destruct (te_prevNRT te) as [prev|]; [|done].
  destruct (MakeNRTPatch _ _) as [[pi|e|p] reason]; [|done..]. by destruct (api_Patch _ _ _) as [? []].
Qed.

Lemma sendObjectPatch_args te m info : te_args (sendObjectPatch te m info).1.1 = te_args te.
Proof.
  unfold sendObjectPatch. destruct (negb (needsResync te)).
  - pose proof (patchNRT_args te m info) as Hp. destruct (patchNRT te m info) as [[te1 m1] [o|e|p]]; try done.
    pose proof (sendObjectUpdate_args te1 m1 info) as Hu. simpl in Hp. rewrite Hp in Hu.
    by destruct (sendObjectUpdate te1 m1 info) as [[? ?] []].
  - pose proof (sendObjectUpdate_args te m info) as Hu. by destruct (sendObjectUpdate te m info) as [[? ?] []].
Qed.

Lemma Update_args te m info : te_args (Update te m info).1.1 = te_args te.
Proof.
  unfold Update, sendData. destruct (NoPublish _); [done|]. destruct (te_sendObject te).
  - pose proof (sendObjectPatch_args te m info). by destruct (sendObjectPatch te m info) as [[? ?] ?].
  - pose proof (sendObjectUpdate_args te m info). by destruct (sendObjectUpdate te m info) as [[? ?] ?].
Qed.

Lemma updReports_info s status t : upd_info (updReports s status t) = None.
Proof. unfold updReports. by destruct (sy_inj s). Qed.

Lemma updates_snoc te0 (updates : list (MonitorInfo * bool)) info (ok : bool) (current0 : option NodeResourceTopology) :
  foldl (λ old info, Some (publish te0 info old)) current0 (base.filter (λ x, x.2 = true) (updates ++ [(info, ok)])).*1 =
  let old := foldl (λ old info, Some (publish te0 info old)) current0 (base.filter (λ x, x.2 = true) updates).*1 in
  if ok then Some (publish te0 info old) else old.
Proof.
  rewrite filter_app, fmap_app, foldl_app. simpl. rewrite filter_cons, filter_nil. by destruct ok.
Qed.

Lemma Update_upd_ok u info m te m' r pc :
  NoPublish (te_args (ex_updater ex)) = false → int64_ok (PatchResync (te_args (ex_updater ex))) →
  Update (ug_upd u) m info = (te, m', r) → upd_ok u →
  upd_ok (Build_UpdG te pc (ug_updates u ++ [(info, is_ok r)])).
Proof.
  intros Hpub Hres Hu [Hok Hset Hcur]. pose proof Hset as (Ha & _).
  apply Update_spec in Hu as (Hset' & Hok' & Hr); [|by rewrite Ha|done|by rewrite Ha].
  split; simpl; [done| |].
  - destruct Hset as (? & ? & ? & ?), Hset' as (? & ? & ? & ?). split_and!; congruence.
  - rewrite updates_snoc. cbv zeta. destruct r as [v|e|p]; simpl; [|by rewrite Hr..].
    destruct Hr as (nrt & -> & Hsame). constructor. rewrite (publish_setup _ _ info _ Hset) in Hsame.
    etrans; [exact Hsame|]. by apply publish_proper.
Qed.

Lemma updateStep_ok elapsed t s s' : updateStep elapsed t s = Some (Ok s') → sys_ok s → sys_ok s'.
Proof.
  unfold updateStep. intros Hs [Hf Ho Hu Ha Hc]. destruct (ug_pc (sy_upd s)) as [|info|] eqn:Hpc; try done.
  pose proof (Update_args (ug_upd (sy_upd s)) (w_metrics (sy_world s)) info) as Hargs.
  destruct (Update _ _ _) as [[te m] r] eqn:Hup. simpl in Hargs. rewrite Ha in Hargs.
  assert (∃ pc w', s' = with_upd s (Build_UpdG te pc (ug_updates (sy_upd s) ++ [(info, is_ok r)])) w' ∧
    pc = if Oneshot (te_args te) then UpdWaiting else updReports s (status_of (is_ok r)) t)
    as (pc & w' & -> & Hpc').
  { injection Hs as Hs. destruct r as [v|e|p]; [| |discriminate Hs];
      injection Hs as <-; eexists _, _; (split; [|reflexivity]); reflexivity. }
  clear Hs.
  assert (upd_info pc = None) as Hinfo.
  { subst pc. destruct (Oneshot _); [done|]. apply updReports_info. }
  destruct Ho as [Hsetup Hexcl Hinfos Htaken Hhanded]. split; simpl; [done| | |congruence|].
  - split; simpl; try done. rewrite Hhanded. unfold handed. simpl. rewrite Hpc, Hinfo, fmap_app. simpl.
    by rewrite !app_nil_r.
  - intros Hpub Hres Hok. eapply Update_upd_ok; [done..|]. auto.
  - destruct (ex_injector ex), (sy_inj s) as [i|] eqn:Hi; try done.
    + destruct Hc as [[Hc1 Hc2 Hc3 Hc4 Hc5] Hinj]. split; [|done]. rewrite Hpc in *. simpl in *.
      unfold updReports in Hpc'. rewrite Hi in Hpc'. rewrite Hargs in Hpc'. split; simpl; try done.
      * subst pc. destruct (Oneshot _); simpl; intros; simplify_eq. apply conditionFor_spec.
      * rewrite app_nil_r in Hc5. rewrite Hc5. subst pc. destruct (Oneshot _); [done|]. rewrite fmap_app. simpl.
        by rewrite (proj2 (conditionFor_spec _ _ _)).
    + destruct Hc as [Hc1 _]. split; [done|]. subst pc. unfold updReports. rewrite Hi. by destruct (Oneshot _).
Qed.

(** *** The injector *)

Lemma receiveCond_Some inj cond i' :
  receiveCond inj cond = Some i' → ∃ i, inj = Some i ∧ ig_pc i = InjWaiting ∧
    i' = Build_InjG (ig_inj i) (InjBusy cond) (ig_injected i).
Proof. destruct inj as [[ci [|] l]|]; simpl; intros; simplify_eq. by eexists. Qed.

Lemma received_busy i cond :
  ig_pc i = InjWaiting →
  received_conds (Build_InjG (ig_inj i) (InjBusy cond) (ig_injected i)) = received_conds i ++ [cond].
Proof. unfold received_conds. intros ->. simpl. by rewrite app_nil_r. Qed.

Lemma types_differ : PodresourcesFetched ≠ NodeTopologyUpdated.
Proof. done. Qed.

Lemma obsReportStep_ok s s' : obsReportStep s = Some s' → sys_ok s → sys_ok s'.
Proof.
  unfold obsReportStep. intros Hs [Hf Ho Hu Ha Hc]. destruct (og_pc (sy_obs s)) as [| | |cond] eqn:Hpc; try done.
  destruct (receiveCond (sy_inj s) cond) as [i'|] eqn:Hi; [|done]. simpl in Hs. simplify_eq.
  apply receiveCond_Some in Hi as (i & Hi & Hipc & ->). destruct Ho as [Hsetup Hexcl Hinfos Htaken Hhanded].
  rewrite Hpc in *. split; simpl; [done|by split; simpl|done..|].
  rewrite Hi in Hc. destruct (ex_injector ex); [|done]. destruct Hc as [[Hc1 Hc2 Hc3 Hc4 Hc5] Hinj].
  rewrite Hpc in *. simpl in *. specialize (Hc1 _ eq_refl). split; [|by intros Hco; destruct (Hinj Hco)].
  pose proof types_differ. split; simpl; rewrite ?received_busy, ?of_type_app, ?of_type_one by done; try done.
  - apply Forall_app. split; [done|]. constructor; [by left|done].
  - rewrite decide_True, fmap_app by done. simpl. by rewrite app_nil_r in *.
  - rewrite decide_False, app_nil_r by congruence. done.
Qed.

Lemma updReportStep_ok s s' : updReportStep s = Some s' → sys_ok s → sys_ok s'.
Proof.
  unfold updReportStep. intros Hs [Hf Ho Hu Ha Hc]. destruct (ug_pc (sy_upd s)) as [| |cond] eqn:Hpc; try done.
  destruct (receiveCond (sy_inj s) cond) as [i'|] eqn:Hi; [|done]. simpl in Hs. simplify_eq.
  apply receiveCond_Some in Hi as (i & Hi & Hipc & ->). destruct Ho as [Hsetup Hexcl Hinfos Htaken Hhanded].
  unfold handed in *. rewrite Hpc in *.
  split; simpl; [done|by split; simpl; unfold handed; simpl|by intros; destruct Hu|done|].
  rewrite Hi in Hc. destruct (ex_injector ex); [|done]. destruct Hc as [[Hc1 Hc2 Hc3 Hc4 Hc5] Hinj].
  rewrite Hpc in *. simpl in *. specialize (Hc2 _ eq_refl). split; [|by intros Hco; destruct (Hinj Hco)].
  pose proof types_differ. split; simpl; rewrite ?received_busy, ?of_type_app, ?of_type_one by done; try done.
  - apply Forall_app. split; [done|]. constructor; [by right|done].
  - rewrite decide_False, app_nil_r by congruence. done.
  - rewrite decide_True, fmap_app by done. simpl. by rewrite app_nil_r.
Qed.

Lemma Run_snoc (ci ci' ci'' : ConditionInjector K) conds cond r :
  PodReadiness.Run ci (CondReceived <$> conds) = (ci', Ok false) → Inject ci' cond = (ci'', r) → (∀ p, r ≠ Panic p) →
  PodReadiness.Run ci (CondReceived <$> conds ++ [cond]) = (ci'', Ok false).
Proof.
  intros Hrun Hinj Hp. revert ci Hrun. induction conds as [|c conds IH]; intros ci; simpl.
  - intros [= <-]. rewrite Hinj. destruct r as [v|e|p]; [done..|by destruct (Hp p)].
  - destruct (Inject ci c) as [ci1 [v|e|p]]; [apply IH..|done].
Qed.

(** What the pod shows of another type stays. *)
Lemma Inject_shows_other (ci ci' : ConditionInjector K) cond r c :
  Inject ci cond = (ci', r) → pc_Type c ≠ pc_Type cond → shows ci c → shows ci' c.
Proof.
  intros (_ & _ & Hr)%Inject_inv Hne (conds & c' & Hp & Hc & He). unfold shows. destruct r as [v|e|p].
  - destruct Hr as [[-> _]|(_ & conds' & Hp' & Hp'')]; [by exists conds, c'|].
    exists (placeCondition conds' cond), c'. rewrite condition_of_place, decide_False by done.
    split_and!; [done| |done]. congruence.
  - destruct Hr as [_ ->]. by exists conds, c'.
  - destruct Hr as [_ ->]. by exists conds, c'.
Qed.

Lemma Inject_inj_ok ci0 ci pc l cond ci' r pc' :
  Inject ci cond = (ci', r) → (∀ p, r ≠ Panic p) → inj_ok ci0 (Build_InjG ci pc l) →
  inj_ok ci0 (Build_InjG ci' pc' (l ++ [(cond, is_ok r)])).
Proof.
  intros Hi Hp [Hco Hrun Hshows]. simpl in *. pose proof (Inject_coherent _ _ _ _ Hco Hi) as [Hco' Hsh].
  split; simpl; [done|rewrite fmap_app; by eapply Run_snoc|].
  intros t c. rewrite filter_app, filter_cons, filter_nil. simpl. destruct (decide (pc_Type cond = t)) as [<-|Hne].
  - rewrite last_snoc. intros [= <- Hr]. by apply Hsh.
  - rewrite app_nil_r. intros Hl. eapply Inject_shows_other; [done| |by eapply Hshows].
    apply last_Some_elem_of, list_elem_of_filter in Hl as [Ht _]. simpl in Ht. congruence.
Qed.

Lemma injectStep_ok s s' : injectStep s = Some (Ok s') → sys_ok s → sys_ok s'.
Proof.
  unfold injectStep. intros Hs [Hf Ho Hu Ha Hc]. destruct (sy_inj s) as [[ci [|cond] l]|]; try done.
  destruct (Inject ci cond) as [ci' r] eqn:Hi. injection Hs as Hs.
  assert ((∀ p, r ≠ Panic p) ∧ s' = with_inj s (Some (Build_InjG ci' InjWaiting (l ++ [(cond, is_ok r)])))) as [Hp ->].
  { destruct r; simplify_eq; (split; [by intros ?|done]). }
  clear Hs. split; simpl; try done. destruct (ex_injector ex); [|done]. destruct Hc as [Hc Hinj].
  split; [|intros Hco; eapply Inject_inj_ok; [done..|by apply Hinj]].
  assert (received_conds (Build_InjG ci' InjWaiting (l ++ [(cond, is_ok r)])) =
    received_conds (Build_InjG ci (InjBusy cond) l)) as Hrec.
  { unfold received_conds. simpl. by rewrite fmap_app, app_nil_r. }
  destruct Hc as [Hc1 Hc2 Hc3 Hc4 Hc5]. split; rewrite ?Hrec; done.
Qed.

(** *** The refresh of the monitor *)

Lemma with_monitor_ok s rm w pc :
  same_setup (ro_resMon (og_obs (sy_obs s))) rm → sys_ok s → sys_ok (with_ref (with_monitor s rm w) pc).
Proof.
  intros Hset [Hf [Hsetup Hexcl Hinfos Htaken Hhanded] Hu Ha Hc].
  split; simpl; [done|split; simpl; try done; by eapply same_setup_trans|done..|].
  destruct (ex_injector ex), (sy_inj s); try done. destruct Hc as [[] ?]. by split.
Qed.

Lemma afterRefresh_ok s rm w r pc s' :
  afterRefresh s rm w r pc = Ok s' → ((∀ p, r ≠ Panic p) → same_setup (ro_resMon (og_obs (sy_obs s))) rm) → sys_ok s → sys_ok s'.
Proof.
  unfold afterRefresh. intros Hs Hset Hok. destruct r; simplify_eq; (apply with_monitor_ok; [|done]);
    apply Hset; by intros ?.
Qed.

Lemma nodeEventStep_ok fs nOld nNew s s' : nodeEventStep fs nOld nNew s = Some (Ok s') → sys_ok s → sys_ok s'.
Proof.
  unfold nodeEventStep. intros Hs Hok. destruct (sy_ref s); [|done..].
  destruct (negb (RefreshNodeResources _)); [done|]. destruct (negb _); [by simplify_eq|].
  destruct (_ || _); [|by simplify_eq]. destruct (updateNodeCapacity _ _) as [rm r] eqn:Hu. injection Hs as Hs.
  eapply afterRefresh_ok; [done| |done]. intros _. apply updateNodeCapacity_inv in Hu.
  destruct r; [destruct Hu as (? & -> & _)|subst rm..]; done.
Qed.

Lemma allocatableStep_ok s s' : allocatableStep s = Some (Ok s') → sys_ok s → sys_ok s'.
Proof.
  unfold allocatableStep, updateNodeAllocatable. intros Hs Hok. destruct (sy_ref s); [done| |done].
  destruct (cli_GetAllocatableResources _) as [c [r|e|p]]; injection Hs as Hs; simplify_eq;
    by apply with_monitor_ok.
Qed.

Lemma devicesStep_ok s s' : devicesStep s = Some (Ok s') → sys_ok s → sys_ok s'.
Proof.
  unfold devicesStep. intros Hs Hok. destruct (sy_ref s); [done..|].
  destruct (updateDevicesCapacity _) as [rm r] eqn:Hu. injection Hs as Hs.
  eapply afterRefresh_ok; [done| |done]. intros Hp. destruct r as [u|e|p].
  - by apply updateDevicesCapacity_inv in Hu as (_ & cap & -> & _).
  - by apply updateDevicesCapacity_no_err in Hu.
  - by destruct (Hp p).
Qed.

Lemma exec_ok a s s' : exec a s = Some (Ok s') → sys_ok s → sys_ok s'.
Proof.
  intros Hs Hok. destruct a; simpl in Hs.
  - apply fmap_Some in Hs as (fr & Hfr & [= ->]). pose proof Hok as [Hf _ _ _ _].
    apply sys_ok_front; [done|by eapply sourceStep_ok|by eapply sourceStep_taken].
  - apply fmap_Some in Hs as (fr & Hfr & [= ->]). pose proof Hok as [Hf _ _ _ _].
    apply sys_ok_front; [done|by eapply bufferStep_ok|by eapply bufferStep_taken].
  - apply fmap_Some in Hs as (fr & Hfr & [= ->]). pose proof Hok as [Hf _ _ _ _].
    apply sys_ok_front; [done|by eapply takeStep_ok|by eapply takeStep_taken].
  - apply fmap_Some in Hs as (s1 & Hs & [= ->]). by eapply wakeStep_ok.
  - by eapply scanStep_ok.
  - apply fmap_Some in Hs as (s1 & Hs & [= ->]). by eapply handOverStep_ok.
  - by eapply updateStep_ok.
  - apply fmap_Some in Hs as (s1 & Hs & [= ->]). by eapply obsReportStep_ok.
  - apply fmap_Some in Hs as (s1 & Hs & [= ->]). by eapply updReportStep_ok.
  - by eapply injectStep_ok.
  - by eapply nodeEventStep_ok.
  - by eapply allocatableStep_ok.
  - by eapply devicesStep_ok.
Qed.

Lemma reachable_ok w lastWakeup s : rtc step (newSystem ex w now lastWakeup) s → sys_ok s.
Proof.
  intros Hs. pose proof (sys_ok_new w lastWakeup) as Hok. induction Hs as [|s1 s2 s3 [a Ha] _ IH]; [done|].
  by apply IH, (exec_ok a s1).
Qed.
End invariant.

(** ** What each action changes *)

Section frame.
Context `{MapOrder} `{PodFingerprintLib} `{QuantityLib}.
Context {C : Type} `{PodResourcesListerClient C} {K : Type} `{PodClient K} {A : Type} `{NRTClient A} `{JSONLib}.
Implicit Types s : System (C := C) (K := K) (A := A).

Lemma Scan_cli (rm : resourceMonitor C) w excl w' rm' r : Scan rm w excl = (w', rm', r) → ∃ c, rm' = set_cli rm c.
Proof.
  unfold Scan. destruct (cli_List _) as [c [resp|e|p]]; [|intros [= <- <- <-]; by exists c..].
  destruct (if PodSetFingerprint _ then _ else _) as [[? ?] ?]. intros [= <- <- <-]. by exists c.
Qed.

Lemma scanEvent_cli (o : ResourceObserver (resourceMonitor C)) lastWakeup w ev w' rm' r :
  scanEvent o lastWakeup w ev = (w', rm', r) → ∃ c, rm' = set_cli (ro_resMon o) c.
Proof.
  unfold scanEvent, mon_Scan, resourceMonitor_if. destruct (Scan _ _ _) as [[w1 rm1] r1] eqn:Hs.
  intros [= <- <- <-]. by eapply Scan_cli.
Qed.

(** The goroutine an action belongs to, where it was, and all that changes. *)
Lemma exec_frame a s s' : exec a s = Some (Ok s') →
  match a with
  | Source _ | Buffer | Take => ∃ fr, s' = with_front s fr
  | Wake => ∃ fr ev, og_pc (sy_obs s) = ObsWaiting ∧
      s' = with_obs (with_front s fr) (set_obsPC (sy_obs s) (ObsBusy ev)) (sy_world s)
  | DoScan _ _ => ∃ ev c t pc scans w, og_pc (sy_obs s) = ObsBusy ev ∧
      s' = with_obs s (Build_ObsG (set_resMon (og_obs (sy_obs s)) (set_cli (ro_resMon (og_obs (sy_obs s))) c)) t pc scans) w
  | HandOver _ => ∃ info elapsed pc w, og_pc (sy_obs s) = ObsSendingInfo info elapsed ∧ ug_pc (sy_upd s) = UpdWaiting ∧
      s' = with_obs (with_upd s (set_updPC (sy_upd s) (UpdBusy info)) (sy_world s)) (set_obsPC (sy_obs s) pc) w
  | DoUpdate _ _ => ∃ info u w, ug_pc (sy_upd s) = UpdBusy info ∧ s' = with_upd s u w
  | ObsReport => ∃ cond i, og_pc (sy_obs s) = ObsSendingCond cond ∧
      s' = with_inj (with_obs s (set_obsPC (sy_obs s) ObsWaiting) (sy_world s)) (Some i)
  | UpdReport => ∃ cond i, ug_pc (sy_upd s) = UpdSendingCond cond ∧
      s' = with_inj (with_upd s (set_updPC (sy_upd s) UpdWaiting) (sy_world s)) (Some i)
  | DoInject => ∃ i, s' = with_inj s (Some i)
  | NodeEvent _ _ _ => s' = s ∨ ∃ rm w pc, s' = with_ref (with_monitor s rm w) pc
  | DoAllocatable | DoDevices => ∃ rm w pc, s' = with_ref (with_monitor s rm w) pc
  end.
Proof.
  intros Hs. destruct a; simpl in Hs; try (apply fmap_Some in Hs as (x & Hs & [= ->]); eauto; fail).
  - apply fmap_Some in Hs as (x & Hs & [= ->]). unfold wakeStep in Hs. destruct (og_pc (sy_obs s)); try done.
    destruct (deliverStep _) as [[ev fr]|]; simplify_eq/=; eauto.
  - unfold scanStep in Hs. destruct (og_pc (sy_obs s)) eqn:Hpc; try done.
    destruct (scanEvent _ _ _ _) as [[w rm] r] eqn:Hsc. apply scanEvent_cli in Hsc as [c ->].
    injection Hs as (res & -> & [= <-])%obind_Ok_inv. by repeat eexists.
  - apply fmap_Some in Hs as (x & Hs & [= ->]). unfold handOverStep in Hs.
    destruct (og_pc (sy_obs s)) eqn:Hpc, (ug_pc (sy_upd s)) eqn:Hupc; simplify_eq. by repeat eexists.
  - unfold updateStep in Hs. destruct (ug_pc (sy_upd s)); try done. destruct (Update _ _ _) as [[te m] []]; simplify_eq; by repeat eexists.
  - apply fmap_Some in Hs as (x & Hs & [= ->]). unfold obsReportStep in Hs. destruct (og_pc (sy_obs s)); try done.
    destruct (receiveCond _ _); simplify_eq/=; by repeat eexists.
  - apply fmap_Some in Hs as (x & Hs & [= ->]). unfold updReportStep in Hs. destruct (ug_pc (sy_upd s)); try done.
    destruct (receiveCond _ _); simplify_eq/=; by repeat eexists.
  - unfold injectStep in Hs. destruct (sy_inj s) as [[ci [|cond] l]|]; try done.
    destruct (Inject ci cond) as [ci' []]; simplify_eq; by eexists.
  - unfold nodeEventStep in Hs. destruct (sy_ref s); try done. destruct (negb _); [done|].
    destruct (negb _); [simplify_eq; by left|]. destruct (_ || _); [|simplify_eq; by left].
    right. destruct (updateNodeCapacity _ _) as [rm []]; simplify_eq/=; by repeat eexists.
  - unfold allocatableStep in Hs. destruct (sy_ref s); try done.
    destruct (updateNodeAllocatable _ _) as [[w rm] []]; simplify_eq/=; by repeat eexists.
  - unfold devicesStep in Hs. destruct (sy_ref s); try done.
    destruct (updateDevicesCapacity _) as [rm []]; simplify_eq/=; by repeat eexists.
Qed.
End frame.

(** The state after an action, from its frame. *)
Ltac frame H :=
  repeat match type of H with
  | ∃ _, _ => let x := fresh in destruct H as [x H]
  | _ ∧ _ => let h := fresh in destruct H as [h H]
  | _ ∨ _ => destruct H as [H|H]
  end; subst.

(** ** No deadlock, no livelock *)

Section progress.
Context `{MapOrder} `{PodFingerprintLib} `{QuantityLib}.
Context {C : Type} `{PodResourcesListerClient C} {K : Type} `{PodServer K} {A : Type} `{NRTServer A}.
Implicit Types s : System (C := C) (K := K) (A := A).

(** How much work is left: an event counts for all it can still cause. *)
Definition front_work (fr : Front) : nat :=
  match fr_limiter fr with
  | None => if non_nil (fr_pending fr) then 8 else 0
  | Some l => (if non_nil (fr_pending fr) then 10 else 0) + 9 * length (RateLimiter.buffer l) +
              (if non_nil (RateLimiter.holding l) then 8 else 0)
  end.
Definition obs_work (pc : obsPC) : nat :=
  match pc with ObsWaiting => 0 | ObsBusy _ => 7 | ObsSendingInfo _ _ => 6 | ObsSendingCond _ => 2 end.
Definition upd_work (pc : updPC) : nat :=
  match pc with UpdWaiting => 0 | UpdBusy _ => 3 | UpdSendingCond _ => 2 end.
Definition inj_work (inj : option (InjG K)) : nat :=
  match inj with Some (Build_InjG _ (InjBusy _) _) => 1 | _ => 0 end.
Definition ref_work (pc : refPC) : nat :=
  match pc with RefIdle => 0 | RefCapacity => 2 | RefAllocatable => 1 end.
Definition work s : nat :=
  front_work (sy_front s) + obs_work (og_pc (sy_obs s)) + upd_work (ug_pc (sy_upd s)) +
  inj_work (sy_inj s) + ref_work (sy_ref s).

Lemma bufferStep_work fr fr' : bufferStep fr = Some fr' → (front_work fr' < front_work fr)%nat.
Proof.
  unfold bufferStep, front_work. destruct (fr_limiter fr) as [l|]; [|done]. destruct (fr_pending fr); [|done].
  destruct (RateLimiter.receiverDone l); [done|]. intros [= <-]. simpl. unfold RateLimiter.receive.
  case_decide; simpl; [rewrite length_app; simpl|]; lia.
Qed.

Lemma takeStep_work fr fr' : takeStep fr = Some fr' → (front_work fr' < front_work fr)%nat.
Proof.
  unfold takeStep, front_work, limiterTake. destruct (fr_limiter fr) as [l|]; [|done]. simpl.
  destruct (RateLimiter.senderDone l), (RateLimiter.holding l), (RateLimiter.buffer l) as [|ev rest]; try done.
  intros [= <-]. simpl. lia.
Qed.

Lemma deliverStep_work fr ev fr' : deliverStep fr = Some (ev, fr') → (8 + front_work fr' ≤ front_work fr)%nat.
Proof.
  unfold deliverStep, front_work, limiterSend. destruct (fr_limiter fr) as [l|].
  - destruct (RateLimiter.holding l); [|done]. intros [= <- <-]. simpl. lia.
  - destruct (fr_pending fr); [|done]. intros [= <- <-]. simpl. lia.
Qed.

Lemma receiveCond_work inj cond i : receiveCond inj cond = Some i → inj_work inj = 0%nat ∧ inj_work (Some i) = 1%nat.
Proof. intros (i' & -> & Hpc & ->)%receiveCond_Some. destruct i'. simpl in *. by subst. Qed.

Lemma obsReports_work s status t : (obs_work (obsReports s status t) ≤ 2)%nat.
Proof. unfold obsReports. destruct (sy_inj s); simpl; lia. Qed.

Lemma updReports_work s status t : (upd_work (updReports s status t) ≤ 2)%nat.
Proof. unfold updReports. destruct (sy_inj s); simpl; lia. Qed.

Lemma scanStep_work elapsed t s s' : scanStep elapsed t s = Some (Ok s') → (work s' < work s)%nat.
Proof.
  unfold scanStep, work. destruct (og_pc (sy_obs s)); try done. destruct (scanEvent _ _ _ _) as [[w rm] r].
  intros [= (res & -> & [= <-])%obind_Ok_inv]. simpl.
  pose proof (obsReports_work s ConditionFalse t). destruct res; simpl; lia.
Qed.

Lemma updateStep_work elapsed t s s' : updateStep elapsed t s = Some (Ok s') → (work s' < work s)%nat.
Proof.
  unfold updateStep, work. destruct (ug_pc (sy_upd s)); try done. destruct (Update _ _ _) as [[te m] r].
  pose proof (updReports_work s (if is_ok r then ConditionTrue else ConditionFalse) t) as Hw. intros [= Hs].
  destruct r; simplify_eq; simpl; destruct (Oneshot _); simpl; simpl in Hw; lia.
Qed.

(** The three parts of a refresh. *)
Lemma afterRefresh_work s rm w r pc s' :
  afterRefresh s rm w r pc = Ok s' → (ref_work pc < ref_work (sy_ref s))%nat → (work s' < work s)%nat.
Proof. unfold afterRefresh, work. destruct r; intros; simplify_eq; simpl; lia. Qed.

Lemma internal_work s s' : internal s s' → (work s' < work s)%nat.
Proof.
  intros (a & Hint & Hs). destruct a; simpl in Hs, Hint; try done.
  - apply fmap_Some in Hs as (fr & Hfr%bufferStep_work & [= ->]). unfold work. simpl. lia.
  - apply fmap_Some in Hs as (fr & Hfr%takeStep_work & [= ->]). unfold work. simpl. lia.
  - apply fmap_Some in Hs as (s1 & Hs & [= ->]). unfold wakeStep in Hs. destruct (og_pc (sy_obs s)) eqn:Hpc; try done.
    destruct (deliverStep _) as [[ev fr]|] eqn:Hd; [|done]. simplify_eq/=.
    apply deliverStep_work in Hd. unfold work. simpl. rewrite Hpc. simpl. lia.
  - by eapply scanStep_work.
  - apply fmap_Some in Hs as (s1 & Hs & [= ->]). unfold handOverStep in Hs.
    destruct (og_pc (sy_obs s)) eqn:Hpc, (ug_pc (sy_upd s)) eqn:Hupc; try done. simplify_eq. unfold work. simpl.
    rewrite Hpc, Hupc. simpl. unfold obsReports. simpl. destruct (sy_inj s); simpl; lia.
  - by eapply updateStep_work.
  - apply fmap_Some in Hs as (s1 & Hs & [= ->]). unfold obsReportStep in Hs.
    destruct (og_pc (sy_obs s)) eqn:Hpc; try done. destruct (receiveCond _ _) as [i|] eqn:Hr; [|done]. simplify_eq/=.
    apply receiveCond_work in Hr as [Hi Hi']. unfold work. simpl in *. rewrite Hpc, Hi, Hi'. simpl. lia.
  - apply fmap_Some in Hs as (s1 & Hs & [= ->]). unfold updReportStep in Hs.
    destruct (ug_pc (sy_upd s)) eqn:Hpc; try done. destruct (receiveCond _ _) as [i|] eqn:Hr; [|done]. simplify_eq/=.
    apply receiveCond_work in Hr as [Hi Hi']. unfold work. simpl in *. rewrite Hpc, Hi, Hi'. simpl. lia.
  - unfold injectStep in Hs. unfold work. destruct (sy_inj s) as [[ci [|cond] l]|]; try done.
    destruct (Inject ci cond) as [ci' r]. destruct r; simplify_eq; simpl; lia.
  - unfold allocatableStep in Hs. destruct (sy_ref s) eqn:Hr; try done. destruct (updateNodeAllocatable _ _) as [[w rm] r].
    injection Hs as Hs. eapply afterRefresh_work; [done|]. rewrite Hr. simpl. lia.
  - unfold devicesStep in Hs. destruct (sy_ref s) eqn:Hr; try done. destruct (updateDevicesCapacity _) as [rm r].
    injection Hs as Hs. eapply afterRefresh_work; [done|]. rewrite Hr. simpl. lia.
Qed.

Lemma internal_bounded n s s' : nsteps internal n s s' → (n + work s' ≤ work s)%nat.
Proof. induction 1 as [|n s1 s2 s3 Hs _ IH]; [lia|]. apply internal_work in Hs. lia. Qed.

(** The actions of the goroutines, whatever the times. *)
Definition goroutines : list action :=
  [Buffer; Take; Wake; DoScan 0 0; HandOver 0; DoUpdate 0 0; ObsReport; UpdReport; DoInject; DoAllocatable; DoDevices].

Ltac is_goroutine := unfold goroutines; set_solver.

(** A state in which no goroutine can move. *)
Definition stuck s : Prop := ∀ a, a ∈ goroutines → exec a s = None.

Lemma stuck_or s : stuck s ∨ ∃ a r, a ∈ goroutines ∧ exec a s = Some r.
Proof.
  destruct (decide (Exists (λ a, is_Some (exec a s)) goroutines)) as [He|He].
  - right. apply Exists_exists in He as (a & Ha & r & Hr). by exists a, r.
  - left. intros a Ha. apply eq_None_not_Some. intros Hs. apply He, Exists_exists. by exists a.
Qed.

Lemma goroutines_internal a : a ∈ goroutines → external a = false.
Proof. revert a. by apply Forall_forall; repeat constructor. Qed.


Lemma Scan_no_err (rm : resourceMonitor C) w excl w' rm' r e : Scan rm w excl = (w', rm', r) → r ≠ Err e.
Proof.
  unfold Scan. destruct (cli_List _) as [c [resp|e'|p]]; [|intros; by simplify_eq..].
  destruct (if PodSetFingerprint _ then _ else _) as [[? ?] ?]. intros. by simplify_eq.
Qed.

Lemma exec_no_err a s e : exec a s ≠ Some (Err e).
Proof.
  destruct a; simpl; try (intros Hs; by apply fmap_Some in Hs as (? & _ & ?)).
  - unfold scanStep, scanEvent, mon_Scan, resourceMonitor_if. destruct (og_pc (sy_obs s)); try done.
    destruct (Scan _ _ _) as [[w rm] r] eqn:Hs. pose proof (λ e, Scan_no_err _ _ _ _ _ _ e Hs) as He. destruct r as [[resp err]|e'|p]; simpl; try done.
    + unfold timingAnnotations. destruct (ro_exposeTiming _); [destruct (sr_Annotations _)|]; done.
    + by destruct (He e').
  - unfold updateStep. destruct (ug_pc (sy_upd s)); try done. by destruct (Update _ _ _) as [[te m] []].
  - unfold injectStep. destruct (sy_inj s) as [[ci [|cond] l]|]; try done. by destruct (Inject ci cond) as [ci' []].
  - unfold nodeEventStep. destruct (sy_ref s); try done. destruct (negb _); [done|]. destruct (negb _); [done|]. destruct (_ || _); [|done].
    by destruct (updateNodeCapacity _ _) as [rm []].
  - unfold allocatableStep. destruct (sy_ref s); try done. by destruct (updateNodeAllocatable _ _) as [[w rm] []].
  - unfold devicesStep. destruct (sy_ref s); try done. by destruct (updateDevicesCapacity _) as [rm []].
Qed.

Lemma stuck_front ex now s : sys_ok ex now s → stuck s → og_pc (sy_obs s) = ObsWaiting →
  fr_pending (sy_front s) = None ∧
  ∀ l, fr_limiter (sy_front s) = Some l → RateLimiter.buffer l = [] ∧ RateLimiter.holding l = None.
Proof.
  intros [[_ _ _ Hflow] _ _ _ _] Hst Hpc. pose proof (Hst Wake ltac:(is_goroutine)) as Hw. pose proof (Hst Buffer ltac:(is_goroutine)) as Hb.
  pose proof (Hst Take ltac:(is_goroutine)) as Ht. apply fmap_None in Hw, Hb, Ht.
  unfold wakeStep, deliverStep in Hw. unfold bufferStep in Hb. unfold takeStep in Ht. rewrite Hpc in Hw.
  destruct (fr_limiter (sy_front s)) as [l|].
  - destruct Hflow as (_ & _ & _ & Hr & Hsd). unfold limiterSend in Hw. unfold limiterTake in Ht. simpl in *.
    destruct (RateLimiter.holding l) eqn:Hh; [done|].
    rewrite Hr in Hb. rewrite Hsd in Ht. destruct (fr_pending _); [done|]. split; [done|]. intros ? [= <-].
    destruct (RateLimiter.buffer l); [done|]. done.
  - destruct (fr_pending (sy_front s)); [done|]. by split.
Qed.

(** Which goroutine waits for what, when the others cannot move: whatever the
    reports wait for, the injector takes it. *)
Definition reports_idle s : Prop := exec DoInject s = None ∧ exec ObsReport s = None ∧ exec UpdReport s = None.

Lemma idle_injector s : reports_idle s →
  (∀ i, sy_inj s = Some i → ig_pc i = InjWaiting) ∧
  (∀ i cond, sy_inj s = Some i → ug_pc (sy_upd s) ≠ UpdSendingCond cond ∧ og_pc (sy_obs s) ≠ ObsSendingCond cond).
Proof.
  intros (Hi & Ho & Hu). simpl in Hi, Ho, Hu. apply fmap_None in Ho, Hu.
  unfold injectStep in Hi. unfold obsReportStep, receiveCond in Ho. unfold updReportStep, receiveCond in Hu.
  destruct (sy_inj s) as [[ci [|cond] l]|]; [| |done].
  - split; [by intros ? [= <-]|]. intros ? cond _. split; intros Hpc; rewrite Hpc in *; done.
  - by destruct (Inject ci cond) as [? []].
Qed.

Lemma idle_updater ex now s :
  sys_ok ex now s → reports_idle s → exec (DoUpdate 0 0) s = None → ug_pc (sy_upd s) = UpdWaiting.
Proof.
  intros Hok [_ Hrep]%idle_injector Hu. pose proof (so_conds _ _ _ Hok) as Hc. simpl in Hu. unfold updateStep in Hu.
  destruct (ug_pc (sy_upd s)) as [|info|cond] eqn:Hpc; [done| |].
  - by destruct (Update _ _ _) as [[te m] []].
  - destruct (ex_injector ex), (sy_inj s) as [i|]; try done; [|by destruct Hc as [_ ?]].
    by destruct (Hrep i cond eq_refl).
Qed.

Lemma idle_observer ex now s :
  sys_ok ex now s → reports_idle s → exec (DoScan 0 0) s = None →
  og_pc (sy_obs s) = ObsWaiting ∨ ∃ info elapsed, og_pc (sy_obs s) = ObsSendingInfo info elapsed.
Proof.
  intros Hok [_ Hrep]%idle_injector Hs. pose proof (so_conds _ _ _ Hok) as Hc. simpl in Hs. unfold scanStep in Hs.
  destruct (og_pc (sy_obs s)) as [|ev|info el|cond] eqn:Hpc; [by left| |by right; eauto|].
  - by destruct (scanEvent _ _ _ _) as [[w rm] r].
  - destruct (ex_injector ex), (sy_inj s) as [i|]; try done; [|by destruct Hc as [? _]].
    by destruct (Hrep i cond eq_refl).
Qed.

Lemma idle_handOver s t info elapsed :
  exec (HandOver t) s = None → ug_pc (sy_upd s) = UpdWaiting → og_pc (sy_obs s) ≠ ObsSendingInfo info elapsed.
Proof. intros Hh%fmap_None Hu Hpc. unfold handOverStep in Hh. by rewrite Hu, Hpc in Hh. Qed.

Lemma idle_refresh s : exec DoAllocatable s = None → exec DoDevices s = None → sy_ref s = RefIdle.
Proof.
  simpl. unfold allocatableStep, devicesStep. intros Ha Hd. destruct (sy_ref s); [done| |].
  - by destruct (updateNodeAllocatable _ _) as [[? ?] ?].
  - by destruct (updateDevicesCapacity _) as [? ?].
Qed.

Lemma stuck_quiet ex now s : sys_ok ex now s → stuck s → quiet s.
Proof.
  intros Hok Hst. assert (reports_idle s) as Hrep by (split_and!; apply Hst; is_goroutine).
  pose proof (idle_injector s Hrep) as [Hinj _].
  assert (ug_pc (sy_upd s) = UpdWaiting) as Hu by (eapply idle_updater; [done..|apply Hst; is_goroutine]).
  assert (og_pc (sy_obs s) = ObsWaiting) as Ho.
  { destruct (idle_observer ex now s Hok Hrep) as [?|(info & el & Hpc)]; [apply Hst; is_goroutine|done|].
    by destruct (idle_handOver s 0 info el); [apply Hst; is_goroutine| |]. }
  destruct (stuck_front ex now s Hok Hst Ho) as [Hp Hl]. split_and!; try done.
  apply idle_refresh; apply Hst; is_goroutine.
Qed.

Lemma quiet_stuck s a : quiet s → external a = false → exec a s = None.
Proof.
  intros (Hp & Hl & Ho & Hu & Hi & Hr) Ha. destruct a; simpl in *; try done; try apply fmap_None.
  - unfold bufferStep. rewrite Hp. by destruct (fr_limiter _).
  - unfold takeStep, limiterTake. destruct (fr_limiter _) as [l|]; [|done]. destruct (Hl l eq_refl) as [Hb Hh]. simpl.
    rewrite Hb, Hh. by destruct (RateLimiter.senderDone l).
  - unfold wakeStep, deliverStep, limiterSend. rewrite Ho, Hp. destruct (fr_limiter _) as [l|]; [|done].
    destruct (Hl l eq_refl) as [_ Hh]. by rewrite Hh.
  - unfold scanStep. by rewrite Ho.
  - unfold handOverStep. by rewrite Ho.
  - unfold updateStep. by rewrite Hu.
  - unfold obsReportStep. by rewrite Ho.
  - unfold updReportStep. by rewrite Hu.
  - unfold injectStep. destruct (sy_inj s) as [i|]; [|done]. specialize (Hi i eq_refl). destruct i. simpl in Hi. by subst.
  - unfold allocatableStep. by rewrite Hr.
  - unfold devicesStep. by rewrite Hr.
Qed.


(** Left alone, the goroutines come to rest. *)
Lemma settles ex now n s : (work s ≤ n)%nat → sys_ok ex now s →
  ∃ s', rtc internal s s' ∧ (quiet s' ∨ ∃ a p, external a = false ∧ exec a s' = Some (Panic p)).
Proof.
  revert s. induction n as [|n IH]; intros s Hn Hok.
  all: destruct (stuck_or s) as [Hst|(a & r & Ha%goroutines_internal & Hr)];
    [exists s; split; [done|left; by eapply stuck_quiet]|].
  all: destruct r as [s1|e|p]; [|by apply exec_no_err in Hr|exists s; split; [done|right; by eauto]].
  all: pose proof (internal_work s s1 (ex_intro _ a (conj Ha Hr))) as Hw.
  - lia.
  - destruct (IH s1) as (s' & Hs' & Hq); [lia|by eapply exec_ok|].
    exists s'. split; [|done]. eapply rtc_l; [|done]. by exists a.
Qed.

(** Left alone, the parts of the informer's callback are the callback. *)
Lemma refresh_sequential fs nOld nNew s w rm r :
  sy_ref s = RefIdle → RefreshNodeResources (rm_args (ro_resMon (og_obs (sy_obs s)))) = true →
  resUpdated fs nOld nNew (ro_resMon (og_obs (sy_obs s))) (sy_world s) = (w, rm, r) →
  ∃ n, execAll (take (S n) [NodeEvent fs nOld nNew; DoAllocatable; DoDevices]) s =
       Some (match r with Panic p => Panic p | _ => Ok (with_monitor s rm w) end).
Proof.
  destruct s as [fr [[rm0 excl et] lw pc scans] u inj ref w0]. simpl. intros -> Hr Hu. unfold resUpdated in Hu.
  simpl. unfold nodeEventStep. simpl. rewrite Hr. simpl. destruct (negb _); [exists 0%nat; by simplify_eq/=|].
  destruct (_ || _); [|exists 0%nat; by simplify_eq/=]. unfold updateNodeResources in Hu.
  destruct (updateNodeCapacity fs rm0) as [rm1 [u1|e|p]] eqn:Hc; [|exists 0%nat; by simplify_eq/=..].
  destruct (updateNodeAllocatable rm1 w0) as [[w1 rm2] [u2|e|p]] eqn:Ha.
  - exists 2%nat. simpl. unfold allocatableStep. simpl. rewrite Ha. simpl. unfold devicesStep. simpl.
    destruct (updateDevicesCapacity rm2) as [rm3 [u3|e|p]]; by simplify_eq/=.
  - exists 1%nat. simpl. unfold allocatableStep. simpl. rewrite Ha. by simplify_eq/=.
  - exists 1%nat. simpl. unfold allocatableStep. simpl. rewrite Ha. by simplify_eq/=.
Qed.

(** Left alone, the actions of the observer and of the updater are the bodies
    of their loops. *)
Lemma observe_sequential s ev elapsed t infos chan st' :
  og_pc (sy_obs s) = ObsBusy ev →
  observe (Build_ObserverState (og_obs (sy_obs s)) (og_lastWakeup (sy_obs s)) (sy_world s) infos chan) ev elapsed t =
    (st', Ok ()) →
  ∃ s', exec (DoScan elapsed t) s = Some (Ok s') ∧ og_obs (sy_obs s') = obs st' ∧
    og_lastWakeup (sy_obs s') = obs_lastWakeup st' ∧
    match og_pc (sy_obs s') with
    | ObsSendingInfo info el => el = elapsed ∧ obs_infos st' = infos ++ [info] ∧
        obs_world st' = recordScan info el (sy_world s')
    | _ => obs_infos st' = infos ∧ obs_world st' = sy_world s'
    end.
Proof.
  intros Hpc Ho. simpl. unfold scanStep. rewrite Hpc. unfold observe in Ho. simpl in Ho.
  destruct (scanEvent _ _ _ _) as [[w rm] [[info|]|e|p]]; simplify_eq; simpl; eexists; split_and!; try done.
  all: simpl; unfold obsReports; by destruct (sy_inj s).
Qed.

Lemma update_sequential s info elapsed t chan te m chan' :
  ug_pc (sy_upd s) = UpdBusy info →
  Run (ug_upd (sy_upd s)) (w_metrics (sy_world s)) chan [InfoReceived info elapsed t] = (te, m, chan', Ok false) →
  ∃ s', exec (DoUpdate elapsed t) s = Some (Ok s') ∧ ug_upd (sy_upd s') = te ∧ w_metrics (sy_world s') = m.
Proof.
  intros Hpc Hr. simpl in *. unfold updateStep. rewrite Hpc.
  destruct (Update _ _ _) as [[te1 m1] [v|e|p]]; simplify_eq; try done.
  all: destruct (Oneshot _); simplify_eq; by eexists.
Qed.

(** A sequence of actions is a path. *)
Lemma execAll_steps l s s' : execAll l s = Some (Ok s') → rtc step s s'.
Proof.
  revert s. induction l as [|a l IH]; intros s; simpl; [by intros [= ->]|].
  destruct (exec a s) as [[s1|e|p]|] eqn:Ha; [|done..]. intros Hl. eapply rtc_l; [by exists a|by apply IH].
Qed.

(** C4: no deadlock and no livelock.  In every state the exporter can reach,
    the goroutines are all at rest, with every event scanned, every info
    published or failed and every condition injected or failed, exactly when
    none of them can move: nothing waits for a channel nobody serves.  Without
    new events from outside, at most [work s] steps are left, and the
    goroutines come to rest, or the process panics. *)
Theorem system_progress (ex : Exporter C K A) w now lastWakeup s
    (Hs : rtc step (newSystem ex w now lastWakeup) s) :
  (quiet s ↔ ∀ a, external a = false → exec a s = None) ∧
  (∀ n s', nsteps internal n s s' → (n ≤ work s)%nat) ∧
  ∃ s', rtc internal s s' ∧ (quiet s' ∨ ∃ a p, external a = false ∧ exec a s' = Some (Panic p)).
Proof.
  apply reachable_ok in Hs as Hok. split_and!.
  - split; [by intros ? ?; apply quiet_stuck|]. intros Hst. eapply stuck_quiet; [done|].
    intros a Ha%goroutines_internal. by apply Hst.
  - intros n s' Hn%internal_bounded. lia.
  - by eapply settles.
Qed.

(** C7: what happened, under every interleaving of the goroutines and of the
    node events.  The events are those of the source, in its order, and the
    observer scanned those the rate limiter let through; every successful
    scan was handed to the updater, in order, with the zones of a scan of the
    monitor that was configured; the object on the server is that of the
    updates that succeeded, one after the other; each scan and each update
    was reported once, in order, with its result.  At rest nothing is left on
    the way. *)
Theorem system_history (ex : Exporter C K A) w now lastWakeup s
    (Hs : rtc step (newSystem ex w now lastWakeup) s) :
  sys_ok ex now s ∧
  (quiet s →
    length (og_scans (sy_obs s)) = length (fr_taken (sy_front s)) ∧
    (ug_updates (sy_upd s)).*1 = omap id (og_scans (sy_obs s)) ∧
    ∀ i, sy_inj s = Some i →
      pc_Status <$> of_type PodresourcesFetched (ig_injected i).*1 = status_of ∘ non_nil <$> og_scans (sy_obs s) ∧
      pc_Status <$> of_type NodeTopologyUpdated (ig_injected i).*1 =
        if Oneshot (te_args (ex_updater ex)) then [] else (λ x, status_of x.2) <$> ug_updates (sy_upd s)).
Proof.
  apply reachable_ok in Hs as Hok. split; [done|]. intros (_ & _ & Ho & Hu & Hi & _).
  destruct Hok as [_ [_ _ _ Ht Hh] _ _ Hc]. unfold handed in Hh. rewrite Ho, Hu in *. simpl in *.
  rewrite !app_nil_r in Hh. split_and!; [lia|done|]. intros i Hinj. rewrite Hinj in Hc.
  destruct (ex_injector ex); [|done]. destruct Hc as [[_ _ _ Hf Hup] _]. unfold received_conds in *.
  rewrite (Hi i Hinj), Ho, Hu in *. simpl in *. rewrite !app_nil_r in *. done.
Qed.
End progress.
