(* ===== verification/SystemMonitor.v ===== *)
(** * The monitor while it is refreshed

    The informer's callback replaces what the monitor knows in three parts,
    and the observer scans between them.  [part_ok] is what holds of the
    monitor after each part, under every interleaving of the goroutines. *)

From S2P Require Import Prelude GoStrings GoTime PodRes Middleware Counters SysInfo Metrics.
From S2P Require Import Events ResourceMonitor MonitorProps MonitorRefresh PodReadiness NRTUpdater UpdaterProps Observer Main System SystemProps.

Section monitor.
Context `{MapOrder} `{PodFingerprintLib} `{QuantityLib}.
Context {C : Type} `{PodResourcesListerClient C} {K : Type} `{PodServer K} {A : Type} `{NRTServer A}.
Implicit Types (s : System (C := C) (K := K) (A := A)) (rm : resourceMonitor C).

(** [monitor_ok], but that new devices are checked in the last part; until
    then the capacity knows no plugin resource. *)
Record part_ok (pc : refPC) rm : Prop := {
  pt_coreMap : coreIDToNodeIDMap rm = MakeCoreIDToNodeIDMap (rm_topo rm);
  pt_dom : ∀ n, is_Some (nodeCapacity rm !! n) ↔ n ∈ node_indices (rm_topo rm);
  pt_alloc : ∃ r, nodeAllocatable rm = alloc_counters rm r;
  pt_devices : pc ≠ RefAllocatable → ∀ n r q, lookup2 (nodeAllocatable rm) n r = Some q →
    isNativeResource r = false → n ∈ node_indices (rm_topo rm);
  pt_caps : ∀ n r, isNativeResource r = false →
    lookup2 (nodeCapacity rm) n r = None ∨
    lookup2 (nodeCapacity rm) n r = lookup2 (nodeAllocatable rm) n r;
  pt_bare : pc ≠ RefIdle → ∀ n r, isNativeResource r = false → lookup2 (nodeCapacity rm) n r = None
}.

Lemma part_ok_monitor pc rm : part_ok pc rm → pc ≠ RefAllocatable → monitor_ok rm.
Proof. intros [Hcore Hdom Halloc Hdev Hcaps _] Hpc. constructor; try done. by apply Hdev. Qed.

Lemma monitor_part_ok rm : monitor_ok rm → part_ok RefIdle rm.
Proof. intros []. by constructor. Qed.

Lemma part_ok_idle pc rm : part_ok pc rm → pc ≠ RefAllocatable → part_ok RefIdle rm.
Proof. intros. by eapply monitor_part_ok, part_ok_monitor. Qed.

(** The kubelet's client is not part of it. *)
Lemma part_ok_cli pc rm c : part_ok pc rm → part_ok pc (set_cli rm c).
Proof. intros []. by constructor. Qed.

(** Each part takes the monitor to the next. *)
Lemma capacity_part fs rm rm' r :
  updateNodeCapacity fs rm = (rm', r) → part_ok RefIdle rm →
  part_ok (match r with Ok _ => RefCapacity | _ => RefIdle end) rm'.
Proof.
  intros Hu%updateNodeCapacity_inv Hok. destruct r as [u|e|p]; [|by subst rm'..].
  destruct Hu as (cap & -> & Hdom & Hbare). destruct Hok as [Hcore _ Halloc Hdev _ _]. constructor; simpl; try done.
  - intros _. by apply Hdev.
  - intros n name Hnat. left. by apply Hbare.
Qed.

Lemma allocatable_part rm w w' rm' r :
  updateNodeAllocatable rm w = (w', rm', r) → part_ok RefCapacity rm →
  part_ok (match r with Ok _ => RefAllocatable | _ => RefIdle end) rm'.
Proof.
  unfold updateNodeAllocatable. intros Hu Hok.
  destruct (cli_GetAllocatableResources _) as [c [resp|e|p]]; simplify_eq;
    [|apply (part_ok_idle RefCapacity); [by apply part_ok_cli|done]..].
  destruct Hok as [Hcore Hdom _ _ _ Hbare]. constructor; simpl; [done|done|by exists resp|done| |].
  - intros n name Hnat. left. by apply Hbare.
  - intros _. by apply Hbare.
Qed.

Lemma devices_part rm rm' u : updateDevicesCapacity rm = (rm', Ok u) → part_ok RefAllocatable rm → part_ok RefIdle rm'.
Proof.
  intros Hu [Hcore Hdom Halloc _ Hcaps Hbare].
  destruct (updateDevicesCapacity_inv _ _ _ Hu eq_refl) as (Hdev & cap & -> & Hdom' & Hl).
  constructor; simpl; [done|by setoid_rewrite Hdom'|done| | |done].
  - intros _ n name q Hq Hnat. apply Hdom. by apply (Hdev n name q).
  - intros n name Hnat. destruct (Hl n name Hnat) as [->| ->]; [by right|]. left. by apply Hbare.
Qed.

(** ** Every interleaving *)

Definition monitor_of s : resourceMonitor C := ro_resMon (og_obs (sy_obs s)).

Lemma refresh_part s s' a :
  exec a s = Some (Ok s') → part_ok (sy_ref s) (monitor_of s) →
  match a with NodeEvent _ _ _ | DoAllocatable | DoDevices => part_ok (sy_ref s') (monitor_of s') | _ => True end.
Proof.
  unfold monitor_of. intros Hs Hok. destruct a; try done; simpl in Hs.
  - unfold nodeEventStep in Hs. destruct (sy_ref s) eqn:Hr; try done. destruct (negb _); [done|].
    destruct (negb _); [injection Hs as <-; by rewrite Hr|]. destruct (_ || _); [|injection Hs as <-; by rewrite Hr].
    destruct (updateNodeCapacity _ _) as [rm r] eqn:Hu. apply capacity_part in Hu; [|done].
    destruct r; by simplify_eq/=.
  - unfold allocatableStep in Hs. destruct (sy_ref s) eqn:Hr; try done.
    destruct (updateNodeAllocatable _ _) as [[w rm] r] eqn:Hu. apply allocatable_part in Hu; [|done].
    destruct r; by simplify_eq/=.
  - unfold devicesStep in Hs. destruct (sy_ref s) eqn:Hr; try done.
    destruct (updateDevicesCapacity _) as [rm [u|e|p]] eqn:Hu; simplify_eq/=.
    + by apply devices_part in Hu.
    + by apply updateDevicesCapacity_no_err in Hu.
Qed.

Lemma exec_part s s' a :
  exec a s = Some (Ok s') → part_ok (sy_ref s) (monitor_of s) → part_ok (sy_ref s') (monitor_of s').
Proof.
  intros Hs Hok. pose proof (refresh_part s s' a Hs Hok) as Hr. apply exec_frame in Hs. unfold monitor_of in *.
  destruct a; try done; frame Hs; try done. by apply part_ok_cli.
Qed.

Lemma reachable_part (ex : Exporter C K A) w now lastWakeup s :
  monitor_ok (ro_resMon (ex_observer ex)) → rtc step (newSystem ex w now lastWakeup) s →
  part_ok (sy_ref s) (monitor_of s).
Proof.
  intros Hok Hs. assert (part_ok RefIdle (monitor_of (newSystem ex w now lastWakeup))) as Hp by by apply monitor_part_ok.
  change RefIdle with (sy_ref (newSystem ex w now lastWakeup)) in Hp.
  induction Hs as [|s1 s2 s3 [a Ha] _ IH]; [done|]. by apply IH, (exec_part s1 s2 a).
Qed.

(** A scan in whatever part reports a plugin resource with its allocatable
    amount as capacity. *)
Lemma part_scan pc rm w excl w' rm' resp i zone ri :
  part_ok pc rm → Scan rm w excl = (w', rm', Ok (resp, None)) →
  sr_Zones resp !! i = Some zone → ri ∈ zone_Resources zone → isNativeResource (ri_Name ri) = false →
  ri_Capacity ri = ri_Allocatable ri.
Proof.
  intros Hok (c & r & _ & _ & _ & Hz)%Scan_Ok Hzone Hri Hnat. rewrite Hz, lookup_scan_zone in Hzone.
  destruct Hzone as [_ ->]. apply elem_of_zone_resources in Hri as (alloc & Hl & _ & Heq).
  destruct (scanResource_values (default ∅ (nodeCapacity rm !! Z.of_nat i)) (used_counters rm (lr_PodResources r))
    (Z.of_nat i) (ri_Name ri) alloc) as (_ & Ha & _ & Hcap & _).
  rewrite <- Heq in Ha, Hcap. rewrite Hcap, Ha.
  assert (lookup2 (nodeAllocatable rm) (Z.of_nat i) (ri_Name ri) = Some alloc) as Halloc.
  { unfold zone_counters in Hl. unfold lookup2. destruct (nodeAllocatable rm !! Z.of_nat i) as [m|]; [done|]. simpl in Hl.
    apply lookup_singleton_Some in Hl as [Hcpu _]. by rewrite <- Hcpu in Hnat. }
  destruct (pt_caps _ _ Hok (Z.of_nat i) (ri_Name ri) Hnat) as [Hc|Hc]; unfold lookup2 in Hc, Halloc;
    destruct (nodeCapacity rm !! Z.of_nat i) as [caps|]; simpl in Hc |- *; rewrite ?Hc, ?Halloc, ?lookup_empty; try lia.
  destruct (alloc =? 0); lia.
Qed.
End monitor.
