(* ===== verification/Pipeline.v ===== *)
(** * Stopping the observer and the updater

    [Stop] of [ResourceObserver] ([pkg/resourcetopologyexporter]) and of
    [NRTUpdater] ([pkg/nrtupdater]) while the exporter runs.  The system with
    stopped goroutines is the running one restricted by a guard: a goroutine
    that has left its [select] takes nothing from its channel any more. *)

From S2P Require Import Prelude GoStrings GoTime PodRes Middleware Counters SysInfo Metrics.
From S2P Require Import Events ResourceMonitor MonitorProps MonitorRefresh PodReadiness NRTUpdater UpdaterProps Observer Main System SystemProps.

(** The calls one goroutine makes, in its order. *)
Inductive haltOp := CallStopObserver | CallStopUpdater.

Section pipeline.
Context `{MapOrder} `{PodFingerprintLib} `{QuantityLib}.
Context {C : Type} `{PodResourcesListerClient C} {K : Type} `{PodServer K} {A : Type} `{NRTServer A}.
Implicit Types s : System (C := C) (K := K) (A := A).

Record Halting := {
  ha_sys : System (C := C) (K := K) (A := A);
  ha_observer : bool;  (** the observer has returned *)
  ha_updater : bool;   (** the updater has returned *)
  ha_ops : list haltOp
}.
Implicit Types h : Halting.

Definition with_sys h s : Halting :=
  {| ha_sys := s; ha_observer := ha_observer h; ha_updater := ha_updater h; ha_ops := ha_ops h |}.

(** Who still receives. *)
Definition receives h (a : action) : bool :=
  match a with
  | Wake => negb (ha_observer h)
  | HandOver _ => negb (ha_updater h)
  | _ => true
  end.

Definition haltExec (a : action) h : option (outcome Halting) :=
  if receives h a then
    match exec a (ha_sys h) with
    | Some (Ok s) => Some (Ok (with_sys h s))
    | Some (Err e) => Some (Err e)
    | Some (Panic p) => Some (Panic p)
    | None => None
    end
  else None.

(** [stopChan] is unbuffered: [Stop] returns when the goroutine, back in its
    [select], reads it and returns. *)
Definition haltOpStep h : option Halting :=
  match ha_ops h with
  | [] => None
  | CallStopObserver :: ops =>
      match og_pc (sy_obs (ha_sys h)), ha_observer h with
      | ObsWaiting, false =>
          Some {| ha_sys := ha_sys h; ha_observer := true; ha_updater := ha_updater h; ha_ops := ops |}
      | _, _ => None
      end
  | CallStopUpdater :: ops =>
      match ug_pc (sy_upd (ha_sys h)), ha_updater h with
      | UpdWaiting, false =>
          Some {| ha_sys := ha_sys h; ha_observer := ha_observer h; ha_updater := true; ha_ops := ops |}
      | _, _ => None
      end
  end.

Definition haltStep h h' : Prop := haltOpStep h = Some h' ∨ ∃ a, haltExec a h = Some (Ok h').
Definition haltInternal h h' : Prop :=
  haltOpStep h = Some h' ∨ ∃ a, external a = false ∧ haltExec a h = Some (Ok h').

(** The running exporter, about to be stopped. *)
Definition halting (ex : Exporter C K A) w now lastWakeup (ops : list haltOp) : Halting :=
  {| ha_sys := newSystem ex w now lastWakeup; ha_observer := false; ha_updater := false; ha_ops := ops |}.

(** Nothing is left to do: no call, no goroutine. *)
Definition at_end h : Prop := haltOpStep h = None ∧ ∀ a, external a = false → haltExec a h = None.

(** A run: actions, and [None] for the next call. *)
Fixpoint haltExecAll (l : list (option action)) h : option (outcome Halting) :=
  match l with
  | [] => Some (Ok h)
  | None :: l => match haltOpStep h with Some h => haltExecAll l h | None => None end
  | Some a :: l => match haltExec a h with Some (Ok h) => haltExecAll l h | r => r end
  end.

Lemma haltExecAll_steps l h h' : haltExecAll l h = Some (Ok h') → rtc haltStep h h'.
Proof.
  revert h. induction l as [|[a|] l IH]; intros h; simpl; [by intros [= ->]|..].
  - destruct (haltExec a h) as [[h1|e|p]|] eqn:Ha; [|done..]. intros Hl.
    eapply rtc_l; [right; by exists a|by apply IH].
  - destruct (haltOpStep h) as [h1|] eqn:Ho; [|done]. intros Hl. eapply rtc_l; [by left|by apply IH].
Qed.

(** ** A restriction of the running exporter *)

Lemma haltExec_exec a h h' : haltExec a h = Some (Ok h') →
  receives h a = true ∧ ∃ s, exec a (ha_sys h) = Some (Ok s) ∧ h' = with_sys h s.
Proof.
  unfold haltExec. destruct (receives h a); [|done]. destruct (exec a (ha_sys h)) as [[s|e|p]|]; [|done..].
  intros [= <-]. split; [done|]. by exists s.
Qed.

Lemma haltOpStep_sys h h' : haltOpStep h = Some h' → ha_sys h' = ha_sys h.
Proof. unfold haltOpStep. intros Hs. by repeat case_match; simplify_eq. Qed.

Lemma haltStep_step h h' : haltStep h h' → rtc step (ha_sys h) (ha_sys h').
Proof.
  intros [->%haltOpStep_sys|[a (_ & s & Hs & ->)%haltExec_exec]]; [done|]. apply rtc_once. by exists a.
Qed.

Lemma haltSteps_steps h h' : rtc haltStep h h' → rtc step (ha_sys h) (ha_sys h').
Proof. induction 1 as [|h1 h2 h3 Hs%haltStep_step _ IH]; [done|]. by etrans. Qed.

Lemma haltInternal_step h h' : haltInternal h h' → haltStep h h'.
Proof. intros [?|(a & _ & ?)]; [by left|right; by exists a]. Qed.

(** ** The order: first the observer *)

(** What the calls left say of who has returned; the goroutines that have are
    where their [select] was. *)
Record halt_ok h : Prop := {
  ho_ops : ∃ n, ha_ops h = drop n [CallStopObserver; CallStopUpdater];
  ho_observer : ha_observer h = bool_decide (length (ha_ops h) ≤ 1)%nat;
  ho_updater : ha_updater h = bool_decide (length (ha_ops h) = 0)%nat;
  ho_obsPC : ha_observer h = true → og_pc (sy_obs (ha_sys h)) = ObsWaiting;
  ho_updPC : ha_updater h = true → ug_pc (sy_upd (ha_sys h)) = UpdWaiting
}.

Lemma halt_ok_new ex w now lastWakeup : halt_ok (halting ex w now lastWakeup [CallStopObserver; CallStopUpdater]).
Proof. split; simpl; [by exists 0%nat|done..]. Qed.

Lemma haltOpStep_ok h h' : haltOpStep h = Some h' → halt_ok h → halt_ok h'.
Proof.
  unfold haltOpStep. intros Hs [[n Hn] Hobs Hupd Ho Hu]. rewrite Hn in *.
  destruct n as [|[|n]]; simpl in Hs; rewrite ?drop_nil in *; [| |done].
  - destruct (og_pc (sy_obs (ha_sys h))) eqn:Hpc, (ha_observer h); simplify_eq.
    split; simpl; [by exists 1%nat|done..].
  - destruct (ug_pc (sy_upd (ha_sys h))) eqn:Hpc, (ha_updater h); simplify_eq.
    split; simpl; [by exists 2%nat|done|done|done|done].
Qed.

(** A goroutine at its [select] is left there by every other action. *)
Lemma exec_obsPC a s s' :
  exec a s = Some (Ok s') → a ≠ Wake → og_pc (sy_obs s) = ObsWaiting → og_pc (sy_obs s') = ObsWaiting.
Proof. intros Hs%exec_frame Hne Hpc. destruct a; try done; frame Hs; simpl; congruence. Qed.

Lemma exec_updPC a s s' :
  exec a s = Some (Ok s') → (∀ t, a ≠ HandOver t) → ug_pc (sy_upd s) = UpdWaiting → ug_pc (sy_upd s') = UpdWaiting.
Proof. intros Hs%exec_frame Hne Hpc. destruct a; try (by destruct (Hne now)); frame Hs; simpl; congruence. Qed.

Lemma haltStep_ok h h' : haltStep h h' → halt_ok h → halt_ok h'.
Proof.
  intros [Hs|[a Ha]] Hok; [by eapply haltOpStep_ok|]. apply haltExec_exec in Ha as (Hr & s & Hs & ->).
  destruct Hok as [Hn Hobs Hupd Ho Hu]. split; simpl; try done.
  - intros Hst. eapply exec_obsPC; [done| |by auto]. intros ->. simpl in Hr. by rewrite Hst in Hr.
  - intros Hst. eapply exec_updPC; [done| |by auto]. intros t ->. simpl in Hr. by rewrite Hst in Hr.
Qed.

Lemma halting_ok ex w now lastWakeup h :
  rtc haltStep (halting ex w now lastWakeup [CallStopObserver; CallStopUpdater]) h → halt_ok h.
Proof.
  intros Hs. pose proof (halt_ok_new ex w now lastWakeup) as Hok. induction Hs as [|h1 h2 h3 Hs _ IH]; [done|].
  by eapply IH, haltStep_ok.
Qed.

(** ** Stopping ends *)

Definition halt_work h : nat := work (ha_sys h) + length (ha_ops h).

Lemma haltOpStep_work h h' : haltOpStep h = Some h' → (halt_work h' < halt_work h)%nat.
Proof.
  unfold haltOpStep, halt_work. intros Hs. destruct (ha_ops h) as [|[] ops]; [done|..].
  - destruct (og_pc _), (ha_observer h); simplify_eq; simpl; lia.
  - destruct (ug_pc _), (ha_updater h); simplify_eq; simpl; lia.
Qed.

Lemma haltInternal_work h h' : haltInternal h h' → (halt_work h' < halt_work h)%nat.
Proof.
  intros [Hs|(a & Hint & (_ & s & Hs & ->)%haltExec_exec)]; [by apply haltOpStep_work|].
  assert (internal (ha_sys h) s) as Hw%internal_work by by exists a. unfold halt_work. simpl. lia.
Qed.

Lemma haltInternal_bounded n h h' : nsteps haltInternal n h h' → (n ≤ halt_work h)%nat.
Proof. induction 1 as [|n h1 h2 h3 Hs _ IH]; [lia|]. apply haltInternal_work in Hs. lia. Qed.

Lemma at_end_exec a h : at_end h → external a = false → receives h a = true → exec a (ha_sys h) = None.
Proof.
  intros [_ Hend] Ha Hr. specialize (Hend a Ha). unfold haltExec in Hend. rewrite Hr in Hend.
  by destruct (exec a (ha_sys h)) as [[]|].
Qed.

Lemma at_end_reports h : at_end h → reports_idle (ha_sys h).
Proof. intros Hend. split_and!; by apply at_end_exec. Qed.

(** At the end the observer has nothing in hand, so both calls have
    returned. *)
Lemma at_end_observer ex now h : sys_ok ex now (ha_sys h) → halt_ok h → at_end h →
  og_pc (sy_obs (ha_sys h)) = ObsWaiting ∧ ug_pc (sy_upd (ha_sys h)) = UpdWaiting.
Proof.
  intros Hok Hh Hend. pose proof (at_end_reports h Hend) as Hrep.
  assert (ug_pc (sy_upd (ha_sys h)) = UpdWaiting) as Hu by (eapply idle_updater; [done..|by apply at_end_exec]).
  split; [|done]. destruct (ha_observer h) eqn:Hobs; [by apply (ho_obsPC h Hh)|].
  destruct (idle_observer ex now _ Hok Hrep) as [?|(info & el & Hpc)]; [by apply at_end_exec|done|].
  destruct (idle_handOver (ha_sys h) 0 info el); [|done..]. apply at_end_exec; [done..|]. simpl.
  rewrite (ho_updater h Hh). rewrite (ho_observer h Hh) in Hobs. apply bool_decide_eq_false in Hobs.
  rewrite bool_decide_eq_false_2; [done|lia].
Qed.

Lemma at_end_ops ex now h : sys_ok ex now (ha_sys h) → halt_ok h → at_end h → ha_ops h = [].
Proof.
  intros Hok Hh Hend. destruct (at_end_observer ex now h Hok Hh Hend) as [Ho Hu]. destruct Hend as [Hop _].
  destruct Hh as [[n Hn] Hobs Hupd _ _]. unfold haltOpStep in Hop. rewrite Ho, Hu, Hn, Hobs, Hupd in *.
  destruct n as [|[|n]]; simpl in Hop; [done|done|]. simpl. by rewrite drop_nil.
Qed.

(** C19: the exporter's pipeline stops without losing a scan.  Let somebody
    call [Stop] on the observer and then on the updater, at any moment of a
    run.  Without new events at most [halt_work] steps are left, and wherever
    they end without a panic both calls have returned, both goroutines have,
    every successful scan was handed over and its update attempted, in order,
    and every condition was injected or its injection failed. *)
Theorem pipeline_stops (ex : Exporter C K A) w now lastWakeup h
    (Hs : rtc haltStep (halting ex w now lastWakeup [CallStopObserver; CallStopUpdater]) h) :
  (∀ n h', nsteps haltInternal n h h' → (n ≤ halt_work h)%nat) ∧
  (∀ h', rtc haltInternal h h' → at_end h' →
     ha_ops h' = [] ∧ ha_observer h' = true ∧ ha_updater h' = true ∧
     (ug_updates (sy_upd (ha_sys h'))).*1 = omap id (og_scans (sy_obs (ha_sys h'))) ∧
     ∀ i, sy_inj (ha_sys h') = Some i → ig_pc i = InjWaiting).
Proof.
  split; [by intros n h' ?%haltInternal_bounded|]. intros h' Hh' Hend.
  assert (rtc haltStep (halting ex w now lastWakeup [CallStopObserver; CallStopUpdater]) h') as Hs'.
  { etrans; [done|]. clear -Hh'. induction Hh' as [|x y z Hxy%haltInternal_step _ IH]; [done|]. by eapply rtc_l. }
  pose proof (halting_ok _ _ _ _ _ Hs') as Hh. apply haltSteps_steps, reachable_ok in Hs' as Hok.
  pose proof (at_end_ops _ _ _ Hok Hh Hend) as Hops. destruct (at_end_observer _ _ _ Hok Hh Hend) as [Ho Hu].
  split_and!; [done|by rewrite (ho_observer h' Hh), Hops|by rewrite (ho_updater h' Hh), Hops| |].
  - destruct (so_obs _ _ _ Hok) as [_ _ _ _ Hhanded]. rewrite Hhanded. unfold handed. rewrite Ho, Hu. simpl.
    by rewrite !app_nil_r.
  - by apply (idle_injector (ha_sys h')), at_end_reports.
Qed.

(** ** The other order *)

Lemma exec_sending a s s' info elapsed :
  exec a s = Some (Ok s') → (∀ t, a ≠ HandOver t) → og_pc (sy_obs s) = ObsSendingInfo info elapsed →
  og_pc (sy_obs s') = ObsSendingInfo info elapsed.
Proof. intros Hs%exec_frame Hne Hpc. destruct a; try (by destruct (Hne now)); frame Hs; simpl; congruence. Qed.

(** Once the updater has returned, an observer with an info in hand never gets
    rid of it, and its [Stop] never returns. *)
Lemma updater_first_blocks h h' info elapsed :
  ha_updater h = true → ha_ops h = [CallStopObserver] → og_pc (sy_obs (ha_sys h)) = ObsSendingInfo info elapsed →
  rtc haltStep h h' → ha_ops h' = [CallStopObserver].
Proof.
  intros Hupd Hops Hpc Hs. induction Hs as [|h1 h2 h3 Hs _ IH]; [done|].
  assert (ha_updater h2 = true ∧ ha_ops h2 = [CallStopObserver] ∧
    og_pc (sy_obs (ha_sys h2)) = ObsSendingInfo info elapsed) as (? & ? & ?); [|by apply IH].
  destruct Hs as [Hs|[a (Hr & s & Ha & ->)%haltExec_exec]].
  - unfold haltOpStep in Hs. by rewrite Hops, Hpc in Hs.
  - simpl. split_and!; [done..|]. eapply exec_sending; [done| |done]. intros t ->. simpl in Hr. by rewrite Hupd in Hr.
Qed.
End pipeline.
