(* ===== verification/SystemMain.v ===== *)
(** * The running program, from its command line to the cluster

    The theorems of the running exporter for the program [main] starts: what
    the API server holds ([running_end_to_end]), what the pod says of it
    ([readiness_truthful]) and what a scan finds while the monitor is refreshed
    ([scan_during_refresh]), under every interleaving of the goroutines. *)

From S2P Require Import Prelude GoStrings GoTime PodRes Middleware Counters SysInfo Metrics MetricsServer.
From S2P Require Import Events ResourceMonitor MonitorProps MonitorRefresh PodReadiness NRTUpdater UpdaterProps Observer.
From S2P Require Import GoFlag ConfigArgs ConfigProps Config ConfigLoad ConfigTyped PodResClient Main MainProps.
From S2P Require Import System SystemProps SystemMonitor Pipeline.

Section running.
Context `{MapOrder} `{GoPlatformLaws} `{PodFingerprintLib} `{ConfigFS} `{YAMLLib} `{KlogLib}.
Context `{QuantityLib} `{CPUSetLib} `{TLSFlagLib} `{URLLib} `{FakeFS} `{Fsnotify} {S : Type} `{NotifyFS S}.
Context {C : Type} `{PodResourcesListerClient C} {K : Type} `{PodServer K} {A : Type} `{NRTServer A} `{KubeClients K A}.
Context (host : Host) (mc : Machine) (freshSet : string → outcome unit).
Context (DialContext : string → Z → Z → outcome C) (writeFile : string → string → option error).
Implicit Types (pg : Program (S := S) (C := C) (K := K) (A := A))
  (s : System (C := Stack.Client (C + FakeClient)) (K := K) (A := A)).

(** What the components are made from. *)
Lemma main_setup klog args (fs : S) w out pg :
  main host mc freshSet DialContext writeFile klog args fs w = (out, Running pg) →
  ∃ p klog' topo tm, LoadArgs host freshSet klog args = Done (p, klog', Ok ()) ∧
    mc_topology mc (SysfsRoot (pa_Resourcemonitor p)) = Ok topo ∧ tmSettings mc p = Ok tm ∧
    rm_topo (ro_resMon (ex_observer (pg_exporter pg))) = topo ∧
    ro_resourceExclude (ex_observer (pg_exporter pg)) = args_ResourceExclude (pa_Resourcemonitor p) ∧
    te_args (ex_updater (pg_exporter pg)) = pa_NRTupdater p ∧
    te_tmConfig (ex_updater (pg_exporter pg)) = tm ∧
    updater_ok (ex_updater (pg_exporter pg)) ∧ int64_ok (PatchResync (pa_NRTupdater p)) ∧
    (∀ ci, ex_injector (pg_exporter pg) = Some ci → coherent ci).
Proof.
  intros (p & klog' & Hload & _ & _ & Hstart)%main_inv.
  apply start_inv in Hstart as [Hmon [Hex _] Hupd _ Hinj _].
  destruct Hmon as (cli & cleanup & cli' & wrapped & w0 & _ & _ & _ & Hmon).
  apply NewResourceMonitor_topo in Hmon as (topo & Htopo & Hrm).
  destruct Hupd as (nrtcli & tm & ng & _ & Htm & _ & (Hok & Hargs & Htmc)%NewNRTUpdater_ok).
  pose proof (LoadArgs_ok _ _ _ _ _ _ _ Hload) as [Htyped _].
  assert (int64_ok (PatchResync (pa_NRTupdater p))) as Hres.
  { unfold typed, ints in Htyped. rewrite !Forall_cons in Htyped. tauto. }
  exists p, klog', topo, tm. split_and!; try done. intros ci Hci.
  destruct (rte_PodReadinessEnable _); [|congruence]. destruct Hinj as (cs & ci' & _ & Hnew & Hci').
  assert (ci = ci') as -> by congruence. unfold NewConditionInjector in Hnew.
  destruct (_ !! _); [|done]. destruct (_ !! _); [|done]. injection Hnew as <-.
  intros t c Hl. simpl in Hl. by rewrite lookup_empty in Hl.
Qed.

(** The object of the last update, when it succeeded. *)
Lemma last_update (ex : Exporter (Stack.Client (C + FakeClient)) K A) now s info :
  sys_ok ex now s → NoPublish (te_args (ex_updater ex)) = false →
  int64_ok (PatchResync (te_args (ex_updater ex))) → updater_ok (ex_updater ex) →
  last (ug_updates (sy_upd s)) = Some (info, true) →
  info_of_scan (ro_resMon (ex_observer ex)) (ro_resourceExclude (ex_observer ex)) info ∧
  ∃ nrt old, objects (te_nrtCli (ug_upd (sy_upd s))) !! Hostname (te_args (ex_updater ex)) = Some nrt ∧
    same_content nrt (publish (ex_updater ex) info old).
Proof.
  intros [_ [_ _ Hinfos _ Hhanded] Hupd Hargs _] Hpub Hres Hok [updates Hl]%last_Some.
  destruct (Hupd Hpub Hres Hok) as [_ _ Hcur]. rewrite Hl, updates_snoc in Hcur. cbv zeta in Hcur.
  rewrite Hhanded in Hinfos. unfold handed in Hinfos. rewrite Hl, fmap_app in Hinfos. split.
  - rewrite !Forall_app in Hinfos. destruct Hinfos as [[[_ Hinfo] _] _]. by apply Forall_inv in Hinfo.
  - inversion Hcur as [nrt obj Hsame Hnrt Hobj|]; subst. unfold current in Hnrt. rewrite Hargs in Hnrt. eauto.
Qed.

(** At rest, the last update was that of the last successful scan. *)
Lemma quiet_last (ex : Exporter (Stack.Client (C + FakeClient)) K A) now s :
  sys_ok ex now s → quiet s → last (omap id (og_scans (sy_obs s))) = fst <$> last (ug_updates (sy_upd s)).
Proof.
  intros [_ [_ _ _ _ Hhanded] _ _ _] (_ & _ & Ho & Hu & _). rewrite Hhanded. unfold handed. rewrite Ho, Hu. simpl.
  by rewrite !app_nil_r, fmap_last.
Qed.

(** What the server holds when the last update succeeded. *)
Definition holds_last_scan klog args pg s (info : MonitorInfo) : Prop :=
  ∃ p klog' topo tm nrt, LoadArgs host freshSet klog args = Done (p, klog', Ok ()) ∧
    mc_topology mc (SysfsRoot (pa_Resourcemonitor p)) = Ok topo ∧ tmSettings mc p = Ok tm ∧
    objects (te_nrtCli (ug_upd (sy_upd s))) !! Hostname (pa_NRTupdater p) = Some nrt ∧
    nrt_Zones nrt = mi_Zones info ∧
    info_of_scan (ro_resMon (ex_observer (pg_exporter pg))) (args_ResourceExclude (pa_Resourcemonitor p)) info ∧
    length (nrt_Zones nrt) = length (topo_Nodes topo) ∧
    (∀ i zone, nrt_Zones nrt !! i = Some zone → zone_Name zone = makeZoneName (Z.of_nat i)) ∧
    {| attr_Name := "topologyManagerScope"; attr_Value := tm_Scope tm |} ∈ nrt_Attributes nrt ∧
    {| attr_Name := "topologyManagerPolicy"; attr_Value := tm_Policy tm |} ∈ nrt_Attributes nrt.

Lemma last_update_holds klog args (fs : S) w out pg now lastWakeup s info :
  main host mc freshSet DialContext writeFile klog args fs w = (out, Running pg) →
  rtc step (newSystem (pg_exporter pg) (pg_world pg) now lastWakeup) s →
  NoPublish (te_args (ex_updater (pg_exporter pg))) = false →
  last (ug_updates (sy_upd s)) = Some (info, true) → holds_last_scan klog args pg s info.
Proof.
  intros (p & klog' & topo & tm & Hload & Htopo & Htm & Hrm & Hex & Hargs & Htmc & Hok & Hres & _)%main_setup
    Hs%reachable_ok Hpub Hlast.
  rewrite <- Hargs in Hres. destruct (last_update _ _ _ _ Hs Hpub Hres Hok Hlast) as (Hinfo & nrt & old & Hnrt & Hsame).
  destruct (published_scan _ _ _ _ _ _ Hinfo Hsame) as (? & ? & ? & ? & ?).
  exists p, klog', topo, tm, nrt. rewrite <- Hargs, <- Hex. subst topo tm. by split_and!.
Qed.

(** C1: end to end, under every interleaving.  Let the program run with some
    command line, files, environment and machine; let its goroutines, its
    event source and the node events take any steps, until the goroutines are
    at rest.  If the last update succeeded, it was that of the last
    successful scan, and the server holds, under the configured host name, the
    zones of that scan, made with the configured exclusions: one zone per NUMA
    node of the topology under the configured root of sysfs, named "node-0",
    "node-1", ..., with the Topology Manager's scope and policy in force among
    the attributes. *)
Theorem running_end_to_end klog args (fs : S) w out pg now lastWakeup s info
    (Hmain : main host mc freshSet DialContext writeFile klog args fs w = (out, Running pg))
    (Hpub : NoPublish (te_args (ex_updater (pg_exporter pg))) = false)
    (Hs : rtc step (newSystem (pg_exporter pg) (pg_world pg) now lastWakeup) s) (Hq : quiet s)
    (Hlast : last (ug_updates (sy_upd s)) = Some (info, true)) :
  last (omap id (og_scans (sy_obs s))) = Some info ∧ holds_last_scan klog args pg s info.
Proof.
  split; [|by eapply last_update_holds]. apply reachable_ok in Hs.
  by rewrite (quiet_last _ _ _ Hs Hq), Hlast.
Qed.

Lemma of_type_fst t (l : list (PodCondition * bool)) : of_type t l.*1 = (base.filter (λ x, pc_Type x.1 = t) l).*1.
Proof.
  unfold of_type. induction l as [|[c b] l IH]; [done|].
  rewrite fmap_cons, !filter_cons. simpl. destruct (decide (pc_Type c = t)); [|done]. by rewrite fmap_cons, IH.
Qed.

Lemma equalPodCondition_status a b : equalPodCondition a b = true → pc_Status a = pc_Status b.
Proof. unfold equalPodCondition. rewrite !andb_true_iff, !bool_decide_eq_true. tauto. Qed.

(** What the pod shows of a type, once its last injection succeeded. *)
Lemma shown_last (ex : Exporter (Stack.Client (C + FakeClient)) K A) now s i t c :
  sys_ok ex now s → (∀ ci, ex_injector ex = Some ci → coherent ci) → sy_inj s = Some i →
  last (base.filter (λ x, pc_Type x.1 = t) (ig_injected i)) = Some (c, true) →
  ∃ conds cond, published (ig_inj i) = Some conds ∧ condition_of conds t = Some cond ∧ pc_Status cond = pc_Status c.
Proof.
  intros [_ _ _ _ Hc] Hco Hi Hl. rewrite Hi in Hc. destruct (ex_injector ex) as [ci|]; [|done].
  destruct Hc as [_ Hinj]. destruct (Hinj (Hco ci eq_refl)) as [_ _ Hshows].
  destruct (Hshows _ _ Hl) as (conds & cond & Hp & Hc & He). exists conds, cond.
  apply last_Some_elem_of, list_elem_of_filter in Hl as [Ht _]. simpl in Ht. subst t.
  split_and!; [done..|by apply equalPodCondition_status].
Qed.

(** C3: the pod's readiness tells the truth, under every interleaving.  Let
    the program run with pod readiness and come to rest.  If the last injection
    of a [NodeTopologyUpdated] condition succeeded, the pod shows such a
    condition with the status of the last update: True when it succeeded, and
    then the server holds the zones of the last successful scan, False when it
    failed. *)
Theorem readiness_truthful klog args (fs : S) w out pg now lastWakeup s i c
    (Hmain : main host mc freshSet DialContext writeFile klog args fs w = (out, Running pg))
    (Hpub : NoPublish (te_args (ex_updater (pg_exporter pg))) = false)
    (Honeshot : Oneshot (te_args (ex_updater (pg_exporter pg))) = false)
    (Hs : rtc step (newSystem (pg_exporter pg) (pg_world pg) now lastWakeup) s) (Hq : quiet s)
    (Hinj : sy_inj s = Some i)
    (Hlast : last (base.filter (λ x, pc_Type x.1 = NodeTopologyUpdated) (ig_injected i)) = Some (c, true)) :
  ∃ conds cond info ok, published (ig_inj i) = Some conds ∧
    condition_of conds NodeTopologyUpdated = Some cond ∧ pc_Status cond = status_of ok ∧
    last (ug_updates (sy_upd s)) = Some (info, ok) ∧
    last (omap id (og_scans (sy_obs s))) = Some info ∧
    (ok = true → holds_last_scan klog args pg s info).
Proof.
  destruct (main_setup _ _ _ _ _ _ Hmain) as (_ & _ & _ & _ & _ & _ & _ & _ & _ & _ & _ & _ & _ & Hco).
  pose proof (reachable_ok _ _ _ _ _ Hs) as Hok.
  destruct (shown_last _ _ _ _ _ _ Hok Hco Hinj Hlast) as (conds & cond & Hp & Hc & Hst).
  assert (∃ info, last (ug_updates (sy_upd s)) = Some info ∧ status_of info.2 = pc_Status c) as ([info ok] & Hl & Hstatus).
  { pose proof (so_conds _ _ _ Hok) as Hconds. rewrite Hinj in Hconds. destruct (ex_injector _); [|done].
    destruct Hconds as [[_ _ _ _ Hup] _]. destruct Hq as (_ & _ & Ho & Hu & Hi & _). unfold received_conds in Hup.
    rewrite (Hi i Hinj), Hu, Honeshot, of_type_app, of_type_fst in Hup. simpl in Hup. rewrite !app_nil_r in Hup.
    apply (f_equal last) in Hup. rewrite !fmap_last, Hlast in Hup. simpl in Hup.
    destruct (last (ug_updates (sy_upd s))) as [info|]; [|done]. exists info. by injection Hup as ->. }
  exists conds, cond, info, ok. split_and!; try done.
  - simpl in Hstatus. congruence.
  - by rewrite (quiet_last _ _ _ Hok Hq), Hl.
  - intros ->. by eapply last_update_holds.
Qed.

End running.

(** ** A run of the program *)

#[local] Existing Instances canonical_order amd64 amd64_laws example_pfp ConfigLoad.example_fs example_yaml example_klog.
#[local] Existing Instances example_quantity example_cpuset example_tls example_url example_fake example_json example_kube.

Definition ready_host : Host :=
  {| environ := {["NODE_NAME" := "node0"; "REFERENCE_NAMESPACE" := "rte"; "REFERENCE_POD_NAME" := "rte-x"]};
     Getuid := 1000; os_Hostname := Ok "localhost" |}.

Definition ready_dial (path : string) (timeout size : Z) : outcome MockClient :=
  Ok {| mock_lists := [Ok {| lr_PodResources := [] |}; Ok {| lr_PodResources := example_running |};
                       Ok {| lr_PodResources := [] |}];
        mock_allocs := [Ok example_alloc; Ok example_alloc]; mock_gets := [] |}.

Definition ready_command : list string :=
  ["--oneshot=false"; "--podreadiness=true"; "--add-nrt-owner=false"; "--metrics-mode=disabled";
   "--refresh-node-resources"; "--max-events-per-second=1";
   "--topology-manager-policy=single-numa-node"; "--topology-manager-scope=pod"].

Abbreviation ready_main :=
  (main ready_host example_machine (λ _, Ok ()) ready_dial (λ _ _, None) example_klog_flags
     ready_command example_sizes example_world).

Definition ready_program : Program (S := SizesFS) (C := MockClient) (K := OnePod) (A := MapServer) :=
  ltac:(running constr:(ready_main)).

Lemma ready_main_runs : ready_main = ([], Running ready_program).
Proof. vm_cast_no_check (eq_refl (@nil Output, Running ready_program)). Qed.

Definition ready_node (cpus : Z) : KNode := {| kn_Name := "node0"; kn_Capacity := {["cpu" := cpus]}; kn_Allocatable := ∅ |}.

(** Two events; the node changes during the second scan's hand-over, the
    first condition cannot be written. *)
Definition ready_actions : list action :=
  [Buffer; Take; Wake; DoScan 1000000 10; Source (TimerTick 60000000000); HandOver 11; DoUpdate 1000000 12;
   UpdReport; Buffer; DoInject; Take; ObsReport; Wake; DoScan 1000000 70;
   NodeEvent SysInfo.example_fs (ready_node 4) (ready_node 6); DoInject; DoAllocatable; HandOver 71;
   ObsReport; DoUpdate 1000000 72; DoDevices; DoInject; UpdReport; DoInject].

Abbreviation ready_start := (newSystem (pg_exporter ready_program) (pg_world ready_program) 5 5).

Ltac stopping x :=
  let r := eval vm_compute in x in match r with Some (Ok ?s) => exact s end.

Definition ready_end : System (C := Stack.Client (MockClient + FakeClient)) (K := OnePod) (A := MapServer) :=
  ltac:(stopping constr:(execAll ready_actions ready_start)).

Lemma ready_steps : rtc step ready_start ready_end.
Proof. apply (execAll_steps ready_actions). vm_cast_no_check (eq_refl (Some (Ok ready_end))). Qed.

Lemma ready_quiet : quiet ready_end.
Proof. split_and!; [reflexivity|by intros l [= <-]|reflexivity|reflexivity|by intros i [= <-]|reflexivity]. Qed.

Definition ready_info : MonitorInfo := Eval vm_compute in
  default (example_info false 0) (fst <$> last (ug_updates (sy_upd ready_end))).

Lemma running_end_to_end_witness :
  ready_main = ([], Running ready_program) ∧ length (og_scans (sy_obs ready_end)) = 2%nat ∧
  ∃ p nrt, objects (te_nrtCli (ug_upd (sy_upd ready_end))) !! Hostname (pa_NRTupdater p) = Some nrt ∧
    nrt_Zones nrt = mi_Zones ready_info ∧ length (nrt_Zones nrt) = 2%nat.
Proof.
  split; [exact ready_main_runs|]. split; [reflexivity|].
  destruct (running_end_to_end ready_host example_machine (λ _, Ok ()) ready_dial (λ _ _, None)
      example_klog_flags ready_command example_sizes example_world [] ready_program 5 5 ready_end ready_info
      ready_main_runs eq_refl ready_steps ready_quiet)
    as (_ & p & klog' & topo & tm & nrt & Hload & Htopo & _ & Hnrt & Hz & _ & Hlen & _).
  - reflexivity.
  - exists p, nrt. split; [exact Hnrt|]. split; [exact Hz|].
    rewrite Hlen. simpl in Htopo. case_bool_decide; [|discriminate Htopo]. injection Htopo as <-. reflexivity.
Defined.

Definition ready_injector : InjG OnePod := Eval vm_compute in
  default (Build_InjG example_injector InjWaiting []) (sy_inj ready_end).

Definition ready_cond : PodCondition := Eval vm_compute in
  conditionFor NodeTopologyUpdated ConditionTrue 72.

(** The first update's condition was lost, the second's is shown. *)
Lemma readiness_truthful_witness :
  snd <$> ig_injected ready_injector = [false; true; true; true] ∧
  ∃ conds cond ok, published (ig_inj ready_injector) = Some conds ∧
    condition_of conds NodeTopologyUpdated = Some cond ∧ pc_Status cond = status_of ok.
Proof.
  split; [reflexivity|].
  destruct (readiness_truthful ready_host example_machine (λ _, Ok ()) ready_dial (λ _ _, None)
      example_klog_flags ready_command example_sizes example_world [] ready_program 5 5 ready_end ready_injector
      ready_cond ready_main_runs eq_refl eq_refl ready_steps ready_quiet)
    as (conds & cond & info & ok & Hp & Hc & Hs & _).
  - reflexivity.
  - reflexivity.
  - exists conds, cond, ok. split; [exact Hp|]. split; [exact Hc|exact Hs].
Defined.

(** In the middle of the run. *)
Definition ready_middle : System (C := Stack.Client (MockClient + FakeClient)) (K := OnePod) (A := MapServer) :=
  ltac:(stopping constr:(execAll (take 6 ready_actions) ready_start)).

Lemma ready_middle_steps : rtc step ready_start ready_middle.
Proof. apply (execAll_steps (take 6 ready_actions)). vm_cast_no_check (eq_refl (Some (Ok ready_middle))). Qed.

Lemma system_progress_witness :
  work ready_middle = 15%nat ∧
  (∀ n s', nsteps internal n ready_middle s' → (n ≤ 15)%nat) ∧
  ∃ s', rtc internal ready_middle s' ∧ (quiet s' ∨ ∃ a p, external a = false ∧ exec a s' = Some (Panic p)).
Proof.
  split; [reflexivity|].
  destruct (system_progress (pg_exporter ready_program) (pg_world ready_program) 5 5 ready_middle ready_middle_steps)
    as (_ & Hn & Hs).
  split; [exact Hn|exact Hs].
Defined.

Lemma system_history_witness :
  quiet ready_end ∧
  (ug_updates (sy_upd ready_end)).*1 = omap id (og_scans (sy_obs ready_end)) ∧
  length (ug_updates (sy_upd ready_end)) = 2%nat ∧ snd <$> ug_updates (sy_upd ready_end) = [true; true].
Proof.
  split; [exact ready_quiet|].
  destruct (system_history (pg_exporter ready_program) (pg_world ready_program) 5 5 ready_end ready_steps)
    as (_ & Hq).
  destruct (Hq ready_quiet) as (_ & Hu & _). split; [exact Hu|]. split; reflexivity.
Defined.

(** Between the second and the third part of the refresh. *)
Definition ready_refreshing : System (C := Stack.Client (MockClient + FakeClient)) (K := OnePod) (A := MapServer) :=
  ltac:(stopping constr:(execAll (take 20 ready_actions) ready_start)).

Lemma ready_refreshing_steps : rtc step ready_start ready_refreshing.
Proof. apply (execAll_steps (take 20 ready_actions)). vm_cast_no_check (eq_refl (Some (Ok ready_refreshing))). Qed.


(** ** Stopping the run *)

Abbreviation ready_halting ops := (halting (pg_exporter ready_program) (pg_world ready_program) 5 5 ops).

(** The observer is stopped with a condition on its way and the updater busy;
    an event that comes later is never read. *)
Definition stop_actions : list (option action) :=
  [Some Buffer; Some Take; Some Wake; Some (DoScan 1000000 10); Some (HandOver 11); Some ObsReport; None;
   Some (Source (TimerTick 60000000000)); Some DoInject; Some Buffer; Some (DoUpdate 1000000 12); Some Take;
   Some UpdReport; None; Some DoInject].

Definition ready_stopped : Halting (C := Stack.Client (MockClient + FakeClient)) (K := OnePod) (A := MapServer) :=
  ltac:(stopping constr:(haltExecAll stop_actions (ready_halting [CallStopObserver; CallStopUpdater]))).

Lemma ready_stopped_steps : rtc haltStep (ready_halting [CallStopObserver; CallStopUpdater]) ready_stopped.
Proof. apply (haltExecAll_steps stop_actions). vm_cast_no_check (eq_refl (Some (Ok ready_stopped))). Qed.

Lemma ready_stopped_end : at_end ready_stopped.
Proof. split; [reflexivity|]. intros a Ha. destruct a; try discriminate Ha; reflexivity. Qed.

Lemma pipeline_stops_witness :
  fr_taken (sy_front (ha_sys ready_stopped)) = [startEvent 5] ∧
  (ug_updates (sy_upd (ha_sys ready_stopped))).*1 = omap id (og_scans (sy_obs (ha_sys ready_stopped))) ∧
  length (ug_updates (sy_upd (ha_sys ready_stopped))) = 1%nat.
Proof.
  split; [reflexivity|].
  destruct (pipeline_stops (pg_exporter ready_program) (pg_world ready_program) 5 5 ready_stopped ready_stopped_steps)
    as [_ Hend].
  destruct (Hend ready_stopped (rtc_refl _ _) ready_stopped_end) as (_ & _ & _ & Hu & _).
  split; [exact Hu|reflexivity].
Defined.

(** Stopping the updater first can block the observer's [Stop] for ever. *)
Definition ready_blocked : Halting (C := Stack.Client (MockClient + FakeClient)) (K := OnePod) (A := MapServer) :=
  ltac:(stopping constr:(haltExecAll [Some Buffer; Some Take; Some Wake; Some (DoScan 1000000 10); None]
    (ready_halting [CallStopUpdater; CallStopObserver]))).

Lemma ready_blocked_steps : rtc haltStep (ready_halting [CallStopUpdater; CallStopObserver]) ready_blocked.
Proof.
  apply (haltExecAll_steps [Some Buffer; Some Take; Some Wake; Some (DoScan 1000000 10); None]).
  vm_cast_no_check (eq_refl (Some (Ok ready_blocked))).
Qed.

Lemma updater_first_example h : rtc haltStep ready_blocked h → ha_ops h = [CallStopObserver].
Proof. by eapply updater_first_blocks. Qed.
