(* ===== verification/Shutdown.v ===== *)
(** * Stopping an event source

    [Run], [Stop], [Wait] and [Close] of the two event sources
    ([pkg/notification/notification.go], [pkg/ratelimiter/ratelimiter.go]).
    [Stop] and [Wait] are sequences of channel operations one goroutine
    performs while the goroutines of the source run and somebody reads the
    events, or nobody does. *)

From S2P Require Import Prelude GoStrings GoTime Events ResourceMonitor PodReadiness NRTUpdater Observer Main System SystemProps.

(** ** The operations *)

Inductive stopOp :=
| StopSrc          (** [es.stopChan <- struct{}{}] *)
| AwaitSrc         (** [<-es.doneChan] *)
| StopReceiver | StopSender
| AwaitReceiver | AwaitSender.

#[global] Instance stopOp_eq_dec : EqDecision stopOp.
Proof. solve_decision. Defined.

(** [Stop] and [Wait] of [UnlimitedEventSource]. *)
Definition unlimitedStop : list stopOp := [StopSrc].
Definition unlimitedWait : list stopOp := [AwaitSrc].

(** [stop] and [wait] of [RateLimitedEventSource]. *)
Definition limiterStop : list stopOp := [StopReceiver; StopSender].
Definition limiterWait : list stopOp := [AwaitReceiver; AwaitSender].

(** First the source, then the limiter. *)
Definition Stop (src : EventSource) : list stopOp :=
  match src with
  | Unlimited _ => unlimitedStop
  | RateLimited _ _ _ => unlimitedStop ++ unlimitedWait ++ limiterStop
  end.

Definition Wait (src : EventSource) : list stopOp :=
  match src with
  | Unlimited _ => unlimitedWait
  | RateLimited _ _ _ => limiterWait
  end.

(** ** The state *)

(** [SrcFinishing]: the loop has ended, [doneChan] is unbuffered. *)
Inductive srcPC := SrcRunning | SrcFinishing | SrcFinished.

#[global] Instance srcPC_eq_dec : EqDecision srcPC.
Proof. solve_decision. Defined.

(** The channels of the limiter's goroutines that tell they are done have
    room for one. *)
Record Stopping := {
  st_front : Front;
  st_src : srcPC;
  st_receiverDone : bool;
  st_senderDone : bool;
  st_ops : list stopOp
}.

(** [Run]: the limiter's goroutines and the loop of the source start. *)
Definition StartSource (src : EventSource) (now : Z) (ops : list stopOp) : Stopping :=
  {| st_front := newFront src now; st_src := SrcRunning; st_receiverDone := false; st_senderDone := false;
     st_ops := ops |}.

Definition set_front (st : Stopping) (fr : Front) : Stopping :=
  {| st_front := fr; st_src := st_src st; st_receiverDone := st_receiverDone st;
     st_senderDone := st_senderDone st; st_ops := st_ops st |}.

Definition set_limiter (fr : Front) (l : RateLimiter.t) : Front :=
  {| fr_es := fr_es fr; fr_pending := fr_pending fr; fr_limiter := Some l; fr_inputs := fr_inputs fr;
     fr_produced := fr_produced fr; fr_taken := fr_taken fr |}.

(** The receiver and the sender leave their loops. *)
Definition stopReceiver (l : RateLimiter.t) : option RateLimiter.t :=
  if RateLimiter.receiverDone l then None
  else Some {| RateLimiter.received := RateLimiter.received l; RateLimiter.buffer := RateLimiter.buffer l;
               RateLimiter.holding := RateLimiter.holding l; RateLimiter.sent := RateLimiter.sent l;
               RateLimiter.dropped := RateLimiter.dropped l;
               RateLimiter.receiverDone := true; RateLimiter.senderDone := RateLimiter.senderDone l |}.

(** The sender is not in its [select] while it holds an event. *)
Definition stopSender (l : RateLimiter.t) : option RateLimiter.t :=
  match RateLimiter.senderDone l, RateLimiter.holding l with
  | false, None =>
      Some {| RateLimiter.received := RateLimiter.received l; RateLimiter.buffer := RateLimiter.buffer l;
              RateLimiter.holding := None; RateLimiter.sent := RateLimiter.sent l;
              RateLimiter.dropped := RateLimiter.dropped l;
              RateLimiter.receiverDone := RateLimiter.receiverDone l; RateLimiter.senderDone := true |}
  | _, _ => None
  end.

(** The next operation, when the other end of its channel is ready. *)
Definition opStep (st : Stopping) : option Stopping :=
  let fr := st_front st in
  match st_ops st with
  | [] => None
  | StopSrc :: ops =>
      match st_src st, fr_pending fr with
      | SrcRunning, None =>
          Some {| st_front := fr; st_src := SrcFinishing; st_receiverDone := st_receiverDone st;
                  st_senderDone := st_senderDone st; st_ops := ops |}
      | _, _ => None
      end
  | AwaitSrc :: ops =>
      match st_src st with
      | SrcFinishing =>
          Some {| st_front := fr; st_src := SrcFinished; st_receiverDone := st_receiverDone st;
                  st_senderDone := st_senderDone st; st_ops := ops |}
      | _ => None
      end
  | StopReceiver :: ops =>
      l ← fr_limiter fr;
      l' ← stopReceiver l;
      Some {| st_front := set_limiter fr l'; st_src := st_src st; st_receiverDone := true;
              st_senderDone := st_senderDone st; st_ops := ops |}
  | StopSender :: ops =>
      l ← fr_limiter fr;
      l' ← stopSender l;
      Some {| st_front := set_limiter fr l'; st_src := st_src st; st_receiverDone := st_receiverDone st;
              st_senderDone := true; st_ops := ops |}
  | AwaitReceiver :: ops =>
      if st_receiverDone st
      then Some {| st_front := fr; st_src := st_src st; st_receiverDone := false;
                   st_senderDone := st_senderDone st; st_ops := ops |}
      else None
  | AwaitSender :: ops =>
      if st_senderDone st
      then Some {| st_front := fr; st_src := st_src st; st_receiverDone := st_receiverDone st;
                   st_senderDone := false; st_ops := ops |}
      else None
  end.

Inductive stopAction :=
| SourceInputs (input : SourceInput)
| BufferIt | TakeIt
| ReadIt       (** somebody reads from [Events()] *)
| NextOp.

(** [reader]: whether somebody still reads the events. *)
Definition stopExec (reader : bool) (a : stopAction) (st : Stopping) : option Stopping :=
  match a with
  | SourceInputs input =>
      if decide (st_src st = SrcRunning) then set_front st <$> sourceStep input (st_front st) else None
  | BufferIt => set_front st <$> bufferStep (st_front st)
  | TakeIt => set_front st <$> takeStep (st_front st)
  | ReadIt => if reader then set_front st ∘ snd <$> deliverStep (st_front st) else None
  | NextOp => opStep st
  end.

Definition fromOutside (a : stopAction) : bool := match a with SourceInputs _ => true | _ => false end.

Definition stopStep (reader : bool) (st st' : Stopping) : Prop := ∃ a, stopExec reader a st = Some st'.

(** Without new events. *)
Definition stopInternal (reader : bool) (st st' : Stopping) : Prop :=
  ∃ a, fromOutside a = false ∧ stopExec reader a st = Some st'.

(** A sequence of actions. *)
Fixpoint stopExecAll (reader : bool) (l : list stopAction) (st : Stopping) : option Stopping :=
  match l with
  | [] => Some st
  | a :: l => st' ← stopExec reader a st; stopExecAll reader l st'
  end.

Lemma stopExecAll_steps reader l st st' : stopExecAll reader l st = Some st' → rtc (stopStep reader) st st'.
Proof.
  revert st. induction l as [|a l IH]; intros st; simpl; [by intros [= ->]|].
  destruct (stopExec reader a st) as [st1|] eqn:Ha; [|done]. intros Hl. eapply rtc_l; [by exists a|by apply IH].
Qed.

(** ** The invariant *)

(** How far the goroutines are follows from the operations left. *)
Definition src_at (ops : list stopOp) : srcPC :=
  if bool_decide (StopSrc ∈ ops) then SrcRunning else if bool_decide (AwaitSrc ∈ ops) then SrcFinishing else SrcFinished.

(** The events reach the reader in order, through the limiter if there is one. *)
Definition flow_ok (src : EventSource) (fr : Front) (ops : list stopOp) : Prop :=
  match src, fr_limiter fr with
  | Unlimited _, None => fr_produced fr = fr_taken fr ++ option_list (fr_pending fr)
  | RateLimited _ _ _, Some l =>
      RateLimiter.limiter_ok l ∧ fr_produced fr = RateLimiter.received l ++ option_list (fr_pending fr) ∧
      fr_taken fr = RateLimiter.sent l ∧
      RateLimiter.receiverDone l = bool_decide (StopReceiver ∉ ops) ∧
      RateLimiter.senderDone l = bool_decide (StopSender ∉ ops) ∧
      (RateLimiter.senderDone l = true → RateLimiter.holding l = None)
  | _, _ => False
  end.
Arguments flow_ok : simpl never.

Record stop_ok (src : EventSource) (st : Stopping) : Prop := {
  sp_ops : ∃ n, st_ops st = drop n (Stop src ++ Wait src);
  sp_src : st_src st = src_at (st_ops st);
  sp_pending : st_src st ≠ SrcRunning → fr_pending (st_front st) = None;
  sp_receiver : st_receiverDone st = bool_decide ((StopReceiver ∉ st_ops st) ∧ AwaitReceiver ∈ st_ops st);
  sp_sender : st_senderDone st = bool_decide ((StopSender ∉ st_ops st) ∧ AwaitSender ∈ st_ops st);
  sp_flow : flow_ok src (st_front st) (st_ops st)
}.

Lemma stop_ok_start src now : stop_ok src (StartSource src now (Stop src ++ Wait src)).
Proof.
  destruct src; (split; simpl; [by exists 0%nat|done..|]); [done|].
  unfold flow_ok. simpl. split_and!; [apply RateLimiter.limiter_ok_new|done..].
Qed.

Lemma set_front_ok src st fr :
  stop_ok src st → (st_src st ≠ SrcRunning → fr_pending fr = None) → flow_ok src fr (st_ops st) →
  stop_ok src (set_front st fr).
Proof. intros [] ? ?. by split. Qed.

Lemma sourceStep_flow src input fr fr' ops : sourceStep input fr = Some fr' → flow_ok src fr ops → flow_ok src fr' ops.
Proof.
  unfold sourceStep, flow_ok. destruct (fr_pending fr) eqn:Hp; [done|]. intros Hs Hf.
  assert (∃ ev, fr' = {| fr_es := fr_es fr; fr_pending := ev; fr_limiter := fr_limiter fr;
    fr_inputs := fr_inputs fr ++ [input]; fr_produced := fr_produced fr ++ option_list ev; fr_taken := fr_taken fr |})
    as [ev ->] by (destruct input; simplify_eq; eauto).
  simpl. rewrite app_nil_r in Hf. destruct src, (fr_limiter fr); try done; [by rewrite Hf|].
  destruct Hf as (? & -> & ? & ? & ?). by rewrite app_nil_r.
Qed.

Lemma bufferStep_flow src fr fr' ops : bufferStep fr = Some fr' → flow_ok src fr ops → flow_ok src fr' ops.
Proof.
  unfold bufferStep, flow_ok. intros Hs Hf. destruct (fr_limiter fr) as [l|]; [|done].
  destruct (fr_pending fr) as [ev|]; [|done]. destruct (RateLimiter.receiverDone l) eqn:Hr; [done|]. injection Hs as <-.
  destruct src; [done|]. simpl. destruct Hf as (Hok & -> & Ht & Hrd & Hsd & Hh). rewrite app_nil_r.
  assert (RateLimiter.limiter_ok (RateLimiter.receive l ev)) as Hok'
    by (eapply RateLimiter.step_ok; [by apply RateLimiter.step_receive|done]).
  split; [done|]. unfold RateLimiter.receive. destruct (decide (_ < _)%nat); simpl; rewrite ?Hr; by split_and!.
Qed.

Lemma takeStep_flow src fr fr' ops : takeStep fr = Some fr' → flow_ok src fr ops → flow_ok src fr' ops.
Proof.
  unfold takeStep, flow_ok. intros Hs Hf. destruct (fr_limiter fr) as [l|]; [|done]. simpl in Hs.
  destruct (limiterTake l) as [l'|] eqn:Hl; [|done]. injection Hs as <-. destruct src; [done|]. simpl.
  destruct Hf as (Hok & -> & Ht & Hrd & Hsd & Hh). pose proof (limiterTake_step _ _ Hl) as Hstep.
  split; [by eapply RateLimiter.step_ok|]. unfold limiterTake in Hl.
  destruct (RateLimiter.senderDone l) eqn:Hs, (RateLimiter.holding l), (RateLimiter.buffer l); try done.
  injection Hl as <-. simpl. by split_and!.
Qed.

Lemma deliverStep_flow src fr ev fr' ops : deliverStep fr = Some (ev, fr') → flow_ok src fr ops →
  flow_ok src fr' ops ∧ (fr_pending fr = None → fr_pending fr' = None).
Proof.
  unfold deliverStep, flow_ok. intros Hs Hf. destruct (fr_limiter fr) as [l|].
  - destruct (limiterSend l) as [[ev' l']|] eqn:Hl; [|done]. simplify_eq/=. destruct src; [done|]. split; [|done].
    destruct Hf as (Hok & -> & Ht & Hrd & Hsd & Hh). pose proof (limiterSend_step _ _ _ Hl) as Hstep.
    split; [by eapply RateLimiter.step_ok|]. unfold limiterSend in Hl. destruct (RateLimiter.holding l); [|done].
    injection Hl as <- <-. simpl. by rewrite Ht.
  - destruct (fr_pending fr) as [ev'|] eqn:Hp; [|done]. simplify_eq/=. destruct src; [|done].
    split; [|done]. by rewrite Hf, app_nil_r.
Qed.

Lemma stopReceiver_ok l l' : stopReceiver l = Some l' → RateLimiter.limiter_ok l → RateLimiter.limiter_ok l'.
Proof.
  unfold stopReceiver. destruct (RateLimiter.receiverDone l) eqn:Hr; [done|]. intros [= <-].
  apply RateLimiter.step_ok. by apply RateLimiter.step_stop_receiver.
Qed.

Lemma stopSender_ok l l' : stopSender l = Some l' → RateLimiter.receiverDone l = true →
  RateLimiter.limiter_ok l → RateLimiter.limiter_ok l'.
Proof.
  unfold stopSender. destruct (RateLimiter.senderDone l) eqn:Hs; [done|].
  destruct (RateLimiter.holding l) eqn:Hh; [done|]. intros [= <-] Hr. apply RateLimiter.step_ok.
  pose proof (RateLimiter.step_stop_sender l Hs Hh Hr) as Hstep. by rewrite Hh in Hstep.
Qed.

Lemma opStep_unlimited es st st' : opStep st = Some st' → stop_ok (Unlimited es) st → stop_ok (Unlimited es) st'.
Proof.
  unfold opStep. intros Hs [[n Hn] Hsrc Hpend Hrec Hsend Hflow]. rewrite Hn in *.
  destruct n as [|[|n]]; simpl in Hs; rewrite ?drop_nil in *; [| |done].
  - rewrite Hsrc in Hs. simpl in Hs. destruct (fr_pending (st_front st)) eqn:Hp; [done|]. simplify_eq.
    split; simpl; [by exists 1%nat|done..].
  - rewrite Hsrc in *. simpl in Hs. simplify_eq. split; simpl; [by exists 2%nat|done|auto|done..].
Qed.

(** The limiter changes, the source does not. *)
Lemma set_limiter_flow es k u fr ops l' :
  flow_ok (RateLimited es k u) fr ops → RateLimiter.limiter_ok l' →
  (∀ l, fr_limiter fr = Some l → RateLimiter.received l' = RateLimiter.received l ∧
     RateLimiter.sent l' = RateLimiter.sent l) →
  ∀ ops', RateLimiter.receiverDone l' = bool_decide (StopReceiver ∉ ops') →
  RateLimiter.senderDone l' = bool_decide (StopSender ∉ ops') →
  (RateLimiter.senderDone l' = true → RateLimiter.holding l' = None) →
  flow_ok (RateLimited es k u) (set_limiter fr l') ops'.
Proof.
  unfold flow_ok. simpl. destruct (fr_limiter fr) as [l|]; [|done].
  intros (_ & Hp & Ht & _) Hok' Hl' ops' Hr Hs Hh. destruct (Hl' l eq_refl) as [-> ->]. by split_and!.
Qed.

Lemma opStep_limited es k u st st' : opStep st = Some st' → stop_ok (RateLimited es k u) st → stop_ok (RateLimited es k u) st'.
Proof.
  unfold opStep. intros Hs [[n Hn] Hsrc Hpend Hrec Hsend Hflow]. rewrite Hn in *.
  destruct n as [|[|[|[|[|[|n]]]]]]; simpl in Hs; rewrite ?drop_nil in *; [..|done].
  - rewrite Hsrc in Hs. simpl in Hs. destruct (fr_pending (st_front st)) eqn:Hp; [done|]. simplify_eq.
    split; simpl; [by exists 1%nat|done..].
  - rewrite Hsrc in *. simpl in Hs. simplify_eq. split; simpl; [by exists 2%nat|done|auto|done..].
  - pose proof Hflow as Hf. unfold flow_ok in Hf. destruct (fr_limiter (st_front st)) as [l|] eqn:Hl; [|done]. simpl in Hs.
    destruct (stopReceiver l) as [l'|] eqn:Hsr; [|done]. injection Hs as <-. destruct Hf as (Hok & _ & _ & Hrd & Hsd & Hh).
    pose proof (stopReceiver_ok _ _ Hsr Hok) as Hok'. unfold stopReceiver in Hsr. rewrite Hrd in Hsr. injection Hsr as <-.
    split; simpl; [by exists 3%nat|done|auto|done|done|]. eapply set_limiter_flow; [done|done| |done..].
    intros l0 Hl0. rewrite Hl in Hl0. by simplify_eq.
  - pose proof Hflow as Hf. unfold flow_ok in Hf. destruct (fr_limiter (st_front st)) as [l|] eqn:Hl; [|done]. simpl in Hs.
    destruct (stopSender l) as [l'|] eqn:Hss; [|done]. injection Hs as <-. destruct Hf as (Hok & _ & _ & Hrd & Hsd & Hh).
    pose proof (stopSender_ok _ _ Hss Hrd Hok) as Hok'. unfold stopSender in Hss. rewrite Hsd in Hss. simpl in Hss.
    destruct (RateLimiter.holding l); [done|]. injection Hss as <-.
    split; simpl; [by exists 4%nat|done|auto|done|done|]. eapply set_limiter_flow; [done|done| |done..].
    intros l0 Hl0. rewrite Hl in Hl0. by simplify_eq.
  - rewrite Hrec in Hs. simpl in Hs. simplify_eq. split; simpl; [by exists 5%nat|done..].
  - rewrite Hsend in Hs. simpl in Hs. simplify_eq. split; simpl; [by exists 6%nat|done..].
Qed.

Lemma stopExec_ok reader src a st st' : stopExec reader a st = Some st' → stop_ok src st → stop_ok src st'.
Proof.
  intros Hs Hok. pose proof Hok as [_ _ Hpend _ _ Hflow]. destruct a; simpl in Hs.
  - case_decide as Hsrc; [|done]. apply fmap_Some in Hs as (fr & Hfr & ->).
    apply set_front_ok; [done|done|by eapply sourceStep_flow].
  - apply fmap_Some in Hs as (fr & Hfr & ->). apply set_front_ok; [done| |by eapply bufferStep_flow].
    unfold bufferStep in Hfr. by repeat case_match; simplify_eq.
  - apply fmap_Some in Hs as (fr & Hfr & ->). apply set_front_ok; [done| |by eapply takeStep_flow].
    unfold takeStep in Hfr. destruct (fr_limiter _) as [l|]; [|done]. simpl in Hfr.
    destruct (limiterTake l); [|done]. by simplify_eq/=.
  - destruct reader; [|done]. apply fmap_Some in Hs as ([ev fr] & Hfr & ->).
    apply (deliverStep_flow src _ _ _ (st_ops st)) in Hfr as [Hf Hp]; [|done].
    apply set_front_ok; [done|by auto|done].
  - destruct src; [by eapply opStep_unlimited|by eapply opStep_limited].
Qed.

Lemma stopping_ok reader src now st :
  rtc (stopStep reader) (StartSource src now (Stop src ++ Wait src)) st → stop_ok src st.
Proof.
  intros Hs. pose proof (stop_ok_start src now) as Hok. induction Hs as [|st1 st2 st3 [a Ha] _ IH]; [done|].
  by apply IH, (stopExec_ok reader src a st1).
Qed.

(** ** Stopping ends *)

Definition stop_work (st : Stopping) : nat := front_work (st_front st) + length (st_ops st).

Lemma opStep_work st st' : opStep st = Some st' → (stop_work st' < stop_work st)%nat.
Proof.
  unfold opStep, stop_work, front_work. intros Hs. destruct (st_ops st) as [|op ops]; [done|]. simpl.
  destruct op.
  - destruct (st_src st), (fr_pending (st_front st)) eqn:Hp; simplify_eq; simpl. rewrite Hp. simpl. lia.
  - destruct (st_src st); simplify_eq; simpl; lia.
  - destruct (fr_limiter (st_front st)) as [l|] eqn:Hl; [|done]. simpl in Hs. unfold stopReceiver in Hs.
    destruct (RateLimiter.receiverDone l); simplify_eq/=; lia.
  - destruct (fr_limiter (st_front st)) as [l|] eqn:Hl; [|done]. simpl in Hs. unfold stopSender in Hs.
    destruct (RateLimiter.senderDone l), (RateLimiter.holding l) eqn:Hh; simplify_eq/=; lia.
  - destruct (st_receiverDone st); simplify_eq; simpl; lia.
  - destruct (st_senderDone st); simplify_eq; simpl; lia.
Qed.

Lemma stopInternal_work reader st st' : stopInternal reader st st' → (stop_work st' < stop_work st)%nat.
Proof.
  intros (a & Hint & Hs). destruct a; simpl in Hs, Hint; [done|..|by apply opStep_work].
  - apply fmap_Some in Hs as (fr & Hfr%bufferStep_work & ->). unfold stop_work. simpl. lia.
  - apply fmap_Some in Hs as (fr & Hfr%takeStep_work & ->). unfold stop_work. simpl. lia.
  - destruct reader; [|done]. apply fmap_Some in Hs as ([ev fr] & Hfr%deliverStep_work & ->).
    unfold stop_work. simpl. lia.
Qed.

Lemma stopInternal_bounded reader n st st' : nsteps (stopInternal reader) n st st' → (n ≤ stop_work st)%nat.
Proof. induction 1 as [|n st1 st2 st3 Hs _ IH]; [lia|]. apply stopInternal_work in Hs. lia. Qed.

(** Everybody has returned; of the events that were made, the reader got all
    but those the limiter dropped and at most a full buffer. *)
Record stopped (st : Stopping) : Prop := {
  sd_ops : st_ops st = [];
  sd_src : st_src st = SrcFinished;
  sd_pending : fr_pending (st_front st) = None;
  sd_events : match fr_limiter (st_front st) with
    | None => fr_taken (st_front st) = fr_produced (st_front st)
    | Some l => RateLimiter.receiverDone l = true ∧ RateLimiter.senderDone l = true ∧ RateLimiter.holding l = None ∧
        fr_taken (st_front st) `sublist_of` fr_produced (st_front st) ∧
        (length (fr_produced (st_front st)) ≤
         length (fr_taken (st_front st)) + length (RateLimiter.dropped l) + RateLimiter.bufferSize)%nat
    end
}.

Lemma ops_nil_stopped src st : stop_ok src st → st_ops st = [] → stopped st.
Proof.
  intros [_ Hsrc Hpend _ _ Hflow] Hops. rewrite Hops in *. assert (fr_pending (st_front st) = None) as Hp.
  { apply Hpend. by rewrite Hsrc. }
  split; [done..|]. unfold flow_ok in Hflow. rewrite Hp in Hflow. simpl in Hflow. rewrite app_nil_r in Hflow.
  destruct src, (fr_limiter (st_front st)) as [l|]; try done. rewrite app_nil_r in Hflow.
  destruct Hflow as ([Hb Ho Hc _] & -> & -> & Hr & Hsd & Hh). specialize (Hh Hsd). unfold RateLimiter.kept in Ho, Hc.
  rewrite Hh in Ho, Hc. simpl in Ho, Hc. rewrite !length_app in Hc. split_and!; [done..| |lia].
  etrans; [|done]. by apply sublist_inserts_r.
Qed.

(** With a reader, whoever stops or waits is never left waiting. *)
Lemma stop_idle src st : stop_ok src st → (∀ st', ¬ stopInternal true st st') → st_ops st = [].
Proof.
  intros [[n Hn] Hsrc Hpend Hrec Hsend Hflow] Hidle.
  assert (∀ a, fromOutside a = false → stopExec true a st = None) as Hnone.
  { intros a Ha. apply eq_None_not_Some. intros [st' Hst']. apply (Hidle st'). by exists a. }
  pose proof (Hnone NextOp eq_refl) as Hop. pose proof (Hnone ReadIt eq_refl) as Hread.
  pose proof (Hnone BufferIt eq_refl) as Hbuf. simpl in Hop, Hread, Hbuf. apply fmap_None in Hread, Hbuf.
  unfold opStep in Hop. unfold deliverStep in Hread. unfold bufferStep in Hbuf.
  rewrite Hn, Hsrc, Hrec, Hsend in *. unfold flow_ok in Hflow. destruct src as [es|es k u].
  - destruct n as [|[|n]]; simpl in Hop; [|done|simpl; by rewrite drop_nil].
    destruct (fr_limiter (st_front st)); [done|]. by destruct (fr_pending (st_front st)).
  - destruct (fr_limiter (st_front st)) as [l|]; [|done]. destruct Hflow as (_ & _ & _ & Hrd & Hsd & _).
    unfold limiterSend in Hread. unfold stopReceiver, stopSender in Hop.
    destruct n as [|[|[|[|[|[|n]]]]]]; simpl in Hop; [|done| | |done|done|simpl; by rewrite drop_nil].
    + destruct (fr_pending (st_front st)); [|done]. by rewrite Hrd in Hbuf.
    + by rewrite Hrd in Hop.
    + rewrite Hsd in Hop. by destruct (RateLimiter.holding l).
Qed.

(** C20: an event source stops.  Let somebody call [Stop] and then [Wait] on a
    running source, behind a rate limiter or not, at any moment, while its
    events are being read.  Without new events at most [stop_work] steps are
    left, and wherever they end, [Stop] and [Wait] have returned and every
    goroutine of the source has; of the events made, the reader got all but
    those the limiter dropped and at most a full buffer. *)
Theorem stop_completes src now st
    (Hs : rtc (stopStep true) (StartSource src now (Stop src ++ Wait src)) st) :
  (∀ n st', nsteps (stopInternal true) n st st' → (n ≤ stop_work st)%nat) ∧
  (∀ st', rtc (stopInternal true) st st' → (∀ st'', ¬ stopInternal true st' st'') → stopped st').
Proof.
  split; [by intros n st' ?%stopInternal_bounded|]. intros st' Hst' Hend.
  assert (stop_ok src st') as Hok.
  { apply (stopping_ok true src now). etrans; [done|]. clear -Hst'.
    induction Hst' as [|x y z (a & _ & Ha) _ IH]; [done|]. eapply rtc_l; [by exists a|done]. }
  eapply ops_nil_stopped; [done|]. by eapply stop_idle.
Qed.

(** C34: why it stops: both the order and the reader matter.  When the rate
    limiter is stopped before the source it decorates, or when nobody reads
    the events any more, [Stop] can block for ever. *)
Theorem stop_order_matters es k u now :
  (∃ st, rtc (stopStep true) (StartSource (RateLimited es k u) now (limiterStop ++ unlimitedStop ++ unlimitedWait)) st ∧
     (∀ reader st', ¬ stopStep reader st st') ∧ st_ops st = unlimitedStop ++ unlimitedWait) ∧
  (∃ st, rtc (stopStep false) (StartSource (RateLimited es k u) now (Stop (RateLimited es k u))) st ∧
     (∀ st', ¬ stopStep false st st') ∧ st_ops st = [StopSender]).
Proof.
  split.
  - eexists. split; [by apply (stopExecAll_steps true [NextOp; NextOp])|]. split; [|done].
    intros reader st' [a Ha]. destruct a as [input| | | |]; [by destruct input|done..|by destruct reader|done].
  - eexists. split; [by apply (stopExecAll_steps false [BufferIt; TakeIt; NextOp; NextOp; NextOp])|]. split; [|done].
    intros st' [a Ha]. destruct a as [input| | | |]; done.
Qed.

(** ** A source that is stopped in a burst *)

Definition burst_source : EventSource :=
  RateLimited {| sleepInterval := 60; filters := []; watched := [] |} 1 1.

Definition burst_actions : list stopAction :=
  [BufferIt; TakeIt; SourceInputs (TimerTick 60); BufferIt; SourceInputs (TimerTick 120); ReadIt; BufferIt; NextOp;
   NextOp; TakeIt; NextOp].

Definition burst_stopping : Stopping := Eval vm_compute in
  default (StartSource burst_source 0 []) (stopExecAll true burst_actions
    (StartSource burst_source 0 (Stop burst_source ++ Wait burst_source))).

(** The first event was read, the second is in hand, the third waits. *)
Lemma stop_completes_witness :
  fr_taken (st_front burst_stopping) = [startEvent 0] ∧ st_ops burst_stopping = [StopSender; AwaitReceiver; AwaitSender] ∧
  (∀ st', rtc (stopInternal true) burst_stopping st' → (∀ st'', ¬ stopInternal true st' st'') → stopped st').
Proof.
  split; [reflexivity|]. split; [reflexivity|].
  assert (rtc (stopStep true) (StartSource burst_source 0 (Stop burst_source ++ Wait burst_source)) burst_stopping) as Hs.
  { apply (stopExecAll_steps true burst_actions). reflexivity. }
  destruct (stop_completes burst_source 0 burst_stopping Hs) as [_ Hend]. exact Hend.
Defined.
