(* ===== verification/NRTStress.v ===== *)
(** * The stress tool

    Models [pkg/nrtupdater/fake/fake.go], the generator of made-up zones, and
    [tools/nrtstress/main.go], the program that feeds them to the updater.
    The source of random numbers is an interface. *)

From S2P Require Import Prelude GoStrings GoTime Counters Metrics ResourceMonitor PodReadiness NRTUpdater UpdaterProps Observer GoFlag Main.

(** [math/rand]: a source made from a seed, and its next number below a
    positive bound. *)
Class RandLib := {
  Rand : Type;
  rand_New : Z → Rand;
  rand_next : Z → Rand → Rand * Z
}.

(** What is documented of it. *)
Class RandLaws `{RandLib} := { rand_next_bound : ∀ n rnd, 0 < n → 0 ≤ (rand_next n rnd).2 < n }.

(** ** The generator *)

Section generator.
Context `{RandLib}.

Record Generator := { ge_interval : Z; ge_rnd : Rand }.
Implicit Types ge : Generator.

Definition NewGenerator (interval randSeed : Z) : Generator :=
  {| ge_interval := interval; ge_rnd := rand_New randSeed |}.

(** [ge.rnd.Intn(n)] panics on a bound that is not positive. *)
Definition Intn ge (n : Z) : outcome (Generator * Z) :=
  if n <=? 0 then Panic "invalid argument to Intn"
  else let '(rnd, v) := rand_next n (ge_rnd ge) in Ok ({| ge_interval := ge_interval ge; ge_rnd := rnd |}, v).

(** [count] is not used. *)
Definition MakeResourceInfoDevices ge (count : Z) : outcome (Generator * ResourceInfo) :=
  let! (ge, available) := Intn ge 17 in
  Ok (ge, {| ri_Name := "vendor.com/device"; ri_Capacity := 16; ri_Allocatable := 16;
             ri_Available := available |}).

Definition MakeResourceInfoCPUs ge (capacity allocatable available : Z) : outcome (Generator * ResourceInfo) :=
  let! (ge, available) := Intn ge (available + 1) in
  Ok (ge, {| ri_Name := "cpu"; ri_Capacity := capacity; ri_Allocatable := allocatable;
             ri_Available := available |}).

Definition fakeCosts (near far : string) : list CostInfo :=
  [{| cost_Name := near; cost_Value := 10 |}; {| cost_Name := far; cost_Value := 21 |}].

Definition MakeZones ge : outcome (Generator * list Zone) :=
  let! (ge, cpus0) := MakeResourceInfoCPUs ge 128 126 126 in
  let! (ge, devices0) := MakeResourceInfoDevices ge 16 in
  let! (ge, cpus1) := MakeResourceInfoCPUs ge 128 126 126 in
  let! (ge, devices1) := MakeResourceInfoDevices ge 16 in
  Ok (ge,
    [{| zone_Name := "fake-node-0"; zone_Type := "Node"; zone_Costs := fakeCosts "fake-node-0" "fake-node-1";
        zone_Resources := [cpus0; devices0] |};
     {| zone_Name := "fake-node-1"; zone_Type := "Node"; zone_Costs := fakeCosts "fake-node-1" "fake-node-0";
        zone_Resources := [cpus1; devices1] |}]).

(** One info per tick. *)
Fixpoint generateLoop ge (ticks : nat) : outcome (list MonitorInfo) :=
  match ticks with
  | O => Ok []
  | S ticks =>
      let! (ge, zones) := MakeZones ge in
      let! infos := generateLoop ge ticks in
      Ok ({| mi_Timer := true; mi_Zones := zones; mi_Attributes := []; mi_Annotations := None |} :: infos)
  end.

(** [time.NewTicker] panics on an interval that is not positive. *)
Definition GeneratorRun ge (ticks : nat) : outcome (list MonitorInfo) :=
  if ge_interval ge <=? 0 then Panic "non-positive interval for NewTicker" else generateLoop ge ticks.
End generator.

(** ** The program *)

Record stressArgs := {
  sa_hostname : string;
  sa_tmPolicy : string;
  sa_tmScope : string;
  sa_interval : Z;
  sa_seed : Z;
  sa_dryRun : bool
}.

Definition stressDefaults : stressArgs :=
  {| sa_hostname := "fake-host-0"; sa_tmPolicy := "single-numa-node"; sa_tmScope := "pod";
     sa_interval := 10 * Second; sa_seed := 0; sa_dryRun := false |}.

(** The name of the first flag is misspelt. *)
Definition stressFlags : list (string * Flag stressArgs) :=
  [("hosthame", {| IsBoolFlag := false; Set_ v a := Some (Build_stressArgs v (sa_tmPolicy a) (sa_tmScope a)
      (sa_interval a) (sa_seed a) (sa_dryRun a)) |});
   ("tm-policy", {| IsBoolFlag := false; Set_ v a := Some (Build_stressArgs (sa_hostname a) v (sa_tmScope a)
      (sa_interval a) (sa_seed a) (sa_dryRun a)) |});
   ("tm-scope", {| IsBoolFlag := false; Set_ v a := Some (Build_stressArgs (sa_hostname a) (sa_tmPolicy a) v
      (sa_interval a) (sa_seed a) (sa_dryRun a)) |});
   ("interval", {| IsBoolFlag := false; Set_ v a := d ← ParseDuration v; Some (Build_stressArgs (sa_hostname a)
      (sa_tmPolicy a) (sa_tmScope a) d (sa_seed a) (sa_dryRun a)) |});
   ("random-seed", {| IsBoolFlag := false; Set_ v a := z ← ParseInt0 v; Some (Build_stressArgs (sa_hostname a)
      (sa_tmPolicy a) (sa_tmScope a) (sa_interval a) z (sa_dryRun a)) |});
   ("dry-run", {| IsBoolFlag := true; Set_ v a := b ← ParseBool v; Some (Build_stressArgs (sa_hostname a)
      (sa_tmPolicy a) (sa_tmScope a) (sa_interval a) (sa_seed a) b) |})].

Section stress.
Context `{RandLib} {K A : Type} `{KubeClients K A}.

(** [main] up to [upd.Run]: the generator, whose loop is started beside it,
    and the updater. *)
Definition stress_main (klogFlags : list (string * Flag stressArgs)) (args : list string) (now : Z)
  : run (Generator * NRTUpdater A) :=
  match Parse (stressFlags ++ klogFlags) args stressDefaults with
  | Exit status => Exited status
  | Parsed a _ =>
      let nrtupdaterArgs := {| NoPublish := sa_dryRun a; Oneshot := false; Hostname := sa_hostname a;
                               KubeConfig := ""; PatchMode := false; PatchResync := 0 |} in
      let randSeed := if negb (sa_seed a =? 0) then sa_seed a else now in
      let gen := NewGenerator (sa_interval a) randSeed in
      let tmConf := {| tm_Policy := sa_tmPolicy a; tm_Scope := sa_tmScope a |} in
      match (let! nrtcli := GetTopologyClient "" in
             NewNRTUpdater NodeGetter.DisabledNodeGetter (Some nrtcli) nrtupdaterArgs tmConf) with
      | Ok upd => Done (gen, upd)
      | Err _ => Exited 255
      | Panic p => Crashed p
      end
  end.
End stress.

(** ** What is published *)

Section facts.
Context `{RandLaws}.

Definition sane (ri : ResourceInfo) : Prop :=
  0 ≤ ri_Available ri ≤ ri_Allocatable ri ∧ ri_Allocatable ri ≤ ri_Capacity ri.

Definition sane_zones (zones : list Zone) : Prop :=
  zone_Name <$> zones = ["fake-node-0"; "fake-node-1"] ∧
  Forall (λ z, ri_Name <$> zone_Resources z = ["cpu"; "vendor.com/device"] ∧ Forall sane (zone_Resources z)) zones.

Lemma MakeZones_sane ge : ∃ ge' zones, MakeZones ge = Ok (ge', zones) ∧ sane_zones zones.
Proof.
  assert (∀ ge n, 0 < n → ∃ ge' v, Intn ge n = Ok (ge', v) ∧ 0 ≤ v < n) as HIntn.
  { intros g n Hn. unfold Intn. destruct (Z.leb_spec n 0); [lia|].
    pose proof (rand_next_bound n (ge_rnd g) Hn). destruct (rand_next n (ge_rnd g)) as [rnd v]. eauto. }
  unfold MakeZones, MakeResourceInfoCPUs, MakeResourceInfoDevices.
  destruct (HIntn ge (126 + 1)) as (ge1 & c0 & -> & Hc0); [lia|]. simpl.
  destruct (HIntn ge1 17) as (ge2 & d0 & -> & Hd0); [lia|]. simpl.
  destruct (HIntn ge2 (126 + 1)) as (ge3 & c1 & Hi & Hc1); [lia|]. simpl in Hi. rewrite Hi. simpl.
  destruct (HIntn ge3 17) as (ge4 & d1 & -> & Hd1); [lia|]. simpl.
  eexists _, _. split; [done|]. unfold sane_zones, sane.
  repeat ((split; [done|]) || apply Forall_cons_2 || apply Forall_nil_2); simpl; lia.
Qed.

Lemma generateLoop_sane ge ticks :
  ∃ infos, generateLoop ge ticks = Ok infos ∧ length infos = ticks ∧ Forall (λ i, sane_zones (mi_Zones i)) infos.
Proof.
  revert ge. induction ticks as [|ticks IH]; intros ge; simpl; [by exists []|].
  destruct (MakeZones_sane ge) as (ge' & zones & -> & Hz). simpl.
  destruct (IH ge') as (infos & -> & <- & Hi). simpl. eexists. split; [done|]. simpl. by auto.
Qed.
End facts.

Section published.
Context `{MapOrder} `{RandLaws} {K A : Type} `{KubeClients K A} `{NRTServer A}.

(** C39: the stress tool publishes only sane zones.  Start it with any command
    line but a dry run and let it tick any number of times: an interval
    that is positive generates one info per tick; and after the updater has
    handled them, whichever of its calls the server refused, the object of the
    fake host is as it was, or holds two zones in which every resource has
    [0 <= available <= allocatable <= capacity]. *)
Theorem stress_publishes klogFlags args now gen upd ticks infos times m te' m' b
    (Hmain : stress_main klogFlags args now = Done (gen, upd))
    (Hgen : GeneratorRun gen ticks = Ok infos)
    (Hpub : NoPublish (te_args upd) = false)
    (Hrun : Run upd m None (deliver infos times) = (te', m', None, Ok b)) :
  0 < ge_interval gen ∧ length infos = ticks ∧
  (option_Forall2 same_content (current te') (current upd) ∨
   ∃ nrt, current te' = Some nrt ∧ sane_zones (nrt_Zones nrt)).
Proof.
  unfold GeneratorRun in Hgen. destruct (Z.leb_spec (ge_interval gen) 0); [done|]. split; [done|].
  destruct (generateLoop_sane gen ticks) as (infos' & Hi & Hlen & Hsane). rewrite Hgen in Hi. simplify_eq.
  split; [done|]. assert (updater_ok upd ∧ PatchResync (te_args upd) = 0) as [Hok Hres].
  { unfold stress_main in Hmain. destruct (Parse _ _ _) as [a ?|]; [|done].
    destruct (GetTopologyClient "") as [cli|e|w]; simpl in Hmain; simplify_eq.
    split; [|done]. constructor; simpl; [by intros prev|done|done|lia]. }
  apply Run_spec in Hrun as (_ & _ & sent & _ & Hsub & Hcur & _); [|by rewrite Hres|done..].
  rewrite received_deliver in Hsub. destruct sent as [|info sent _] using rev_ind; [by left|right].
  rewrite foldl_app in Hcur. simpl in Hcur.
  inversion Hcur as [nrt obj (_ & _ & _ & _ & Hz & _) Hnrt Hobj|]; subst. exists nrt. split; [done|].
  rewrite publish_zones in Hz. rewrite Hz. rewrite Forall_forall in Hsane. apply Hsane.
  eapply elem_of_sublist; [|exact Hsub]. set_solver.
Qed.
End published.

(** ** A run of the tool *)

(** A counter, taken below the bound. *)
Definition example_rand : RandLib :=
  {| Rand := Z; rand_New seed := seed; rand_next n rnd := (rnd + 1, rnd `mod` n) |}.

Definition example_rand_laws : @RandLaws example_rand.
Proof. split. intros n rnd Hn. by apply Z.mod_pos_bound. Defined.

#[local] Existing Instances canonical_order example_json example_rand example_rand_laws.

#[local] Instance example_cluster : KubeClients unit MapServer := {|
  restConfig := unit;
  InClusterConfig := Ok ();
  BuildConfigFromFlags _ := Err (Errorf "no such file");
  kubernetes_NewForConfig _ := Ok ();
  topology_NewForConfig _ := Ok example_api |}.

Abbreviation example_stress := (stress_main (K := unit) (A := MapServer) [] ["-random-seed"; "7"; "--interval=1s"] 42).

Definition example_gen : Generator := Eval vm_compute in
  match example_stress with Done (gen, _) => gen | _ => NewGenerator 0 0 end.
Definition example_upd : NRTUpdater MapServer := Eval vm_compute in
  match example_stress with Done (_, upd) => upd | _ => example_updater (example_updater_args true true true) end.
Definition example_infos : list MonitorInfo := Eval vm_compute in
  match GeneratorRun example_gen 2 with Ok infos => infos | _ => [] end.

Abbreviation example_stress_run := (Run example_upd empty_registry None (deliver example_infos (λ _, (0, 0)))).

Definition example_stressed : NRTUpdater MapServer * Registry := Eval vm_compute in example_stress_run.1.1.

Lemma stress_publishes_witness :
  length example_infos = 2%nat ∧
  ∃ nrt, current example_stressed.1 = Some nrt ∧ sane_zones (nrt_Zones nrt).
Proof.
  destruct (stress_publishes [] ["-random-seed"; "7"; "--interval=1s"] 42 example_gen example_upd 2 example_infos
    (λ _, (0, 0)) empty_registry example_stressed.1 example_stressed.2 false) as (_ & Hlen & Hcur);
    [vm_compute; reflexivity|vm_compute; reflexivity|reflexivity|vm_compute; reflexivity|].
  split; [exact Hlen|]. destruct Hcur as [Hsame|Hnrt]; [|exact Hnrt].
  assert (current example_upd = None) as Hnone by (vm_compute; reflexivity).
  assert (current example_stressed.1 ≠ None) as Hsome by (vm_compute; discriminate).
  rewrite Hnone in Hsame. destruct (current example_stressed.1); [inversion Hsame|by destruct Hsome].
Defined.
